(** * The gianfar packet ring engine (drivers/net/gianfar.c)

    A shallow embedding of the buffer-descriptor ring management of the
    gianfar Ethernet driver: the transmit path
    ([gfar_start_xmit], [gfar_tso]), the cleanup paths
    ([gfar_clean_tx_ring], [gfar_clean_rx_ring], [gfar_poll_rx]), the
    buffer recycler ([gfar_new_skb], [gfar_free_skb]), the receive error
    accounting ([count_errors]) and the teardown
    ([gfar_halt], [free_skb_resources], [stop_gfar]).

    The default build is modelled: CONFIG_RX_TX_BUFF_XCHG,
    CONFIG_AS_FASTPATH, CONFIG_GFAR_HW_TCP_RECEIVE_OFFLOAD and
    CONFIG_GIANFAR_L2SRAM are not defined.

    Conventions.
    - Machine integers are [Z]; where the C code can wrap, the wrap is
      written out ([ulong_inc], [u64_inc], [u32_inc]).
    - A pointer into a descriptor ring is the index of the descriptor
      ([bdp - base]); [skip_txbd] is the pointer arithmetic on indices.
    - A C operation with no defined result (a NULL dereference, a read
      outside an array, a division by zero) makes the function return
      [None].
    - Stores to descriptors, barriers and register writes are recorded in
      program order in the [log] of the device state.
    - [recycle_lock] is in [gfar_new_skb_locked], which is [gfar_new_skb]
      statement by statement with the lock and a record of the accesses
      to the recycle context. *)

From stdpp Require Import base option list gmap.
From Stdlib Require Import ZArith Lia.

Open Scope Z_scope.

(** ** What gianfar.h and the kernel headers provide

    gianfar.h is not among the sources.  Its flag values, lengths and
    masks are taken as parameters: every definition below works for any
    choice of them, and [etsec] further down instantiates them for the
    examples. *)
Class gianfar_h := {
  TXBD_READY : Z;
  TXBD_WRAP : Z;
  TXBD_INTERRUPT : Z;
  TXBD_LAST : Z;
  TXBD_CRC : Z;
  TXBD_TOE : Z;
  RXBD_EMPTY : Z;
  RXBD_WRAP : Z;
  RXBD_INTERRUPT : Z;
  RXBD_LAST : Z;
  RXBD_LARGE : Z;
  RXBD_SHORT : Z;
  RXBD_NONOCTET : Z;
  RXBD_CRCERR : Z;
  RXBD_OVERRUN : Z;
  RXBD_TRUNCATED : Z;
  RXBD_ERR : Z;
  GMAC_FCB_LEN : Z;
  RXBUF_ALIGNMENT : Z;
  ETH_FCS_LEN : Z;
  NET_SKB_PAD : Z;
  RSTAT_RXF_ALL_MASK : Z;
  RSTAT_RXF0_MASK : Z;
  RSTAT_CLEAR_RHALT : Z;
  TSTAT_CLEAR_THALT : Z;
  IEVENT_RX_MASK : Z;
  IEVENT_INIT_CLEAR : Z;
  IEVENT_GRSC : Z;
  IEVENT_GTSC : Z;
  IMASK_INIT_CLEAR : Z;
  IMASK_DEFAULT_RX : Z;
  IMASK_RX_DISABLED : Z;
  DMACTRL_GRS : Z;
  DMACTRL_GTS : Z;
  MACCFG1_RX_EN : Z;
  MACCFG1_TX_EN : Z;
  (* width of [unsigned long] on the platform *)
  BITS_PER_LONG : Z
}.

(** The flags a well-formed header gives the descriptors: every status
    flag fits the 16-bit status half-word, the WRAP flag is a flag of its
    own, and the frame control block is shorter than a descriptor can
    express. *)
Record gianfar_h_ok `{gianfar_h} : Prop := {
  txbd_wrap_16 : 0 < TXBD_WRAP < 2 ^ 16;
  txbd_wrap_ready : Z.land TXBD_READY TXBD_WRAP = 0;
  txbd_wrap_last : Z.land (Z.lor TXBD_LAST TXBD_INTERRUPT) TXBD_WRAP = 0;
  txbd_wrap_crc : Z.land (Z.lor TXBD_CRC TXBD_READY) TXBD_WRAP = 0;
  txbd_wrap_toe : Z.land TXBD_TOE TXBD_WRAP = 0;
  rxbd_wrap_16 : 0 < RXBD_WRAP < 2 ^ 16;
  rxbd_wrap_empty : Z.land (Z.lor RXBD_EMPTY RXBD_INTERRUPT) RXBD_WRAP = 0;
  fcb_len_16 : 0 <= GMAC_FCB_LEN < 2 ^ 16
}.

(** *** Wrapping counters *)

Definition u32_inc (x : Z) : Z := (x + 1) mod 2 ^ 32.
Definition u64_inc (x : Z) : Z := (x + 1) mod 2 ^ 64.
Definition ulong_inc `{gianfar_h} (x : Z) : Z := (x + 1) mod 2 ^ BITS_PER_LONG.
Definition ulong_add `{gianfar_h} (x y : Z) : Z := (x + y) mod 2 ^ BITS_PER_LONG.

(** [if (x & FLAG)] *)
Definition tst (x flag : Z) : bool := negb (Z.land x flag =? 0).

(** ** Buffer descriptors

    [struct txbd8] and [struct rxbd8]: a 32-bit [lstatus] whose upper half
    is [status] and whose lower half is [length] (the union of gianfar.h,
    the eTSEC being big-endian), and a buffer pointer. *)
Record bd := mk_bd { lstatus : Z; bufPtr : Z }.

Definition BD_LFLAG (flags : Z) : Z := Z.shiftl flags 16.
Definition BD_LENGTH_MASK : Z := 0xffff.

Definition bd_status (d : bd) : Z := Z.shiftr (lstatus d) 16.
Definition bd_length (d : bd) : Z := Z.land (lstatus d) BD_LENGTH_MASK.

(** [bdp->status = s] stores 16 bits and leaves [length] alone. *)
Definition set_status (d : bd) (s : Z) : bd :=
  mk_bd (Z.lor (Z.shiftl (Z.land s 0xffff) 16) (bd_length d)) (bufPtr d).
Definition set_lstatus (d : bd) (v : Z) : bd := mk_bd v (bufPtr d).
Definition set_bufPtr (d : bd) (v : Z) : bd := mk_bd (lstatus d) v.

(** Arrays indexed by a C integer. *)
Definition at_ {A} (l : list A) (i : Z) : option A :=
  if decide (0 <= i) then l !! Z.to_nat i else None.
Definition upd {A} (l : list A) (i : Z) (x : A) : list A :=
  if decide (0 <= i) then <[Z.to_nat i := x]> l else l.

(** ** Receive error accounting *)

Record net_device_stats := mk_stats {
  tx_errors : Z;
  tx_fifo_errors : Z;
  rx_length_errors : Z;
  rx_frame_errors : Z;
  rx_crc_errors : Z
}.

Record gfar_extra_stats := mk_estats {
  rx_trunc : Z;
  rx_large : Z;
  rx_short : Z;
  rx_nonoctet : Z;
  rx_crcerr : Z;
  rx_overrun : Z;
  rx_skbmissing : Z;
  kernel_dropped : Z
}.

Section count_errors.
Context `{gianfar_h}.

Definition inc_rx_length_errors (s : net_device_stats) : net_device_stats :=
  mk_stats (tx_errors s) (tx_fifo_errors s) (ulong_inc (rx_length_errors s))
           (rx_frame_errors s) (rx_crc_errors s).
Definition inc_rx_frame_errors (s : net_device_stats) : net_device_stats :=
  mk_stats (tx_errors s) (tx_fifo_errors s) (rx_length_errors s)
           (ulong_inc (rx_frame_errors s)) (rx_crc_errors s).
Definition inc_rx_crc_errors (s : net_device_stats) : net_device_stats :=
  mk_stats (tx_errors s) (tx_fifo_errors s) (rx_length_errors s)
           (rx_frame_errors s) (ulong_inc (rx_crc_errors s)).
Definition inc_tx_errors (s : net_device_stats) : net_device_stats :=
  mk_stats (ulong_inc (tx_errors s)) (tx_fifo_errors s) (rx_length_errors s)
           (rx_frame_errors s) (rx_crc_errors s).
Definition inc_tx_fifo_errors (s : net_device_stats) : net_device_stats :=
  mk_stats (tx_errors s) (ulong_inc (tx_fifo_errors s)) (rx_length_errors s)
           (rx_frame_errors s) (rx_crc_errors s).

Definition inc_rx_trunc (e : gfar_extra_stats) : gfar_extra_stats :=
  mk_estats (u64_inc (rx_trunc e)) (rx_large e) (rx_short e) (rx_nonoctet e)
            (rx_crcerr e) (rx_overrun e) (rx_skbmissing e) (kernel_dropped e).
Definition inc_rx_large (e : gfar_extra_stats) : gfar_extra_stats :=
  mk_estats (rx_trunc e) (u64_inc (rx_large e)) (rx_short e) (rx_nonoctet e)
            (rx_crcerr e) (rx_overrun e) (rx_skbmissing e) (kernel_dropped e).
Definition inc_rx_short (e : gfar_extra_stats) : gfar_extra_stats :=
  mk_estats (rx_trunc e) (rx_large e) (u64_inc (rx_short e)) (rx_nonoctet e)
            (rx_crcerr e) (rx_overrun e) (rx_skbmissing e) (kernel_dropped e).
Definition inc_rx_nonoctet (e : gfar_extra_stats) : gfar_extra_stats :=
  mk_estats (rx_trunc e) (rx_large e) (rx_short e) (u64_inc (rx_nonoctet e))
            (rx_crcerr e) (rx_overrun e) (rx_skbmissing e) (kernel_dropped e).
Definition inc_rx_crcerr (e : gfar_extra_stats) : gfar_extra_stats :=
  mk_estats (rx_trunc e) (rx_large e) (rx_short e) (rx_nonoctet e)
            (u64_inc (rx_crcerr e)) (rx_overrun e) (rx_skbmissing e)
            (kernel_dropped e).
Definition inc_rx_overrun (e : gfar_extra_stats) : gfar_extra_stats :=
  mk_estats (rx_trunc e) (rx_large e) (rx_short e) (rx_nonoctet e)
            (rx_crcerr e) (u64_inc (rx_overrun e)) (rx_skbmissing e)
            (kernel_dropped e).
Definition inc_rx_skbmissing (e : gfar_extra_stats) : gfar_extra_stats :=
  mk_estats (rx_trunc e) (rx_large e) (rx_short e) (rx_nonoctet e)
            (rx_crcerr e) (rx_overrun e) (u64_inc (rx_skbmissing e))
            (kernel_dropped e).
Definition inc_kernel_dropped (e : gfar_extra_stats) : gfar_extra_stats :=
  mk_estats (rx_trunc e) (rx_large e) (rx_short e) (rx_nonoctet e)
            (rx_crcerr e) (rx_overrun e) (rx_skbmissing e)
            (u64_inc (kernel_dropped e)).

(** [count_errors(status, dev)], on the two statistics blocks it
    updates. *)
Definition count_errors (status : Z)
    (se : net_device_stats * gfar_extra_stats)
    : net_device_stats * gfar_extra_stats :=
  let '(stats, estats) := se in
  (* If the packet was truncated, none of the other errors matter *)
  if tst status RXBD_TRUNCATED then
    (inc_rx_length_errors stats, inc_rx_trunc estats)
  else
    let '(stats, estats) :=
      if tst status (Z.lor RXBD_LARGE RXBD_SHORT) then
        (inc_rx_length_errors stats,
         if tst status RXBD_LARGE then inc_rx_large estats
         else inc_rx_short estats)
      else (stats, estats) in
    let '(stats, estats) :=
      if tst status RXBD_NONOCTET then
        (inc_rx_frame_errors stats, inc_rx_nonoctet estats)
      else (stats, estats) in
    let '(stats, estats) :=
      if tst status RXBD_CRCERR then
        (inc_rx_crc_errors stats, inc_rx_crcerr estats)
      else (stats, estats) in
    if tst status RXBD_OVERRUN then
      (inc_rx_crc_errors stats, inc_rx_overrun estats)
    else (stats, estats).

End count_errors.

(** ** Socket buffers *)

Inductive ip_summed_t :=
  CHECKSUM_NONE | CHECKSUM_UNNECESSARY | CHECKSUM_COMPLETE | CHECKSUM_PARTIAL.

Global Instance ip_summed_eq_dec : EqDecision ip_summed_t.
Proof. solve_decision. Defined.

(** [skb_frag_t] *)
Record skb_frag_t := mk_frag { frag_page : Z; page_offset : Z; frag_size : Z }.

(** [struct skb_shared_info], the fields the driver reads or writes;
    [nr_frags] is the length of [frags], and the two booleans are the
    bits SKBTX_HW_TSTAMP and SKBTX_IN_PROGRESS of [tx_flags]. *)
Record skb_shared_info := mk_shinfo {
  frags : list skb_frag_t;
  gso_size : Z;
  tx_hw_tstamp : bool;
  tx_in_progress : bool
}.

(** The protocol headers [gfar_tso] reads and rewrites.  The bytes of the
    headers are not modelled beyond these fields (the checksums are left
    out). *)
Record pkt_hdr := mk_hdr {
  mac_len : Z;      (* network_header - mac_header *)
  nh_len : Z;       (* iph->ihl * 4 *)
  th_len : Z;       (* th->doff * 4 *)
  tcp_seq : Z;
  ip_id : Z;
  ip_tot_len : Z
}.

(** The transmit frame control block [struct txfcb], as far as the
    descriptor path depends on it. *)
Record txfcb := mk_fcb { fcb_vlan : bool; vlctl : Z; ptp : bool }.

(** [struct sk_buff].  [head] is the start of the buffer and identifies
    it; [data] is the address of the first byte of the packet. *)
Record sk_buff := mk_skb {
  head : Z;
  data : Z;
  len : Z;
  data_len : Z;
  truesize : Z;
  end_ : Z;                 (* skb_end_pointer(skb) *)
  users : Z;
  cloned : bool;
  ip_summed : ip_summed_t;
  vlan_present : bool;      (* vlan_tx_tag_present(skb) *)
  vlan_tci : Z;
  queue_mapping : Z;
  shinfo : skb_shared_info;
  hdr : pkt_hdr;
  fcb : option txfcb
}.

Definition skb_headlen (s : sk_buff) : Z := len s - data_len s.
Definition skb_headroom (s : sk_buff) : Z := data s - head s.
Definition skb_is_nonlinear (s : sk_buff) : bool := negb (data_len s =? 0).
Definition skb_is_gso (s : sk_buff) : bool := negb (gso_size (shinfo s) =? 0).
Definition nr_frags (s : sk_buff) : Z := Z.of_nat (length (frags (shinfo s))).

Definition skb_with_data (s : sk_buff) (d l : Z) : sk_buff :=
  mk_skb (head s) d l (data_len s) (truesize s) (end_ s) (users s) (cloned s)
         (ip_summed s) (vlan_present s) (vlan_tci s) (queue_mapping s)
         (shinfo s) (hdr s) (fcb s).
Definition skb_with_shinfo (s : sk_buff) (dl : Z) (sh : skb_shared_info)
    : sk_buff :=
  mk_skb (head s) (data s) (len s) dl (truesize s) (end_ s) (users s)
         (cloned s) (ip_summed s) (vlan_present s) (vlan_tci s)
         (queue_mapping s) sh (hdr s) (fcb s).
Definition skb_with_fcb (s : sk_buff) (f : option txfcb) : sk_buff :=
  mk_skb (head s) (data s) (len s) (data_len s) (truesize s) (end_ s)
         (users s) (cloned s) (ip_summed s) (vlan_present s) (vlan_tci s)
         (queue_mapping s) (shinfo s) (hdr s) f.
Definition skb_with_hdr (s : sk_buff) (h : pkt_hdr) : sk_buff :=
  mk_skb (head s) (data s) (len s) (data_len s) (truesize s) (end_ s)
         (users s) (cloned s) (ip_summed s) (vlan_present s) (vlan_tci s)
         (queue_mapping s) (shinfo s) h (fcb s).
Definition skb_with_offload (s : sk_buff) (c : ip_summed_t) (vp : bool)
    (tci : Z) : sk_buff :=
  mk_skb (head s) (data s) (len s) (data_len s) (truesize s) (end_ s)
         (users s) (cloned s) c vp tci (queue_mapping s) (shinfo s) (hdr s)
         (fcb s).

(** [skb_push], [skb_pull], [skb_put], [skb_reserve].  The length that
    [skb_put] and [__skb_put] add is an [unsigned int], as [skb->len] is:
    the sum wraps at [2 ^ 32]. *)
Definition skb_push (s : sk_buff) (n : Z) : sk_buff :=
  skb_with_data s (data s - n) (len s + n).
Definition __skb_pull (s : sk_buff) (n : Z) : sk_buff :=
  skb_with_data s (data s + n) (len s - n).
Definition skb_pull (s : sk_buff) (n : Z) : sk_buff :=
  if n >? len s then s else __skb_pull s n.
Definition skb_put (s : sk_buff) (n : Z) : sk_buff :=
  skb_with_data s (data s) ((len s + n) mod 2 ^ 32).
Definition skb_reserve (s : sk_buff) (n : Z) : sk_buff :=
  skb_with_data s (data s + n) (len s).

(** ** The kernel services the driver calls

    None of them is among the sources; they are parameters of the
    development.  [linux_model] further down gives the instance used in
    the examples. *)
Class linux := {
  (* bool skb_is_recycleable(skb, skb_size) *)
  skb_is_recycleable : sk_buff -> Z -> bool;
  (* void skb_recycle(skb) *)
  skb_recycle : sk_buff -> sk_buff;
  SKB_DATA_ALIGN : Z -> Z;
  sizeof_sk_buff : Z;
  (* bus address of a mapped buffer *)
  dma_map_single : Z -> Z -> Z;
  dma_map_page : Z -> Z -> Z -> Z;
  (* int skb_tcp_ack_recycle(skb): nonzero when the stack kept the skb *)
  skb_tcp_ack_recycle : sk_buff -> bool;
  (* int skb_checksum_help(skb): the return value, and the buffer after
     the call *)
  skb_checksum_help : sk_buff -> Z * sk_buff;
  (* struct sk_buff *skb_realloc_headroom(skb, headroom) *)
  skb_realloc_headroom : sk_buff -> Z -> option sk_buff;
  (* netif_receive_skb(skb) == NET_RX_DROP *)
  netif_receive_skb_drops : sk_buff -> bool
}.

(** ** Descriptor rings and queues *)

(** [struct gfar_priv_tx_q]; [tx_stopped] is the XOFF state of the
    [struct netdev_queue] of the same index ([netif_tx_stop_queue],
    [netif_wake_subqueue]). *)
Record gfar_priv_tx_q := mk_txq {
  tx_bd_base : list bd;
  cur_tx : Z;
  dirty_tx : Z;
  tx_skbuff : list (option sk_buff);
  skb_curtx : Z;
  skb_dirtytx : Z;
  tx_ring_size : Z;
  num_txbdfree : Z;
  tx_qindex : Z;
  tx_bytes : Z;
  tx_packets : Z;
  tx_stopped : bool
}.

(** [struct gfar_priv_rx_q] *)
Record gfar_priv_rx_q := mk_rxq {
  rx_bd_base : list bd;
  cur_rx : Z;
  rx_skbuff : list (option sk_buff);
  skb_currx : Z;
  rx_ring_size : Z;
  rx_qindex : Z;
  rx_packets : Z;
  rx_bytes : Z;
  rx_dropped : Z
}.

(** ** The recycle context

    [struct gfar_recycle_cntxt] and its per-CPU part.  A
    [struct sk_buff_head *] is an address; [skb_queues] maps the address
    of each queue head to the buffers queued on it, first buffer first. *)
Record gfar_recycle_cntxt_percpu := mk_percpu {
  recycle_q : Z;
  free_count : Z;
  alloc_count : Z
}.

Record gfar_recycle_cntxt := mk_recycle {
  local : list gfar_recycle_cntxt_percpu;
  global_recycle_q : option Z;
  recycle_max : Z;
  free_swap_count : Z;
  alloc_swap_count : Z;
  skb_queues : gmap Z (list sk_buff)
}.

(** ** Program-order log *)

Inductive ring_id := TxRing (q : Z) | RxRing (q : Z).

Inductive reg := R_tstat | R_rstat | R_ievent | R_imask | R_dfvlan
               | R_dmactrl | R_maccfg1.

Inductive event :=
| EvBufPtr (r : ring_id) (i : Z) (v : Z)     (* bdp->bufPtr = v *)
| EvLstatus (r : ring_id) (i : Z) (v : Z)    (* bdp->lstatus = v *)
| EvEieio                                    (* eieio() *)
| EvSkbuff (r : ring_id) (i : Z)             (* xx_skbuff[i] = ... *)
| EvRegWrite (r : reg) (v : Z)               (* gfar_write(&regs->r, v) *)
| EvGetPage (p : Z)
| EvPutPage (p : Z).

Global Instance ring_id_eq_dec : EqDecision ring_id.
Proof. solve_decision. Defined.
Global Instance reg_eq_dec : EqDecision reg.
Proof. solve_decision. Defined.
Global Instance event_eq_dec : EqDecision event.
Proof. solve_decision. Defined.

(** ** The device

    [struct gfar_private] with the [struct net_device] it belongs to, and
    the parts of the kernel the driver acts on: the system allocator
    ([allocator] lists the results of the coming [netdev_alloc_skb]
    calls, [None] for a failed one; an exhausted list fails), the buffers
    given back to it ([freed]) and the packets handed to the stack
    ([delivered]). *)
Record gfar_private := mk_priv {
  tx_queue : list gfar_priv_tx_q;
  rx_queue : list gfar_priv_rx_q;
  recycle : gfar_recycle_cntxt;
  rx_buffer_size : Z;
  stats : net_device_stats;
  extra_stats : gfar_extra_stats;
  hwts_tx_en : bool;
  hwts_tx_en_ioctl : bool;
  errata_76 : bool;
  errata_12 : bool;
  uses_fcb : bool;           (* gfar_uses_fcb(priv) *)
  has_timer : bool;          (* device_flags & FSL_GIANFAR_DEV_HAS_TIMER *)
  padding : Z;
  dfvlan : Z;
  allocator : list (option sk_buff);
  freed : list sk_buff;
  delivered : list sk_buff;
  log : list event
}.

Definition with_tx_queue (p : gfar_private) (v : list gfar_priv_tx_q) :=
  mk_priv v (rx_queue p) (recycle p) (rx_buffer_size p) (stats p)
    (extra_stats p) (hwts_tx_en p) (hwts_tx_en_ioctl p) (errata_76 p)
    (errata_12 p) (uses_fcb p) (has_timer p) (padding p) (dfvlan p)
    (allocator p) (freed p) (delivered p) (log p).
Definition with_rx_queue (p : gfar_private) (v : list gfar_priv_rx_q) :=
  mk_priv (tx_queue p) v (recycle p) (rx_buffer_size p) (stats p)
    (extra_stats p) (hwts_tx_en p) (hwts_tx_en_ioctl p) (errata_76 p)
    (errata_12 p) (uses_fcb p) (has_timer p) (padding p) (dfvlan p)
    (allocator p) (freed p) (delivered p) (log p).
Definition with_recycle (p : gfar_private) (v : gfar_recycle_cntxt) :=
  mk_priv (tx_queue p) (rx_queue p) v (rx_buffer_size p) (stats p)
    (extra_stats p) (hwts_tx_en p) (hwts_tx_en_ioctl p) (errata_76 p)
    (errata_12 p) (uses_fcb p) (has_timer p) (padding p) (dfvlan p)
    (allocator p) (freed p) (delivered p) (log p).
Definition with_stats (p : gfar_private) (v : net_device_stats)
    (e : gfar_extra_stats) :=
  mk_priv (tx_queue p) (rx_queue p) (recycle p) (rx_buffer_size p) v e
    (hwts_tx_en p) (hwts_tx_en_ioctl p) (errata_76 p) (errata_12 p)
    (uses_fcb p) (has_timer p) (padding p) (dfvlan p) (allocator p) (freed p)
    (delivered p) (log p).
Definition with_dfvlan (p : gfar_private) (v : Z) :=
  mk_priv (tx_queue p) (rx_queue p) (recycle p) (rx_buffer_size p) (stats p)
    (extra_stats p) (hwts_tx_en p) (hwts_tx_en_ioctl p) (errata_76 p)
    (errata_12 p) (uses_fcb p) (has_timer p) (padding p) v (allocator p)
    (freed p) (delivered p) (log p).
Definition with_allocator (p : gfar_private) (v : list (option sk_buff)) :=
  mk_priv (tx_queue p) (rx_queue p) (recycle p) (rx_buffer_size p) (stats p)
    (extra_stats p) (hwts_tx_en p) (hwts_tx_en_ioctl p) (errata_76 p)
    (errata_12 p) (uses_fcb p) (has_timer p) (padding p) (dfvlan p) v
    (freed p) (delivered p) (log p).
Definition with_freed (p : gfar_private) (v : list sk_buff) :=
  mk_priv (tx_queue p) (rx_queue p) (recycle p) (rx_buffer_size p) (stats p)
    (extra_stats p) (hwts_tx_en p) (hwts_tx_en_ioctl p) (errata_76 p)
    (errata_12 p) (uses_fcb p) (has_timer p) (padding p) (dfvlan p)
    (allocator p) v (delivered p) (log p).
Definition with_delivered (p : gfar_private) (v : list sk_buff) :=
  mk_priv (tx_queue p) (rx_queue p) (recycle p) (rx_buffer_size p) (stats p)
    (extra_stats p) (hwts_tx_en p) (hwts_tx_en_ioctl p) (errata_76 p)
    (errata_12 p) (uses_fcb p) (has_timer p) (padding p) (dfvlan p)
    (allocator p) (freed p) v (log p).
Definition with_log (p : gfar_private) (v : list event) :=
  mk_priv (tx_queue p) (rx_queue p) (recycle p) (rx_buffer_size p) (stats p)
    (extra_stats p) (hwts_tx_en p) (hwts_tx_en_ioctl p) (errata_76 p)
    (errata_12 p) (uses_fcb p) (has_timer p) (padding p) (dfvlan p)
    (allocator p) (freed p) (delivered p) v.

Definition emit (p : gfar_private) (e : list event) : gfar_private :=
  with_log p (log p ++ e).

(** [dev_kfree_skb_any(skb)] *)
Definition dev_kfree_skb_any (p : gfar_private) (s : sk_buff) : gfar_private :=
  with_freed p (freed p ++ [s]).

(** [netdev_alloc_skb(dev, size)] *)
Definition netdev_alloc_skb (p : gfar_private) : option sk_buff * gfar_private :=
  match allocator p with
  | [] => (None, p)
  | r :: rest => (r, with_allocator p rest)
  end.

(** ** The buffer recycler *)

Definition with_local (r : gfar_recycle_cntxt)
    (v : list gfar_recycle_cntxt_percpu) : gfar_recycle_cntxt :=
  mk_recycle v (global_recycle_q r) (recycle_max r) (free_swap_count r)
             (alloc_swap_count r) (skb_queues r).
Definition with_skb_queues (r : gfar_recycle_cntxt)
    (v : gmap Z (list sk_buff)) : gfar_recycle_cntxt :=
  mk_recycle (local r) (global_recycle_q r) (recycle_max r)
             (free_swap_count r) (alloc_swap_count r) v.
(** [recycle_cntxt->global_recycle_q = q], counting a swap on the release
    side ([free_swap_count++]) or on the acquire side
    ([alloc_swap_count++]). *)
Definition swap_global_free (r : gfar_recycle_cntxt) (q : Z)
    : gfar_recycle_cntxt :=
  mk_recycle (local r) (Some q) (recycle_max r) (u32_inc (free_swap_count r))
             (alloc_swap_count r) (skb_queues r).
Definition swap_global_alloc (r : gfar_recycle_cntxt) (q : Z)
    : gfar_recycle_cntxt :=
  mk_recycle (local r) (Some q) (recycle_max r) (free_swap_count r)
             (u32_inc (alloc_swap_count r)) (skb_queues r).

Section recycler.
Context `{gianfar_h} `{linux}.

Definition gfar_align_skb (s : sk_buff) : sk_buff :=
  skb_reserve s (RXBUF_ALIGNMENT - Z.land (data s) (RXBUF_ALIGNMENT - 1)).

Definition gfar_alloc_skb (p : gfar_private) : option sk_buff * gfar_private :=
  match netdev_alloc_skb p with
  | (None, p') => (None, p')
  | (Some skb, p') => (Some (gfar_align_skb skb), p')
  end.

Definition gfar_skb_nonlinear_recycleable (skb : sk_buff) (skb_size : Z)
    : bool :=
  if negb (skb_is_nonlinear skb) then false
  else if negb (truesize skb =?
                SKB_DATA_ALIGN (skb_size + NET_SKB_PAD) + sizeof_sk_buff)
       then false
  else true.

(** The part of [gfar_free_skb] that drops the page fragments of a
    buffer the driver allocated itself. *)
Definition clean_frags (p : gfar_private) (skb : sk_buff)
    : sk_buff * gfar_private :=
  if negb (nr_frags skb =? 0) then
    (skb_with_shinfo skb 0
       (mk_shinfo [] (gso_size (shinfo skb)) (tx_hw_tstamp (shinfo skb))
                  (tx_in_progress (shinfo skb))),
     emit p (map (fun f => EvPutPage (frag_page f)) (frags (shinfo skb))))
  else (skb, p).

(** [gfar_free_skb(skb)] on CPU [cpu] ([get_cpu()]). *)
Definition gfar_free_skb (cpu : Z) (p : gfar_private) (skb : sk_buff)
    : option gfar_private :=
  let skb_size := rx_buffer_size p + RXBUF_ALIGNMENT in
  let recycle_it (p : gfar_private) (skb : sk_buff) : option gfar_private :=
    let skb := gfar_align_skb (skb_recycle skb) in
    let recycle_cntxt := recycle p in
    l ← at_ (local recycle_cntxt) cpu;
    let rq := recycle_q l in
    q ← skb_queues recycle_cntxt !! rq;
    if Z.of_nat (length q) <? recycle_max recycle_cntxt then
      let l' := mk_percpu rq (u32_inc (free_count l)) (alloc_count l) in
      Some (with_recycle p
              (with_skb_queues
                 (with_local recycle_cntxt (upd (local recycle_cntxt) cpu l'))
                 (<[rq := skb :: q]> (skb_queues recycle_cntxt))))
    else
      (* Local per CPU queue is full. Now swap this full recycle queue
         with global device recycle queue if it is empty otherwise
         kfree the skb *)
      match global_recycle_q recycle_cntxt with
      | Some temp_recycle_q =>
          gq ← skb_queues recycle_cntxt !! temp_recycle_q;
          if Z.of_nat (length gq) =? 0 then
            let l' := mk_percpu temp_recycle_q (u32_inc (free_count l))
                                (alloc_count l) in
            let r1 := swap_global_free recycle_cntxt rq in
            Some (with_recycle p
                    (with_skb_queues
                       (with_local r1 (upd (local r1) cpu l'))
                       (<[temp_recycle_q := skb :: gq]> (skb_queues r1))))
          else Some (dev_kfree_skb_any p skb)
      | None => Some (dev_kfree_skb_any p skb)
      end in
  if negb (skb_is_recycleable skb skb_size) then
    if negb (gfar_skb_nonlinear_recycleable skb skb_size) then
      Some (dev_kfree_skb_any p skb)
    else
      let '(skb, p) := clean_frags p skb in
      if negb (skb_is_recycleable skb skb_size) then
        Some (dev_kfree_skb_any p skb)
      else recycle_it p skb
  else recycle_it p skb.

(** [gfar_new_skb(dev)] on CPU [cpu]; the buffer is [None] when the
    function returns NULL. *)
Definition gfar_new_skb (cpu : Z) (p : gfar_private)
    : option (option sk_buff * gfar_private) :=
  let recycle_cntxt := recycle p in
  l ← at_ (local recycle_cntxt) cpu;
  let rq := recycle_q l in
  q ← skb_queues recycle_cntxt !! rq;
  match q with
  | skb :: rest =>
      let l' := mk_percpu rq (free_count l) (u32_inc (alloc_count l)) in
      Some (Some skb,
            with_recycle p
              (with_skb_queues
                 (with_local recycle_cntxt (upd (local recycle_cntxt) cpu l'))
                 (<[rq := rest]> (skb_queues recycle_cntxt))))
  | [] =>
      (* Local per cpu queue is empty. Now swap global recycle
         queue (if it is full) with this empty local queue. *)
      match global_recycle_q recycle_cntxt with
      | Some temp_recycle_q =>
          gq ← skb_queues recycle_cntxt !! temp_recycle_q;
          if negb (Z.of_nat (length gq) =? 0) then
            let l' := mk_percpu temp_recycle_q (free_count l)
                                (u32_inc (alloc_count l)) in
            let r1 := swap_global_alloc recycle_cntxt rq in
            Some (hd_error gq,
                  with_recycle p
                    (with_skb_queues
                       (with_local r1 (upd (local r1) cpu l'))
                       (<[temp_recycle_q := tl gq]> (skb_queues r1))))
          else Some (gfar_alloc_skb p)
      | None => Some (gfar_alloc_skb p)
      end
  end.

End recycler.

(** ** The lock of the recycle context

    [gfar_new_skb] once more, statement by statement, with
    [recycle_cntxt->recycle_lock]: the state carries whether the lock is
    held, and every access to the recycle context is recorded in program
    order, with whether the lock is held when it is made. *)

Inductive recycle_access :=
| AcLocalQ (cpu : Z)           (* recycle_q = local->recycle_q *)
| AcDequeue (q : Z)            (* __skb_dequeue(q) *)
| AcAllocCount (cpu : Z)       (* local->alloc_count++ *)
| AcLock                       (* spin_lock_irqsave(&recycle_lock, flags) *)
| AcUnlock                     (* spin_unlock_irqrestore(&recycle_lock, flags) *)
| AcGlobalQ                    (* recycle_cntxt->global_recycle_q, read *)
| AcGlobalLen (q : Z)          (* skb_queue_len(global_recycle_q) *)
| AcGlobalStore (q : Z)        (* recycle_cntxt->global_recycle_q = q *)
| AcAllocSwapCount             (* recycle_cntxt->alloc_swap_count++ *)
| AcLocalStore (cpu q : Z)     (* local->recycle_q = q *)
| AcAllocSkb.                  (* gfar_alloc_skb(dev) *)

Global Instance recycle_access_eq_dec : EqDecision recycle_access.
Proof. solve_decision. Defined.












(** ** The transmit path *)

Inductive netdev_tx :=
| NETDEV_TX_OK
| NETDEV_TX_BUSY
| NETDEV_TX_ERR (ret : Z).   (* a nonzero error code of the kernel *)

Global Instance netdev_tx_eq_dec : EqDecision netdev_tx.
Proof. solve_decision. Defined.

Definition u32 (x : Z) : Z := x mod 2 ^ 32.

(** [skip_txbd(bdp, stride, base, ring_size)] on descriptor indices:
    [bdp] is [base + i]. *)
Definition skip_txbd (bdp stride ring_size : Z) : Z :=
  let new_bd := bdp + stride in
  if new_bd >=? ring_size then new_bd - ring_size else new_bd.

Definition next_txbd (bdp ring_size : Z) : Z := skip_txbd bdp 1 ring_size.

(** Modelled from the spec: [TX_RING_MOD_MASK] and [RX_RING_MOD_MASK] are
    macros of gianfar.h, which is not among the sources.  The spec has
    ring sizes that are powers of two and [next(index) = (index + 1) mod
    size]; the mask that makes [(i + 1) & mask] that successor is
    [size - 1]. *)
Definition TX_RING_MOD_MASK (size : Z) : Z := size - 1.
Definition RX_RING_MOD_MASK (size : Z) : Z := size - 1.

(** Modelled from the spec: [next_bd] is an inline function of gianfar.h,
    which is not among the sources.  The spec's wrap arithmetic is
    [next(index) = (index + 1) mod size], by wraparound at the last slot;
    it is taken to be the receive twin of [next_txbd]. *)
Definition next_bd (bdp ring_size : Z) : Z :=
  let new_bd := bdp + 1 in
  if new_bd >=? ring_size then new_bd - ring_size else new_bd.

Definition txq_with_bds (q : gfar_priv_tx_q) (v : list bd) : gfar_priv_tx_q :=
  mk_txq v (cur_tx q) (dirty_tx q) (tx_skbuff q) (skb_curtx q) (skb_dirtytx q)
         (tx_ring_size q) (num_txbdfree q) (tx_qindex q) (tx_bytes q)
         (tx_packets q) (tx_stopped q).
Definition txq_with_stopped (q : gfar_priv_tx_q) (v : bool) : gfar_priv_tx_q :=
  mk_txq (tx_bd_base q) (cur_tx q) (dirty_tx q) (tx_skbuff q) (skb_curtx q)
         (skb_dirtytx q) (tx_ring_size q) (num_txbdfree q) (tx_qindex q)
         (tx_bytes q) (tx_packets q) v.
Definition txq_with_counts (q : gfar_priv_tx_q) (b n : Z) : gfar_priv_tx_q :=
  mk_txq (tx_bd_base q) (cur_tx q) (dirty_tx q) (tx_skbuff q) (skb_curtx q)
         (skb_dirtytx q) (tx_ring_size q) (num_txbdfree q) (tx_qindex q)
         b n (tx_stopped q).
(** The producer side: [tx_skbuff], [skb_curtx], [cur_tx], [num_txbdfree]. *)
Definition txq_with_cur (q : gfar_priv_tx_q) (sk : list (option sk_buff))
    (curtx cur free : Z) : gfar_priv_tx_q :=
  mk_txq (tx_bd_base q) cur (dirty_tx q) sk curtx (skb_dirtytx q)
         (tx_ring_size q) free (tx_qindex q) (tx_bytes q) (tx_packets q)
         (tx_stopped q).
(** The consumer side: [tx_skbuff], [skb_dirtytx], [dirty_tx],
    [num_txbdfree]. *)
Definition txq_with_dirty (q : gfar_priv_tx_q) (sk : list (option sk_buff))
    (dirtytx dirty free : Z) : gfar_priv_tx_q :=
  mk_txq (tx_bd_base q) (cur_tx q) dirty sk (skb_curtx q) dirtytx
         (tx_ring_size q) free (tx_qindex q) (tx_bytes q) (tx_packets q)
         (tx_stopped q).

(** One store to a descriptor of a transmit ring, with its log entry;
    [None] outside the ring. *)
Definition tx_store_lstatus (rq : Z) (ql : gfar_priv_tx_q * list event)
    (i v : Z) : option (gfar_priv_tx_q * list event) :=
  let '(q, lg) := ql in
  d ← at_ (tx_bd_base q) i;
  Some (txq_with_bds q (upd (tx_bd_base q) i (set_lstatus d v)),
        lg ++ [EvLstatus (TxRing rq) i v]).
Definition tx_store_bufPtr (rq : Z) (ql : gfar_priv_tx_q * list event)
    (i v : Z) : option (gfar_priv_tx_q * list event) :=
  let '(q, lg) := ql in
  d ← at_ (tx_bd_base q) i;
  Some (txq_with_bds q (upd (tx_bd_base q) i (set_bufPtr d v)),
        lg ++ [EvBufPtr (TxRing rq) i v]).

Definition zero_fcb : txfcb := mk_fcb false 0 false.

Section transmit.
Context `{gianfar_h} `{linux}.

(** [gfar_add_fcb(skb)] *)
Definition gfar_add_fcb (skb : sk_buff) : sk_buff :=
  skb_with_fcb (skb_push skb GMAC_FCB_LEN) (Some zero_fcb).

(** The loop of [gfar_start_xmit] that places the fragment addresses and
    lengths into the TxBDs; [frs] are the fragments still to place,
    [txbdp] the descriptor written last. *)
Fixpoint fill_frags (rq : Z) (frs : list skb_frag_t) (txbdp : Z)
    (ql : gfar_priv_tx_q * list event)
    : option (Z * (gfar_priv_tx_q * list event)) :=
  match frs with
  | [] => Some (txbdp, ql)
  | f :: rest =>
      (* Point at the next BD, wrapping as needed *)
      let txbdp := next_txbd txbdp (tx_ring_size (fst ql)) in
      d ← at_ (tx_bd_base (fst ql)) txbdp;
      let length := frag_size f in
      let lstatus := Z.lor (Z.lor (lstatus d) length) (BD_LFLAG TXBD_READY) in
      (* Handle the last BD specially *)
      let lstatus :=
        match rest with
        | [] => Z.lor lstatus (BD_LFLAG (Z.lor TXBD_LAST TXBD_INTERRUPT))
        | _ => lstatus
        end in
      let bufaddr := dma_map_page (frag_page f) (page_offset f) length in
      ql ← tx_store_bufPtr rq ql txbdp bufaddr;
      ql ← tx_store_lstatus rq ql txbdp lstatus;
      fill_frags rq rest txbdp ql
  end.

(** The fragment loop of [gfar_tso]: [rem] are the fragments of the large
    packet from index [i] on, [acc] the fragments given to the segment so
    far.  The lengths of a packet are far below the range of [int], and
    the arithmetic is written without wrap. *)
Fixpoint tso_frags (rem : list skb_frag_t) (pos offset len : Z)
    (acc : list skb_frag_t) (lg : list event)
    : list skb_frag_t * Z * list skb_frag_t * list event :=
  match rem with
  | [] => (rem, pos, acc, lg)
  | f :: rest =>
      if pos <? offset + len then
        let size := frag_size f in
        let lg := lg ++ [EvGetPage (frag_page f)] in
        let f1 :=
          if pos <? offset then
            mk_frag (frag_page f) (page_offset f + (offset - pos))
                    (frag_size f - (offset - pos))
          else f in
        if pos + size <=? offset + len then
          tso_frags rest (pos + size) offset len (acc ++ [f1]) lg
        else
          (rem, pos,
           acc ++ [mk_frag (frag_page f1) (page_offset f1)
                           (frag_size f1 - (pos + size - (offset + len)))],
           lg)
      else (rem, pos, acc, lg)
  end.

(** The state of the segmentation loop of [gfar_tso] between two
    iterations. *)
Record tso_state := mk_tso {
  tso_rem : list skb_frag_t;   (* frags[i..] of the large packet *)
  tso_pos : Z;
  tso_offset : Z;
  tso_seq : Z;
  tso_id : Z
}.

(** One segment of [gfar_tso]: the buffer taken from the recycler and
    filled, before it is submitted.  A buffer from the recycler carries
    no fragments ([skb_recycle] and [netdev_alloc_skb] clear them); the
    model has no result for one that does, nor for a failed
    [gfar_new_skb], which the source dereferences. *)
Definition tso_segment (cpu : Z) (skb : sk_buff) (st : tso_state)
    (p : gfar_private) : option (sk_buff * Z * tso_state * gfar_private) :=
  let mss := gso_size (shinfo skb) in
  let doffset := mac_len (hdr skb) + nh_len (hdr skb) + th_len (hdr skb) in
  let headroom := skb_headroom skb in
  let hsize := Z.max (skb_headlen skb - doffset) 0 in
  let offset := tso_offset st in
  let len0 := u32 (len skb - offset) in
  let len_ := if len0 >? mss then mss else len0 in
  '(onskb, p) ← gfar_new_skb cpu p;
  nskb ← onskb;
  if negb (nr_frags nskb =? 0) then None else
  let nskb := skb_reserve nskb headroom in
  let nskb := skb_put nskb (doffset + hsize) in
  let nskb := skb_with_offload nskb (ip_summed skb) (vlan_present skb)
                               (vlan_tci skb) in
  (* move skb data from skb fragments to new skb *)
  let '(rem, pos, fr, lg) :=
    tso_frags (tso_rem st) (tso_pos st) offset len_ [] (log p) in
  let p := with_log p lg in
  let nskb := skb_with_shinfo nskb (len_ - hsize)
                (mk_shinfo fr (gso_size (shinfo nskb))
                           (tx_hw_tstamp (shinfo nskb))
                           (tx_in_progress (shinfo nskb))) in
  let nskb := skb_with_data nskb (data nskb) (len nskb + data_len nskb) in
  (* update TCP header, update IP header *)
  let nskb := skb_with_hdr nskb
                (mk_hdr (mac_len (hdr skb)) (nh_len (hdr skb))
                        (th_len (hdr skb)) (u32 (tso_seq st))
                        (tso_id st mod 2 ^ 16)
                        ((len nskb - mac_len (hdr skb)) mod 2 ^ 16)) in
  Some (nskb, len_,
        mk_tso rem pos offset (tso_seq st + mss) (tso_id st + 1), p).

(** The [do ... while] loop of [gfar_tso], [xmit] being the
    [gfar_start_xmit] it calls for each segment and [n] a bound on the
    iterations. *)
Fixpoint tso_loop (xmit : gfar_private -> sk_buff ->
                           option (netdev_tx * gfar_private))
    (n : nat) (cpu : Z) (skb : sk_buff) (st : tso_state) (p : gfar_private)
    : option (netdev_tx * gfar_private) :=
  match n with
  | O => None
  | S n' =>
      '(nskb, len_, st, p) ← tso_segment cpu skb st p;
      '(ret, p) ← xmit p nskb;
      if negb (bool_decide (ret = NETDEV_TX_OK)) then
        Some (NETDEV_TX_OK, dev_kfree_skb_any (dev_kfree_skb_any p nskb) skb)
      else
        let offset := u32 (tso_offset st + len_) in
        if offset <? len skb then
          tso_loop xmit n' cpu skb
            (mk_tso (tso_rem st) (tso_pos st) offset (tso_seq st) (tso_id st))
            p
        else
          p ← gfar_free_skb cpu p skb;
          Some (ret, p)
  end.

(** [gfar_tso(skb, dev, rq)] *)
Definition gfar_tso (xmit : gfar_private -> sk_buff ->
                           option (netdev_tx * gfar_private))
    (cpu : Z) (skb : sk_buff) (p : gfar_private)
    : option (netdev_tx * gfar_private) :=
  let doffset := mac_len (hdr skb) + nh_len (hdr skb) + th_len (hdr skb) in
  tso_loop xmit (S (Z.to_nat (len skb))) cpu skb
    (mk_tso (frags (shinfo skb)) (skb_headlen skb) doffset
            (tcp_seq (hdr skb)) (ip_id (hdr skb)))
    p.

End transmit.

Section start_xmit.
Context `{gianfar_h} `{linux}.

Definition with_txq (p : gfar_private) (rq : Z) (q : gfar_priv_tx_q)
    : gfar_private :=
  with_tx_queue p (upd (tx_queue p) rq q).

(** [netif_tx_stop_queue(txq); dev->stats.tx_fifo_errors++;] *)
Definition stop_queue (p : gfar_private) (rq : Z) (q : gfar_priv_tx_q)
    : gfar_private :=
  with_stats (with_txq p rq (txq_with_stopped q true))
             (inc_tx_fifo_errors (stats p)) (extra_stats p).

(** [gfar_start_xmit(skb, dev)] from the space check on: the packet is
    [skb], its queue [tx_queue[rq]] is [q]. *)
Definition xmit_frame (p : gfar_private) (rq : Z) (q : gfar_priv_tx_q)
    (skb : sk_buff) (do_tstamp : bool) : option (netdev_tx * gfar_private) :=
  (* total number of fragments in the SKB *)
  let nr_frags_ := nr_frags skb in
  (* calculate the required number of TxBDs for this skb *)
  let nr_txbds := if do_tstamp then nr_frags_ + 2 else nr_frags_ + 1 in
  (* check if there is space to queue this packet *)
  if nr_txbds >? num_txbdfree q then
    (* no space, stop the queue *)
    Some (NETDEV_TX_BUSY, stop_queue p rq q)
  else
    (* Update transmit stats *)
    let q := txq_with_counts q (ulong_add (tx_bytes q) (len skb))
                             (ulong_inc (tx_packets q)) in
    let txbdp_start := cur_tx q in
    d ← at_ (tx_bd_base q) txbdp_start;
    let lstatus_ := lstatus d in
    (* Time stamp insertion requires one additional TxBD *)
    let txbdp_tstamp := next_txbd txbdp_start (tx_ring_size q) in
    let txbdp := if do_tstamp then txbdp_tstamp else txbdp_start in
    let ql := (q, log p) in
    '(txbdp, lstatus_, ql) ←
      (if nr_frags_ =? 0 then
         if do_tstamp then
           dt ← at_ (tx_bd_base q) txbdp_tstamp;
           ql ← tx_store_lstatus rq ql txbdp_tstamp
                  (Z.lor (lstatus dt)
                         (BD_LFLAG (Z.lor TXBD_LAST TXBD_INTERRUPT)));
           Some (txbdp, lstatus_, ql)
         else
           Some (txbdp,
                 Z.lor lstatus_ (BD_LFLAG (Z.lor TXBD_LAST TXBD_INTERRUPT)),
                 ql)
       else
         (* Place the fragment addresses and lengths into the TxBDs *)
         '(txbdp, ql) ← fill_frags rq (frags (shinfo skb)) txbdp ql;
         d ← at_ (tx_bd_base (fst ql)) txbdp_start;
         Some (txbdp, lstatus d, ql));
    (* Set up checksumming *)
    let '(skb, fcb_, lstatus_) :=
      if bool_decide (ip_summed skb = CHECKSUM_PARTIAL) then
        let skb := gfar_add_fcb skb in
        (* as specified by errata *)
        if errata_12 p && (data skb mod 0x20 >? 0x18) then
          (snd (skb_checksum_help
                  (skb_with_fcb (__skb_pull skb GMAC_FCB_LEN) None)),
           Some zero_fcb, lstatus_)
        else (skb, Some zero_fcb, Z.lor lstatus_ (BD_LFLAG TXBD_TOE))
      else (skb, None, lstatus_) in
    let '(skb, fcb_, lstatus_) :=
      if vlan_present skb then
        let '(skb, fcb_, lstatus_) :=
          match fcb_ with
          | None => (gfar_add_fcb skb, zero_fcb,
                     Z.lor lstatus_ (BD_LFLAG TXBD_TOE))
          | Some f => (skb, f, lstatus_)
          end in
        (* gfar_tx_vlan *)
        let f := mk_fcb true (vlan_tci skb mod 2 ^ 16) (ptp fcb_) in
        (skb_with_fcb skb (option_map (fun _ => f) (fcb skb)), Some f,
         lstatus_)
      else (skb, fcb_, lstatus_) in
    (* Setup tx hardware time stamping if requested *)
    let '(skb, lstatus_, p) :=
      if do_tstamp then
        let skb := skb_with_shinfo skb (data_len skb)
                     (mk_shinfo (frags (shinfo skb)) (gso_size (shinfo skb))
                                (tx_hw_tstamp (shinfo skb)) true) in
        let '(skb, f) :=
          match fcb_ with
          | None => (gfar_add_fcb skb, zero_fcb)
          | Some f => (skb, f)
          end in
        let f := mk_fcb (fcb_vlan f) (vlctl f) true in
        let skb := skb_with_fcb skb (option_map (fun _ => f) (fcb skb)) in
        let vlan_ctrl := Z.lor (Z.land (dfvlan p) (Z.lnot 0xFFFF))
                               (Z.land (vlctl f) 0xFFFF) in
        (skb, Z.lor lstatus_ (BD_LFLAG TXBD_TOE), with_dfvlan p vlan_ctrl)
      else (skb, lstatus_, p) in
    let ql := if do_tstamp
              then (fst ql, snd ql ++ [EvRegWrite R_dfvlan (dfvlan p)])
              else ql in
    let start_buf := dma_map_single (data skb) (skb_headlen skb) in
    ql ← tx_store_bufPtr rq ql txbdp_start start_buf;
    (* If time stamping is requested one additional TxBD must be set up. *)
    '(lstatus_, ql) ←
      (if do_tstamp then
         ql ← tx_store_bufPtr rq ql txbdp_tstamp (u32 (start_buf + GMAC_FCB_LEN));
         dt ← at_ (tx_bd_base (fst ql)) txbdp_tstamp;
         ql ← tx_store_lstatus rq ql txbdp_tstamp
                (Z.lor (lstatus dt)
                       (Z.lor (BD_LFLAG TXBD_READY)
                              (u32 (skb_headlen skb - GMAC_FCB_LEN))));
         Some (Z.lor lstatus_
                     (Z.lor (BD_LFLAG (Z.lor TXBD_CRC TXBD_READY)) GMAC_FCB_LEN),
               ql)
       else
         Some (Z.lor lstatus_
                     (Z.lor (BD_LFLAG (Z.lor TXBD_CRC TXBD_READY))
                            (u32 (skb_headlen skb))),
               ql));
    let ql := (fst ql, snd ql ++ [EvEieio]) in
    ql ← tx_store_lstatus rq ql txbdp_start lstatus_;
    (* force lstatus write before tx_skbuff *)
    let '(q, lg) := (fst ql, snd ql ++ [EvEieio]) in
    _ ← at_ (tx_skbuff q) (skb_curtx q);
    let lg := lg ++ [EvSkbuff (TxRing rq) (skb_curtx q)] in
    (* Update the current skb pointer to the next entry we will use
       (wrapping if necessary), reduce TxBD free count *)
    let q := txq_with_cur q (upd (tx_skbuff q) (skb_curtx q) (Some skb))
               (Z.land (skb_curtx q + 1) (TX_RING_MOD_MASK (tx_ring_size q)))
               (next_txbd txbdp (tx_ring_size q))
               (num_txbdfree q - nr_txbds) in
    (* If the next BD still needs to be cleaned up, then the bds are
       full.  We need to tell the kernel to stop sending us stuff. *)
    let p := with_log p lg in
    let p := if num_txbdfree q =? 0 then stop_queue p rq q
             else with_txq p rq q in
    (* Tell the DMA to go go go *)
    let p := emit p [EvRegWrite R_tstat
                       (Z.shiftr TSTAT_CLEAR_THALT (tx_qindex q))] in
    Some (NETDEV_TX_OK, p).

(** [gfar_start_xmit(skb, dev)]; [fuel] bounds the nesting of
    [gfar_start_xmit] and [gfar_tso]. *)
Fixpoint gfar_start_xmit (fuel : nat) (cpu : Z) (p : gfar_private)
    (skb : sk_buff) : option (netdev_tx * gfar_private) :=
  match fuel with
  | O => None
  | S fuel' =>
      (* TOE=1 frames larger than 2500 bytes may see excess delays
         before start of transmission. *)
      let '(ret, skb) :=
        if errata_76 p && bool_decide (ip_summed skb = CHECKSUM_PARTIAL)
           && (len skb >? 2500)
        then skb_checksum_help skb else (0, skb) in
      if negb (ret =? 0) then Some (NETDEV_TX_ERR ret, p) else
      let rq := queue_mapping skb in
      q ← at_ (tx_queue p) rq;
      (* check if time stamp should be generated *)
      let do_tstamp := (tx_hw_tstamp (shinfo skb) && hwts_tx_en p)
                       || hwts_tx_en_ioctl p in
      (* make space for additional header when fcb is needed *)
      let need_room :=
        (bool_decide (ip_summed skb = CHECKSUM_PARTIAL) || vlan_present skb
         || do_tstamp) && (skb_headroom skb <? GMAC_FCB_LEN) in
      match (if need_room then skb_realloc_headroom skb GMAC_FCB_LEN
             else Some skb) with
      | None =>
          Some (NETDEV_TX_OK,
                dev_kfree_skb_any
                  (with_stats p (inc_tx_errors (stats p)) (extra_stats p))
                  skb)
      | Some skb_new =>
          let p := if need_room then dev_kfree_skb_any p skb else p in
          let skb := skb_new in
          if skb_is_gso skb && negb do_tstamp then
            gfar_tso (gfar_start_xmit fuel' cpu) cpu skb p
          else xmit_frame p rq q skb do_tstamp
      end
  end.

End start_xmit.

(** ** Transmit cleanup *)

Section clean_tx.
Context `{gianfar_h} `{linux}.

(** [bdp->lstatus &= BD_LFLAG(TXBD_WRAP);] *)
Definition tx_clear (rq : Z) (ql : gfar_priv_tx_q * list event) (bdp : Z)
    : option (gfar_priv_tx_q * list event) :=
  d ← at_ (tx_bd_base (fst ql)) bdp;
  tx_store_lstatus rq ql bdp (Z.land (lstatus d) (BD_LFLAG TXBD_WRAP)).

(** The loop of [gfar_clean_tx_ring] over the fragments of a frame. *)
Fixpoint clean_frag_bds (rq : Z) (frs : list skb_frag_t) (bdp : Z)
    (ql : gfar_priv_tx_q * list event)
    : option (Z * (gfar_priv_tx_q * list event)) :=
  match frs with
  | [] => Some (bdp, ql)
  | _ :: rest =>
      _ ← at_ (tx_bd_base (fst ql)) bdp;     (* dma_unmap_page *)
      ql ← tx_clear rq ql bdp;
      clean_frag_bds rq rest (next_txbd bdp (tx_ring_size (fst ql))) ql
  end.

(** The [while] loop of [gfar_clean_tx_ring]; every turn that does not
    leave the loop empties one entry of [tx_skbuff], and [n] counts the
    turns still allowed. *)
Fixpoint clean_tx_loop (n : nat) (cpu rq : Z) (p : gfar_private)
    (bdp dirtytx tx_work_limit howmany : Z)
    : option (Z * Z * Z * gfar_private) :=
  q ← at_ (tx_queue p) rq;
  oskb ← at_ (tx_skbuff q) dirtytx;
  match oskb, n with
  | None, _ => Some (bdp, dirtytx, howmany, p)
  | Some _, O => None
  | Some skb, S n' =>
      if tx_work_limit =? 0 then Some (bdp, dirtytx, howmany, p) else
      let tx_work_limit := tx_work_limit - 1 in
      let frags_ := nr_frags skb in
      (* When time stamping, one additional TxBD must be freed. *)
      let nr_txbds := if tx_in_progress (shinfo skb) then frags_ + 2
                      else frags_ + 1 in
      let lbdp := skip_txbd bdp (nr_txbds - 1) (tx_ring_size q) in
      ld ← at_ (tx_bd_base q) lbdp;
      (* Only clean completed frames *)
      if tst (lstatus ld) (BD_LFLAG TXBD_READY)
         && tst (lstatus ld) BD_LENGTH_MASK
      then Some (bdp, dirtytx, howmany, p)
      else
        let next := next_txbd bdp (tx_ring_size q) in
        _ ← at_ (tx_bd_base q) bdp;          (* dma_unmap_single *)
        let ql := (q, log p) in
        '(skb, bdp, ql) ←
          (if tx_in_progress (shinfo skb) then
             _ ← at_ (tx_bd_base q) next;
             ql ← tx_clear rq ql bdp;
             Some (skb_pull skb GMAC_FCB_LEN, next, ql)
           else Some (skb, bdp, ql));
        ql ← tx_clear rq ql bdp;
        let bdp := next_txbd bdp (tx_ring_size q) in
        '(bdp, ql) ← clean_frag_bds rq (frags (shinfo skb)) bdp ql;
        let p := with_log (with_txq p rq (fst ql)) (snd ql) in
        p ← (if negb (skb_tcp_ack_recycle skb) then gfar_free_skb cpu p skb
             else Some p);
        q ← at_ (tx_queue p) rq;
        let q := txq_with_dirty q (upd (tx_skbuff q) dirtytx None)
                   (skb_dirtytx q) (dirty_tx q)
                   (u32 (num_txbdfree q + nr_txbds)) in
        let p := emit (with_txq p rq q) [EvSkbuff (TxRing rq) dirtytx] in
        let dirtytx :=
          Z.land (dirtytx + 1) (TX_RING_MOD_MASK (tx_ring_size q)) in
        clean_tx_loop n' cpu rq p bdp dirtytx tx_work_limit (howmany + 1)
  end.

(** [gfar_clean_tx_ring(tx_queue, tx_work_limit)] for
    [tx_queue = priv->tx_queue[rq]]. *)
Definition gfar_clean_tx_ring (cpu rq : Z) (p : gfar_private)
    (tx_work_limit : Z) : option (Z * gfar_private) :=
  q ← at_ (tx_queue p) rq;
  '(bdp, dirtytx, howmany, p) ←
    clean_tx_loop (length (tx_skbuff q)) cpu rq p (dirty_tx q) (skb_dirtytx q)
                  tx_work_limit 0;
  q ← at_ (tx_queue p) rq;
  (* If we freed a buffer, we can restart transmission, if necessary *)
  sq ← at_ (tx_queue p) (tx_qindex q);
  let p := if tx_stopped sq && negb (num_txbdfree q =? 0)
           then with_txq p (tx_qindex q) (txq_with_stopped sq false)
           else p in
  (* Update dirty indicators *)
  q ← at_ (tx_queue p) rq;
  let q := txq_with_dirty q (tx_skbuff q) dirtytx bdp (num_txbdfree q) in
  Some (howmany, with_txq p rq q).

End clean_tx.

(** ** Receive cleanup *)

Definition rxq_with_bds (q : gfar_priv_rx_q) (v : list bd) : gfar_priv_rx_q :=
  mk_rxq v (cur_rx q) (rx_skbuff q) (skb_currx q) (rx_ring_size q)
         (rx_qindex q) (rx_packets q) (rx_bytes q) (rx_dropped q).
Definition rxq_with_cur (q : gfar_priv_rx_q) (sk : list (option sk_buff))
    (currx cur : Z) : gfar_priv_rx_q :=
  mk_rxq (rx_bd_base q) cur sk currx (rx_ring_size q) (rx_qindex q)
         (rx_packets q) (rx_bytes q) (rx_dropped q).
Definition rxq_with_counts (q : gfar_priv_rx_q) (pk by_ dr : Z)
    : gfar_priv_rx_q :=
  mk_rxq (rx_bd_base q) (cur_rx q) (rx_skbuff q) (skb_currx q)
         (rx_ring_size q) (rx_qindex q) pk by_ dr.

Definition with_rxq (p : gfar_private) (rq : Z) (q : gfar_priv_rx_q)
    : gfar_private :=
  with_rx_queue p (upd (rx_queue p) rq q).

(** [struct gfar_priv_grp], the receive side: the queue bitmap, the
    status saved by the previous poll, the values the registers of the
    group read as, and whether the receive NAPI context is scheduled. *)
Record gfar_priv_grp := mk_grp {
  rx_bit_map : Z;
  rstat_prev : Z;
  regs_rstat : Z;
  regs_ievent : Z;
  regs_imask : Z;
  napi_rx_scheduled : bool
}.

Section clean_rx.
Context `{gianfar_h} `{linux}.

(** [gfar_init_rxbdp(rx_queue, bdp, buf)] *)
Definition gfar_init_rxbdp (rq : Z) (ql : gfar_priv_rx_q * list event)
    (bdp buf : Z) : option (gfar_priv_rx_q * list event) :=
  let '(q, lg) := ql in
  d ← at_ (rx_bd_base q) bdp;
  let lstatus_ := BD_LFLAG (Z.lor RXBD_EMPTY RXBD_INTERRUPT) in
  let lstatus_ := if bdp =? rx_ring_size q - 1
                  then Z.lor lstatus_ (BD_LFLAG RXBD_WRAP) else lstatus_ in
  Some (rxq_with_bds q (upd (rx_bd_base q) bdp (mk_bd lstatus_ buf)),
        lg ++ [EvBufPtr (RxRing rq) bdp buf; EvEieio;
               EvLstatus (RxRing rq) bdp lstatus_]).

(** [gfar_new_rxbdp(rx_queue, bdp, skb)] *)
Definition gfar_new_rxbdp (rq : Z) (p : gfar_private)
    (ql : gfar_priv_rx_q * list event) (bdp : Z) (skb : sk_buff)
    : option (gfar_priv_rx_q * list event) :=
  let buf := dma_map_single (data skb) (rx_buffer_size p) in
  gfar_init_rxbdp rq ql bdp buf.

(** [gfar_process_frame(dev, skb, amount_pull)].  What the stack does to
    the packet ([eth_type_trans], the checksum and VLAN results, the
    time stamps) is not modelled; the packet is recorded as delivered
    when it reaches [netif_receive_skb]. *)
Definition gfar_process_frame (p : gfar_private) (skb : sk_buff)
    (amount_pull : Z) : gfar_private :=
  let skb := if negb (amount_pull =? 0) then skb_pull skb amount_pull
             else skb in
  let skb := if has_timer p then skb_pull skb 8
             else if negb (padding p =? 0) then skb_pull skb (padding p)
             else skb in
  (* Send the packet up the stack *)
  let p := with_delivered p (delivered p ++ [skb]) in
  if netif_receive_skb_drops skb
  then with_stats p (stats p) (inc_kernel_dropped (extra_stats p))
  else p.

(** One turn of the [while] loop of [gfar_clean_rx_ring], for the
    descriptor [bdp] of [rx_queue[rq]]. *)
Definition clean_rx_step (cpu rq : Z) (p : gfar_private) (bdp howmany : Z)
    : option (Z * Z * gfar_private) :=
  let amount_pull := if uses_fcb p then GMAC_FCB_LEN else 0 in
  (* Add another skb for the future *)
  '(newskb, p) ← gfar_new_skb cpu p;
  q ← at_ (rx_queue p) rq;
  skb ← at_ (rx_skbuff q) (skb_currx q);
  d ← at_ (rx_bd_base q) bdp;
  let '(d, q, p) :=
    if negb (tst (bd_status d) RXBD_ERR)
       && (bd_length d >? rx_buffer_size p)
    then
      let d' := set_status d RXBD_LARGE in
      (d', rxq_with_bds q (upd (rx_bd_base q) bdp d'),
       emit p [EvLstatus (RxRing rq) bdp (lstatus d')])
    else (d, q, p) in
  '(newskb, howmany, q, p) ←
    (* We drop the frame if we failed to allocate a new buffer *)
    (if bool_decide (newskb = None) || negb (tst (bd_status d) RXBD_LAST)
        || tst (bd_status d) RXBD_ERR
     then
       let '(st, est) := count_errors (bd_status d) (stats p, extra_stats p) in
       let p := with_stats p st est in
       match newskb, skb with
       | None, _ => Some (skb, howmany, q, p)
       | Some _, Some s => p ← gfar_free_skb cpu p s;
                           Some (newskb, howmany, q, p)
       | Some _, None => Some (newskb, howmany, q, p)
       end
     else
       (* Increment the number of packets *)
       let q := rxq_with_counts q (ulong_inc (rx_packets q)) (rx_bytes q)
                                (rx_dropped q) in
       match skb with
       | Some s =>
           (* Remove the FCS from the packet length *)
           let pkt_len := bd_length d - ETH_FCS_LEN in
           let s := skb_put s pkt_len in
           let q := rxq_with_counts q (rx_packets q)
                      (ulong_add (rx_bytes q) pkt_len) (rx_dropped q) in
           Some (newskb, howmany + 1, q, gfar_process_frame p s amount_pull)
       | None =>
           let q := rxq_with_counts q (rx_packets q) (rx_bytes q)
                      (ulong_inc (rx_dropped q)) in
           Some (newskb, howmany + 1, q,
                 with_stats p (stats p) (inc_rx_skbmissing (extra_stats p)))
       end);
  let q := rxq_with_cur q (upd (rx_skbuff q) (skb_currx q) newskb)
                        (skb_currx q) (cur_rx q) in
  let p := emit p [EvSkbuff (RxRing rq) (skb_currx q)] in
  (* Setup the new bdp *)
  newskb ← newskb;
  '(q, lg) ← gfar_new_rxbdp rq p (q, log p) bdp newskb;
  (* Update to the next pointer *)
  let bdp := next_bd bdp (rx_ring_size q) in
  (* update to point at the next skb *)
  let q := rxq_with_cur q (rx_skbuff q)
             (Z.land (skb_currx q + 1) (RX_RING_MOD_MASK (rx_ring_size q)))
             (cur_rx q) in
  Some (bdp, howmany, with_log (with_rxq p rq q) lg).

(** The [while] loop of [gfar_clean_rx_ring]; [n] is the work limit still
    available. *)
Fixpoint clean_rx_loop (n : nat) (cpu rq : Z) (p : gfar_private)
    (bdp howmany : Z) : option (Z * Z * gfar_private) :=
  q ← at_ (rx_queue p) rq;
  d ← at_ (rx_bd_base q) bdp;
  if tst (bd_status d) RXBD_EMPTY then Some (bdp, howmany, p) else
  match n with
  | O => Some (bdp, howmany, p)
  | S n' =>
      '(bdp, howmany, p) ← clean_rx_step cpu rq p bdp howmany;
      clean_rx_loop n' cpu rq p bdp howmany
  end.

(** [gfar_clean_rx_ring(rx_queue, rx_work_limit)] for
    [rx_queue = priv->rx_queue[rq]]. *)
Definition gfar_clean_rx_ring (cpu rq : Z) (p : gfar_private)
    (rx_work_limit : Z) : option (Z * gfar_private) :=
  q ← at_ (rx_queue p) rq;
  '(bdp, howmany, p) ←
    clean_rx_loop (Z.to_nat rx_work_limit) cpu rq p (cur_rx q) 0;
  q ← at_ (rx_queue p) rq;
  (* Update the current rxbd pointer to be the next one *)
  Some (howmany,
        with_rxq p rq (rxq_with_cur q (rx_skbuff q) (skb_currx q) bdp)).

(** The loop of [gfar_poll_rx] that counts the set bits of
    [rstat_local]; a [u32] leaves it after at most 32 turns. *)
Fixpoint count_act_qs (n : nat) (rstat_local num_act_qs : Z) : option Z :=
  if rstat_local =? 0 then Some num_act_qs else
  match n with
  | O => None
  | S n' => count_act_qs n' (Z.land rstat_local (rstat_local - 1))
                         (num_act_qs + 1)
  end.

(** The head of [gfar_poll_rx]: [budget_per_queue]; the division has no
    result when no queue is active. *)
Definition poll_rx_budget (grp : gfar_priv_grp) (budget : Z) : option Z :=
  let rstat := regs_rstat grp in
  let rstat_rxf := Z.land rstat RSTAT_RXF_ALL_MASK in
  let rstat_rxf := Z.lor rstat_rxf (rstat_prev grp) in
  num_act_qs ← count_act_qs 32 rstat_rxf 0;
  if num_act_qs =? 0 then None else Some (budget ÷ num_act_qs).

(** The [for_each_set_bit] loop of [gfar_poll_rx] over the queues [qs]. *)
Fixpoint poll_rx_queues (cpu : Z) (qs : list Z) (bit_map rstat_rxf : Z)
    (budget_per_queue : Z) (p : gfar_private)
    (acc : Z * bool * Z * Z)   (* rx_cleaned, napi_done, rstat_prev, rstat_rhalt *)
    : option (Z * bool * Z * Z * gfar_private) :=
  match qs with
  | [] => Some (acc, p)
  | i :: rest =>
      let '(rx_cleaned, napi_done, prev, rstat_rhalt) := acc in
      let mask := Z.shiftr RSTAT_RXF0_MASK i in
      if Z.testbit bit_map i && tst rstat_rxf mask then
        '(rx_cleaned_per_queue, p) ←
          gfar_clean_rx_ring cpu i p budget_per_queue;
        let '(napi_done, prev, rstat_rhalt) :=
          if rx_cleaned_per_queue >=? budget_per_queue
          then (false, prev, rstat_rhalt)
          else (napi_done, Z.land prev (Z.lnot mask),
                Z.lor rstat_rhalt (Z.shiftr RSTAT_CLEAR_RHALT i)) in
        poll_rx_queues cpu rest bit_map rstat_rxf budget_per_queue p
          (rx_cleaned + rx_cleaned_per_queue, napi_done, prev, rstat_rhalt)
      else
        poll_rx_queues cpu rest bit_map rstat_rxf budget_per_queue p acc
  end.

(** [gfar_poll_rx(napi, budget)] for the group [grp].  The coalescing
    registers [gfar_configure_rx_coalescing] programs are not modelled. *)
Definition gfar_poll_rx (cpu : Z) (grp : gfar_priv_grp) (p : gfar_private)
    (budget : Z) : option (Z * gfar_priv_grp * gfar_private) :=
  let rstat_rxf := Z.lor (Z.land (regs_rstat grp) RSTAT_RXF_ALL_MASK)
                         (rstat_prev grp) in
  budget_per_queue ← poll_rx_budget grp budget;
  let p := emit p [EvRegWrite R_rstat rstat_rxf;
                   EvRegWrite R_ievent IEVENT_RX_MASK] in
  '(rx_cleaned, napi_done, prev, rstat_rhalt, p) ←
    poll_rx_queues cpu (seqZ 0 (Z.of_nat (length (rx_queue p))))
      (rx_bit_map grp) rstat_rxf budget_per_queue p
      (0, true, rstat_rxf, 0);
  let p := if negb (rstat_rhalt =? 0)
           then emit p [EvRegWrite R_rstat rstat_rhalt] else p in
  if (napi_done : bool) then
    let imask := Z.lor (regs_imask grp) IMASK_DEFAULT_RX in
    let p := emit p [EvRegWrite R_imask imask] in
    let ievent := Z.land (regs_ievent grp) IEVENT_RX_MASK in
    if negb (ievent =? 0) then
      let imask := Z.land imask IMASK_RX_DISABLED in
      Some (rx_cleaned,
            mk_grp (rx_bit_map grp) prev (regs_rstat grp) (regs_ievent grp)
                   imask true,
            emit p [EvRegWrite R_imask imask;
                    EvRegWrite R_ievent IEVENT_RX_MASK])
    else
      Some (rx_cleaned,
            mk_grp (rx_bit_map grp) prev (regs_rstat grp) (regs_ievent grp)
                   imask false, p)
  else
    Some (rx_cleaned,
          mk_grp (rx_bit_map grp) prev (regs_rstat grp) (regs_ievent grp)
                 (regs_imask grp) (napi_rx_scheduled grp), p).

End clean_rx.

(** ** Teardown

    The addresses of the [tx_skbuff] and [rx_skbuff] arrays and of the
    descriptor memory, which only allocation and teardown look at, are
    kept apart from their contents: [gfar_device] adds them to
    [gfar_private], with the set of allocations that have not been given
    back and the MAC registers [gfar_halt] works on.  Memory that has
    been given back keeps its contents; touching it, or giving it back
    again, is recorded in [faults]. *)

Inductive fault :=
| UseAfterFree (a : Z)
| DoubleFree (a : Z).

Global Instance fault_eq_dec : EqDecision fault.
Proof. solve_decision. Defined.

Record gfar_regs := mk_regs { imask : Z; dmactrl : Z; maccfg1 : Z }.

Record gfar_device := mk_dev {
  priv : gfar_private;
  tx_skbuff_p : list Z;    (* tx_queue[i]->tx_skbuff, 0 for NULL *)
  rx_skbuff_p : list Z;    (* rx_queue[i]->rx_skbuff, 0 for NULL *)
  tx_bd_base_p : Z;        (* tx_queue[0]->tx_bd_base *)
  live : gset Z;
  faults : list fault;
  regs : gfar_regs;
  errata_a002 : bool;
  (* what the coming polls read: ievent when [spin_event_timeout]
     returns, ievent at the read after it, and the register at 0xd1c *)
  hw_polls : list (Z * Z * Z)
}.

Definition dev_with_priv (d : gfar_device) (v : gfar_private) : gfar_device :=
  mk_dev v (tx_skbuff_p d) (rx_skbuff_p d) (tx_bd_base_p d) (live d)
         (faults d) (regs d) (errata_a002 d) (hw_polls d).
Definition dev_with_mem (d : gfar_device) (l : gset Z) (f : list fault)
    : gfar_device :=
  mk_dev (priv d) (tx_skbuff_p d) (rx_skbuff_p d) (tx_bd_base_p d) l f
         (regs d) (errata_a002 d) (hw_polls d).
Definition dev_with_regs (d : gfar_device) (r : gfar_regs)
    (hp : list (Z * Z * Z)) : gfar_device :=
  mk_dev (priv d) (tx_skbuff_p d) (rx_skbuff_p d) (tx_bd_base_p d) (live d)
         (faults d) r (errata_a002 d) hp.

(** An access to the memory at [a]. *)
Definition touch (d : gfar_device) (a : Z) : gfar_device :=
  if decide (a ∈ live d) then d
  else dev_with_mem d (live d) (faults d ++ [UseAfterFree a]).

(** [kfree(a)], [dma_free_coherent(..., a, ...)] *)
Definition kfree (d : gfar_device) (a : Z) : gfar_device :=
  if a =? 0 then d
  else if decide (a ∈ live d) then dev_with_mem d (live d ∖ {[a]}) (faults d)
  else dev_with_mem d (live d) (faults d ++ [DoubleFree a]).

Section teardown.
Context `{gianfar_h} `{linux}.

(** [__gfar_is_rx_idle(priv)], [res] being what the register at 0xd1c
    reads. *)
Definition __gfar_is_rx_idle (d : gfar_device) (res : Z) : bool :=
  if negb (errata_a002 d) then false
  else
    let res := Z.land res 0x7f807f80 in
    Z.land res 0xffff =? Z.shiftr res 16.

(** The [do ... while (!ret)] loop of [gfar_halt_nodisable]; it has no
    result when the hardware never acknowledges. *)
Fixpoint wait_graceful_stop (d : gfar_device) (polls : list (Z * Z * Z))
    : option (list (Z * Z * Z)) :=
  match polls with
  | [] => None
  | (ev1, ev2, res) :: rest =>
      let stop := Z.lor IEVENT_GRSC IEVENT_GTSC in
      let ret := Z.land ev1 stop =? stop in
      let ret := if negb ret && negb (tst ev2 IEVENT_GRSC)
                 then __gfar_is_rx_idle d res else ret in
      if ret then Some rest else wait_graceful_stop d rest
  end.

(** [gfar_halt_nodisable(dev)]; the groups share the registers of
    group 0 in the model. *)
Definition gfar_halt_nodisable (d : gfar_device) : option gfar_device :=
  (* Mask all interrupts, clear all interrupts *)
  let d := dev_with_priv d
             (emit (priv d) [EvRegWrite R_imask IMASK_INIT_CLEAR;
                             EvRegWrite R_ievent IEVENT_INIT_CLEAR]) in
  let r := mk_regs IMASK_INIT_CLEAR (dmactrl (regs d)) (maccfg1 (regs d)) in
  (* Stop the DMA, and wait for it to stop *)
  let tempval := dmactrl r in
  let stop := Z.lor DMACTRL_GRS DMACTRL_GTS in
  if negb (Z.land tempval stop =? stop) then
    let tempval := Z.lor tempval stop in
    let d := dev_with_priv d (emit (priv d) [EvRegWrite R_dmactrl tempval]) in
    rest ← wait_graceful_stop d (hw_polls d);
    Some (dev_with_regs d (mk_regs (imask r) tempval (maccfg1 r)) rest)
  else Some (dev_with_regs d r (hw_polls d)).

(** [gfar_halt(dev)] *)
Definition gfar_halt (d : gfar_device) : option gfar_device :=
  d ← gfar_halt_nodisable d;
  (* Disable Rx and Tx *)
  let tempval := Z.land (maccfg1 (regs d))
                        (Z.lnot (Z.lor MACCFG1_RX_EN MACCFG1_TX_EN)) in
  Some (dev_with_regs
          (dev_with_priv d (emit (priv d) [EvRegWrite R_maccfg1 tempval]))
          (mk_regs (imask (regs d)) (dmactrl (regs d)) tempval)
          (hw_polls d)).

(** The inner loop of [free_skb_tx_queue] over the fragments of a
    buffer. *)
Fixpoint skip_frag_bds (bds : list bd) (frs : list skb_frag_t) (txbdp : Z)
    : option Z :=
  match frs with
  | [] => Some txbdp
  | _ :: rest =>
      _ ← at_ bds (txbdp + 1);       (* dma_unmap_page *)
      skip_frag_bds bds rest (txbdp + 1)
  end.

(** The outer loop of [free_skb_tx_queue] over the slots [ks] of
    [tx_skbuff], the array at address [a]. *)
Fixpoint free_tx_slots (i a : Z) (ks : list Z) (txbdp : Z) (d : gfar_device)
    : option gfar_device :=
  match ks with
  | [] => Some d
  | k :: rest =>
      let d := touch d a in
      q ← at_ (tx_queue (priv d)) i;
      oskb ← at_ (tx_skbuff q) k;
      match oskb with
      | None => free_tx_slots i a rest txbdp d
      | Some skb =>
          let d := touch d (tx_bd_base_p d) in
          bdv ← at_ (tx_bd_base q) txbdp;       (* dma_unmap_single *)
          let bds := upd (tx_bd_base q) txbdp (set_lstatus bdv 0) in
          txbdp ← skip_frag_bds bds (frags (shinfo skb)) txbdp;
          let txbdp := txbdp + 1 in
          let q := txq_with_cur (txq_with_bds q bds)
                     (upd (tx_skbuff q) k None) (skb_curtx q) (cur_tx q)
                     (num_txbdfree q) in
          let p := dev_kfree_skb_any (with_txq (priv d) i q) skb in
          free_tx_slots i a rest txbdp (dev_with_priv d p)
      end
  end.

(** [free_skb_tx_queue(tx_queue)] for [tx_queue = priv->tx_queue[i]]. *)
Definition free_skb_tx_queue (i : Z) (d : gfar_device) : option gfar_device :=
  q ← at_ (tx_queue (priv d)) i;
  a ← at_ (tx_skbuff_p d) i;
  d ← free_tx_slots i a (seqZ 0 (tx_ring_size q)) 0 d;
  Some (kfree d a).

(** The loop of [free_skb_rx_queue]. *)
Fixpoint free_rx_slots (i a : Z) (ks : list Z) (d : gfar_device)
    : option gfar_device :=
  match ks with
  | [] => Some d
  | k :: rest =>
      let d := touch d a in
      q ← at_ (rx_queue (priv d)) i;
      oskb ← at_ (rx_skbuff q) k;
      let '(q, p) :=
        match oskb with
        | Some skb =>
            (rxq_with_cur q (upd (rx_skbuff q) k None) (skb_currx q)
                          (cur_rx q),
             dev_kfree_skb_any (priv d) skb)
        | None => (q, priv d)
        end in
      let d := touch d (tx_bd_base_p d) in
      _ ← at_ (rx_bd_base q) k;
      let q := rxq_with_bds q (upd (rx_bd_base q) k (mk_bd 0 0)) in
      free_rx_slots i a rest (dev_with_priv d (with_rxq p i q))
  end.

(** [free_skb_rx_queue(rx_queue)] for [rx_queue = priv->rx_queue[i]]. *)
Definition free_skb_rx_queue (i : Z) (d : gfar_device) : option gfar_device :=
  q ← at_ (rx_queue (priv d)) i;
  a ← at_ (rx_skbuff_p d) i;
  d ← free_rx_slots i a (seqZ 0 (rx_ring_size q)) d;
  Some (kfree d a).

(** [gfar_free_bds(priv)] *)
Definition gfar_free_bds (d : gfar_device) : option gfar_device :=
  _ ← at_ (tx_queue (priv d)) 0;
  Some (kfree d (tx_bd_base_p d)).

Fixpoint free_tx_queues (is_ : list Z) (d : gfar_device)
    : option gfar_device :=
  match is_ with
  | [] => Some d
  | i :: rest =>
      a ← at_ (tx_skbuff_p d) i;
      d ← (if negb (a =? 0) then free_skb_tx_queue i d else Some d);
      free_tx_queues rest d
  end.

Fixpoint free_rx_queues (is_ : list Z) (d : gfar_device)
    : option gfar_device :=
  match is_ with
  | [] => Some d
  | i :: rest =>
      a ← at_ (rx_skbuff_p d) i;
      d ← (if negb (a =? 0) then free_skb_rx_queue i d else Some d);
      free_rx_queues rest d
  end.

(** [free_skb_resources(priv)]: if there are any tx skbs or rx skbs
    still around, free them; then free [tx_skbuff] and [rx_skbuff]. *)
Definition free_skb_resources (d : gfar_device) : option gfar_device :=
  (* Go through all the buffer descriptors and free their data buffers *)
  d ← free_tx_queues (seqZ 0 (Z.of_nat (length (tx_queue (priv d))))) d;
  d ← free_rx_queues (seqZ 0 (Z.of_nat (length (rx_queue (priv d))))) d;
  gfar_free_bds d.

(** [stop_gfar(dev)].  The PHY and the interrupt lines are not
    modelled. *)
Definition stop_gfar (d : gfar_device) : option gfar_device :=
  d ← gfar_halt d;
  free_skb_resources d.

End teardown.

(** ** Ring initialization *)

Section init_bds.
Context `{gianfar_h} `{linux}.

(** The loop of [gfar_init_bds] that clears a transmit ring. *)
Fixpoint init_tx_bds (rq : Z) (js : list Z) (ql : gfar_priv_tx_q * list event)
    : option (gfar_priv_tx_q * list event) :=
  match js with
  | [] => Some ql
  | j :: rest =>
      ql ← tx_store_lstatus rq ql j 0;
      ql ← tx_store_bufPtr rq ql j 0;
      init_tx_bds rq rest ql
  end.

(** The body of the first loop of [gfar_init_bds], for [tx_queue[i]]. *)
Definition init_tx_queue (i : Z) (p : gfar_private) : option gfar_private :=
  q ← at_ (tx_queue p) i;
  (* Initialize some variables in our dev structure *)
  let q := txq_with_dirty
             (txq_with_cur q (tx_skbuff q) 0 0 (tx_ring_size q))
             (tx_skbuff q) 0 0 (tx_ring_size q) in
  (* Initialize Transmit Descriptor Ring *)
  '(q, lg) ← init_tx_bds i (seqZ 0 (tx_ring_size q)) (q, log p);
  (* Set the last descriptor in the ring to indicate wrap *)
  let txbdp := (if 0 <? tx_ring_size q then tx_ring_size q else 0) - 1 in
  d ← at_ (tx_bd_base q) txbdp;
  let d' := set_status d (Z.lor (bd_status d) TXBD_WRAP) in
  Some (with_log (with_txq p i (txq_with_bds q (upd (tx_bd_base q) txbdp d')))
                 (lg ++ [EvLstatus (TxRing i) txbdp (lstatus d')])).

Fixpoint init_tx_queues (is_ : list Z) (p : gfar_private)
    : option gfar_private :=
  match is_ with
  | [] => Some p
  | i :: rest => p ← init_tx_queue i p; init_tx_queues rest p
  end.

(** The inner loop of the second loop of [gfar_init_bds]; the result is
    [inl] at [goto err_rxalloc_fail]. *)
Fixpoint init_rx_bds (cpu i : Z) (js : list Z) (p : gfar_private)
    : option (gfar_private + gfar_private) :=
  match js with
  | [] => Some (inr p)
  | j :: rest =>
      q ← at_ (rx_queue p) i;
      oskb ← at_ (rx_skbuff q) j;
      match oskb with
      | Some _ =>
          d ← at_ (rx_bd_base q) j;
          '(q, lg) ← gfar_init_rxbdp i (q, log p) j (bufPtr d);
          init_rx_bds cpu i rest (with_log (with_rxq p i q) lg)
      | None =>
          '(oskb, p) ← gfar_new_skb cpu p;
          match oskb with
          | None => Some (inl p)
          | Some skb =>
              q ← at_ (rx_queue p) i;
              _ ← at_ (rx_skbuff q) j;
              let q := rxq_with_cur q (upd (rx_skbuff q) j (Some skb))
                                    (skb_currx q) (cur_rx q) in
              '(q, lg) ← gfar_new_rxbdp i p (q, log p) j skb;
              init_rx_bds cpu i rest (with_log (with_rxq p i q) lg)
          end
      end
  end.

Fixpoint init_rx_queues (cpu : Z) (is_ : list Z) (p : gfar_private)
    : option (gfar_private + gfar_private) :=
  match is_ with
  | [] => Some (inr p)
  | i :: rest =>
      q ← at_ (rx_queue p) i;
      let p := with_rxq p i (rxq_with_cur q (rx_skbuff q) 0 0) in
      r ← init_rx_bds cpu i (seqZ 0 (rx_ring_size q)) p;
      match r with
      | inl p => Some (inl p)
      | inr p => init_rx_queues cpu rest p
      end
  end.

(** The two loops of [gfar_init_bds] on the rings. *)
Definition init_rings (cpu : Z) (p : gfar_private)
    : option (gfar_private + gfar_private) :=
  p ← init_tx_queues (seqZ 0 (Z.of_nat (length (tx_queue p)))) p;
  init_rx_queues cpu (seqZ 0 (Z.of_nat (length (rx_queue p)))) p.

(** [gfar_init_bds(ndev)]: 0, or -ENOMEM ([false]) after
    [free_skb_resources]. *)
Definition gfar_init_bds (cpu : Z) (d : gfar_device)
    : option (bool * gfar_device) :=
  r ← init_rings cpu (priv d);
  match r with
  | inr p => Some (true, dev_with_priv d p)
  | inl p => d ← free_skb_resources (dev_with_priv d p); Some (false, d)
  end.

End init_bds.

(** ** The kernel services kept well-formed

    What the ring invariants need from the kernel helpers.  The two that
    hand the driver a buffer in place of the one it passed return a copy
    with the same lengths, the same fragments and the same headers; and
    [skb_recycle] resets a buffer: it holds no data and is not marked
    for segmentation. *)
Record linux_ok `{linux} : Prop := {
  checksum_help_keeps : forall s,
    skb_headlen (snd (skb_checksum_help s)) = skb_headlen s /\
    shinfo (snd (skb_checksum_help s)) = shinfo s;
  realloc_headroom_keeps : forall s n s',
    skb_realloc_headroom s n = Some s' ->
    skb_headlen s' = skb_headlen s /\ shinfo s' = shinfo s;
  checksum_help_keeps_hdr : forall s,
    len (snd (skb_checksum_help s)) = len s /\
    hdr (snd (skb_checksum_help s)) = hdr s;
  realloc_headroom_keeps_hdr : forall s n s',
    skb_realloc_headroom s n = Some s' ->
    len s' = len s /\ hdr s' = hdr s;
  recycle_blank : forall s,
    len (skb_recycle s) = 0 /\ gso_size (shinfo (skb_recycle s)) = 0
}.

(** ** Instances for the examples *)

(** The eTSEC values of the flags and masks. *)
Definition etsec : gianfar_h := {|
  TXBD_READY := 0x8000;
  TXBD_WRAP := 0x2000;
  TXBD_INTERRUPT := 0x1000;
  TXBD_LAST := 0x0800;
  TXBD_CRC := 0x0400;
  TXBD_TOE := 0x0002;
  RXBD_EMPTY := 0x8000;
  RXBD_WRAP := 0x2000;
  RXBD_INTERRUPT := 0x1000;
  RXBD_LAST := 0x0800;
  RXBD_LARGE := 0x0020;
  RXBD_SHORT := 0x0008;
  RXBD_NONOCTET := 0x0010;
  RXBD_CRCERR := 0x0004;
  RXBD_OVERRUN := 0x0002;
  RXBD_TRUNCATED := 0x0001;
  RXBD_ERR := 0x003f;
  GMAC_FCB_LEN := 8;
  RXBUF_ALIGNMENT := 64;
  ETH_FCS_LEN := 4;
  NET_SKB_PAD := 32;
  RSTAT_RXF_ALL_MASK := 0x00ff0000;
  RSTAT_RXF0_MASK := 0x00800000;
  RSTAT_CLEAR_RHALT := 0x00800000;
  TSTAT_CLEAR_THALT := 0x80000000;
  IEVENT_RX_MASK := 0x20008080;
  IEVENT_INIT_CLEAR := 0xffffffff;
  IEVENT_GRSC := 0x00000100;
  IEVENT_GTSC := 0x02000000;
  IMASK_INIT_CLEAR := 0;
  IMASK_DEFAULT_RX := 0x20000080;
  IMASK_RX_DISABLED := 0xdfff7f7f;
  DMACTRL_GRS := 0x10;
  DMACTRL_GTS := 0x08;
  MACCFG1_RX_EN := 0x04;
  MACCFG1_TX_EN := 0x01;
  BITS_PER_LONG := 32
|}.

(** Modelled from the spec: [skb_is_recycleable], [skb_recycle] and the
    other kernel services are not among the sources.  The spec's
    recycleable predicate is "linear, correctly-sized, single-reference";
    recycling resets a buffer to its empty state; an allocation that does
    not fail returns a buffer.  DMA addresses are the addresses
    themselves. *)
Definition linux_model : linux := {|
  skb_is_recycleable := fun s skb_size =>
    negb (skb_is_nonlinear s)
    && ((skb_size + 32 + 31) / 32 * 32 <=? end_ s - head s)
    && (users s =? 1) && negb (cloned s);
  skb_recycle := fun s =>
    mk_skb (head s) (head s + 32) 0 0 (truesize s) (end_ s) (users s)
           (cloned s) CHECKSUM_NONE false 0 0 (mk_shinfo [] 0 false false)
           (mk_hdr 0 0 0 0 0 0) None;
  SKB_DATA_ALIGN := fun x => (x + 31) / 32 * 32;
  sizeof_sk_buff := 192;
  dma_map_single := fun a _ => a;
  dma_map_page := fun pg off _ => pg + off;
  skb_tcp_ack_recycle := fun _ => false;
  skb_checksum_help := fun s =>
    (0, skb_with_offload s CHECKSUM_NONE (vlan_present s) (vlan_tci s));
  skb_realloc_headroom := fun s n =>
    Some (skb_with_data s (head s + n) (len s));
  netif_receive_skb_drops := fun _ => false
|}.

(** The same kernel out of memory in [skb_realloc_headroom]. *)
Definition linux_oom : linux := {|
  skb_is_recycleable := @skb_is_recycleable linux_model;
  skb_recycle := @skb_recycle linux_model;
  SKB_DATA_ALIGN := @SKB_DATA_ALIGN linux_model;
  sizeof_sk_buff := @sizeof_sk_buff linux_model;
  dma_map_single := @dma_map_single linux_model;
  dma_map_page := @dma_map_page linux_model;
  skb_tcp_ack_recycle := @skb_tcp_ack_recycle linux_model;
  skb_checksum_help := @skb_checksum_help linux_model;
  skb_realloc_headroom := fun _ _ => None;
  netif_receive_skb_drops := @netif_receive_skb_drops linux_model
|}.

(** A receive buffer of 1536 + 64 bytes at address [a], as
    [netdev_alloc_skb] returns it. *)
Definition rx_buffer (a : Z) : sk_buff :=
  mk_skb a (a + 32) 0 0 (1632 + 192) (a + 1632) 1 false CHECKSUM_NONE false
         0 0 (mk_shinfo [] 0 false false) (mk_hdr 0 0 0 0 0 0) None.

(** A linear packet of [n] bytes at address [a] for queue 0. *)
Definition packet (a n : Z) : sk_buff :=
  mk_skb a (a + 64) n 0 (2048 + 192) (a + 2048) 1 false CHECKSUM_NONE false
         0 0 (mk_shinfo [] 0 false false) (mk_hdr 14 20 20 0 0 0) None.

(** The same with page fragments [frs]. *)
Definition packet_frags (a n : Z) (frs : list skb_frag_t) (mss : Z)
    : sk_buff :=
  let dl := foldr (fun f s => frag_size f + s) 0 frs in
  mk_skb a (a + 64) (n + dl) dl (2048 + 192) (a + 2048) 1 false CHECKSUM_NONE
         false 0 0 (mk_shinfo frs mss false false) (mk_hdr 14 20 20 1000 7 0)
         None.

Definition empty_recycle : gfar_recycle_cntxt :=
  mk_recycle [mk_percpu 100 0 0; mk_percpu 101 0 0] (Some 200) 2 0 0
             (<[100 := []]> (<[101 := []]> (<[200 := []]> ∅))).

Definition zero_stats : net_device_stats := mk_stats 0 0 0 0 0.
Definition zero_estats : gfar_extra_stats := mk_estats 0 0 0 0 0 0 0 0.

(** A transmit queue and a receive queue of [n] descriptors before
    [gfar_init_bds]. *)
Definition fresh_txq (n : Z) : gfar_priv_tx_q :=
  mk_txq (replicate (Z.to_nat n) (mk_bd 0 0)) 0 0
         (replicate (Z.to_nat n) None) 0 0 n 0 0 0 0 false.
Definition fresh_rxq (n : Z) : gfar_priv_rx_q :=
  mk_rxq (replicate (Z.to_nat n) (mk_bd 0 0)) 0
         (replicate (Z.to_nat n) None) 0 n 0 0 0 0.

(** A device with one transmit and one receive queue of [n] descriptors
    each, and [bufs] the results of the coming allocations. *)
Definition fresh_priv (n : Z) (bufs : list (option sk_buff)) : gfar_private :=
  mk_priv [fresh_txq n] [fresh_rxq n] empty_recycle 1536 zero_stats
          zero_estats false false false false false false 0 0 bufs [] [] [].

Definition fresh_device (n : Z) (bufs : list (option sk_buff))
    (polls : list (Z * Z * Z)) : gfar_device :=
  mk_dev (fresh_priv n bufs) [1000] [2000] 3000 {[1000; 2000; 3000]} []
         (mk_regs 0 0 0x05) false polls.

(** ** The number of set bits of a [w]-bit word *)
Fixpoint popcount (w : nat) (x : Z) : Z :=
  match w with
  | O => 0
  | S w' => Z.b2z (Z.odd x) + popcount w' (Z.div2 x)
  end.



(** A segment as [gfar_tso] builds it: a buffer of the driver with one
    page fragment of 1000 bytes behind 54 bytes of headers. *)
Definition tso_segment_buffer (a : Z) : sk_buff :=
  skb_with_shinfo (skb_with_data (rx_buffer a) (a + 64) 1054) 1000
                  (mk_shinfo [mk_frag 70000 0 1000] 0 false false).

(** ** What the recycler leaves alone

    [pool_step p p']: [p'] differs from [p] in the recycle context, the
    allocator, the freed buffers and the log at most. *)
Definition pool_step (p p' : gfar_private) : Prop :=
  tx_queue p' = tx_queue p /\ rx_queue p' = rx_queue p /\
  rx_buffer_size p' = rx_buffer_size p /\
  stats p' = stats p /\ extra_stats p' = extra_stats p /\
  hwts_tx_en p' = hwts_tx_en p /\ hwts_tx_en_ioctl p' = hwts_tx_en_ioctl p /\
  errata_76 p' = errata_76 p /\ errata_12 p' = errata_12 p /\
  uses_fcb p' = uses_fcb p /\ has_timer p' = has_timer p /\
  padding p' = padding p /\ dfvlan p' = dfvlan p /\
  delivered p' = delivered p.

(** The transmit rings of [p'] hold what those of [p] hold: the same
    descriptors and the same buffers, queue by queue. *)
Definition tx_rings_kept (p p' : gfar_private) : Prop :=
  length (tx_queue p') = length (tx_queue p) /\
  forall i q, at_ (tx_queue p) i = Some q ->
    exists q', at_ (tx_queue p') i = Some q' /\
      tx_bd_base q' = tx_bd_base q /\ tx_skbuff q' = tx_skbuff q /\
      cur_tx q' = cur_tx q /\ dirty_tx q' = dirty_tx q /\
      skb_curtx q' = skb_curtx q /\ skb_dirtytx q' = skb_dirtytx q /\
      num_txbdfree q' = num_txbdfree q /\ tx_ring_size q' = tx_ring_size q.

(** The states of the examples: a device of one transmit and one receive
    ring of four descriptors after [gfar_init_bds], and after the
    submission of packets. *)
Definition after_init (p : gfar_private) : gfar_private :=
  match @init_rings etsec linux_model 0 p with
  | Some (inr p') => p'
  | _ => p
  end.
Definition after_xmit (p : gfar_private) (skb : sk_buff) : gfar_private :=
  match @gfar_start_xmit etsec linux_model 2 0 p skb with
  | Some (_, p') => p'
  | None => p
  end.
Definition ring4 : gfar_private :=
  after_init (fresh_priv 4 (map (fun a => Some (rx_buffer a))
                                [4096; 8192; 12288; 16384; 20480; 24576])).
Definition ring4_two_free : gfar_private :=
  after_xmit (after_xmit ring4 (packet 50000 100)) (packet 52048 100).

(** A large packet for software segmentation: 54 bytes of headers and
    two page fragments of 1000 bytes, to be cut at 1000 bytes. *)
Definition gso_packet : sk_buff :=
  packet_frags 60000 54 [mk_frag 70000 0 1000; mk_frag 80000 0 1000] 1000.

(** A packet that needs a frame control block and has no room for it. *)
Definition cramped_packet : sk_buff :=
  skb_with_offload (skb_with_data (packet 50000 100) 50000 100)
                   CHECKSUM_PARTIAL false 0.

Definition ring4_full : gfar_private :=
  after_xmit (after_xmit ring4_two_free (packet 54096 100)) (packet 56144 100).

(** ** Stores in the log *)

(** [e] is a store to descriptor [i] of ring [r]. *)
Definition writes_bd (r : ring_id) (i : Z) (e : event) : Prop :=
  match e with
  | EvBufPtr r' i' _ | EvLstatus r' i' _ => r' = r /\ i' = i
  | _ => False
  end.

(** [v] carries all the flags [fl]. *)
Definition has_flags (v fl : Z) : Prop := Z.land v (BD_LFLAG fl) = BD_LFLAG fl.

(** The first transmit queue of a device. *)
Definition txq0 (p : gfar_private) : gfar_priv_tx_q :=
  match tx_queue p with
  | q :: _ => q
  | [] => fresh_txq 0
  end.

(** The ring of four descriptors with one packet queued, and a packet of
    three descriptors: 54 bytes of headers and two page fragments. *)
Definition ring4_one_queued : gfar_private :=
  after_xmit ring4 (packet 50000 100).
Definition three_bd_packet : sk_buff :=
  packet_frags 60000 54 [mk_frag 70000 0 1000; mk_frag 80000 0 1000] 0.

(** ** Receive cleanup without a replacement buffer *)


(** The [lstatus] [gfar_init_rxbdp] arms descriptor [bdp] with. *)
Definition rx_armed `{gianfar_h} (q : gfar_priv_rx_q) (bdp : Z) : Z :=
  let l := BD_LFLAG (Z.lor RXBD_EMPTY RXBD_INTERRUPT) in
  if bdp =? rx_ring_size q - 1 then Z.lor l (BD_LFLAG RXBD_WRAP) else l.

(** The first receive queue of a device. *)
Definition rxq0 (p : gfar_private) : gfar_priv_rx_q :=
  match rx_queue p with
  | q :: _ => q
  | [] => fresh_rxq 0
  end.


(** ** Software segmentation *)

(** The state in which [gfar_tso] enters its loop for the packet [skb]. *)
Definition tso_start (skb : sk_buff) : tso_state :=
  mk_tso (frags (shinfo skb)) (skb_headlen skb)
         (mac_len (hdr skb) + nh_len (hdr skb) + th_len (hdr skb))
         (tcp_seq (hdr skb)) (ip_id (hdr skb)).

(** The state in which the loop of [gfar_tso] goes round again after a
    segment of [len_] bytes: [offset += len]. *)
Definition tso_next (st : tso_state) (len_ : Z) : tso_state :=
  mk_tso (tso_rem st) (tso_pos st) (u32 (tso_offset st + len_)) (tso_seq st)
         (tso_id st).

(** The packet [gso_packet] on the ring with three free descriptors,
    after the first turn of the loop of [gfar_tso]: the state of the
    loop and of the device when the second turn begins. *)
Definition tso_first_turn : option (tso_state * gfar_private) :=
  '(seg1, len1, st1, p1) ←
    @tso_segment etsec 0 gso_packet (tso_start gso_packet) ring4_one_queued;
  '(_, p2) ← @gfar_start_xmit etsec linux_model 1 0 p1 seg1;
  Some (tso_next st1 len1, p2).

(** ** Teardown and memory *)

(** [mem_step d d']: from [d] to [d'] the arrays and the descriptor
    memory have kept their addresses, and nothing has been allocated. *)
Definition mem_step (d d' : gfar_device) : Prop :=
  tx_bd_base_p d' = tx_bd_base_p d /\
  tx_skbuff_p d' = tx_skbuff_p d /\
  rx_skbuff_p d' = rx_skbuff_p d /\
  live d' ⊆ live d.

(** The device of [fresh_device] brought up by [gfar_init_bds]: one
    transmit and one receive ring of four descriptors, the receive ring
    filled with buffers; the hardware acknowledges a graceful stop at the
    first poll. *)
Definition running4 : gfar_device :=
  let d := fresh_device 4 (map (fun a => Some (rx_buffer a))
                               [4096; 8192; 12288; 16384])
                        [(0x02000100, 0x02000100, 0)] in
  match @gfar_init_bds etsec linux_model 0 d with
  | Some (true, d') => d'
  | _ => d
  end.

(** ** The WRAP flag of the rings *)

(** Which descriptors of a ring carry the flag [W], slot by slot, and
    the picture with the flag on the last of [N] slots and on no
    other. *)
Definition wrap_flags (W : Z) (bds : list bd) : list bool :=
  map (fun d => tst (lstatus d) (BD_LFLAG W)) bds.
Definition last_only (N : Z) : list bool :=
  map (fun i => i =? N - 1) (seqZ 0 N).

(** The same slot by slot: a ring of [N] descriptors whose descriptor
    [i] has the flag exactly when [i] is [N - 1]. *)
Definition wrap_pt (W N : Z) (bds : list bd) : Prop :=
  Z.of_nat (length bds) = N /\
  forall i d, at_ bds i = Some d -> tst (lstatus d) (BD_LFLAG W) = (i =? N - 1).

(** The buffers the recycler and the allocator hold are empty and not
    marked for segmentation, as [skb_recycle] and [netdev_alloc_skb]
    leave them. *)
Definition blank (b : sk_buff) : Prop :=
  len b = 0 /\ gso_size (shinfo b) = 0.
Definition pool_ok (p : gfar_private) : Prop :=
  map_Forall (fun _ q => Forall blank q) (skb_queues (recycle p)) /\
  Forall (fun o => forall b, o = Some b -> blank b) (allocator p).

(** The fragment at which the loop of [gfar_tso] stands has not been
    used up: it reaches beyond [offset]. *)
Definition frag_ahead (rem : list skb_frag_t) (pos offset : Z) : Prop :=
  match rem with
  | [] => True
  | f :: _ => offset < pos + frag_size f
  end.

(** A packet for [gfar_tso]: the headers lie in its linear part, its
    length is in the range of the [unsigned int] that holds it, and
    every fragment holds data. *)
Definition tso_fits (skb : sk_buff) : Prop :=
  let doffset := mac_len (hdr skb) + nh_len (hdr skb) + th_len (hdr skb) in
  0 < gso_size (shinfo skb) /\
  0 <= doffset <= skb_headlen skb /\
  skb_headlen skb <= len skb < 2 ^ 32 /\
  Forall (fun f => 0 < frag_size f) (frags (shinfo skb)).

(** The loop of [gfar_tso] between two segments of [skb]. *)
Definition tso_state_ok (skb : sk_buff) (st : tso_state) : Prop :=
  0 <= tso_offset st <= len skb /\
  Forall (fun f => 0 < frag_size f < 2 ^ 16) (tso_rem st) /\
  frag_ahead (tso_rem st) (tso_pos st) (tso_offset st).

(** What the controller does to a descriptor when it has sent or
    received a frame: it writes the status and length word back and
    leaves the W bit as the driver has set it. *)
Definition keep_wrap (W old v : Z) : Z :=
  Z.lor (Z.land v (Z.lnot (BD_LFLAG W))) (Z.land old (BD_LFLAG W)).

Section wrap.
Context `{gianfar_h} `{linux}.

(** A ring is allocated with as many descriptors as its size says, and
    at least one. *)
Definition tx_sized (q : gfar_priv_tx_q) : Prop :=
  0 < tx_ring_size q /\ Z.of_nat (length (tx_bd_base q)) = tx_ring_size q.
Definition rx_sized (q : gfar_priv_rx_q) : Prop :=
  0 < rx_ring_size q /\ Z.of_nat (length (rx_bd_base q)) = rx_ring_size q.
Definition rings_sized (p : gfar_private) : Prop :=
  Forall tx_sized (tx_queue p) /\ Forall rx_sized (rx_queue p).

(** Exactly one descriptor of the ring has WRAP set, the last one. *)
Definition tx_wrap_ok (q : gfar_priv_tx_q) : Prop :=
  0 < tx_ring_size q /\
  wrap_flags TXBD_WRAP (tx_bd_base q) = last_only (tx_ring_size q).
Definition rx_wrap_ok (q : gfar_priv_rx_q) : Prop :=
  0 < rx_ring_size q /\
  wrap_flags RXBD_WRAP (rx_bd_base q) = last_only (rx_ring_size q).
Definition wrap_inv (p : gfar_private) : Prop :=
  Forall tx_wrap_ok (tx_queue p) /\ Forall rx_wrap_ok (rx_queue p).

(** The invariant of the device: the rings and the buffer pool. *)
Definition ring_inv (p : gfar_private) : Prop := wrap_inv p /\ pool_ok p.

(** The lengths of a frame fit the 16-bit length field of a descriptor,
    and its linear part holds a frame control block at least. *)
Definition frame_fits (skb : sk_buff) : Prop :=
  GMAC_FCB_LEN <= skb_headlen skb /\
  skb_headlen skb + GMAC_FCB_LEN < 2 ^ 16 /\
  Forall (fun f => 0 <= frag_size f < 2 ^ 16) (frags (shinfo skb)).

(** The controller writes [v] back to descriptor [i] of ring [r]. *)
Definition hw_writeback (r : ring_id) (i v : Z) (p : gfar_private)
    : option gfar_private :=
  match r with
  | TxRing rq =>
      q ← at_ (tx_queue p) rq;
      d ← at_ (tx_bd_base q) i;
      let d' := set_lstatus d (keep_wrap TXBD_WRAP (lstatus d) v) in
      Some (with_txq p rq (txq_with_bds q (upd (tx_bd_base q) i d')))
  | RxRing rq =>
      q ← at_ (rx_queue p) rq;
      d ← at_ (rx_bd_base q) i;
      let d' := set_lstatus d (keep_wrap RXBD_WRAP (lstatus d) v) in
      Some (with_rxq p rq (rxq_with_bds q (upd (rx_bd_base q) i d')))
  end.

(** The states of the rings the driver and the controller reach: from
    the initialization of freshly allocated rings, by submitting frames
    (segmented in software by [gfar_tso] or not), by cleaning the
    transmit and the receive rings, and by the controller writing
    descriptors back. *)
Inductive reach : gfar_private -> Prop :=
| reach_init (cpu : Z) (p0 p : gfar_private) :
    rings_sized p0 -> pool_ok p0 ->
    init_rings cpu p0 = Some (inr p) -> reach p
| reach_xmit (fuel : nat) (cpu : Z) (p : gfar_private) (skb : sk_buff)
      (r : netdev_tx) (p' : gfar_private) :
    reach p -> frame_fits skb -> (skb_is_gso skb = true -> tso_fits skb) ->
    gfar_start_xmit fuel cpu p skb = Some (r, p') -> reach p'
| reach_clean_tx (cpu rq : Z) (p : gfar_private) (limit n : Z)
      (p' : gfar_private) :
    reach p -> gfar_clean_tx_ring cpu rq p limit = Some (n, p') -> reach p'
| reach_clean_rx (cpu rq : Z) (p : gfar_private) (limit n : Z)
      (p' : gfar_private) :
    reach p -> gfar_clean_rx_ring cpu rq p limit = Some (n, p') -> reach p'
| reach_hw (r : ring_id) (i v : Z) (p p' : gfar_private) :
    reach p -> hw_writeback r i v p = Some p' -> reach p'.

End wrap.

(** The ring of four descriptors at work: four frames queued
    ([ring4_full]), the controller sends them and clears their
    descriptors, the driver cleans the transmit ring; the controller
    receives four frames of 64 bytes, the driver cleans the receive
    ring; and a large packet goes out in two segments. *)
Definition or_stay (p : gfar_private) (o : option gfar_private)
    : gfar_private :=
  match o with
  | Some p' => p'
  | None => p
  end.

Definition controller_writes (r : ring_id) (i v : Z) (p : gfar_private)
    : gfar_private :=
  or_stay p (@hw_writeback etsec r i v p).

Definition ring4_sent : gfar_private :=
  controller_writes (TxRing 0) 3 0
    (controller_writes (TxRing 0) 2 0
       (controller_writes (TxRing 0) 1 0
          (controller_writes (TxRing 0) 0 0 ring4_full))).

Definition ring4_tx_cleaned : gfar_private :=
  or_stay ring4_sent
    (snd <$> @gfar_clean_tx_ring etsec linux_model 0 0 ring4_sent 4).

Definition ring4_received_all : gfar_private :=
  controller_writes (RxRing 0) 3 0x08000040
    (controller_writes (RxRing 0) 2 0x08000040
       (controller_writes (RxRing 0) 1 0x08000040
          (controller_writes (RxRing 0) 0 0x08000040 ring4_tx_cleaned))).

Definition ring4_rx_cleaned : gfar_private :=
  or_stay ring4_received_all
    (snd <$> @gfar_clean_rx_ring etsec linux_model 0 0 ring4_received_all 4).

Definition ring4_segmented : gfar_private :=
  after_xmit ring4_rx_cleaned gso_packet.

(** ** The length of the recycle queues *)

(** No queue of the recycle context holds more than [recycle_max]
    buffers. *)
Definition recycle_bounded (r : gfar_recycle_cntxt) : Prop :=
  map_Forall (fun _ q => Z.of_nat (length q) <= recycle_max r) (skb_queues r).



(** The running device after [gfar_halt]. *)
Definition halted4 : gfar_device :=
  match @gfar_halt etsec running4 with
  | Some d => d
  | None => running4
  end.

(** The receive poll of the ring of four descriptors with four frames
    received, queue 0 flagged in RSTAT, with a budget of 4. *)
Definition ring4_polled : Z * gfar_priv_grp * gfar_private :=
  let grp := mk_grp 1 0 0x00800000 0 0 true in
  match @gfar_poll_rx etsec linux_model 0 grp ring4_received_all 4 with
  | Some r => r
  | None => (0, grp, ring4_received_all)
  end.

(** ** The queue bit maps

    The loop of [reverse_bitmap]; [n] turns are left and [i] is the loop
    counter. *)
Fixpoint reverse_bitmap_loop (n : nat) (bit_map mask i new_bit_map : Z) : Z :=
  match n with
  | O => new_bit_map
  | S n' =>
      let new_bit_map :=
        if negb (Z.land bit_map mask =? 0)
        then u32 (new_bit_map + Z.shiftl 1 i) else new_bit_map in
      reverse_bitmap_loop n' bit_map (Z.shiftr mask 1) (i + 1) new_bit_map
  end.

(** [reverse_bitmap(bit_map, max_qs)].  The mask [0x1 << (max_qs - 1)] is
    an [int]; C gives the shift no result for [max_qs = 0] and for
    [max_qs > 31]. *)
Definition reverse_bitmap (bit_map max_qs : Z) : option Z :=
  if (1 <=? max_qs) && (max_qs <=? 31) then
    Some (reverse_bitmap_loop (Z.to_nat max_qs) bit_map
            (Z.shiftl 1 (max_qs - 1)) 0 0)
  else None.

(** ** The multicast hash table

    [priv->hash_regs] points at the group-address registers; the table
    is modelled by the values of these registers, in the order of
    [hash_regs].  [ether_crc] of the kernel and [MAC_ADDR_LEN] of
    gianfar.h are not among the sources and are parameters. *)
Section hash.
Variable MAC_ADDR_LEN : Z.
(* u32 ether_crc(int length, unsigned char *data) *)
Variable ether_crc : Z -> list Z -> Z.

(** [gfar_set_hash_for_addr(dev, addr)] on the hash registers.  The two
    right shifts of the [u32] have a result for [6 <= width <= 32] only;
    [1 << 31], for [whichbit = 0], is taken with the value the kernel's
    compiler gives it, the sign bit. *)
Definition gfar_set_hash_for_addr (hash_width : Z) (hash_regs : list Z)
    (addr : list Z) : option (list Z) :=
  let result := u32 (ether_crc MAC_ADDR_LEN addr) in
  let width := hash_width in
  if negb ((6 <=? width) && (width <=? 32)) then None else
  let whichbit := Z.land (Z.land (Z.shiftr result (32 - width)) 0x1f) 0xff in
  let whichreg := Z.land (Z.shiftr result (32 - width + 5)) 0xff in
  let value := u32 (Z.shiftl 1 (31 - whichbit)) in
  tempval ← at_ hash_regs whichreg;
  let tempval := Z.lor tempval value in
  Some (upd hash_regs whichreg tempval).

End hash.

(** The entry of the hash table an address selects: the [width] most
    significant bits of its CRC. *)
Definition hash_entry (crc width : Z) : Z := Z.shiftr (u32 crc) (32 - width).

(** Entry [e] of the hash table: bit [31 - e mod 32], the bit [e mod 32]
    places from the most significant one, of register [e / 32]. *)
Definition hash_table_entry (hash_regs : list Z) (e : Z) : option bool :=
  v ← at_ hash_regs (e / 32);
  Some (Z.testbit v (31 - e mod 32)).

(** ** The rings after initialization *)

(** A transmit ring as [gfar_init_bds] leaves it: the indices at the
    first descriptor, every descriptor free, and every descriptor zero
    but for WRAP on the last. *)
Definition tx_ring_ready `{gianfar_h} (q : gfar_priv_tx_q) : Prop :=
  cur_tx q = 0 /\ dirty_tx q = 0 /\ skb_curtx q = 0 /\ skb_dirtytx q = 0 /\
  num_txbdfree q = tx_ring_size q /\
  forall k, 0 <= k < tx_ring_size q ->
    at_ (tx_bd_base q) k =
      Some (mk_bd (if k =? tx_ring_size q - 1 then BD_LFLAG TXBD_WRAP else 0)
                  0).

(** A receive ring [q] as [gfar_init_bds] leaves it, [q0] being the ring
    before: the indices at the first descriptor; every slot holds a
    buffer and its descriptor is armed; a slot that held a buffer has
    kept it and the pointer of its descriptor, and the descriptor of a
    slot that was empty points at the data of the new buffer. *)
Definition rx_ring_ready `{gianfar_h} `{linux} (size : Z)
    (q0 q : gfar_priv_rx_q) : Prop :=
  cur_rx q = 0 /\ skb_currx q = 0 /\ rx_ring_size q = rx_ring_size q0 /\
  forall k, 0 <= k < rx_ring_size q ->
    exists d s,
      at_ (rx_bd_base q) k = Some d /\
      at_ (rx_skbuff q) k = Some (Some s) /\
      lstatus d = rx_armed q k /\
      match at_ (rx_skbuff q0) k, at_ (rx_bd_base q0) k with
      | Some (Some s0), Some d0 => s = s0 /\ bufPtr d = bufPtr d0
      | _, _ => bufPtr d = dma_map_single (data s) size
      end.

(** ** Receive rings that own a buffer in every slot *)

Definition rx_filled (p : gfar_private) : Prop :=
  Forall (fun q => Forall (fun o : option sk_buff => o <> None) (rx_skbuff q))
         (rx_queue p).

(** ** Teardown of a device that is up *)

(** The memory of a device that is up: the [tx_skbuff] and [rx_skbuff]
    arrays, one for each queue, and the descriptor memory are
    allocations of their own that have not been given back. *)
Definition mem_ok (d : gfar_device) : Prop :=
  let mem := tx_skbuff_p d ++ rx_skbuff_p d ++ [tx_bd_base_p d] in
  NoDup mem /\ Forall (fun a => a <> 0 /\ a ∈ live d) mem /\
  length (tx_skbuff_p d) = length (tx_queue (priv d)) /\
  length (rx_skbuff_p d) = length (rx_queue (priv d)).

(** From [d] to [d'] the allocations [S] have been given back, and
    nothing has gone wrong. *)
Definition frees (S : list Z) (d d' : gfar_device) : Prop :=
  tx_bd_base_p d' = tx_bd_base_p d /\
  tx_skbuff_p d' = tx_skbuff_p d /\
  rx_skbuff_p d' = rx_skbuff_p d /\
  faults d' = faults d /\
  live d' = live d ∖ list_to_set S /\
  length (tx_queue (priv d')) = length (tx_queue (priv d)) /\
  length (rx_queue (priv d')) = length (rx_queue (priv d)).

(** The running device after [stop_gfar]. *)
Definition stopped4 : gfar_device :=
  match @stop_gfar etsec running4 with
  | Some d => d
  | None => running4
  end.



(** ** The transmit poll *)

(** The masks of gianfar.h the transmit poll works with; the header is
    not among the sources and they are parameters. *)
Class gianfar_h_tx := {
  TSTAT_TXF_MASK_ALL : Z;
  TSTAT_TXF0_MASK : Z;
  IEVENT_TX_MASK : Z;
  IMASK_DEFAULT_TX : Z
}.

(** [struct gfar_priv_grp], the transmit side: the queue bitmap, the
    values the registers TSTAT and IMASK of the group read as, and
    whether the transmit NAPI context is scheduled. *)
Record gfar_priv_grp_tx := mk_grp_tx {
  tx_bit_map : Z;
  regs_tstat : Z;
  tx_regs_imask : Z;
  napi_tx_scheduled : bool
}.

Section poll_tx.
Context `{gianfar_h} `{linux} `{gianfar_h_tx}.

(** The head of [gfar_poll_tx]: [budget_per_queue]; the division has no
    result when no queue is active. *)
Definition poll_tx_budget (grp : gfar_priv_grp_tx) (budget : Z) : option Z :=
  let tstat := regs_tstat grp in
  let tstat := Z.land tstat TSTAT_TXF_MASK_ALL in
  num_act_qs ← count_act_qs 32 tstat 0;
  if num_act_qs =? 0 then None else Some (budget ÷ num_act_qs).

(** The [for_each_set_bit] loop of [gfar_poll_tx] over the queues [qs]. *)
Fixpoint poll_tx_queues (cpu : Z) (qs : list Z) (bit_map tstat : Z)
    (budget_per_queue : Z) (p : gfar_private)
    (acc : Z * bool)   (* tx_cleaned, napi_done *)
    : option (Z * bool * gfar_private) :=
  match qs with
  | [] => Some (acc, p)
  | i :: rest =>
      let '(tx_cleaned, napi_done) := acc in
      let mask := Z.shiftr TSTAT_TXF0_MASK i in
      if Z.testbit bit_map i && tst tstat mask then
        '(tx_cleaned_per_queue, p) ←
          gfar_clean_tx_ring cpu i p budget_per_queue;
        poll_tx_queues cpu rest bit_map tstat budget_per_queue p
          (tx_cleaned + tx_cleaned_per_queue,
           napi_done && (tx_cleaned_per_queue <? budget_per_queue))
      else
        poll_tx_queues cpu rest bit_map tstat budget_per_queue p acc
  end.

(** [gfar_poll_tx(napi, budget)] for the group [grp].  The coalescing
    registers [gfar_configure_tx_coalescing] programs are not modelled. *)
Definition gfar_poll_tx (cpu : Z) (grp : gfar_priv_grp_tx) (p : gfar_private)
    (budget : Z) : option (Z * gfar_priv_grp_tx * gfar_private) :=
  let tstat := Z.land (regs_tstat grp) TSTAT_TXF_MASK_ALL in
  budget_per_queue ← poll_tx_budget grp budget;
  (* Clear IEVENT, so interrupts aren't called again *)
  let p := emit p [EvRegWrite R_ievent IEVENT_TX_MASK] in
  '(tx_cleaned, napi_done, p) ←
    poll_tx_queues cpu (seqZ 0 (Z.of_nat (length (tx_queue p))))
      (tx_bit_map grp) tstat budget_per_queue p (0, true);
  if (napi_done : bool) then
    let imask := Z.lor (tx_regs_imask grp) IMASK_DEFAULT_TX in
    Some (tx_cleaned,
          mk_grp_tx (tx_bit_map grp) (regs_tstat grp) imask false,
          emit p [EvRegWrite R_imask imask])
  else Some (tx_cleaned, grp, p).

End poll_tx.

(** The eTSEC values of the transmit masks. *)
Definition etsec_tx : gianfar_h_tx := {|
  TSTAT_TXF_MASK_ALL := 0x0000ff00;
  TSTAT_TXF0_MASK := 0x00008000;
  IEVENT_TX_MASK := 0x00900000;
  IMASK_DEFAULT_TX := 0x00900000
|}.

(** The transmit poll of the ring of four descriptors whose four frames
    the controller has sent, queue 0 flagged in TSTAT, with a budget of
    4. *)
Definition ring4_tx_polled : Z * gfar_priv_grp_tx * gfar_private :=
  let grp := mk_grp_tx 1 0x00008000 0 true in
  match @gfar_poll_tx etsec linux_model etsec_tx 0 grp ring4_sent 4 with
  | Some r => r
  | None => (0, grp, ring4_sent)
  end.

(** ** Changing the MTU *)

(** The arithmetic of [int]: the kernel is built with
    [-fno-strict-overflow], and a sum that leaves the range of [int]
    wraps around. *)
Definition s32 (x : Z) : Z := (x + 2 ^ 31) mod 2 ^ 32 - 2 ^ 31.

(** The sizes and flags of gianfar.h and of the kernel headers that
    [gfar_change_mtu] works with; they are parameters. *)
Class gianfar_h_mtu := {
  ETH_HLEN : Z;
  VLAN_HLEN : Z;
  JUMBO_FRAME_SIZE : Z;
  INCREMENTAL_BUFFER_SIZE : Z;
  DEFAULT_RX_BUFFER_SIZE : Z;
  MACCFG2_HUGEFRAME : Z;
  MACCFG2_LENGTHCHECK : Z;
  EINVAL : Z
}.

(** What [gfar_change_mtu] reads and writes of the device: the fields of
    [struct gfar_private] and [struct net_device], and the registers
    MRBLR, MAXFRM and MACCFG2.  The calls of [stop_gfar] and
    [startup_gfar] are recorded in [restarts]; what they do to the rings
    is not part of this model. *)
Inductive restart_call := CallStopGfar | CallStartupGfar.

Record gfar_mtu_dev := mk_mtu_dev {
  m_rx_buffer_size : Z;
  m_mtu : Z;
  m_padding : Z;
  m_hw_vlan_rx : bool;     (* features & NETIF_F_HW_VLAN_RX *)
  m_hw_vlan_tx : bool;     (* features & NETIF_F_HW_VLAN_TX *)
  m_rxcsum : bool;         (* features & NETIF_F_RXCSUM *)
  m_has_timer : bool;      (* device_flags & FSL_GIANFAR_DEV_HAS_TIMER *)
  m_errata_74 : bool;
  m_iff_up : bool;         (* dev->flags & IFF_UP *)
  m_mrblr : Z;
  m_maxfrm : Z;
  m_maccfg2 : Z;
  restarts : list restart_call
}.

Section change_mtu.
Context `{gianfar_h} `{gianfar_h_mtu}.

(** [gfar_is_vlan_on(priv)] *)
Definition gfar_is_vlan_on (d : gfar_mtu_dev) : bool :=
  m_hw_vlan_rx d || m_hw_vlan_tx d.

(** [gfar_uses_fcb(priv)] *)
Definition gfar_uses_fcb (d : gfar_mtu_dev) : bool :=
  gfar_is_vlan_on d || m_rxcsum d || m_has_timer d.

(** The frame size [gfar_change_mtu] checks, and the one it sizes the
    buffers for; both are [int]. *)
Definition mtu_frame_size (d : gfar_mtu_dev) (new_mtu : Z) : Z :=
  let frame_size := s32 (new_mtu + ETH_HLEN) in
  if gfar_is_vlan_on d then s32 (frame_size + VLAN_HLEN) else frame_size.
Definition mtu_buffer_need (d : gfar_mtu_dev) (new_mtu : Z) : Z :=
  let frame_size := mtu_frame_size d new_mtu in
  let frame_size := if gfar_uses_fcb d then s32 (frame_size + GMAC_FCB_LEN)
                    else frame_size in
  s32 (frame_size + m_padding d).

(** [gfar_change_mtu(dev, new_mtu)]: the value returned and the device
    after the call. *)
Definition gfar_change_mtu (d : gfar_mtu_dev) (new_mtu : Z)
    : option (Z * gfar_mtu_dev) :=
  let oldsize := m_rx_buffer_size d in
  let frame_size := mtu_frame_size d new_mtu in
  if (frame_size <? 64) || (frame_size >? JUMBO_FRAME_SIZE) then
    Some (- EINVAL, d)
  else
    let frame_size := mtu_buffer_need d new_mtu in
    let tempsize :=
      s32 (Z.land frame_size (Z.lnot (INCREMENTAL_BUFFER_SIZE - 1))
           + INCREMENTAL_BUFFER_SIZE) in
    (* Only stop and start the controller if it isn't already stopped,
       and we changed something *)
    let restart := negb (oldsize =? tempsize) && m_iff_up d in
    let calls := if restart then restarts d ++ [CallStopGfar]
                 else restarts d in
    let tempval := m_maccfg2 d in
    let tempval :=
      if (tempsize >? DEFAULT_RX_BUFFER_SIZE) || m_errata_74 d
      then Z.lor tempval (Z.lor MACCFG2_HUGEFRAME MACCFG2_LENGTHCHECK)
      else Z.land tempval
                  (Z.lnot (Z.lor MACCFG2_HUGEFRAME MACCFG2_LENGTHCHECK)) in
    let calls := if restart then calls ++ [CallStartupGfar] else calls in
    Some (0,
          mk_mtu_dev tempsize new_mtu (m_padding d) (m_hw_vlan_rx d)
                     (m_hw_vlan_tx d) (m_rxcsum d) (m_has_timer d)
                     (m_errata_74 d) (m_iff_up d) tempsize tempsize tempval
                     calls).

End change_mtu.

(** The values of the eTSEC driver. *)
Definition etsec_mtu : gianfar_h_mtu := {|
  ETH_HLEN := 14;
  VLAN_HLEN := 4;
  JUMBO_FRAME_SIZE := 9600;
  INCREMENTAL_BUFFER_SIZE := 512;
  DEFAULT_RX_BUFFER_SIZE := 1536;
  MACCFG2_HUGEFRAME := 0x20;
  MACCFG2_LENGTHCHECK := 0x10;
  EINVAL := 22
|}.

(** A device that is up with the standard MTU. *)
Definition mtu1500 : gfar_mtu_dev :=
  mk_mtu_dev 1536 1500 0 false false false false false true 1536 1536
             0x7205 [].

(** ** The alignment of the receive buffers *)

(** The data of a buffer start at a multiple of [RXBUF_ALIGNMENT]. *)
Definition rx_aligned `{gianfar_h} (b : sk_buff) : Prop :=
  Z.land (data b) (RXBUF_ALIGNMENT - 1) = 0.
Definition pool_aligned `{gianfar_h} (p : gfar_private) : Prop :=
  map_Forall (fun _ q => Forall rx_aligned q) (skb_queues (recycle p)).

(** ** The count of the free transmit descriptors *)

(** The indices of a transmit ring are descriptors of the ring, the
    count of free descriptors is an [unsigned int], and the descriptors
    that are not free are the ones from [dirty_tx] up to [cur_tx]. *)
Definition tx_accounted (q : gfar_priv_tx_q) : Prop :=
  0 <= cur_tx q < tx_ring_size q /\ 0 <= dirty_tx q < tx_ring_size q /\
  0 <= num_txbdfree q < 2 ^ 32 /\
  cur_tx q
  = (dirty_tx q + (tx_ring_size q - num_txbdfree q)) mod tx_ring_size q.

(** The ring of four descriptors after the hardware has stored a frame
    of 64 bytes with a CRC error in descriptor 0 (LAST and CRCERR set,
    EMPTY cleared), and the device after one turn of the receive loop on
    that descriptor. *)
Definition crc_error_bd : bd :=
  mk_bd (Z.lor (BD_LFLAG (Z.lor (@RXBD_LAST etsec)
                                (Z.lor (@RXBD_INTERRUPT etsec)
                                       (@RXBD_CRCERR etsec)))) 64)
        (4096 + 64).
Definition ring4_crc_error : gfar_private :=
  let q := rxq0 ring4 in
  with_rxq ring4 0 (rxq_with_bds q (upd (rx_bd_base q) 0 crc_error_bd)).
Definition ring4_crc_dropped : gfar_private :=
  match @clean_rx_step etsec linux_model 0 0 ring4_crc_error 0 0 with
  | Some (_, _, p) => p
  | None => ring4_crc_error
  end.

(** ** The slots of a transmit ring *)

(** The buffers the slots of [tx_skbuff] hold. *)
Definition tx_held (q : gfar_priv_tx_q) : list sk_buff :=
  omap id (tx_skbuff q).

(* ===================================================================== *)
(** * Properties *)
(* ===================================================================== *)

(** ** Arrays *)

Lemma at_upd_eq {A} (l : list A) (i : Z) (x y : A) :
  at_ l i = Some y -> at_ (upd l i x) i = Some x.
Proof.
  unfold at_, upd. intros Hy. destruct (decide (0 <= i)); [|done].
  apply list_lookup_insert_eq. by eapply lookup_lt_Some.
Qed.

Lemma at_upd_ne {A} (l : list A) (i j : Z) (x : A) :
  i <> j -> at_ (upd l i x) j = at_ l j.
Proof.
  unfold at_, upd. intros Hne.
  destruct (decide (0 <= i)), (decide (0 <= j)); try done.
  apply list_lookup_insert_ne. lia.
Qed.

Lemma length_upd {A} (l : list A) (i : Z) (x : A) :
  length (upd l i x) = length l.
Proof. unfold upd. destruct (decide (0 <= i)); [apply length_insert|done]. Qed.

Lemma fmap_upd {A B} (f : A -> B) (l : list A) (i : Z) (x : A) :
  f <$> upd l i x = upd (f <$> l) i (f x).
Proof.
  unfold upd. destruct (decide (0 <= i)); [|done]. apply list_fmap_insert.
Qed.

Lemma upd_id {A} (l : list A) (i : Z) (x : A) :
  at_ l i = Some x -> upd l i x = l.
Proof.
  unfold at_, upd. destruct (decide (0 <= i)); [|done].
  apply list_insert_id.
Qed.

Lemma upd_upd {A} (l : list A) (i : Z) (x y : A) :
  upd (upd l i y) i x = upd l i x.
Proof.
  unfold upd. destruct (decide (0 <= i)); [|done]. apply list_insert_insert_eq.
Qed.

Lemma at_fmap {A B} (f : A -> B) (l : list A) (i : Z) :
  at_ (f <$> l) i = f <$> at_ l i.
Proof.
  unfold at_. destruct (decide (0 <= i)); [|done]. apply list_lookup_fmap.
Qed.

Lemma at_Some_lt {A} (l : list A) (i : Z) (x : A) :
  at_ l i = Some x -> 0 <= i < Z.of_nat (length l).
Proof.
  unfold at_. destruct (decide (0 <= i)); [|done].
  intros Hx%lookup_lt_Some. lia.
Qed.

(** ** Receive error accounting (C10) *)

(** C10.  For a received frame whose status has the TRUNCATED bit set,
    [count_errors] increments the length-error counter and the truncated
    counter and returns: the large, short, non-octet, CRC and overrun
    counters, and the frame-error and CRC-error statistics, are left
    alone whatever other bits the status carries. *)
Theorem count_errors_truncated_only `{gianfar_h} (status : Z)
    (st : net_device_stats) (est : gfar_extra_stats) :
  Z.land status RXBD_TRUNCATED <> 0 ->
  let r := count_errors status (st, est) in
  rx_length_errors (fst r) = ulong_inc (rx_length_errors st) /\
  rx_trunc (snd r) = u64_inc (rx_trunc est) /\
  rx_large (snd r) = rx_large est /\
  rx_short (snd r) = rx_short est /\
  rx_nonoctet (snd r) = rx_nonoctet est /\
  rx_crcerr (snd r) = rx_crcerr est /\
  rx_overrun (snd r) = rx_overrun est /\
  rx_skbmissing (snd r) = rx_skbmissing est /\
  kernel_dropped (snd r) = kernel_dropped est /\
  rx_frame_errors (fst r) = rx_frame_errors st /\
  rx_crc_errors (fst r) = rx_crc_errors st /\
  tx_errors (fst r) = tx_errors st /\
  tx_fifo_errors (fst r) = tx_fifo_errors st.
Proof.
  intros Htr. unfold count_errors, tst.
  destruct (Z.eqb_spec (Z.land status RXBD_TRUNCATED) 0) as [E|_];
    [contradiction|].
  cbn. repeat split.
Qed.

(** A frame with every error bit set counts as truncated only. *)
Lemma count_errors_truncated_only_witness :
  Z.land 0x3f (@RXBD_TRUNCATED etsec) <> 0 /\
  let r := count_errors (H := etsec) 0x3f (zero_stats, zero_estats) in
  rx_length_errors (fst r) = 1 /\ rx_trunc (snd r) = 1 /\
  rx_large (snd r) = 0 /\ rx_short (snd r) = 0 /\ rx_nonoctet (snd r) = 0 /\
  rx_crcerr (snd r) = 0 /\ rx_overrun (snd r) = 0 /\
  rx_skbmissing (snd r) = 0 /\ kernel_dropped (snd r) = 0 /\
  rx_frame_errors (fst r) = 0 /\ rx_crc_errors (fst r) = 0 /\
  tx_errors (fst r) = 0 /\ tx_fifo_errors (fst r) = 0.
Proof.
  assert (Hb : Z.land 0x3f (@RXBD_TRUNCATED etsec) <> 0)
    by (vm_compute; discriminate).
  split; [exact Hb|].
  exact (@count_errors_truncated_only etsec 0x3f zero_stats zero_estats Hb).
Defined.

(** ** The budget of the receive poll (C9) *)

Lemma land_pred_double (x : Z) :
  0 < x -> Z.land (2 * x) (2 * x - 1) = 2 * Z.land x (x - 1).
Proof.
  intros Hx. apply Z.bits_inj'. intros n Hn.
  rewrite Z.land_spec.
  destruct (Z.eq_dec n 0) as [->|Hn0].
  - rewrite Z.testbit_even_0. rewrite (Z.testbit_even_0 (Z.land x (x - 1))).
    reflexivity.
  - replace n with (Z.succ (n - 1)) by lia.
    rewrite !Z.double_bits_succ.
    replace (2 * x - 1) with (2 * (x - 1) + 1) by lia.
    rewrite Z.testbit_odd_succ by lia.
    rewrite Z.land_spec. reflexivity.
Qed.

Lemma land_pred_odd (x : Z) : 0 <= x -> Z.land (2 * x + 1) (2 * x + 1 - 1) = 2 * x.
Proof.
  intros Hx. replace (2 * x + 1 - 1) with (2 * x) by lia.
  apply Z.bits_inj'. intros n Hn. rewrite Z.land_spec.
  destruct (Z.eq_dec n 0) as [->|Hn0].
  - rewrite Z.testbit_even_0. apply andb_false_r.
  - replace n with (Z.succ (n - 1)) by lia.
    rewrite Z.testbit_odd_succ by lia. rewrite Z.double_bits_succ.
    apply andb_diag.
Qed.

Lemma count_act_qs_double (n : nat) (x acc : Z) :
  0 <= x -> count_act_qs n (2 * x) acc = count_act_qs n x acc.
Proof.
  revert x acc. induction n as [|n IH]; intros x acc Hx.
  - cbn. destruct (Z.eqb_spec (2 * x) 0), (Z.eqb_spec x 0); (done || lia).
  - cbn. destruct (Z.eqb_spec (2 * x) 0), (Z.eqb_spec x 0); try (done || lia).
    rewrite land_pred_double by lia. apply IH.
    apply Z.land_nonneg. lia.
Qed.

Lemma popcount_nonneg (w : nat) (x : Z) : 0 <= popcount w x.
Proof.
  revert x. induction w as [|w IH]; intros x; cbn; [lia|].
  specialize (IH (Z.div2 x)). destruct (Z.odd x); cbn; lia.
Qed.

Lemma popcount_le (w : nat) (x : Z) : popcount w x <= Z.of_nat w.
Proof.
  revert x. induction w as [|w IH]; intros x; [cbn; lia|].
  cbn [popcount]. specialize (IH (Z.div2 x)). destruct (Z.odd x); cbn; lia.
Qed.

Lemma popcount_zero (w : nat) (x : Z) :
  0 <= x < 2 ^ Z.of_nat w -> popcount w x = 0 -> x = 0.
Proof.
  revert x. induction w as [|w IH]; intros x Hx Hp.
  - cbn in Hx. lia.
  - cbn [popcount] in Hp. pose proof (popcount_nonneg w (Z.div2 x)).
    pose proof (Z.div2_odd x) as Hd.
    destruct (Z.odd x); cbn in *; [lia|].
    assert (Z.div2 x = 0); [|lia].
    apply IH; [|lia].
    rewrite Nat2Z.inj_succ, Z.pow_succ_r in Hx by lia. lia.
Qed.

(** The loop of [gfar_poll_rx] counts the set bits. *)
Lemma count_act_qs_popcount (w n : nat) (x acc : Z) :
  0 <= x < 2 ^ Z.of_nat w ->
  popcount w x <= Z.of_nat n ->
  count_act_qs n x acc = Some (acc + popcount w x).
Proof.
  revert n x acc. induction w as [|w IH]; intros n x acc Hx Hn.
  - assert (x = 0) as -> by (cbn in Hx; lia).
    destruct n; cbn; f_equal; lia.
  - cbn [popcount] in *.
    rewrite Nat2Z.inj_succ, Z.pow_succ_r in Hx by lia.
    pose proof (Z.div2_odd x) as Hd.
    pose proof (popcount_nonneg w (Z.div2 x)) as Hp.
    assert (Hy : 0 <= Z.div2 x < 2 ^ Z.of_nat w).
    { destruct (Z.odd x); cbn in Hd; lia. }
    destruct (Z.odd x) eqn:Hodd; cbn [Z.b2z] in *.
    + destruct n as [|n]; [lia|].
      rewrite Hd at 1.
      cbn [count_act_qs].
      destruct (Z.eqb_spec (2 * Z.div2 x + 1) 0); [lia|].
      rewrite land_pred_odd by lia.
      rewrite count_act_qs_double by lia.
      rewrite IH by lia. f_equal. lia.
    + rewrite Hd at 1. rewrite Z.add_0_r.
      rewrite count_act_qs_double by lia.
      rewrite IH by lia. f_equal.
Qed.

Lemma count_act_qs_32 (x : Z) :
  0 <= x < 2 ^ 32 -> count_act_qs 32 x 0 = Some (popcount 32 x).
Proof.
  intros Hr.
  rewrite (count_act_qs_popcount 32 32); [f_equal|exact Hr|apply popcount_le].
Qed.


Lemma poll_rx_budget_some `{gianfar_h} (grp : gfar_priv_grp) (budget : Z) :
  let rstat_rxf := Z.lor (Z.land (regs_rstat grp) RSTAT_RXF_ALL_MASK)
                         (rstat_prev grp) in
  0 <= rstat_rxf < 2 ^ 32 -> rstat_rxf <> 0 ->
  poll_rx_budget grp budget = Some (budget ÷ popcount 32 rstat_rxf).
Proof.
  intros x Hr Hne. unfold poll_rx_budget. fold x. rewrite (count_act_qs_32 x Hr).
  cbn [mbind option_bind].
  assert (Hp : popcount 32 x <> 0).
  { intros E. apply Hne. apply (popcount_zero 32); [exact Hr|exact E]. }
  apply Z.eqb_neq in Hp. rewrite Hp. reflexivity.
Qed.

Lemma poll_rx_budget_none `{gianfar_h} (grp : gfar_priv_grp) (budget : Z) :
  Z.lor (Z.land (regs_rstat grp) RSTAT_RXF_ALL_MASK) (rstat_prev grp) = 0 ->
  poll_rx_budget grp budget = None.
Proof.
  intros E. unfold poll_rx_budget. rewrite E. vm_compute. reflexivity.
Qed.

Lemma gfar_poll_rx_none `{gianfar_h} `{linux} (cpu : Z) (grp : gfar_priv_grp)
    (p : gfar_private) (budget : Z) :
  poll_rx_budget grp budget = None -> gfar_poll_rx cpu grp p budget = None.
Proof. intros E. unfold gfar_poll_rx. rewrite E. reflexivity. Qed.



(** ** The buffer recycler (C4, C5) *)







Lemma recycle_clean_frags (p : gfar_private) (skb : sk_buff) :
  recycle (snd (clean_frags p skb)) = recycle p /\
  freed (snd (clean_frags p skb)) = freed p.
Proof. unfold clean_frags. destruct (negb _); done. Qed.

(** C5 (amended).  [gfar_free_skb]: a buffer that fails the recycleable
    predicate is given back to the system allocator and queued nowhere,
    unless it is a non-linear buffer with the [truesize] of a buffer of
    the driver: that one has its page fragments dropped and is tested
    again.  A buffer that passes (at once, or after its fragments were
    dropped) is recycled and pushed on the local list of the CPU when
    that list is below [recycle_max]; when the local list is full, the
    two queue pointers are exchanged if the global list is empty and the
    buffer is pushed on the queue just acquired, otherwise the buffer is
    freed. *)
Theorem gfar_free_skb_release `{gianfar_h} `{linux} (cpu : Z)
    (p : gfar_private) (skb : sk_buff) (l : gfar_recycle_cntxt_percpu)
    (q : list sk_buff) :
  let skb_size := rx_buffer_size p + RXBUF_ALIGNMENT in
  let r := recycle p in
  at_ (local r) cpu = Some l ->
  skb_queues r !! recycle_q l = Some q ->
  (* refused *)
  (skb_is_recycleable skb skb_size = false ->
   gfar_skb_nonlinear_recycleable skb skb_size = false ->
   gfar_free_skb cpu p skb = Some (dev_kfree_skb_any p skb)) /\
  (skb_is_recycleable skb skb_size = false ->
   gfar_skb_nonlinear_recycleable skb skb_size = true ->
   skb_is_recycleable (fst (clean_frags p skb)) skb_size = false ->
   exists p', gfar_free_skb cpu p skb = Some p' /\
     freed p' = freed p ++ [fst (clean_frags p skb)] /\
     recycle p' = r) /\
  (* accepted, as it is or after its fragments were dropped *)
  (forall s0 p0,
     (skb_is_recycleable skb skb_size = true /\ (s0, p0) = (skb, p)) \/
     (skb_is_recycleable skb skb_size = false /\
      gfar_skb_nonlinear_recycleable skb skb_size = true /\
      (s0, p0) = clean_frags p skb /\
      skb_is_recycleable s0 skb_size = true) ->
     let s' := gfar_align_skb (skb_recycle s0) in
     (Z.of_nat (length q) < recycle_max r ->
      exists p', gfar_free_skb cpu p skb = Some p' /\
        skb_queues (recycle p') = <[recycle_q l := s' :: q]> (skb_queues r) /\
        at_ (local (recycle p')) cpu
          = Some (mk_percpu (recycle_q l) (u32_inc (free_count l))
                            (alloc_count l)) /\
        global_recycle_q (recycle p') = global_recycle_q r /\
        freed p' = freed p) /\
     (forall g, recycle_max r <= Z.of_nat (length q) ->
      global_recycle_q r = Some g ->
      skb_queues r !! g = Some [] ->
      exists p', gfar_free_skb cpu p skb = Some p' /\
        global_recycle_q (recycle p') = Some (recycle_q l) /\
        at_ (local (recycle p')) cpu
          = Some (mk_percpu g (u32_inc (free_count l)) (alloc_count l)) /\
        skb_queues (recycle p') = <[g := [s']]> (skb_queues r) /\
        freed p' = freed p) /\
     (recycle_max r <= Z.of_nat (length q) ->
      (global_recycle_q r = None \/
       exists g x rest, global_recycle_q r = Some g /\
                        skb_queues r !! g = Some (x :: rest)) ->
      exists p', gfar_free_skb cpu p skb = Some p' /\
        freed p' = freed p ++ [s'] /\ recycle p' = r)).
Proof.
  intros skb_size r Hl Hq.
  assert (Hcf := recycle_clean_frags p skb). destruct Hcf as [Hcr Hcfreed].
  split; [|split].
  - intros E1 E2. unfold gfar_free_skb. fold skb_size. rewrite E1, E2. done.
  - intros E1 E2 E3. unfold gfar_free_skb. fold skb_size.
    rewrite E1, E2. cbn [negb].
    destruct (clean_frags p skb) as [s1 p1] eqn:Ec. cbn [fst snd] in *.
    rewrite E3. cbn [negb]. eexists. split; [reflexivity|]. cbn.
    rewrite Hcfreed. split; [done|]. exact Hcr.
  - intros s0 p0 Hacc s'.
    assert (Hp0 : recycle p0 = r /\ freed p0 = freed p).
    { destruct Hacc as [[_ E]|(_ & _ & E & _)].
      - by inversion E.
      - rewrite <- E in Hcr, Hcfreed. done. }
    destruct Hp0 as [Hr0 Hf0].
    assert (Hstep : gfar_free_skb cpu p skb =
      (let recycle_cntxt := recycle p0 in
       l ← at_ (local recycle_cntxt) cpu;
       let rq := recycle_q l in
       q ← skb_queues recycle_cntxt !! rq;
       if Z.of_nat (length q) <? recycle_max recycle_cntxt then
         let l' := mk_percpu rq (u32_inc (free_count l)) (alloc_count l) in
         Some (with_recycle p0
                 (with_skb_queues
                    (with_local recycle_cntxt (upd (local recycle_cntxt) cpu l'))
                    (<[rq := s' :: q]> (skb_queues recycle_cntxt))))
       else
         match global_recycle_q recycle_cntxt with
         | Some temp_recycle_q =>
             gq ← skb_queues recycle_cntxt !! temp_recycle_q;
             if Z.of_nat (length gq) =? 0 then
               let l' := mk_percpu temp_recycle_q (u32_inc (free_count l))
                                   (alloc_count l) in
               let r1 := swap_global_free recycle_cntxt rq in
               Some (with_recycle p0
                       (with_skb_queues
                          (with_local r1 (upd (local r1) cpu l'))
                          (<[temp_recycle_q := s' :: gq]> (skb_queues r1))))
             else Some (dev_kfree_skb_any p0 s')
         | None => Some (dev_kfree_skb_any p0 s')
         end)).
    { unfold gfar_free_skb. fold skb_size.
      destruct Hacc as [[E1 E]|(E1 & E2 & E & E3)].
      - inversion E; subst s0 p0. rewrite E1. reflexivity.
      - rewrite E1, E2. cbn [negb]. rewrite <- E. rewrite E3. reflexivity. }
    rewrite Hstep. clear Hstep. cbn zeta. rewrite Hr0, Hl. cbn [mbind option_bind].
    rewrite Hq. cbn [mbind option_bind].
    split; [|split].
    + intros Hlt. apply Z.ltb_lt in Hlt. rewrite Hlt. eexists.
      split; [reflexivity|]. cbn. split; [done|].
      split; [by eapply at_upd_eq|]. done.
    + intros g Hge Hg Hgq. apply Z.ltb_ge in Hge. rewrite Hge, Hg.
      rewrite Hgq. cbn. eexists. split; [reflexivity|]. cbn.
      split; [done|]. split; [by eapply at_upd_eq|]. done.
    + intros Hge Hg. apply Z.ltb_ge in Hge. rewrite Hge.
      destruct Hg as [Hg|(g & x & rest & Hg & Hgq)]; rewrite Hg.
      * eexists. split; [reflexivity|]. cbn. rewrite Hf0. done.
      * rewrite Hgq. cbn. eexists. split; [reflexivity|]. cbn.
        rewrite Hf0. done.
Qed.


(** The claim as the spec has it fails on a segment built by [gfar_tso]:
    it is not linear, and it is recycled. *)
Lemma gfar_free_skb_recycles_nonlinear :
  let p := fresh_priv 4 [] in
  let skb := tso_segment_buffer 4096 in
  @skb_is_recycleable linux_model skb (rx_buffer_size p + @RXBUF_ALIGNMENT etsec)
    = false /\
  exists p',
    @gfar_free_skb etsec linux_model 0 p skb = Some p' /\
    freed p' = [] /\
    skb_queues (recycle p') !! 100
      = Some [@gfar_align_skb etsec (@skb_recycle linux_model skb)].
Proof.
  intros p skb. split; [vm_compute; reflexivity|].
  eexists. split; [vm_compute; reflexivity|].
  split; vm_compute; reflexivity.
Qed.

(** The same buffer, through the theorem. *)
Lemma gfar_free_skb_release_witness :
  let p := fresh_priv 4 [] in
  let skb := tso_segment_buffer 4096 in
  at_ (local (recycle p)) 0 = Some (mk_percpu 100 0 0) /\
  skb_queues (recycle p) !! 100 = Some [] /\
  exists p',
    @gfar_free_skb etsec linux_model 0 p skb = Some p' /\
    skb_queues (recycle p')
      = <[100 := [@gfar_align_skb etsec
                    (@skb_recycle linux_model
                       (fst (clean_frags p skb)))]]>
          (skb_queues (recycle p)) /\
    freed p' = freed p.
Proof.
  intros p skb.
  assert (Hl : at_ (local (recycle p)) 0 = Some (mk_percpu 100 0 0))
    by reflexivity.
  assert (Hq : skb_queues (recycle p) !! recycle_q (mk_percpu 100 0 0) = Some [])
    by (vm_compute; reflexivity).
  split; [exact Hl|]. split; [exact Hq|].
  destruct (@gfar_free_skb_release etsec linux_model 0 p skb _ _ Hl Hq)
    as (_ & _ & Hacc).
  destruct (Hacc (fst (clean_frags p skb)) (snd (clean_frags p skb)))
    as (Hpush & _).
  { right. repeat split; vm_compute; reflexivity. }
  destruct Hpush as (p' & Hf & Hqs & _ & _ & Hfr); [vm_compute; reflexivity|].
  exists p'. split; [exact Hf|]. split; [exact Hqs|exact Hfr].
Defined.

(** ** The recycler and the rings *)

(** Case analysis along the evaluation of a function that returned. *)
Ltac break_in E :=
  repeat (cbn [mbind option_bind] in E;
          match type of E with
          | Some _ = Some _ => inversion E; subst; clear E
          | None = Some _ => discriminate E
          | (?x ≫= _) = _ => destruct x eqn:?
          | (match ?x with _ => _ end) = _ => destruct x eqn:?
          | (if ?b then _ else _) = _ => destruct b eqn:?
          end).


Lemma pool_step_refl (p : gfar_private) : pool_step p p.
Proof. repeat split. Qed.

Lemma pool_step_trans (p1 p2 p3 : gfar_private) :
  pool_step p1 p2 -> pool_step p2 p3 -> pool_step p1 p3.
Proof.
  unfold pool_step. intros H1 H2.
  destruct H1 as (?&?&?&?&?&?&?&?&?&?&?&?&?&?).
  destruct H2 as (?&?&?&?&?&?&?&?&?&?&?&?&?&?).
  repeat split; congruence.
Qed.

Lemma pool_step_kfree (p : gfar_private) (s : sk_buff) :
  pool_step p (dev_kfree_skb_any p s).
Proof. repeat split. Qed.

Lemma pool_step_emit (p : gfar_private) (e : list event) :
  pool_step p (emit p e).
Proof. repeat split. Qed.

Lemma pool_step_with_recycle (p : gfar_private) (r : gfar_recycle_cntxt) :
  pool_step p (with_recycle p r).
Proof. repeat split. Qed.

Lemma pool_step_clean_frags (p : gfar_private) (s : sk_buff) :
  pool_step p (snd (clean_frags p s)).
Proof. unfold clean_frags. destruct (negb _); repeat split. Qed.

Lemma pool_step_alloc `{gianfar_h} (p p' : gfar_private) (o : option sk_buff) :
  gfar_alloc_skb p = (o, p') -> pool_step p p'.
Proof.
  unfold gfar_alloc_skb, netdev_alloc_skb.
  destruct (allocator p) as [|[b|] rest]; intros E; inversion E; subst;
    repeat split.
Qed.

Lemma pool_step_new_skb `{gianfar_h} (cpu : Z) (p p' : gfar_private)
    (o : option sk_buff) :
  gfar_new_skb cpu p = Some (o, p') -> pool_step p p'.
Proof.
  unfold gfar_new_skb. intros E.
  destruct (at_ (local (recycle p)) cpu) as [l|]; [|done]. cbn in E.
  destruct (skb_queues (recycle p) !! recycle_q l) as [q|]; [|done]. cbn in E.
  destruct q as [|s rest].
  - destruct (global_recycle_q (recycle p)) as [g|].
    + destruct (skb_queues (recycle p) !! g) as [gq|]; [|done]. cbn in E.
      destruct (negb _).
      * inversion E; subst. apply pool_step_with_recycle.
      * inversion E as [E']. by eapply pool_step_alloc.
    + inversion E as [E']. by eapply pool_step_alloc.
  - inversion E; subst. apply pool_step_with_recycle.
Qed.

Lemma pool_step_free_skb `{gianfar_h} `{linux} (cpu : Z) (p p' : gfar_private)
    (s : sk_buff) :
  gfar_free_skb cpu p s = Some p' -> pool_step p p'.
Proof.
  unfold gfar_free_skb. intros E. cbv zeta in E.
  pose proof (pool_step_clean_frags p s) as Hc.
  destruct (clean_frags p s) as [s1 p1]. cbn [snd] in Hc.
  break_in E;
    try apply pool_step_kfree; try apply pool_step_with_recycle;
    (eapply pool_step_trans; [exact Hc|]);
    try apply pool_step_kfree; try apply pool_step_with_recycle.
Qed.

Lemma tx_rings_kept_refl (p : gfar_private) : tx_rings_kept p p.
Proof. split; [done|]. intros i q Hq. exists q. repeat split; done. Qed.

Lemma tx_rings_kept_trans (p1 p2 p3 : gfar_private) :
  tx_rings_kept p1 p2 -> tx_rings_kept p2 p3 -> tx_rings_kept p1 p3.
Proof.
  intros [L1 H1] [L2 H2]. split; [congruence|]. intros i q Hq.
  destruct (H1 i q Hq) as (q2 & Hq2 & ?&?&?&?&?&?&?&?).
  destruct (H2 i q2 Hq2) as (q3 & Hq3 & ?&?&?&?&?&?&?&?).
  exists q3. repeat split; congruence.
Qed.

Lemma tx_rings_kept_pool (p p' : gfar_private) :
  pool_step p p' -> tx_rings_kept p p'.
Proof.
  intros (Ht & _). split; [by rewrite Ht|]. intros i q Hq. exists q.
  rewrite Ht. repeat split; done.
Qed.

Lemma tx_rings_kept_stop `{gianfar_h} (p : gfar_private) (rq : Z)
    (q : gfar_priv_tx_q) :
  at_ (tx_queue p) rq = Some q -> tx_rings_kept p (stop_queue p rq q).
Proof.
  intros Hq. split; [cbn; apply length_upd|]. intros i qi Hi. cbn.
  destruct (Z.eq_dec rq i) as [->|Hne].
  - rewrite Hq in Hi. inversion Hi; subst qi.
    exists (txq_with_stopped q true). split; [by eapply at_upd_eq|].
    repeat split.
  - exists qi. rewrite at_upd_ne by done. repeat split; done.
Qed.

(** ** Backpressure of the transmit path (C1) *)

Lemma xmit_frame_busy `{gianfar_h} `{linux} (p p' : gfar_private) (rq : Z)
    (q : gfar_priv_tx_q) (skb : sk_buff) (ts : bool) :
  xmit_frame p rq q skb ts = Some (NETDEV_TX_BUSY, p') ->
  p' = stop_queue p rq q.
Proof.
  unfold xmit_frame. intros E.
  destruct (_ >? num_txbdfree q); [by inversion E|].
  exfalso. cbv zeta in E. break_in E.
Qed.

Lemma tso_loop_ok `{gianfar_h} `{linux}
    (xmit : gfar_private -> sk_buff -> option (netdev_tx * gfar_private))
    (n : nat) (cpu : Z) (skb : sk_buff) (st : tso_state)
    (p p' : gfar_private) (r : netdev_tx) :
  tso_loop xmit n cpu skb st p = Some (r, p') -> r = NETDEV_TX_OK.
Proof.
  revert st p. induction n as [|n IH]; intros st p E; [done|].
  cbn [tso_loop] in E.
  destruct (tso_segment cpu skb st p) as [[[[nskb len_] st1] p1]|]; [|done].
  cbn in E. destruct (xmit p1 nskb) as [[ret p2]|]; [|done]. cbn in E.
  destruct (bool_decide (ret = NETDEV_TX_OK)) eqn:Hret; cbn in E.
  - apply bool_decide_eq_true in Hret. subst ret.
    destruct (_ <? len skb); [by eapply IH|].
    destruct (gfar_free_skb cpu p2 skb); [|done]. cbn in E. by inversion E.
  - by inversion E.
Qed.

(** Whenever [gfar_start_xmit] answers NETDEV_TX_BUSY, it has stopped the
    queue and stored to no descriptor. *)
Lemma gfar_start_xmit_busy_inv `{gianfar_h} `{linux} (fuel : nat) (cpu : Z)
    (p p' : gfar_private) (skb : sk_buff) :
  gfar_start_xmit fuel cpu p skb = Some (NETDEV_TX_BUSY, p') ->
  tx_rings_kept p p' /\ rx_queue p' = rx_queue p /\ log p' = log p /\
  delivered p' = delivered p.
Proof.
  destruct fuel as [|fuel]; [done|]. cbn [gfar_start_xmit]. intros E.
  destruct (if _ && _ && _ then _ else _) as [ret skb1].
  destruct (negb (ret =? 0)); [by inversion E|].
  destruct (at_ (tx_queue p) (queue_mapping skb1)) as [q|] eqn:Hq; [|done].
  cbn [mbind option_bind] in E.
  destruct (if _ && _ then skb_realloc_headroom _ _ else _) as [skb2|];
    [|by inversion E].
  destruct (skb_is_gso skb2 && _).
  - apply tso_loop_ok in E. done.
  - apply xmit_frame_busy in E. subst p'.
    destruct (_ && (skb_headroom skb1 <? GMAC_FCB_LEN)).
    + split; [|done]. eapply tx_rings_kept_trans.
      * apply tx_rings_kept_pool, (pool_step_kfree p skb1).
      * by apply tx_rings_kept_stop.
    + split; [|done]. by apply tx_rings_kept_stop.
Qed.

(** C1 (amended).  A call of [gfar_start_xmit] that reaches the space
    check (the checksum fallback of erratum 76, when taken, succeeds;
    the headroom reallocation, when needed, succeeds; the packet is not
    handed to [gfar_tso]) on a queue whose [num_txbdfree] is smaller than
    the number of descriptors of the packet (one per fragment plus the
    head, plus one when a time stamp is requested) answers
    NETDEV_TX_BUSY, stops the queue, counts a [tx_fifo_errors] and stores
    to no descriptor of any ring. *)
Theorem gfar_start_xmit_backpressure `{gianfar_h} `{linux} (fuel : nat)
    (cpu : Z) (p : gfar_private) (skb skb1 skb2 : sk_buff)
    (q : gfar_priv_tx_q) :
  let do_tstamp := (tx_hw_tstamp (shinfo skb1) && hwts_tx_en p)
                   || hwts_tx_en_ioctl p in
  let need_room :=
    (bool_decide (ip_summed skb1 = CHECKSUM_PARTIAL) || vlan_present skb1
     || do_tstamp) && (skb_headroom skb1 <? GMAC_FCB_LEN) in
  (if errata_76 p && bool_decide (ip_summed skb = CHECKSUM_PARTIAL)
      && (len skb >? 2500)
   then skb_checksum_help skb else (0, skb)) = (0, skb1) ->
  at_ (tx_queue p) (queue_mapping skb1) = Some q ->
  (if need_room then skb_realloc_headroom skb1 GMAC_FCB_LEN else Some skb1)
    = Some skb2 ->
  skb_is_gso skb2 && negb do_tstamp = false ->
  num_txbdfree q < nr_frags skb2 + (if do_tstamp then 2 else 1) ->
  exists p',
    gfar_start_xmit (S fuel) cpu p skb = Some (NETDEV_TX_BUSY, p') /\
    (exists q', at_ (tx_queue p') (queue_mapping skb1) = Some q' /\
                tx_stopped q' = true) /\
    tx_rings_kept p p' /\ rx_queue p' = rx_queue p /\ log p' = log p /\
    tx_fifo_errors (stats p') = ulong_inc (tx_fifo_errors (stats p)).
Proof.
  intros do_tstamp need_room Hcs Hq Hroom Hgso Hfull.
  assert (Hx : gfar_start_xmit (S fuel) cpu p skb
               = xmit_frame (if need_room then dev_kfree_skb_any p skb1 else p)
                            (queue_mapping skb1) q skb2 do_tstamp).
  { cbn [gfar_start_xmit]. rewrite Hcs. cbn [negb Z.eqb].
    rewrite Hq. cbn [mbind option_bind].
    fold do_tstamp. fold need_room. rewrite Hroom, Hgso. reflexivity. }
  assert (Hb : forall p0, tx_queue p0 = tx_queue p -> stats p0 = stats p ->
            xmit_frame p0 (queue_mapping skb1) q skb2 do_tstamp
            = Some (NETDEV_TX_BUSY, stop_queue p0 (queue_mapping skb1) q)).
  { intros p0 _ _. unfold xmit_frame.
    assert (Hgt : ((if do_tstamp then nr_frags skb2 + 2 else nr_frags skb2 + 1)
                   >? num_txbdfree q) = true).
    { apply Z.gtb_lt. destruct do_tstamp; lia. }
    rewrite Hgt. reflexivity. }
  rewrite Hb in Hx by (destruct need_room; reflexivity).
  eexists. split; [exact Hx|].
  destruct (gfar_start_xmit_busy_inv (S fuel) cpu p _ skb Hx)
    as (Hk & Hrx & Hlog & _).
  split; [|split; [exact Hk|split; [exact Hrx|split; [exact Hlog|]]]].
  - exists (txq_with_stopped q true). split; [|reflexivity].
    cbn. eapply at_upd_eq. destruct need_room; exact Hq.
  - destruct need_room; reflexivity.
Qed.

(** The claim as the spec has it fails for a packet that is segmented in
    software: two descriptors are free, the packet has two fragments
    (three descriptors by the count of the claim), the answer is
    NETDEV_TX_OK and the first segment has been written to the ring.  It
    fails as well when the headroom reallocation runs out of memory: the
    ring is full, the packet is dropped and the answer is
    NETDEV_TX_OK. *)
Lemma gfar_start_xmit_not_busy :
  (exists q q' p',
     at_ (tx_queue ring4_two_free) (queue_mapping gso_packet) = Some q /\
     num_txbdfree q = 2 /\ nr_frags gso_packet + 1 = 3 /\
     @gfar_start_xmit etsec linux_model 2 0 ring4_two_free gso_packet
       = Some (NETDEV_TX_OK, p') /\
     at_ (tx_queue p') (queue_mapping gso_packet) = Some q' /\
     tx_bd_base q' <> tx_bd_base q) /\
  (exists q p',
     at_ (tx_queue ring4_full) (queue_mapping cramped_packet) = Some q /\
     num_txbdfree q = 0 /\ nr_frags cramped_packet + 1 = 1 /\
     @gfar_start_xmit etsec linux_oom 2 0 ring4_full cramped_packet
       = Some (NETDEV_TX_OK, p') /\
     freed p' = [cramped_packet]).
Proof.
  split.
  - eexists _, _, _. split; [vm_compute; reflexivity|].
    split; [reflexivity|]. split; [reflexivity|].
    split; [vm_compute; reflexivity|]. split; [vm_compute; reflexivity|].
    vm_compute. discriminate.
  - eexists _, _. split; [vm_compute; reflexivity|].
    split; [reflexivity|]. split; [reflexivity|].
    split; [vm_compute; reflexivity|]. vm_compute. reflexivity.
Qed.

(** A fifth packet on the full ring. *)
Lemma gfar_start_xmit_backpressure_witness :
  exists q p',
    at_ (tx_queue ring4_full) 0 = Some q /\ num_txbdfree q = 0 /\
    @gfar_start_xmit etsec linux_model 1 0 ring4_full (packet 58192 100)
      = Some (NETDEV_TX_BUSY, p') /\
    tx_rings_kept ring4_full p' /\ log p' = log ring4_full.
Proof.
  assert (Hq : exists q, at_ (tx_queue ring4_full) 0 = Some q /\
                         num_txbdfree q = 0).
  { eexists. split; [vm_compute; reflexivity|reflexivity]. }
  destruct Hq as (q & Hq & Hfree).
  destruct (@gfar_start_xmit_backpressure etsec linux_model 0 0 ring4_full
              (packet 58192 100) (packet 58192 100) (packet 58192 100) q)
    as (p' & Hx & _ & Hk & _ & Hlog & _).
  - reflexivity.
  - exact Hq.
  - reflexivity.
  - reflexivity.
  - rewrite Hfree. vm_compute. reflexivity.
  - exists q, p'.
    split; [exact Hq|]. split; [exact Hfree|]. split; [exact Hx|].
    split; [exact Hk|exact Hlog].
Defined.

(** ** The order of the stores of a transmit frame (C2) *)

Lemma next_txbd_mod (i n : Z) :
  0 <= i < n -> next_txbd i n = (i + 1) mod n.
Proof.
  intros Hi. unfold next_txbd, skip_txbd.
  destruct (Z.geb_spec (i + 1) n).
  - assert (i + 1 = n) as -> by lia. rewrite Z.sub_diag, Z_mod_same_full. done.
  - by rewrite Z.mod_small by lia.
Qed.

Lemma mod_step (i k n : Z) :
  0 < n -> ((i + 1) mod n + k) mod n = (i + (k + 1)) mod n.
Proof.
  intros Hn. rewrite Zplus_mod_idemp_l. f_equal. lia.
Qed.

Lemma mod_shift_ne (i k n : Z) :
  0 <= i < n -> 0 < k < n -> (i + k) mod n <> i.
Proof.
  intros Hi Hk E.
  destruct (Z_lt_ge_dec (i + k) n).
  - rewrite Z.mod_small in E by lia. lia.
  - replace (i + k) with ((i + k - n) + 1 * n) in E by lia.
    rewrite Z_mod_plus_full, Z.mod_small in E by lia. lia.
Qed.

Lemma mod_shift_inj (i k1 k2 n : Z) :
  0 <= k1 < n -> 0 <= k2 < n -> (i + k1) mod n = (i + k2) mod n -> k1 = k2.
Proof.
  intros H1 H2 E.
  assert (Hn : 0 < n) by lia.
  assert (E' : (k1 - k2) mod n = 0).
  { replace (k1 - k2) with ((i + k1) - (i + k2)) by lia.
    rewrite Zminus_mod, E, Z.sub_diag. apply Z.mod_0_l. lia. }
  apply Z.mod_divide in E'; [|lia]. destruct E' as [c Hc].
  assert (c = 0) by nia. lia.
Qed.

Lemma has_flags_lor_l (v w fl : Z) : has_flags v fl -> has_flags (Z.lor v w) fl.
Proof.
  unfold has_flags. intros Hv. apply Z.bits_inj'. intros n Hn.
  apply (f_equal (fun z => Z.testbit z n)) in Hv.
  rewrite !Z.land_spec in *. rewrite Z.lor_spec.
  destruct (Z.testbit v n), (Z.testbit w n), (Z.testbit (BD_LFLAG fl) n);
    cbn in *; congruence.
Qed.

Lemma has_flags_lor_r (v w fl : Z) : has_flags w fl -> has_flags (Z.lor v w) fl.
Proof. rewrite Z.lor_comm. apply has_flags_lor_l. Qed.

Lemma has_flags_self (fl : Z) : has_flags (BD_LFLAG fl) fl.
Proof. unfold has_flags. apply Z.land_diag. Qed.

Lemma has_flags_BD_LFLAG_l (a b : Z) : has_flags (BD_LFLAG (Z.lor a b)) a.
Proof.
  unfold BD_LFLAG at 1. rewrite Z.shiftl_lor. apply has_flags_lor_l.
  apply has_flags_self.
Qed.

Lemma has_flags_BD_LFLAG_r (a b : Z) : has_flags (BD_LFLAG (Z.lor a b)) b.
Proof.
  unfold BD_LFLAG at 1. rewrite Z.shiftl_lor. apply has_flags_lor_r.
  apply has_flags_self.
Qed.

(** What one store leaves behind. *)
Lemma tx_store_lstatus_inv (rq : Z) (ql ql' : gfar_priv_tx_q * list event)
    (i v : Z) :
  tx_store_lstatus rq ql i v = Some ql' ->
  exists d, at_ (tx_bd_base ql.1) i = Some d /\
    ql' = (txq_with_bds ql.1 (upd (tx_bd_base ql.1) i (set_lstatus d v)),
           ql.2 ++ [EvLstatus (TxRing rq) i v]).
Proof.
  unfold tx_store_lstatus. destruct ql as [q lg]. cbn [fst snd]. intros E.
  destruct (at_ (tx_bd_base q) i) as [d|]; [|done]. cbn in E.
  inversion E; subst. by exists d.
Qed.

Lemma tx_store_bufPtr_inv (rq : Z) (ql ql' : gfar_priv_tx_q * list event)
    (i v : Z) :
  tx_store_bufPtr rq ql i v = Some ql' ->
  exists d, at_ (tx_bd_base ql.1) i = Some d /\
    ql' = (txq_with_bds ql.1 (upd (tx_bd_base ql.1) i (set_bufPtr d v)),
           ql.2 ++ [EvBufPtr (TxRing rq) i v]).
Proof.
  unfold tx_store_bufPtr. destruct ql as [q lg]. cbn [fst snd]. intros E.
  destruct (at_ (tx_bd_base q) i) as [d|]; [|done]. cbn in E.
  inversion E; subst. by exists d.
Qed.

(** Replace every successful store among the hypotheses by its effect. *)
Ltac inv_stores :=
  repeat match goal with
         | E : tx_store_lstatus _ _ _ _ = Some _ |- _ =>
             apply tx_store_lstatus_inv in E;
             let d := fresh "d" in let Hd := fresh "Hd" in
             destruct E as (d & Hd & ->); cbn [fst snd] in *
         | E : tx_store_bufPtr _ _ _ _ = Some _ |- _ =>
             apply tx_store_bufPtr_inv in E;
             let d := fresh "d" in let Hd := fresh "Hd" in
             destruct E as (d & Hd & ->); cbn [fst snd] in *
         end.

Lemma at_upd_same_inv {A} (l : list A) (i : Z) (x d : A) :
  at_ (upd l i x) i = Some d -> d = x.
Proof.
  intros E. pose proof (at_Some_lt _ _ _ E) as Hi.
  rewrite length_upd in Hi.
  assert (Hy : exists y, at_ l i = Some y).
  { unfold at_. destruct (decide (0 <= i)); [|lia].
    apply lookup_lt_is_Some. lia. }
  destruct Hy as [y Hy]. rewrite (at_upd_eq _ _ _ _ Hy) in E. congruence.
Qed.

(** Read back what the stores among the hypotheses have written. *)
Ltac simp_at :=
  repeat match goal with
         | E : at_ (upd _ ?i _) ?i = Some _ |- _ =>
             apply at_upd_same_inv in E; subst
         | E : at_ (upd _ ?i _) ?j = Some _ |- _ =>
             rewrite at_upd_ne in E by congruence
         end.

(** The fragment loop: it stores a buffer pointer and a ready [lstatus]
    to each of the [length frs] descriptors after [txbdp], in ring order,
    stores to no other, and leaves LAST and INTERRUPT on the last. *)
Lemma fill_frags_spec `{gianfar_h} `{linux} (rq : Z) (frs : list skb_frag_t) :
  forall (txbdp txbdp' : Z) (q q' : gfar_priv_tx_q) (lg lg' : list event),
  0 <= txbdp < tx_ring_size q ->
  fill_frags rq frs txbdp (q, lg) = Some (txbdp', (q', lg')) ->
  let n := tx_ring_size q in
  let len_ := Z.of_nat (length frs) in
  txbdp' = (txbdp + len_) mod n /\
  q' = txq_with_bds q (tx_bd_base q') /\
  (forall j, (forall k, 1 <= k <= len_ -> (txbdp + k) mod n <> j) ->
             at_ (tx_bd_base q') j = at_ (tx_bd_base q) j) /\
  (frs <> [] ->
   exists d, at_ (tx_bd_base q') txbdp' = Some d /\
             has_flags (lstatus d) (Z.lor TXBD_LAST TXBD_INTERRUPT)) /\
  exists ev, lg' = lg ++ ev /\
    Forall (fun e => exists k, 1 <= k <= len_ /\
                       writes_bd (TxRing rq) ((txbdp + k) mod n) e) ev /\
    (forall k, 1 <= k <= len_ ->
       exists pre b v post,
         ev = pre ++ [EvBufPtr (TxRing rq) ((txbdp + k) mod n) b;
                      EvLstatus (TxRing rq) ((txbdp + k) mod n) v] ++ post /\
         has_flags v TXBD_READY).
Proof.
  induction frs as [|f rest IH]; intros txbdp txbdp' q q' lg lg' Hi E n len_.
  - cbn in E. inversion E; subst. subst len_. cbn [length Z.of_nat].
    rewrite Z.add_0_r, Z.mod_small by done.
    split; [done|]. split; [by destruct q'|]. split; [done|].
    split; [done|]. exists []. split; [by rewrite app_nil_r|].
    split; [constructor|]. intros k Hk. lia.
  - cbn [fill_frags] in E. cbn [fst] in E.
    assert (Hn : 0 < n) by (subst n; lia).
    rewrite next_txbd_mod in E by done. fold n in E.
    set (t1 := (txbdp + 1) mod n) in *.
    assert (Ht1 : 0 <= t1 < n) by (apply Z.mod_pos_bound; done).
    destruct (at_ (tx_bd_base q) t1) as [d|] eqn:Hd; [|done].
    cbn [mbind option_bind] in E.
    set (v := match rest with
              | [] => Z.lor _ _
              | _ :: _ => _
              end) in E.
    unfold tx_store_bufPtr at 1 in E. rewrite Hd in E.
    cbn [mbind option_bind] in E.
    unfold tx_store_lstatus at 1 in E.
    cbn [fst tx_bd_base txq_with_bds] in E.
    rewrite (at_upd_eq _ _ _ _ Hd) in E. cbn [mbind option_bind] in E.
    cbn [tx_bd_base txq_with_bds] in E.
    set (q1 := txq_with_bds _ _) in E.
    assert (Hq1n : tx_ring_size q1 = n) by reflexivity.
    assert (Hvr : has_flags v TXBD_READY).
    { subst v. destruct rest.
      - apply has_flags_lor_l, has_flags_lor_r, has_flags_self.
      - apply has_flags_lor_r, has_flags_self. }
    assert (Hq1d : at_ (tx_bd_base q1) t1
                   = Some (set_lstatus (set_bufPtr d
                        (dma_map_page (frag_page f) (page_offset f) (frag_size f))) v)).
    { subst q1. cbn [tx_bd_base txq_with_bds].
      eapply at_upd_eq. by eapply at_upd_eq. }
    assert (Hq1o : forall j, j <> t1 -> at_ (tx_bd_base q1) j = at_ (tx_bd_base q) j).
    { intros j Hj. subst q1. cbn [tx_bd_base txq_with_bds].
      rewrite !at_upd_ne by done. done. }
    destruct (IH t1 txbdp' q1 q' _ lg' ltac:(by rewrite Hq1n) E)
      as (Ht' & Hq' & Hoth & Hlast & ev & Hlg & Hall & Hk).
    rewrite Hq1n in *.
    assert (Hlen : len_ = Z.of_nat (length rest) + 1)
      by (subst len_; cbn [length]; lia).
    split; [|split; [|split; [|split]]].
    + rewrite Ht'. subst t1. rewrite mod_step by done. f_equal. lia.
    + rewrite Hq'. reflexivity.
    + intros j Hj. rewrite Hoth.
      * apply Hq1o. specialize (Hj 1 ltac:(lia)). done.
      * intros k Hk'. subst t1. rewrite mod_step by done. apply Hj. lia.
    + intros _. destruct rest as [|f2 rest2].
      * cbn in E. inversion E; subst. exists (set_lstatus (set_bufPtr d
          (dma_map_page (frag_page f) (page_offset f) (frag_size f))) v).
        split; [exact Hq1d|]. cbn [lstatus set_lstatus]. subst v.
        apply has_flags_lor_r, has_flags_self.
      * apply Hlast. done.
    + eexists. split; [rewrite Hlg, <- !app_assoc; reflexivity|]. split.
      * cbn [app]. constructor; [|constructor].
        -- exists 1. split; [lia|]. by cbn.
        -- exists 1. split; [lia|]. by cbn.
        -- eapply Forall_impl; [exact Hall|]. cbn beta.
           intros e (k & Hk' & Hw). exists (k + 1). split; [lia|].
           subst t1. by rewrite mod_step in Hw.
      * intros k Hk'. destruct (Z.eq_dec k 1) as [->|Hk1].
        -- exists [], (dma_map_page (frag_page f) (page_offset f) (frag_size f)),
             v, ev. split; [reflexivity|exact Hvr].
        -- destruct (Hk (k - 1) ltac:(lia)) as (pre & b & v' & post & Hev & Hv').
           subst t1. rewrite mod_step in Hev by done.
           replace (k - 1 + 1) with k in Hev by lia.
           eexists (_ :: _ :: pre), b, v', post. split; [|exact Hv'].
           rewrite Hev. reflexivity.
Qed.

(** The queue [xmit_frame] leaves in the device. *)
Lemma xmit_frame_final_queue `{gianfar_h} (p : gfar_private) (rq : Z)
    (q q1 : gfar_priv_tx_q) (c : bool) (lg ev : list event) :
  at_ (tx_queue p) rq = Some q ->
  exists q',
    at_ (tx_queue (emit (if c then stop_queue (with_log p lg) rq q1
                         else with_txq (with_log p lg) rq q1) ev)) rq
      = Some q' /\
    tx_bd_base q' = tx_bd_base q1 /\ tx_skbuff q' = tx_skbuff q1 /\
    tx_ring_size q' = tx_ring_size q1 /\ num_txbdfree q' = num_txbdfree q1 /\
    cur_tx q' = cur_tx q1 /\ skb_curtx q' = skb_curtx q1 /\
    dirty_tx q' = dirty_tx q1 /\ skb_dirtytx q' = skb_dirtytx q1.
Proof.
  intros Hq. destruct c.
  - exists (txq_with_stopped q1 true). cbn.
    split; [by eapply at_upd_eq|]. repeat split.
  - exists q1. cbn. split; [by eapply at_upd_eq|]. repeat split.
Qed.

Lemma log_xmit_frame_final `{gianfar_h} (p : gfar_private) (rq : Z)
    (q1 : gfar_priv_tx_q) (c : bool) (lg ev : list event) :
  log (emit (if c then stop_queue (with_log p lg) rq q1
             else with_txq (with_log p lg) rq q1) ev) = lg ++ ev.
Proof. destruct c; reflexivity. Qed.

(** C2 (amended).  For a transmit frame of several descriptors that
    [gfar_start_xmit] queues: the stores of the frame end with
    [eieio(); txbdp_start->lstatus = lstatus; eieio();
    tx_skbuff[skb_curtx] = skb;] and the doorbell; the [lstatus] stored
    to the first descriptor there has READY set and is the only store to
    the [lstatus] of the first descriptor; every other descriptor of the
    frame has had its buffer pointer stored before, and its [lstatus]
    stored with READY set; and the last descriptor of the frame carries
    LAST and INTERRUPT.  (The descriptors after the first are marked
    ready before the first is: only the first descriptor holds the frame
    back.) *)
Theorem xmit_frame_store_order `{gianfar_h} `{linux} (p p' : gfar_private)
    (rq : Z) (q : gfar_priv_tx_q) (skb : sk_buff) (ts : bool) :
  let n := tx_ring_size q in
  let start := cur_tx q in
  let nr_txbds := nr_frags skb + (if ts then 2 else 1) in
  at_ (tx_queue p) rq = Some q ->
  0 <= start < n -> num_txbdfree q <= n -> 2 <= nr_txbds ->
  xmit_frame p rq q skb ts = Some (NETDEV_TX_OK, p') ->
  exists pre lst,
    log p' = log p ++ pre ++
             [EvEieio; EvLstatus (TxRing rq) start lst; EvEieio;
              EvSkbuff (TxRing rq) (skb_curtx q);
              EvRegWrite R_tstat (Z.shiftr TSTAT_CLEAR_THALT (tx_qindex q))] /\
    has_flags lst TXBD_READY /\
    (forall v, EvLstatus (TxRing rq) start v ∉ pre) /\
    (forall k, 1 <= k < nr_txbds ->
       exists b v, EvBufPtr (TxRing rq) ((start + k) mod n) b ∈ pre /\
                   EvLstatus (TxRing rq) ((start + k) mod n) v ∈ pre /\
                   has_flags v TXBD_READY) /\
    exists q' d,
      at_ (tx_queue p') rq = Some q' /\
      at_ (tx_bd_base q') ((start + (nr_txbds - 1)) mod n) = Some d /\
      has_flags (lstatus d) (Z.lor TXBD_LAST TXBD_INTERRUPT).
Proof.
  intros n start nr_txbds Hq Hstart Hfree Hmulti E.
  unfold xmit_frame in E.
  destruct (_ >? num_txbdfree q) eqn:Hspace; [by inversion E|].
  rewrite Z.gtb_ltb in Hspace. apply Z.ltb_ge in Hspace.
  assert (Hn : 0 < n) by lia.
  destruct ts.
  - assert (Htst : next_txbd (cur_tx q) (tx_ring_size q) = (start + 1) mod n)
      by (apply next_txbd_mod; exact Hstart).
    assert (Htne : (start + 1) mod n <> start)
      by (apply mod_shift_ne; [exact Hstart|subst nr_txbds; lia]).
    assert (Htb : 0 <= (start + 1) mod n < n) by (apply Z.mod_pos_bound; lia).
    destruct (nr_frags skb =? 0) eqn:Hnf.
    + cbv zeta in E. break_in E.
      cbn [cur_tx tx_bd_base tx_ring_size txq_with_counts] in *.
      rewrite Htst in *. fold start in Heqo1, Heqo3.
      break_in Heqo0. break_in Heqo2. inv_stores.
      cbn [tx_bd_base txq_with_bds txq_with_counts] in *.
      apply Z.eqb_eq in Hnf.
      assert (Hg : at_ (tx_queue g) rq = Some q).
      { match goal with
        | Hp : _ = (_, _, g) |- _ =>
            destruct o0; cbn in Hp; inversion Hp; exact Hq
        end. }
      eexists [EvLstatus (TxRing rq) ((start + 1) mod n) _;
               EvRegWrite R_dfvlan _; EvBufPtr (TxRing rq) start _;
               EvBufPtr (TxRing rq) ((start + 1) mod n) _;
               EvLstatus (TxRing rq) ((start + 1) mod n) _].
      eexists. rewrite log_xmit_frame_final.
      split; [|split; [|split; [|split]]].
      * rewrite <- !app_assoc. cbn [app]. reflexivity.
      * apply has_flags_lor_r, has_flags_lor_l, has_flags_BD_LFLAG_r.
      * intros v Hv. rewrite !elem_of_cons, elem_of_nil in Hv.
        destruct Hv as [Hv|[Hv|[Hv|[Hv|[Hv|[]]]]]]; inversion Hv; congruence.
      * intros k Hk1. assert (k = 1) as -> by (subst nr_txbds; lia).
        eexists _, _.
        split; [do 3 apply list_elem_of_further; apply list_elem_of_here|].
        split; [do 4 apply list_elem_of_further; apply list_elem_of_here|].
        apply has_flags_lor_r, has_flags_lor_l, has_flags_self.
      * match goal with
        | |- context [emit (if ?c then stop_queue (with_log g ?lg) rq ?q1
                            else _) ?ev] =>
            destruct (xmit_frame_final_queue g rq q q1 c lg ev Hg)
              as (q' & Hq' & Hbds & _)
        end.
        eexists q', _. split; [exact Hq'|]. rewrite Hbds.
        cbn [tx_bd_base txq_with_cur txq_with_bds].
        replace (nr_txbds - 1) with 1 by (subst nr_txbds; lia).
        rewrite at_upd_ne by congruence.
        split; [eapply at_upd_eq; eassumption|].
        simp_at. cbn [lstatus set_lstatus set_bufPtr].
        apply has_flags_lor_l, has_flags_lor_r, has_flags_self.
    + cbv zeta in E. break_in E.
      cbn [cur_tx tx_bd_base tx_ring_size txq_with_counts] in *.
      rewrite Htst in *. fold start in Heqo1, Heqo3.
      apply Z.eqb_neq in Hnf.
      destruct (fill_frags _ _ _ _) as [[txbdp [q1 lg1]]|] eqn:Hfill; [|done].
      cbn [mbind option_bind fst] in Heqo0. fold start in Heqo0.
      apply fill_frags_spec in Hfill; [|exact Htb].
      cbn [tx_ring_size txq_with_counts] in Hfill. fold n in Hfill.
      destruct Hfill as (Htx & Hq1 & Hoth & Hlast & ev & Hlg1 & Hall & Hk).
      rewrite mod_step in Htx by done. subst txbdp.
      break_in Heqo0. break_in Heqo2.
      inv_stores.
      cbn [tx_bd_base txq_with_bds txq_with_counts] in *.
      assert (Hg : at_ (tx_queue g) rq = Some q).
      { match goal with
        | Hp : _ = (_, _, g) |- _ =>
            destruct o0; cbn in Hp; inversion Hp; exact Hq
        end. }
      assert (Hfr : 1 <= Z.of_nat (length (frags (shinfo skb))) /\
                    Z.of_nat (length (frags (shinfo skb))) + 2 <= n).
      { unfold nr_frags in *. lia. }
      eexists (ev ++ [EvRegWrite R_dfvlan _;
                      EvBufPtr (TxRing rq) start _;
                      EvBufPtr (TxRing rq) ((start + 1) mod n) _;
                      EvLstatus (TxRing rq) ((start + 1) mod n) _]).
      eexists. rewrite log_xmit_frame_final.
      split; [|split; [|split; [|split]]].
      * rewrite <- !app_assoc. cbn [app]. rewrite Hq1. reflexivity.
      * apply has_flags_lor_r, has_flags_lor_l, has_flags_BD_LFLAG_r.
      * intros v Hv. apply elem_of_app in Hv. destruct Hv as [Hv|Hv].
        -- rewrite Forall_forall in Hall. destruct (Hall _ Hv) as (k & Hk1 & Hw).
           cbn in Hw. destruct Hw as [_ Hw]. rewrite mod_step in Hw by done.
           symmetry in Hw. apply mod_shift_ne in Hw; [done|done|lia].
        -- rewrite !elem_of_cons, elem_of_nil in Hv.
           destruct Hv as [Hv|[Hv|[Hv|[Hv|[]]]]]; inversion Hv; congruence.
      * intros k Hk1. destruct (Z.eq_dec k 1) as [->|Hne1].
        -- eexists _, _. split; [|split].
           ++ apply elem_of_app; right.
              do 2 apply list_elem_of_further. apply list_elem_of_here.
           ++ apply elem_of_app; right.
              do 3 apply list_elem_of_further. apply list_elem_of_here.
           ++ apply has_flags_lor_r, has_flags_lor_l, has_flags_self.
        -- assert (Hk2 : 1 <= k - 1 <= Z.of_nat (length (frags (shinfo skb)))).
           { unfold nr_txbds, nr_frags in Hk1. lia. }
           destruct (Hk (k - 1) Hk2) as (pre & bk & v & post & Hev & Hvr).
           rewrite mod_step in Hev by done.
           replace (k - 1 + 1) with k in Hev by lia.
           exists bk, v. rewrite Hev.
           split; [|split; [|exact Hvr]];
             apply elem_of_app; left; apply elem_of_app; right;
             [apply list_elem_of_here
             |apply list_elem_of_further, list_elem_of_here].
      * match goal with
        | |- context [emit (if ?c then stop_queue (with_log g ?lg) rq ?q1
                            else _) ?ev] =>
            destruct (xmit_frame_final_queue g rq q q1 c lg ev Hg)
              as (q' & Hq' & Hbds & _)
        end.
        assert (Hne0 : frags (shinfo skb) <> []).
        { intros Hnil. rewrite Hnil in Hfr. cbn in Hfr. lia. }
        destruct (Hlast Hne0) as (dl & Hdl & Hfl).
        exists q', dl. split; [exact Hq'|]. split; [|exact Hfl].
        rewrite Hbds. cbn [tx_bd_base txq_with_cur txq_with_bds].
        replace (nr_txbds - 1)
          with (Z.of_nat (length (frags (shinfo skb))) + 1)
          by (unfold nr_txbds, nr_frags; lia).
        set (tl := (start + (Z.of_nat (length (frags (shinfo skb))) + 1)) mod n)
          in *.
        assert (Hne_s : tl <> start).
        { apply mod_shift_ne; [done|]. lia. }
        assert (Hne_t : tl <> (start + 1) mod n).
        { intros Heq. apply mod_shift_inj in Heq; lia. }
        rewrite !at_upd_ne by congruence. exact Hdl.
  - assert (Hnf : (nr_frags skb =? 0) = false) by (apply Z.eqb_neq; lia).
    cbv zeta in E. rewrite Hnf in E.
    break_in E.
    cbn [cur_tx tx_bd_base txq_with_counts] in *. fold start in Heqo0, Heqo1, Heqo2.
    destruct (fill_frags _ _ _ _) as [[txbdp [q1 lg1]]|] eqn:Hfill; [|done].
    cbn [mbind option_bind fst] in Heqo0.
    destruct (at_ (tx_bd_base q1) start) as [d1|] eqn:Hd1; [|done].
    cbn in Heqo0. inversion Heqo0; subst z z0 p2. clear Heqo0.
    apply fill_frags_spec in Hfill; [|exact Hstart].
    cbn [tx_ring_size txq_with_counts] in Hfill. fold n in Hfill.
    destruct Hfill as (Htx & Hq1 & Hoth & Hlast & ev & Hlg1 & Hall & Hk).
    inv_stores.
    exists (ev ++ [EvBufPtr (TxRing rq) start
                     (dma_map_single (data s0) (skb_headlen s0))]).
    eexists.
    rewrite log_xmit_frame_final.
    split; [|split; [|split; [|split]]].
    + rewrite Hlg1, <- !app_assoc. cbn [app].
      rewrite Hq1. reflexivity.
    + apply has_flags_lor_r, has_flags_lor_l, has_flags_BD_LFLAG_r.
    + intros v Hv. apply elem_of_app in Hv. destruct Hv as [Hv|Hv].
      * rewrite Forall_forall in Hall. destruct (Hall _ Hv) as (k & Hk1 & Hw).
        cbn in Hw. destruct Hw as [_ Hw].
        symmetry in Hw. apply mod_shift_ne in Hw; [done|done|].
        unfold nr_frags in *. lia.
      * apply list_elem_of_singleton in Hv. discriminate Hv.
    + intros k Hk1.
      assert (Hk2 : 1 <= k <= Z.of_nat (length (frags (shinfo skb))))
        by (unfold nr_txbds, nr_frags in Hk1; lia).
      destruct (Hk k Hk2) as (pre & b0 & v & post & Hev & Hvr).
      exists b0, v. rewrite Hev.
      split; [|split; [|exact Hvr]];
        apply elem_of_app; left; apply elem_of_app; right;
        [apply list_elem_of_here
        |apply list_elem_of_further, list_elem_of_here].
    + match goal with
      | |- context [emit (if ?c then stop_queue (with_log p ?lg) rq ?q1
                          else _) ?ev] =>
          destruct (xmit_frame_final_queue p rq q q1 c lg ev Hq)
            as (q' & Hq' & Hbds & _)
      end.
      assert (Hne0 : frags (shinfo skb) <> []).
      { intros Hnil. apply Z.eqb_neq in Hnf. apply Hnf. unfold nr_frags.
        by rewrite Hnil. }
      destruct (Hlast Hne0) as (dl & Hdl & Hfl).
      exists q', dl. split; [exact Hq'|]. split; [|exact Hfl].
      rewrite Hbds. cbn [tx_bd_base txq_with_cur txq_with_bds].
      assert (Hne : (start + (nr_txbds - 1)) mod n <> start).
      { apply mod_shift_ne; [done|]. subst nr_txbds. lia. }
      rewrite !at_upd_ne by done.
      rewrite <- Hdl, Htx. f_equal. f_equal. subst nr_txbds.
      unfold nr_frags. lia.
Qed.

(** The claim as the spec has it ends with "no descriptor of a frame is
    marked ready while a later descriptor of the same frame is still
    being written".  The frame of [three_bd_packet] takes the descriptors
    1, 2 and 3: descriptor 2 is stored with READY set before the buffer
    pointer of descriptor 3 is stored. *)
Lemma xmit_ready_before_later_descriptor :
  exists p' pre v mid b post,
    @gfar_start_xmit etsec linux_model 2 0 ring4_one_queued three_bd_packet
      = Some (NETDEV_TX_OK, p') /\
    log p' = log ring4_one_queued ++ pre ++
             [EvLstatus (TxRing 0) 2 v] ++ mid ++
             [EvBufPtr (TxRing 0) 3 b] ++ post /\
    @has_flags v (@TXBD_READY etsec) /\
    cur_tx (txq0 ring4_one_queued) = 1 /\ cur_tx (txq0 p') = 0.
Proof.
  eexists _, [_], _, [], _, _.
  split; [vm_compute; reflexivity|].
  split; [vm_compute; reflexivity|].
  split; [vm_compute; reflexivity|].
  split; vm_compute; reflexivity.
Qed.

(** The same frame, through the theorem. *)
Lemma xmit_frame_store_order_witness :
  let p := ring4_one_queued in
  let q := txq0 p in
  let skb := three_bd_packet in
  let p' := after_xmit p skb in
  at_ (tx_queue p) 0 = Some q /\
  0 <= cur_tx q < tx_ring_size q /\
  num_txbdfree q <= tx_ring_size q /\
  2 <= nr_frags skb + 1 /\
  @xmit_frame etsec linux_model p 0 q skb false = Some (NETDEV_TX_OK, p') /\
  exists pre lst,
    log p' = log p ++ pre ++
             [EvEieio; EvLstatus (TxRing 0) (cur_tx q) lst; EvEieio;
              EvSkbuff (TxRing 0) (skb_curtx q);
              EvRegWrite R_tstat
                (Z.shiftr (@TSTAT_CLEAR_THALT etsec) (tx_qindex q))] /\
    @has_flags lst (@TXBD_READY etsec) /\
    (forall v, EvLstatus (TxRing 0) (cur_tx q) v ∉ pre).
Proof.
  intros p q skb p'.
  assert (H1 : at_ (tx_queue p) 0 = Some q) by (vm_compute; reflexivity).
  assert (H2 : 0 <= cur_tx q < tx_ring_size q)
    by (vm_compute; split; [discriminate|reflexivity]).
  assert (H3 : num_txbdfree q <= tx_ring_size q) by (vm_compute; discriminate).
  assert (H4 : 2 <= nr_frags skb + (if false then 2 else 1))
    by (vm_compute; discriminate).
  assert (H5 : @xmit_frame etsec linux_model p 0 q skb false
               = Some (NETDEV_TX_OK, p')) by (vm_compute; reflexivity).
  split; [exact H1|]. split; [exact H2|]. split; [exact H3|].
  split; [exact H4|]. split; [exact H5|].
  destruct (@xmit_frame_store_order etsec linux_model p p' 0 q skb false
              H1 H2 H3 H4 H5) as (pre & lst & Hlog & Hr & Hno & _).
  exists pre, lst. split; [exact Hlog|]. split; [exact Hr|exact Hno].
Defined.

(** ** Receive cleanup without a replacement buffer (C6) *)







(** ** Software segmentation (C7) *)

Lemma pool_step_with_log (p : gfar_private) (lg : list event) :
  pool_step p (with_log p lg).
Proof. repeat split. Qed.

Lemma gfar_new_skb_freed `{gianfar_h} (cpu : Z) (p p' : gfar_private)
    (o : option sk_buff) :
  gfar_new_skb cpu p = Some (o, p') -> freed p' = freed p.
Proof.
  assert (Ha : forall o p', gfar_alloc_skb p = (o, p') -> freed p' = freed p).
  { unfold gfar_alloc_skb, netdev_alloc_skb. intros o1 p1.
    destruct (allocator p) as [|[b|] rest]; intros E'; inversion E'; subst;
      reflexivity. }
  unfold gfar_new_skb. intros E.
  destruct (at_ (local (recycle p)) cpu) as [l|]; [|done]. cbn in E.
  destruct (skb_queues (recycle p) !! recycle_q l) as [q|]; [|done]. cbn in E.
  destruct q as [|s rest]; [|by inversion E].
  destruct (global_recycle_q (recycle p)) as [g|].
  - destruct (skb_queues (recycle p) !! g) as [gq|]; [|done]. cbn in E.
    destruct (negb _); inversion E as [E']; subst; [done|by eapply Ha].
  - inversion E as [E']. by eapply Ha.
Qed.

Lemma tso_segment_pool `{gianfar_h} (cpu : Z) (skb nskb : sk_buff)
    (st st1 : tso_state) (len_ : Z) (p p1 : gfar_private) :
  tso_segment cpu skb st p = Some (nskb, len_, st1, p1) ->
  pool_step p p1 /\ freed p1 = freed p.
Proof.
  unfold tso_segment. intros E.
  destruct (gfar_new_skb cpu p) as [[o p0]|] eqn:Hnew; [|done].
  cbn [mbind option_bind] in E. destruct o as [b|]; [|done].
  cbn [mbind option_bind] in E.
  destruct (negb (nr_frags b =? 0)); [done|].
  destruct (tso_frags _ _ _ _ _ _) as [[[rem pos] fr] lg].
  inversion E; subst. split.
  - eapply pool_step_trans; [by eapply pool_step_new_skb|].
    apply pool_step_with_log.
  - cbn. by eapply gfar_new_skb_freed.
Qed.

(** A submission that does not answer NETDEV_TX_OK has written to no
    transmit ring and has freed nothing. *)
Lemma gfar_start_xmit_fail_inv `{gianfar_h} `{linux} (fuel : nat) (cpu : Z)
    (p p' : gfar_private) (skb : sk_buff) (ret : netdev_tx) :
  gfar_start_xmit fuel cpu p skb = Some (ret, p') -> ret <> NETDEV_TX_OK ->
  tx_rings_kept p p'.
Proof.
  intros E Hret. destruct ret as [| |r]; [done| |].
  - by apply gfar_start_xmit_busy_inv in E as (? & _).
  - destruct fuel as [|fuel]; [done|]. cbn [gfar_start_xmit] in E.
    destruct (if _ && _ && _ then _ else _) as [r0 skb1].
    destruct (negb (r0 =? 0)).
    { inversion E; subst. apply tx_rings_kept_refl. }
    destruct (at_ (tx_queue p) (queue_mapping skb1)) as [q|] eqn:Hq; [|done].
    cbn [mbind option_bind] in E.
    destruct (if _ && _ then skb_realloc_headroom _ _ else _) as [skb2|];
      [|by inversion E].
    destruct (skb_is_gso skb2 && _).
    + by apply tso_loop_ok in E.
    + exfalso. unfold xmit_frame in E.
      destruct (_ >? num_txbdfree q); [by inversion E|].
      cbv zeta in E. break_in E.
Qed.

(** C7, as the code has it.  When the submission of a segment fails in
    the loop of [gfar_tso] (the answer of [gfar_start_xmit] for the
    segment is not NETDEV_TX_OK), the loop ends there: the answer of the
    segmentation is NETDEV_TX_OK, the failing segment and the large
    packet are given back to the allocator, nothing else is, and the
    failing turn changes no transmit ring, so that whatever the earlier
    turns have queued stays queued. *)
Theorem tso_loop_failed_segment `{gianfar_h} `{linux} (fuel n : nat) (cpu : Z)
    (skb nskb : sk_buff) (st st1 : tso_state) (len_ : Z)
    (p p1 p2 : gfar_private) (ret : netdev_tx) :
  tso_segment cpu skb st p = Some (nskb, len_, st1, p1) ->
  gfar_start_xmit fuel cpu p1 nskb = Some (ret, p2) ->
  ret <> NETDEV_TX_OK ->
  exists p3,
    tso_loop (gfar_start_xmit fuel cpu) (S n) cpu skb st p
      = Some (NETDEV_TX_OK, p3) /\
    freed p3 = freed p2 ++ [nskb; skb] /\
    tx_rings_kept p p3.
Proof.
  intros Hseg Hx Hret. cbn [tso_loop]. rewrite Hseg. cbn [mbind option_bind].
  rewrite Hx. cbn [mbind option_bind].
  rewrite bool_decide_eq_false_2 by done. cbn [negb].
  eexists. split; [reflexivity|]. split.
  - cbn. by rewrite <- app_assoc.
  - eapply tx_rings_kept_trans.
    { apply tx_rings_kept_pool. by eapply tso_segment_pool. }
    eapply tx_rings_kept_trans; [by eapply gfar_start_xmit_fail_inv|].
    apply tx_rings_kept_pool.
    eapply pool_step_trans; apply pool_step_kfree.
Qed.

(** C7 as stated does not hold.  A packet of two segments on a ring
    with three free descriptors: the first segment is queued, the
    submission of the second answers NETDEV_TX_BUSY, and the
    segmentation answers NETDEV_TX_OK with the first segment still in
    the ring, its descriptor handed to the hardware, and not freed. *)
Lemma gfar_tso_partial_commit :
  exists seg1 len1 st1 p1 p2 seg2 len2 st2 p3 p4 p' q' d,
    (* the first turn of the loop *)
    @tso_segment etsec 0 gso_packet (tso_start gso_packet) ring4_one_queued
      = Some (seg1, len1, st1, p1) /\
    @gfar_start_xmit etsec linux_model 1 0 p1 seg1 = Some (NETDEV_TX_OK, p2) /\
    (* the second turn *)
    @tso_segment etsec 0 gso_packet (tso_next st1 len1) p2
      = Some (seg2, len2, st2, p3) /\
    @gfar_start_xmit etsec linux_model 1 0 p3 seg2
      = Some (NETDEV_TX_BUSY, p4) /\
    (* the whole operation *)
    @gfar_start_xmit etsec linux_model 2 0 ring4_one_queued gso_packet
      = Some (NETDEV_TX_OK, p') /\
    freed p' = [seg2; gso_packet] /\
    at_ (tx_queue p') 0 = Some q' /\
    at_ (tx_skbuff q') 1 = Some (Some seg1) /\
    at_ (tx_bd_base q') 1 = Some d /\
    tst (lstatus d) (BD_LFLAG (@TXBD_READY etsec)) = true /\
    head seg1 <> head seg2.
Proof.
  eexists _, _, _, _, _, _, _, _, _, _, _, _, _.
  split; [vm_compute; reflexivity|]. split; [vm_compute; reflexivity|].
  split; [vm_compute; reflexivity|]. split; [vm_compute; reflexivity|].
  split; [vm_compute; reflexivity|]. split; [vm_compute; reflexivity|].
  split; [vm_compute; reflexivity|]. split; [vm_compute; reflexivity|].
  split; [vm_compute; reflexivity|]. split; [vm_compute; reflexivity|].
  vm_compute. discriminate.
Qed.

(** The second turn of that run. *)
Lemma tso_loop_failed_segment_witness :
  exists st p nskb len_ st1 p1 p2 p3,
    tso_first_turn = Some (st, p) /\
    @tso_segment etsec 0 gso_packet st p = Some (nskb, len_, st1, p1) /\
    @gfar_start_xmit etsec linux_model 1 0 p1 nskb
      = Some (NETDEV_TX_BUSY, p2) /\
    @tso_loop etsec linux_model (@gfar_start_xmit etsec linux_model 1 0) 1 0
       gso_packet st p = Some (NETDEV_TX_OK, p3) /\
    freed p3 = freed p2 ++ [nskb; gso_packet] /\
    tx_rings_kept p p3.
Proof.
  assert (Hrun : exists st p nskb len_ st1 p1 p2,
            tso_first_turn = Some (st, p) /\
            @tso_segment etsec 0 gso_packet st p
              = Some (nskb, len_, st1, p1) /\
            @gfar_start_xmit etsec linux_model 1 0 p1 nskb
              = Some (NETDEV_TX_BUSY, p2)).
  { eexists _, _, _, _, _, _, _.
    split; [vm_compute; reflexivity|]. split; [vm_compute; reflexivity|].
    vm_compute; reflexivity. }
  destruct Hrun as (st & p & nskb & len_ & st1 & p1 & p2 & H0 & H1 & H2).
  destruct (@tso_loop_failed_segment etsec linux_model 1 0 0 gso_packet nskb
              st st1 len_ p p1 p2 NETDEV_TX_BUSY H1 H2)
    as (p3 & H3 & H4 & H5); [discriminate|].
  exists st, p, nskb, len_, st1, p1, p2, p3.
  exact (conj H0 (conj H1 (conj H2 (conj H3 (conj H4 H5))))).
Defined.

(** ** Teardown twice (C8) *)

Lemma mem_step_refl (d : gfar_device) : mem_step d d.
Proof. repeat split; set_solver. Qed.

Lemma mem_step_trans (d1 d2 d3 : gfar_device) :
  mem_step d1 d2 -> mem_step d2 d3 -> mem_step d1 d3.
Proof.
  intros (?&?&?&?) (?&?&?&?). repeat split; try congruence. set_solver.
Qed.

Lemma mem_step_touch (d : gfar_device) (a : Z) : mem_step d (touch d a).
Proof. unfold touch. destruct (decide _); repeat split; set_solver. Qed.

Lemma mem_step_kfree (d : gfar_device) (a : Z) : mem_step d (kfree d a).
Proof.
  unfold kfree. destruct (a =? 0); [apply mem_step_refl|].
  destruct (decide _); repeat split; cbn; [|done].
  apply subseteq_difference_l. done.
Qed.

Lemma mem_step_with_priv (d : gfar_device) (p : gfar_private) :
  mem_step d (dev_with_priv d p).
Proof. repeat split; set_solver. Qed.

Lemma mem_step_with_regs (d : gfar_device) (r : gfar_regs)
    (hp : list (Z * Z * Z)) :
  mem_step d (dev_with_regs d r hp).
Proof. repeat split; set_solver. Qed.

Lemma mem_step_halt_nodisable `{gianfar_h} (d d' : gfar_device) :
  gfar_halt_nodisable d = Some d' -> mem_step d d'.
Proof.
  unfold gfar_halt_nodisable. intros E. cbv zeta in E.
  destruct (negb _).
  - destruct (wait_graceful_stop _ _) as [rest|]; [|done]. cbn in E.
    inversion E. repeat split; set_solver.
  - inversion E. repeat split; set_solver.
Qed.

Lemma mem_step_halt `{gianfar_h} (d d' : gfar_device) :
  gfar_halt d = Some d' -> mem_step d d'.
Proof.
  unfold gfar_halt. intros E.
  destruct (gfar_halt_nodisable d) as [d0|] eqn:E0; [|done]. cbn in E.
  inversion E. apply mem_step_halt_nodisable in E0.
  eapply mem_step_trans; [exact E0|]. repeat split; set_solver.
Qed.

Lemma mem_step_free_tx_slots (i a : Z) (ks : list Z) (txbdp : Z)
    (d d' : gfar_device) :
  free_tx_slots i a ks txbdp d = Some d' -> mem_step d d'.
Proof.
  revert txbdp d. induction ks as [|k ks IH]; intros txbdp d E; cbn in E.
  { inversion E. apply mem_step_refl. }
  destruct (at_ (tx_queue (priv (touch d a))) i) as [q|]; [|done]. cbn in E.
  destruct (at_ (tx_skbuff q) k) as [[skb|]|]; [| |done]; cbn in E.
  - destruct (at_ (tx_bd_base q) txbdp) as [bdv|]; [|done]. cbn in E.
    destruct (skip_frag_bds _ _ _) as [t|]; [|done]. cbn in E.
    apply IH in E. eapply mem_step_trans; [|exact E].
    eapply mem_step_trans; [apply mem_step_touch|].
    eapply mem_step_trans; [apply mem_step_touch|].
    apply mem_step_with_priv.
  - apply IH in E. eapply mem_step_trans; [apply mem_step_touch|exact E].
Qed.

Lemma mem_step_free_rx_slots (i a : Z) (ks : list Z) (d d' : gfar_device) :
  free_rx_slots i a ks d = Some d' -> mem_step d d'.
Proof.
  revert d. induction ks as [|k ks IH]; intros d E; cbn in E.
  { inversion E. apply mem_step_refl. }
  destruct (at_ (rx_queue (priv (touch d a))) i) as [q|]; [|done]. cbn in E.
  destruct (at_ (rx_skbuff q) k) as [oskb|]; [|done]. cbn in E.
  destruct oskb as [skb|]; cbn in E.
  - destruct (at_ _ k) as [x|]; [|done]. cbn in E. apply IH in E.
    eapply mem_step_trans; [|exact E].
    eapply mem_step_trans; [apply mem_step_touch|].
    eapply mem_step_trans; [apply mem_step_touch|].
    apply mem_step_with_priv.
  - destruct (at_ _ k) as [x|]; [|done]. cbn in E. apply IH in E.
    eapply mem_step_trans; [|exact E].
    eapply mem_step_trans; [apply mem_step_touch|].
    eapply mem_step_trans; [apply mem_step_touch|].
    apply mem_step_with_priv.
Qed.

Lemma mem_step_free_tx_queues (is_ : list Z) (d d' : gfar_device) :
  free_tx_queues is_ d = Some d' -> mem_step d d'.
Proof.
  revert d. induction is_ as [|i is_ IH]; intros d E; cbn in E.
  { inversion E. apply mem_step_refl. }
  destruct (at_ (tx_skbuff_p d) i) as [a|]; [|done]. cbn in E.
  destruct (negb (a =? 0)).
  - unfold free_skb_tx_queue in E.
    destruct (at_ (tx_queue (priv d)) i) as [q|]; [|done]. cbn in E.
    destruct (at_ (tx_skbuff_p d) i) as [a'|]; [|done]. cbn in E.
    destruct (free_tx_slots _ _ _ _ _) as [d0|] eqn:E0; [|done]. cbn in E.
    apply mem_step_free_tx_slots in E0. apply IH in E.
    eapply mem_step_trans; [exact E0|].
    eapply mem_step_trans; [apply mem_step_kfree|exact E].
  - cbn in E. by apply IH.
Qed.

Lemma mem_step_free_rx_queues (is_ : list Z) (d d' : gfar_device) :
  free_rx_queues is_ d = Some d' -> mem_step d d'.
Proof.
  revert d. induction is_ as [|i is_ IH]; intros d E; cbn in E.
  { inversion E. apply mem_step_refl. }
  destruct (at_ (rx_skbuff_p d) i) as [a|]; [|done]. cbn in E.
  destruct (negb (a =? 0)).
  - unfold free_skb_rx_queue in E.
    destruct (at_ (rx_queue (priv d)) i) as [q|]; [|done]. cbn in E.
    destruct (at_ (rx_skbuff_p d) i) as [a'|]; [|done]. cbn in E.
    destruct (free_rx_slots _ _ _ _) as [d0|] eqn:E0; [|done]. cbn in E.
    apply mem_step_free_rx_slots in E0. apply IH in E.
    eapply mem_step_trans; [exact E0|].
    eapply mem_step_trans; [apply mem_step_kfree|exact E].
  - cbn in E. by apply IH.
Qed.

(** [stop_gfar] up to the call of [gfar_free_bds]. *)
Lemma stop_gfar_inv `{gianfar_h} (d d' : gfar_device) :
  stop_gfar d = Some d' ->
  exists d0, mem_step d d0 /\ d' = kfree d0 (tx_bd_base_p d).
Proof.
  unfold stop_gfar, free_skb_resources, gfar_free_bds. intros E.
  destruct (gfar_halt d) as [d1|] eqn:E1; [|done]. cbn in E.
  destruct (free_tx_queues _ d1) as [d2|] eqn:E2; [|done]. cbn in E.
  destruct (free_rx_queues _ d2) as [d3|] eqn:E3; [|done]. cbn in E.
  destruct (at_ _ 0); [|done]. cbn in E. inversion E; subst d'.
  apply mem_step_halt in E1. apply mem_step_free_tx_queues in E2.
  apply mem_step_free_rx_queues in E3.
  assert (Hs : mem_step d d3).
  { eapply mem_step_trans; [exact E1|].
    eapply mem_step_trans; [exact E2|exact E3]. }
  exists d3. split; [exact Hs|]. destruct Hs as (-> & _). reflexivity.
Qed.

(** C8, as the code has it.  [stop_gfar] leaves the address of the
    descriptor memory in [tx_queue[0]->tx_bd_base], and [gfar_free_bds]
    frees what is there without a test: a second [stop_gfar] on the
    stopped device frees the descriptor memory again. *)
Theorem stop_gfar_twice_double_free `{gianfar_h} (d d1 d2 : gfar_device) :
  tx_bd_base_p d <> 0 ->
  stop_gfar d = Some d1 -> stop_gfar d1 = Some d2 ->
  DoubleFree (tx_bd_base_p d) ∈ faults d2.
Proof.
  intros Hnz E1 E2.
  apply stop_gfar_inv in E1 as (d0 & (Hb0 & _ & _ & _) & ->).
  apply stop_gfar_inv in E2 as (d3 & (Hb3 & _ & _ & Hl3) & ->).
  assert (Hb : tx_bd_base_p (kfree d0 (tx_bd_base_p d)) = tx_bd_base_p d).
  { destruct (mem_step_kfree d0 (tx_bd_base_p d)) as (-> & _). exact Hb0. }
  rewrite Hb. rewrite Hb in Hb3.
  assert (Hdead : tx_bd_base_p d ∉ live d3).
  { intros Hin. apply Hl3 in Hin. revert Hin. unfold kfree.
    destruct (tx_bd_base_p d =? 0) eqn:Hz; [lia|].
    destruct (decide _) as [Hin|Hout]; cbn; [|done].
    rewrite elem_of_difference, elem_of_singleton. tauto. }
  unfold kfree. destruct (tx_bd_base_p d =? 0) eqn:Hz; [lia|].
  destruct (decide _) as [Hin|_]; [done|]. cbn.
  apply elem_of_app. right. apply list_elem_of_here.
Qed.

(** The run on the device of four descriptors: after the first
    [stop_gfar] nothing is left allocated and nothing has gone wrong;
    the second one leaves the registers as they are, reads the two
    arrays that have been freed, and frees them and the descriptor
    memory again. *)
Lemma stop_gfar_twice_run :
  exists d1 d2,
    @stop_gfar etsec running4 = Some d1 /\
    faults d1 = [] /\ elements (live d1) = [] /\
    @stop_gfar etsec d1 = Some d2 /\
    regs d2 = regs d1 /\
    faults d2
      = [UseAfterFree 1000; UseAfterFree 1000; UseAfterFree 1000;
         UseAfterFree 1000; DoubleFree 1000; UseAfterFree 2000;
         UseAfterFree 3000; UseAfterFree 2000; UseAfterFree 3000;
         UseAfterFree 2000; UseAfterFree 3000; UseAfterFree 2000;
         UseAfterFree 3000; DoubleFree 2000; DoubleFree 3000].
Proof.
  eexists _, _. split; [vm_compute; reflexivity|].
  split; [vm_compute; reflexivity|]. split; [vm_compute; reflexivity|].
  split; [vm_compute; reflexivity|]. split; vm_compute; reflexivity.
Qed.

Lemma stop_gfar_twice_double_free_witness :
  exists d1 d2,
    @stop_gfar etsec running4 = Some d1 /\
    @stop_gfar etsec d1 = Some d2 /\
    DoubleFree (tx_bd_base_p running4) ∈ faults d2.
Proof.
  assert (Hrun : exists d1 d2, @stop_gfar etsec running4 = Some d1 /\
                               @stop_gfar etsec d1 = Some d2).
  { eexists _, _. split; [vm_compute; reflexivity|]. vm_compute; reflexivity. }
  destruct Hrun as (d1 & d2 & H1 & H2).
  assert (Hnz : tx_bd_base_p running4 <> 0) by (vm_compute; discriminate).
  exists d1, d2.
  exact (conj H1 (conj H2
           (@stop_gfar_twice_double_free etsec running4 d1 d2
              Hnz H1 H2))).
Defined.

(** ** The WRAP flag of the rings (C3) *)

(** *** Bits *)

Lemma tst_lor_clear (a b w : Z) :
  Z.land b w = 0 -> tst (Z.lor a b) w = tst a w.
Proof.
  intros Hb. unfold tst. by rewrite Z.land_lor_distr_l, Hb, Z.lor_0_r.
Qed.

Lemma land_lor_clear (a b w : Z) :
  Z.land a w = 0 -> Z.land b w = 0 -> Z.land (Z.lor a b) w = 0.
Proof. intros Ha Hb. by rewrite Z.land_lor_distr_l, Ha, Hb. Qed.

Lemma land_BD_LFLAG (a b : Z) :
  Z.land a b = 0 -> Z.land (BD_LFLAG a) (BD_LFLAG b) = 0.
Proof. unfold BD_LFLAG. intros Hab. by rewrite <- Z.shiftl_land, Hab. Qed.

Lemma land_length_BD_LFLAG (x w : Z) :
  0 <= x < 2 ^ 16 -> Z.land x (BD_LFLAG w) = 0.
Proof.
  intros Hx. unfold BD_LFLAG. apply Z.bits_inj'. intros n Hn.
  rewrite Z.land_spec, Z.bits_0.
  destruct (Z.lt_ge_cases n 16) as [Hlt|Hge].
  - rewrite Z.shiftl_spec_low by lia. apply andb_false_r.
  - destruct (Z.eq_dec x 0) as [->|Hnz]; [by rewrite Z.bits_0|].
    assert (Z.log2 x < 16) by (apply Z.log2_lt_pow2; lia).
    rewrite (Z.bits_above_log2 x n); [done|lia|lia].
Qed.

Lemma tst_keep_wrap (W old v : Z) :
  tst (keep_wrap W old v) (BD_LFLAG W) = tst old (BD_LFLAG W).
Proof.
  unfold tst, keep_wrap. f_equal. f_equal. apply Z.bits_inj'. intros n Hn.
  rewrite !Z.land_spec, Z.lor_spec, !Z.land_spec, Z.lnot_spec by done.
  destruct (Z.testbit v n), (Z.testbit old n), (Z.testbit (BD_LFLAG W) n);
    reflexivity.
Qed.

Lemma tst_BD_LFLAG_self (W : Z) : 0 < W -> tst (BD_LFLAG W) (BD_LFLAG W) = true.
Proof.
  intros HW. unfold tst. rewrite Z.land_diag. unfold BD_LFLAG.
  rewrite Z.shiftl_mul_pow2 by lia. apply negb_true_iff, Z.eqb_neq. lia.
Qed.


(** *** The picture of a ring, slot by slot *)

Lemma wrap_pt_flags (W N : Z) (bds : list bd) :
  0 <= N -> wrap_flags W bds = last_only N <-> wrap_pt W N bds.
Proof.
  intros HN. unfold wrap_flags, last_only, wrap_pt. split.
  - intros E. assert (Hlen : Z.of_nat (length bds) = N).
    { apply (f_equal length) in E. rewrite !length_map, length_seqZ in E. lia. }
    split; [exact Hlen|]. intros i d Hd.
    pose proof (at_Some_lt _ _ _ Hd) as Hi.
    apply (f_equal (fun l => at_ l i)) in E.
    change (map ?f ?l) with (f <$> l) in E. rewrite !at_fmap, Hd in E.
    unfold at_ in E at 1. destruct (decide (0 <= i)); [|lia].
    rewrite lookup_seqZ_lt in E by lia. cbn in E. inversion E as [E'].
    rewrite E'. f_equal. lia.
  - intros [Hlen Hpt]. apply list_eq. intros k.
    change (map ?f ?l) with (f <$> l). rewrite !list_lookup_fmap.
    destruct (decide (Z.of_nat k < N)) as [Hk|Hk].
    + rewrite lookup_seqZ_lt by done. cbn.
      destruct (bds !! k) as [d|] eqn:Hd.
      * cbn. f_equal. rewrite (Hpt (Z.of_nat k) d).
        -- f_equal.
        -- unfold at_. destruct (decide _); [|lia]. by rewrite Nat2Z.id.
      * apply lookup_ge_None in Hd. lia.
    + rewrite lookup_seqZ_ge by lia. rewrite lookup_ge_None_2 by lia. done.
Qed.

Lemma wrap_pt_upd (W N : Z) (bds : list bd) (i : Z) (d' : bd) :
  wrap_pt W N bds ->
  tst (lstatus d') (BD_LFLAG W) = (i =? N - 1) ->
  wrap_pt W N (upd bds i d').
Proof.
  intros [Hlen Hpt] Hd'. split; [by rewrite length_upd|]. intros j d Hj.
  destruct (Z.eq_dec i j) as [->|Hne].
  - apply at_upd_same_inv in Hj. by subst d.
  - rewrite at_upd_ne in Hj by done. by apply Hpt.
Qed.

Lemma wrap_pt_upd_keep (W N : Z) (bds : list bd) (i : Z) (d d' : bd) :
  wrap_pt W N bds -> at_ bds i = Some d ->
  tst (lstatus d') (BD_LFLAG W) = tst (lstatus d) (BD_LFLAG W) ->
  wrap_pt W N (upd bds i d').
Proof.
  intros Hpt Hd Hd'. apply wrap_pt_upd; [done|].
  rewrite Hd'. by apply Hpt.
Qed.

Lemma u32_small (x : Z) : 0 <= x < 2 ^ 16 -> 0 <= u32 x < 2 ^ 16.
Proof. intros Hx. unfold u32. rewrite Z.mod_small; lia. Qed.

Section wrap_tx.
Context `{gianfar_h} `{linux}.
Hypothesis Hh : gianfar_h_ok.
Hypothesis Hl : linux_ok.

Lemma txw_ready : Z.land (BD_LFLAG TXBD_READY) (BD_LFLAG TXBD_WRAP) = 0.
Proof. apply land_BD_LFLAG, Hh. Qed.
Lemma txw_last :
  Z.land (BD_LFLAG (Z.lor TXBD_LAST TXBD_INTERRUPT)) (BD_LFLAG TXBD_WRAP) = 0.
Proof. apply land_BD_LFLAG, Hh. Qed.
Lemma txw_crc :
  Z.land (BD_LFLAG (Z.lor TXBD_CRC TXBD_READY)) (BD_LFLAG TXBD_WRAP) = 0.
Proof. apply land_BD_LFLAG, Hh. Qed.
Lemma txw_toe : Z.land (BD_LFLAG TXBD_TOE) (BD_LFLAG TXBD_WRAP) = 0.
Proof. apply land_BD_LFLAG, Hh. Qed.
Lemma txw_fcb_len : Z.land GMAC_FCB_LEN (BD_LFLAG TXBD_WRAP) = 0.
Proof. apply land_length_BD_LFLAG, Hh. Qed.

(** A transmit queue whose ring is in order, slot by slot. *)
Lemma tx_wrap_ok_pt (q : gfar_priv_tx_q) :
  tx_wrap_ok q <->
  0 < tx_ring_size q /\ wrap_pt TXBD_WRAP (tx_ring_size q) (tx_bd_base q).
Proof.
  unfold tx_wrap_ok. split; intros [HN Hq]; (split; [done|]);
    apply wrap_pt_flags; (done || lia).
Qed.

Lemma rx_wrap_ok_pt (q : gfar_priv_rx_q) :
  rx_wrap_ok q <->
  0 < rx_ring_size q /\ wrap_pt RXBD_WRAP (rx_ring_size q) (rx_bd_base q).
Proof.
  unfold rx_wrap_ok. split; intros [HN Hq]; (split; [done|]);
    apply wrap_pt_flags; (done || lia).
Qed.

Lemma tx_store_lstatus_wrap (rq : Z) (ql ql' : gfar_priv_tx_q * list event)
    (i v N : Z) :
  tx_store_lstatus rq ql i v = Some ql' ->
  tx_ring_size ql.1 = N -> wrap_pt TXBD_WRAP N (tx_bd_base ql.1) ->
  tst v (BD_LFLAG TXBD_WRAP) = (i =? N - 1) ->
  tx_ring_size ql'.1 = N /\ wrap_pt TXBD_WRAP N (tx_bd_base ql'.1).
Proof.
  intros E HN Hpt Hv. apply tx_store_lstatus_inv in E as (d & Hd & ->).
  cbn. split; [done|]. by apply wrap_pt_upd.
Qed.

Lemma tx_store_bufPtr_wrap (rq : Z) (ql ql' : gfar_priv_tx_q * list event)
    (i v N : Z) :
  tx_store_bufPtr rq ql i v = Some ql' ->
  tx_ring_size ql.1 = N -> wrap_pt TXBD_WRAP N (tx_bd_base ql.1) ->
  tx_ring_size ql'.1 = N /\ wrap_pt TXBD_WRAP N (tx_bd_base ql'.1).
Proof.
  intros E HN Hpt. apply tx_store_bufPtr_inv in E as (d & Hd & ->).
  cbn. split; [done|]. by eapply wrap_pt_upd_keep.
Qed.

Lemma fill_frags_wrap (rq : Z) (frs : list skb_frag_t) :
  forall (txbdp txbdp' : Z) (ql ql' : gfar_priv_tx_q * list event) (N : Z),
  Forall (fun f => 0 <= frag_size f < 2 ^ 16) frs ->
  fill_frags rq frs txbdp ql = Some (txbdp', ql') ->
  tx_ring_size ql.1 = N -> wrap_pt TXBD_WRAP N (tx_bd_base ql.1) ->
  tx_ring_size ql'.1 = N /\ wrap_pt TXBD_WRAP N (tx_bd_base ql'.1).
Proof.
  induction frs as [|f rest IH]; intros txbdp txbdp' ql ql' N Hfit E HN Hpt.
  { cbn in E. inversion E; subst. done. }
  apply Forall_cons in Hfit as [Hf Hrest].
  cbn [fill_frags] in E. rewrite HN in E.
  destruct (at_ (tx_bd_base ql.1) (next_txbd txbdp N)) as [d|] eqn:Hd; [|done].
  cbn [mbind option_bind] in E.
  destruct (tx_store_bufPtr _ _ _ _) as [ql1|] eqn:E1; [|done].
  cbn [mbind option_bind] in E.
  destruct (tx_store_lstatus _ _ _ _) as [ql2|] eqn:E2; [|done].
  cbn [mbind option_bind] in E.
  destruct (tx_store_bufPtr_wrap _ _ _ _ _ _ E1 HN Hpt) as [HN1 Hpt1].
  assert (Hd0 : tst (lstatus d) (BD_LFLAG TXBD_WRAP) = (next_txbd txbdp N =? N - 1))
    by (by apply Hpt).
  destruct (tx_store_lstatus_wrap _ _ _ _ _ _ E2 HN1 Hpt1) as [HN2 Hpt2].
  { destruct rest.
    - rewrite !tst_lor_clear; [done| |apply txw_ready|apply txw_last].
      by apply land_length_BD_LFLAG.
    - rewrite !tst_lor_clear; [done| |apply txw_ready].
      by apply land_length_BD_LFLAG. }
  by eapply IH.
Qed.

(** [wrap_inv] looks at the rings only. *)
Lemma wrap_inv_ext (p p' : gfar_private) :
  tx_queue p' = tx_queue p -> rx_queue p' = rx_queue p ->
  wrap_inv p -> wrap_inv p'.
Proof. unfold wrap_inv. by intros -> ->. Qed.

Lemma Forall_upd {A} (P : A -> Prop) (l : list A) (i : Z) (x : A) :
  Forall P l -> P x -> Forall P (upd l i x).
Proof.
  intros Hl' Hx. unfold upd. destruct (decide _); [|done].
  by apply Forall_insert.
Qed.

Lemma Forall_at {A} (P : A -> Prop) (l : list A) (i : Z) (x : A) :
  Forall P l -> at_ l i = Some x -> P x.
Proof.
  intros Hl' Hx. unfold at_ in Hx. destruct (decide _); [|done].
  by eapply Forall_lookup_1.
Qed.

Lemma wrap_inv_with_txq (p : gfar_private) (rq : Z) (q : gfar_priv_tx_q) :
  wrap_inv p -> tx_wrap_ok q -> wrap_inv (with_txq p rq q).
Proof. intros [Ht Hr] Hq. split; [by apply Forall_upd|done]. Qed.

Lemma wrap_inv_with_rxq (p : gfar_private) (rq : Z) (q : gfar_priv_rx_q) :
  wrap_inv p -> rx_wrap_ok q -> wrap_inv (with_rxq p rq q).
Proof. intros [Ht Hr] Hq. split; [done|by apply Forall_upd]. Qed.

Lemma wrap_inv_pool (p p' : gfar_private) :
  pool_step p p' -> wrap_inv p -> wrap_inv p'.
Proof. intros (Ht & Hr & _). by apply wrap_inv_ext. Qed.

Lemma skb_headlen_checksum_help (s : sk_buff) :
  skb_headlen (skb_checksum_help s).2 = skb_headlen s.
Proof. apply Hl. Qed.

(** Break every hypothesis that says a computation has a result into
    the steps of the computation. *)
Ltac break_hyps :=
  repeat match goal with
         | E : Some _ = Some _ |- _ => inversion E; subst; clear E
         | E : None = Some _ |- _ => discriminate E
         | E : (?x ≫= _) = Some _ |- _ =>
             destruct x eqn:?; cbn [mbind option_bind] in E
         | E : (match ?x with _ => _ end) = Some _ |- _ => destruct x eqn:?
         | E : (if ?b then _ else _) = Some _ |- _ => destruct b eqn:?
         | E : (_, _) = (_, _) |- _ => inversion E; subst; clear E
         | E : (if ?b then _ else _) = (_, _) |- _ => destruct b eqn:?
         | E : (match ?x with _ => _ end) = (_, _) |- _ => destruct x eqn:?
         | x : (_ * _)%type |- _ => destruct x
         end.

(** [pool_ok] looks at the recycler and the allocator only. *)
Lemma pool_ok_ext (p p' : gfar_private) :
  recycle p' = recycle p -> allocator p' = allocator p ->
  pool_ok p -> pool_ok p'.
Proof. unfold pool_ok. by intros -> ->. Qed.

Lemma ring_inv_ext (p p' : gfar_private) :
  tx_queue p' = tx_queue p -> rx_queue p' = rx_queue p ->
  recycle p' = recycle p -> allocator p' = allocator p ->
  ring_inv p -> ring_inv p'.
Proof.
  intros Ht Hr Hc Ha [Hw Hp].
  split; [by eapply wrap_inv_ext|by eapply pool_ok_ext].
Qed.

Lemma ring_inv_with_txq (p : gfar_private) (rq : Z) (q : gfar_priv_tx_q) :
  ring_inv p -> tx_wrap_ok q -> ring_inv (with_txq p rq q).
Proof. intros [Hw Hp] Hq. split; [by apply wrap_inv_with_txq|done]. Qed.

Lemma ring_inv_with_rxq (p : gfar_private) (rq : Z) (q : gfar_priv_rx_q) :
  ring_inv p -> rx_wrap_ok q -> ring_inv (with_rxq p rq q).
Proof. intros [Hw Hp] Hq. split; [by apply wrap_inv_with_rxq|done]. Qed.

Lemma ring_inv_kfree (p : gfar_private) (s : sk_buff) :
  ring_inv p -> ring_inv (dev_kfree_skb_any p s).
Proof. by apply ring_inv_ext. Qed.

Lemma ring_inv_emit (p : gfar_private) (e : list event) :
  ring_inv p -> ring_inv (emit p e).
Proof. by apply ring_inv_ext. Qed.

Lemma ring_inv_with_stats (p : gfar_private) (s : net_device_stats)
    (e : gfar_extra_stats) :
  ring_inv p -> ring_inv (with_stats p s e).
Proof. by apply ring_inv_ext. Qed.

Lemma blank_align (b : sk_buff) : blank b -> blank (gfar_align_skb b).
Proof. done. Qed.

(** A buffer from [gfar_new_skb] is blank, and what stays behind is. *)
Lemma gfar_new_skb_pool (cpu : Z) (p p' : gfar_private)
    (o : option sk_buff) :
  pool_ok p -> gfar_new_skb cpu p = Some (o, p') ->
  pool_ok p' /\ forall b, o = Some b -> blank b.
Proof.
  intros [Hq Ha] E. unfold gfar_new_skb in E.
  destruct (at_ (local (recycle p)) cpu) as [l|]; [|done].
  cbn [mbind option_bind] in E.
  destruct (skb_queues (recycle p) !! recycle_q l) as [q|] eqn:Hlq; [|done].
  cbn [mbind option_bind] in E.
  assert (Halloc : forall o1 p1, gfar_alloc_skb p = (o1, p1) ->
            pool_ok p1 /\ forall b, o1 = Some b -> blank b).
  { unfold gfar_alloc_skb, netdev_alloc_skb. intros o1 p1 E1.
    destruct (allocator p) as [|[b|] rest] eqn:Hal; inversion E1; subst.
    - split; [split; [done|by rewrite Hal]|]. by intros b Hb.
    - apply Forall_cons in Ha as [Hb Hrest]. split; [by split|].
      intros b' Hb'. inversion Hb'; subst. apply blank_align. by apply Hb.
    - apply Forall_cons in Ha as [Hb Hrest]. split; [by split|].
      by intros b Hb'. }
  destruct q as [|s rest].
  - destruct (global_recycle_q (recycle p)) as [g|].
    + destruct (skb_queues (recycle p) !! g) as [gq|] eqn:Hgq; [|done].
      cbn [mbind option_bind] in E. destruct (negb _).
      * inversion E; subst. clear E.
        pose proof (map_Forall_lookup_1 _ _ _ _ Hq Hgq) as Hg.
        split; [split; [|done]|].
        -- cbn. apply map_Forall_insert_2; [|done].
           destruct gq; [done|]. by apply Forall_cons in Hg as [_ Hg].
        -- intros b Hb. destruct gq; [done|]. cbn in Hb. inversion Hb; subst.
           by apply Forall_cons in Hg as [Hg _].
      * inversion E as [E']. by apply Halloc.
    + inversion E as [E']. by apply Halloc.
  - inversion E; subst. clear E.
    pose proof (map_Forall_lookup_1 _ _ _ _ Hq Hlq) as Hs.
    apply Forall_cons in Hs as [Hs Hrest].
    split; [split; [|done]|].
    + cbn. by apply map_Forall_insert_2.
    + intros b Hb. by inversion Hb; subst.
Qed.

Lemma ring_inv_new_skb (cpu : Z) (p p' : gfar_private) (o : option sk_buff) :
  ring_inv p -> gfar_new_skb cpu p = Some (o, p') -> ring_inv p'.
Proof.
  intros [Hw Hp] E. split.
  - eapply wrap_inv_pool; [by eapply pool_step_new_skb|done].
  - by eapply gfar_new_skb_pool.
Qed.

(** [gfar_free_skb] puts a recycled buffer into the pool, or none. *)
Lemma gfar_free_skb_pool (cpu : Z) (p p' : gfar_private) (s : sk_buff) :
  pool_ok p -> gfar_free_skb cpu p s = Some p' -> pool_ok p'.
Proof.
  intros Hp E. unfold gfar_free_skb in E. cbv zeta in E.
  assert (Hrec : forall s0, blank (gfar_align_skb (skb_recycle s0))).
  { intros s0. apply blank_align, Hl. }
  assert (Hcf : pool_ok (clean_frags p s).2).
  { unfold clean_frags.
    destruct (negb (nr_frags s =? 0)); cbn [snd]; [|exact Hp].
    by eapply pool_ok_ext; [| |exact Hp]. }
  destruct (clean_frags p s) as [s1 p1]. cbn [snd] in Hcf.
  break_hyps;
    try exact Hp; try exact Hcf;
    try (by eapply pool_ok_ext; [| |exact Hp]);
    try (by eapply pool_ok_ext; [| |exact Hcf]).
  all: match goal with
       | Hx : pool_ok ?x |- pool_ok (with_recycle ?x _) =>
           destruct Hx as [Hq Ha]; split; [|exact Ha]; cbn;
           apply map_Forall_insert_2; [|exact Hq];
           constructor; [apply Hrec|];
           eapply (map_Forall_lookup_1 _ _ _ _ Hq); eassumption
       end.
Qed.

Lemma ring_inv_free_skb (cpu : Z) (p p' : gfar_private) (s : sk_buff) :
  ring_inv p -> gfar_free_skb cpu p s = Some p' -> ring_inv p'.
Proof.
  intros [Hw Hp] E. split.
  - eapply wrap_inv_pool; [by eapply pool_step_free_skb|done].
  - by eapply gfar_free_skb_pool.
Qed.

Lemma ring_inv_xmit_final (P : gfar_private) (rq : Z) (Q : gfar_priv_tx_q)
    (c : bool) (lg ev : list event) :
  ring_inv P -> tx_wrap_ok Q ->
  ring_inv (emit (if c then stop_queue (with_log P lg) rq Q
                  else with_txq (with_log P lg) rq Q) ev).
Proof.
  intros HP HQ. destruct c.
  - apply (ring_inv_ext (with_txq P rq (txq_with_stopped Q true)));
      [done..|].
    by apply ring_inv_with_txq.
  - apply (ring_inv_ext (with_txq P rq Q)); [done..|].
    by apply ring_inv_with_txq.
Qed.

(** The flags and lengths [gfar_start_xmit] ors into an [lstatus]
    leave the WRAP bit alone. *)
Ltac headlen_solver Hl Hh0 Hh1 :=
  try match goal with
      | |- context [skb_checksum_help ?s] =>
          let Hk := fresh "Hk" in
          pose proof (proj1 (checksum_help_keeps Hl s)) as Hk;
          unfold skb_headlen in Hk;
          generalize dependent (skb_checksum_help s); intros
      end;
  unfold skb_headlen, gfar_add_fcb, skb_push, __skb_pull, skb_with_fcb,
    skb_with_shinfo, skb_with_data in *;
  cbn [len data_len] in *; lia.

Ltac wrap_clear Hh Hl Hh0 Hh1 :=
  repeat apply land_lor_clear;
  first [ apply txw_ready | apply txw_last | apply txw_crc
        | apply txw_toe | apply txw_fcb_len
        | apply land_length_BD_LFLAG; apply u32_small;
          headlen_solver Hl Hh0 Hh1 ].

Ltac wrap_side Hh Hl Hh0 Hh1 :=
  repeat (rewrite tst_lor_clear; [|solve [wrap_clear Hh Hl Hh0 Hh1]]);
  match goal with
  | Hd : at_ ?l ?i = Some ?d, Hp : wrap_pt _ _ ?l
    |- tst (lstatus ?d) _ = _ => exact (proj2 Hp i d Hd)
  end.

(** Carry the picture of the ring along the stores among the
    hypotheses. *)
Ltac wrap_chain Hh Hl Hh0 Hh1 Hfr :=
  repeat match goal with
         | E : fill_frags _ _ _ (?a, _) = Some (_, (_, _)),
           HNa : tx_ring_size ?a = _, Hpa : wrap_pt _ _ (tx_bd_base ?a) |- _ =>
             let HN1 := fresh "HN" in let Hp1 := fresh "Hp" in
             destruct (fill_frags_wrap _ _ _ _ _ _ _ Hfr E HNa Hpa)
               as [HN1 Hp1];
             cbn [fst snd] in HN1, Hp1; clear E
         | E : tx_store_bufPtr _ (?a, _) _ _ = Some (_, _),
           HNa : tx_ring_size ?a = _, Hpa : wrap_pt _ _ (tx_bd_base ?a) |- _ =>
             let HN1 := fresh "HN" in let Hp1 := fresh "Hp" in
             destruct (tx_store_bufPtr_wrap _ _ _ _ _ _ E HNa Hpa)
               as [HN1 Hp1];
             cbn [fst snd] in HN1, Hp1; clear E
         | E : tx_store_lstatus _ (?a, _) ?i ?v = Some (_, _),
           HNa : tx_ring_size ?a = ?N, Hpa : wrap_pt _ _ (tx_bd_base ?a) |- _ =>
             let HN1 := fresh "HN" in let Hp1 := fresh "Hp" in
             let Hs := fresh "Hs" in
             assert (Hs : tst v (BD_LFLAG TXBD_WRAP) = (i =? N - 1))
               by (wrap_side Hh Hl Hh0 Hh1);
             destruct (tx_store_lstatus_wrap _ _ _ _ _ _ E HNa Hpa Hs)
               as [HN1 Hp1];
             cbn [fst snd] in HN1, Hp1; clear E Hs
         end.

Lemma xmit_frame_wrap (p p' : gfar_private) (rq : Z) (q : gfar_priv_tx_q)
    (skb : sk_buff) (ts : bool) (r : netdev_tx) :
  at_ (tx_queue p) rq = Some q ->
  frame_fits skb ->
  ring_inv p ->
  xmit_frame p rq q skb ts = Some (r, p') ->
  ring_inv p'.
Proof.
  intros Hq (Hh0 & Hh1 & Hfr) Hinv E.
  pose proof (fcb_len_16 Hh) as Hfcb.
  assert (Hqok : tx_wrap_ok q) by (eapply Forall_at; [apply Hinv|done]).
  apply tx_wrap_ok_pt in Hqok as [HN Hpt].
  unfold xmit_frame in E.
  destruct (_ >? num_txbdfree q).
  { inversion E; subst. unfold stop_queue.
    eapply ring_inv_ext; [reflexivity..|].
    apply ring_inv_with_txq; [done|]. apply tx_wrap_ok_pt. done. }
  cbv zeta in E.
  break_hyps.
  all: set (q0 := txq_with_counts q _ _) in *.
  all: assert (HN0 : tx_ring_size q0 = tx_ring_size q) by reflexivity.
  all: assert (Hp0 : wrap_pt TXBD_WRAP (tx_ring_size q) (tx_bd_base q0))
         by exact Hpt.
  all: cbn [fst snd] in *.
  all: wrap_chain Hh Hl Hh0 Hh1 Hfr.
  all: apply ring_inv_xmit_final;
    [ first [ exact Hinv | by eapply ring_inv_ext; [..|exact Hinv] ]
    | apply tx_wrap_ok_pt; cbn [tx_ring_size tx_bd_base txq_with_cur];
      match goal with
      | HNg : tx_ring_size ?g = _, Hpg : wrap_pt _ _ (tx_bd_base ?g)
        |- _ /\ wrap_pt _ (tx_ring_size ?g) _ =>
          rewrite HNg; exact (conj HN Hpg)
      end ].
Qed.


Lemma gfar_start_xmit_wrap (fuel : nat) (cpu : Z) (p p' : gfar_private)
    (skb : sk_buff) (r : netdev_tx) :
  ring_inv p -> frame_fits skb -> skb_is_gso skb = false ->
  gfar_start_xmit fuel cpu p skb = Some (r, p') ->
  ring_inv p'.
Proof.
  intros Hinv Hfit Hgso E. destruct fuel as [|fuel]; [done|].
  cbn [gfar_start_xmit] in E.
  assert (Hfit1 : forall s, skb_headlen s = skb_headlen skb ->
                            shinfo s = shinfo skb -> frame_fits s).
  { intros s Hs1 Hs2. unfold frame_fits. by rewrite Hs1, Hs2. }
  assert (Hgso1 : forall s, shinfo s = shinfo skb -> skb_is_gso s = false).
  { intros s Hs. unfold skb_is_gso in *. by rewrite Hs. }
  destruct (if _ && _ && _ then _ else _) as [ret skb1] eqn:Hc.
  assert (Hk1 : skb_headlen skb1 = skb_headlen skb /\ shinfo skb1 = shinfo skb).
  { destruct (_ && _ && _).
    - pose proof (checksum_help_keeps Hl skb) as Hk. rewrite Hc in Hk.
      exact Hk.
    - by inversion Hc. }
  destruct Hk1 as [Hk1 Hk2].
  destruct (negb (ret =? 0)); [by inversion E; subst|].
  destruct (at_ (tx_queue p) (queue_mapping skb1)) as [q|] eqn:Hq; [|done].
  cbn [mbind option_bind] in E.
  destruct ((_ || _ || _) && _) eqn:Hroom.
  - destruct (skb_realloc_headroom skb1 GMAC_FCB_LEN) as [skb2|] eqn:Hre.
    + destruct (realloc_headroom_keeps Hl _ _ _ Hre) as [Hk3 Hk4].
      rewrite (Hgso1 skb2) in E by congruence. cbn [andb] in E.
      eapply xmit_frame_wrap; [| |
        apply ring_inv_kfree; exact Hinv |exact E].
      * exact Hq.
      * apply Hfit1; congruence.
    + inversion E; subst. by eapply ring_inv_ext; [..|exact Hinv].
  - rewrite (Hgso1 skb1) in E by congruence. cbn [andb] in E.
    eapply xmit_frame_wrap; [exact Hq| |exact Hinv|exact E].
    by apply Hfit1.
Qed.


End wrap_tx.

(** *** Cleanup *)

Section wrap_clean.
Context `{gianfar_h} `{linux}.
Hypothesis Hh : gianfar_h_ok.
Hypothesis Hl : linux_ok.

Lemma tx_clear_wrap (rq : Z) (ql ql' : gfar_priv_tx_q * list event)
    (bdp N : Z) :
  tx_clear rq ql bdp = Some ql' ->
  tx_ring_size ql.1 = N -> wrap_pt TXBD_WRAP N (tx_bd_base ql.1) ->
  tx_ring_size ql'.1 = N /\ wrap_pt TXBD_WRAP N (tx_bd_base ql'.1).
Proof.
  unfold tx_clear. intros E HN Hpt.
  destruct (at_ (tx_bd_base ql.1) bdp) as [d|] eqn:Hd; [|done].
  cbn [mbind option_bind] in E.
  eapply tx_store_lstatus_wrap; [exact E|exact HN|exact Hpt|].
  rewrite <- (proj2 Hpt bdp d Hd). unfold tst.
  by rewrite <- Z.land_assoc, Z.land_diag.
Qed.

Lemma clean_frag_bds_wrap (rq : Z) (frs : list skb_frag_t) :
  forall (bdp bdp' : Z) (ql ql' : gfar_priv_tx_q * list event) (N : Z),
  clean_frag_bds rq frs bdp ql = Some (bdp', ql') ->
  tx_ring_size ql.1 = N -> wrap_pt TXBD_WRAP N (tx_bd_base ql.1) ->
  tx_ring_size ql'.1 = N /\ wrap_pt TXBD_WRAP N (tx_bd_base ql'.1).
Proof.
  induction frs as [|f rest IH]; intros bdp bdp' ql ql' N E HN Hpt.
  { cbn in E. by inversion E; subst. }
  cbn [clean_frag_bds] in E.
  destruct (at_ (tx_bd_base ql.1) bdp) as [d|]; [|done].
  cbn [mbind option_bind] in E.
  destruct (tx_clear rq ql bdp) as [ql1|] eqn:E1; [|done].
  cbn [mbind option_bind] in E.
  destruct (tx_clear_wrap _ _ _ _ _ E1 HN Hpt) as [HN1 Hpt1].
  by eapply IH.
Qed.

Lemma tx_wrap_ok_with_dirty (q : gfar_priv_tx_q) (sk : list (option sk_buff))
    (a b c : Z) :
  tx_wrap_ok q -> tx_wrap_ok (txq_with_dirty q sk a b c).
Proof. done. Qed.

Lemma tx_wrap_ok_with_stopped (q : gfar_priv_tx_q) (b : bool) :
  tx_wrap_ok q -> tx_wrap_ok (txq_with_stopped q b).
Proof. done. Qed.

Lemma clean_tx_loop_wrap (n : nat) (cpu rq : Z) :
  forall (p p' : gfar_private) (bdp dirtytx limit howmany : Z)
         (bdp' dirtytx' howmany' : Z),
  ring_inv p ->
  clean_tx_loop n cpu rq p bdp dirtytx limit howmany
    = Some (bdp', dirtytx', howmany', p') ->
  ring_inv p'.
Proof.
  induction n as [|n IH];
    intros p p' bdp dirtytx limit howmany bdp' dirtytx' howmany' Hinv E;
    cbn [clean_tx_loop] in E.
  { destruct (at_ (tx_queue p) rq) as [q|]; [|done].
    cbn [mbind option_bind] in E.
    destruct (at_ (tx_skbuff q) dirtytx) as [[skb|]|]; [done| |done].
    by inversion E; subst. }
  destruct (at_ (tx_queue p) rq) as [q|] eqn:Hq; [|done].
  cbn [mbind option_bind] in E.
  destruct (at_ (tx_skbuff q) dirtytx) as [[skb|]|]; [| |done];
    cbn [mbind option_bind] in E; [|by inversion E; subst].
  destruct (limit =? 0); [by inversion E; subst|].
  cbv zeta in E.
  destruct (at_ (tx_bd_base q) (skip_txbd _ _ _)) as [ld|]; [|done].
  cbn [mbind option_bind] in E.
  destruct (_ && _); [by inversion E; subst|].
  destruct (at_ (tx_bd_base q) bdp) as [d0|]; [|done].
  cbn [mbind option_bind] in E.
  assert (Hqok : tx_wrap_ok q) by (eapply Forall_at; [apply Hinv|done]).
  apply tx_wrap_ok_pt in Hqok as [HN Hpt].
  match type of E with
  | (?x ≫= _) = _ => destruct x as [[[skb1 bdp1] ql1]|] eqn:E1; [|done]
  end.
  cbn [mbind option_bind] in E.
  assert (H1 : tx_ring_size ql1.1 = tx_ring_size q /\
               wrap_pt TXBD_WRAP (tx_ring_size q) (tx_bd_base ql1.1)).
  { destruct (tx_in_progress (shinfo skb)).
    - destruct (at_ (tx_bd_base q) (next_txbd bdp (tx_ring_size q)));
        [|done]. cbn [mbind option_bind] in E1.
      destruct (tx_clear rq (q, log p) bdp) as [ql0|] eqn:E0; [|done].
      cbn [mbind option_bind] in E1. inversion E1; subst.
      by eapply tx_clear_wrap.
    - inversion E1; subst. done. }
  destruct H1 as [HN1 Hpt1].
  destruct (tx_clear rq ql1 bdp1) as [ql2|] eqn:E2; [|done].
  cbn [mbind option_bind] in E.
  destruct (tx_clear_wrap _ _ _ _ _ E2 HN1 Hpt1) as [HN2 Hpt2].
  destruct (clean_frag_bds _ _ _ _) as [[bdp3 ql3]|] eqn:E3; [|done].
  cbn [mbind option_bind] in E.
  destruct (clean_frag_bds_wrap _ _ _ _ _ _ _ E3 HN2 Hpt2) as [HN3 Hpt3].
  cbn [fst snd] in E.
  set (p1 := with_log (with_txq p rq ql3.1) ql3.2) in E.
  assert (Hp1 : ring_inv p1).
  { apply (ring_inv_ext (with_txq p rq ql3.1)); [done..|].
    apply ring_inv_with_txq; [done|]. apply tx_wrap_ok_pt.
    rewrite HN3. done. }
  match type of E with
  | (?x ≫= _) = _ => destruct x as [p2|] eqn:E4; [|done]
  end.
  cbn [mbind option_bind] in E.
  assert (Hp2 : ring_inv p2).
  { destruct (negb (skb_tcp_ack_recycle skb1)).
    - by eapply (ring_inv_free_skb Hl).
    - by inversion E4; subst. }
  destruct (at_ (tx_queue p2) rq) as [q2|] eqn:Hq2; [|done].
  cbn [mbind option_bind] in E.
  eapply IH; [|exact E].
  eapply ring_inv_ext; [..|apply (ring_inv_with_txq p2 rq); [exact Hp2|]];
    [reflexivity..|].
  apply tx_wrap_ok_with_dirty. eapply Forall_at; [apply Hp2|done].
Qed.

Lemma gfar_clean_tx_ring_wrap (cpu rq : Z) (p p' : gfar_private)
    (limit n : Z) :
  ring_inv p -> gfar_clean_tx_ring cpu rq p limit = Some (n, p') ->
  ring_inv p'.
Proof.
  unfold gfar_clean_tx_ring. intros Hinv E.
  destruct (at_ (tx_queue p) rq) as [q|]; [|done].
  cbn [mbind option_bind] in E.
  destruct (clean_tx_loop _ _ _ _ _ _ _ _) as [[[[bdp dirtytx] howmany] p1]|]
    eqn:E1; [|done].
  cbn [mbind option_bind] in E.
  apply clean_tx_loop_wrap in E1; [|done].
  destruct (at_ (tx_queue p1) rq) as [q1|]; [|done].
  cbn [mbind option_bind] in E.
  destruct (at_ (tx_queue p1) (tx_qindex q1)) as [sq|] eqn:Hsq; [|done].
  cbn [mbind option_bind] in E.
  match type of E with
  | context [if ?c then ?a else p1] =>
      set (p2 := if c then a else p1) in E; assert (Hp2 : ring_inv p2)
  end.
  { subst p2. destruct (_ && _); [|done].
    apply ring_inv_with_txq; [done|]. apply tx_wrap_ok_with_stopped.
    eapply Forall_at; [apply E1|done]. }
  destruct (at_ (tx_queue p2) rq) as [q2|] eqn:Hq2; [|done].
  cbn [mbind option_bind] in E. inversion E; subst.
  apply ring_inv_with_txq; [done|]. apply tx_wrap_ok_with_dirty.
  eapply Forall_at; [apply Hp2|done].
Qed.

Lemma rxw_empty :
  Z.land (BD_LFLAG (Z.lor RXBD_EMPTY RXBD_INTERRUPT)) (BD_LFLAG RXBD_WRAP) = 0.
Proof. apply land_BD_LFLAG, Hh. Qed.

Lemma tst_rx_armed (q : gfar_priv_rx_q) (bdp : Z) :
  tst (rx_armed q bdp) (BD_LFLAG RXBD_WRAP) = (bdp =? rx_ring_size q - 1).
Proof.
  unfold rx_armed. cbv zeta. destruct (bdp =? rx_ring_size q - 1).
  - rewrite Z.lor_comm, tst_lor_clear by apply rxw_empty.
    apply tst_BD_LFLAG_self, Hh.
  - unfold tst. by rewrite rxw_empty.
Qed.

Lemma gfar_init_rxbdp_inv (rq : Z) (q q' : gfar_priv_rx_q)
    (lg lg' : list event) (bdp buf : Z) :
  gfar_init_rxbdp rq (q, lg) bdp buf = Some (q', lg') ->
  q' = rxq_with_bds q (upd (rx_bd_base q) bdp (mk_bd (rx_armed q bdp) buf)).
Proof.
  unfold gfar_init_rxbdp. intros E.
  destruct (at_ (rx_bd_base q) bdp); [|done]. cbn in E. by inversion E.
Qed.

Lemma gfar_init_rxbdp_wrap (rq : Z) (q q' : gfar_priv_rx_q)
    (lg lg' : list event) (bdp buf : Z) (bds : list bd) :
  gfar_init_rxbdp rq (q, lg) bdp buf = Some (q', lg') ->
  wrap_pt RXBD_WRAP (rx_ring_size q) bds ->
  rx_bd_base q = bds \/ (exists d, rx_bd_base q = upd bds bdp d) ->
  rx_ring_size q' = rx_ring_size q /\
  wrap_pt RXBD_WRAP (rx_ring_size q) (rx_bd_base q').
Proof.
  intros E Hpt Hb. apply gfar_init_rxbdp_inv in E as ->. cbn.
  split; [done|]. destruct Hb as [->|[d ->]].
  - apply wrap_pt_upd; [done|]. apply tst_rx_armed.
  - rewrite upd_upd. apply wrap_pt_upd; [done|]. apply tst_rx_armed.
Qed.



Lemma ring_inv_process_frame (p : gfar_private) (s : sk_buff) (a : Z) :
  ring_inv p -> ring_inv (gfar_process_frame p s a).
Proof.
  intros Hp. unfold gfar_process_frame. cbv zeta.
  destruct (netif_receive_skb_drops _); by eapply ring_inv_ext; [..|exact Hp].
Qed.

Lemma clean_rx_step_wrap (cpu rq : Z) (p p' : gfar_private)
    (bdp howmany bdp' howmany' : Z) :
  ring_inv p ->
  clean_rx_step cpu rq p bdp howmany = Some (bdp', howmany', p') ->
  ring_inv p'.
Proof.
  intros Hinv E. unfold clean_rx_step in E. cbv zeta in E.
  destruct (gfar_new_skb cpu p) as [[newskb p1]|] eqn:Hnew; [|done].
  cbn [mbind option_bind] in E.
  assert (Hp1 : ring_inv p1).
  { by eapply ring_inv_new_skb. }
  destruct (at_ (rx_queue p1) rq) as [q|] eqn:Hq; [|done].
  cbn [mbind option_bind] in E.
  assert (Hqok : rx_wrap_ok q) by (eapply Forall_at; [apply Hp1|done]).
  apply rx_wrap_ok_pt in Hqok as [HN Hpt].
  destruct (at_ (rx_skbuff q) (skb_currx q)) as [skb|]; [|done].
  cbn [mbind option_bind] in E.
  destruct (at_ (rx_bd_base q) bdp) as [d|] eqn:Hd; [|done].
  cbn [mbind option_bind] in E.
  match type of E with
  | context [if ?c then (?d1, ?q1, ?pa) else (d, q, p1)] =>
      destruct (if c then (d1, q1, pa) else (d, q, p1)) as [[d2 q2] p2] eqn:E2;
      assert (H2 : ring_inv p2 /\ rx_ring_size q2 = rx_ring_size q /\
                   (rx_bd_base q2 = rx_bd_base q \/
                    exists x, rx_bd_base q2 = upd (rx_bd_base q) bdp x))
  end.
  { destruct (_ && _); inversion E2; subst.
    - split; [by apply ring_inv_emit|]. split; [done|]. right. by eexists.
    - split; [done|]. split; [done|]. by left. }
  destruct H2 as (Hp2 & HN2 & Hb2). clear E2.
  match type of E with
  | (?x ≫= _) = _ =>
      destruct x as [[[[newskb3 howmany3] q3] p3]|] eqn:E3; [|done]
  end.
  cbn [mbind option_bind] in E.
  assert (H3 : ring_inv p3 /\ rx_ring_size q3 = rx_ring_size q /\
               rx_bd_base q3 = rx_bd_base q2).
  { destruct (_ || _ || _).
    - destruct (count_errors _ _) as [st est].
      destruct newskb as [n|]; [destruct skb as [s|]|].
      + destruct (gfar_free_skb _ _ _) as [p4|] eqn:E4; [|done].
        cbn [mbind option_bind] in E3. inversion E3; subst.
        split; [|done]. eapply (ring_inv_free_skb Hl); [|exact E4].
        by apply ring_inv_with_stats.
      + inversion E3; subst. split; [|done]. by apply ring_inv_with_stats.
      + inversion E3; subst. split; [|done]. by apply ring_inv_with_stats.
    - destruct skb as [s|]; inversion E3; subst.
      + split; [|done]. by apply ring_inv_process_frame.
      + split; [|done]. by apply ring_inv_with_stats. }
  destruct H3 as (Hp3 & HN3 & Hb3). clear E3.
  destruct newskb3 as [nskb|]; [|done]. cbn [mbind option_bind] in E.
  destruct (gfar_new_rxbdp _ _ _ _ _) as [[q4 lg4]|] eqn:E4; [|done].
  cbn [mbind option_bind] in E. inversion E; subst. clear E.
  unfold gfar_new_rxbdp in E4.
  eapply gfar_init_rxbdp_wrap in E4 as [HN4 Hpt4].
  2: { cbn [rx_ring_size rxq_with_cur]. rewrite HN3. exact Hpt. }
  2: { cbn [rx_bd_base rxq_with_cur]. rewrite Hb3. exact Hb2. }
  cbn [rx_ring_size rxq_with_cur] in HN4, Hpt4.
  apply (ring_inv_ext (with_rxq p3 rq
           (rxq_with_cur q4 (rx_skbuff q4)
              (Z.land (skb_currx q4 + 1) (RX_RING_MOD_MASK (rx_ring_size q4)))
              (cur_rx q4)))); [done..|].
  apply ring_inv_with_rxq; [done|]. apply rx_wrap_ok_pt.
  cbn [rx_ring_size rx_bd_base rxq_with_cur]. rewrite HN4, HN3.
  split; [done|]. by rewrite HN3 in Hpt4.
Qed.

Lemma clean_rx_loop_wrap (n : nat) (cpu rq : Z) :
  forall (p p' : gfar_private) (bdp howmany bdp' howmany' : Z),
  ring_inv p ->
  clean_rx_loop n cpu rq p bdp howmany = Some (bdp', howmany', p') ->
  ring_inv p'.
Proof.
  induction n as [|n IH]; intros p p' bdp howmany bdp' howmany' Hinv E;
    cbn [clean_rx_loop] in E;
    (destruct (at_ (rx_queue p) rq) as [q|]; [|done]);
    cbn [mbind option_bind] in E;
    (destruct (at_ (rx_bd_base q) bdp) as [d|]; [|done]);
    cbn [mbind option_bind] in E;
    (destruct (tst _ _); [by inversion E; subst|]).
  - by inversion E; subst.
  - destruct (clean_rx_step _ _ _ _ _) as [[[bdp1 h1] p1]|] eqn:E1; [|done].
    cbn [mbind option_bind] in E. eapply IH; [|exact E].
    by eapply clean_rx_step_wrap.
Qed.

Lemma gfar_clean_rx_ring_wrap (cpu rq : Z) (p p' : gfar_private)
    (limit n : Z) :
  ring_inv p -> gfar_clean_rx_ring cpu rq p limit = Some (n, p') ->
  ring_inv p'.
Proof.
  unfold gfar_clean_rx_ring. intros Hinv E.
  destruct (at_ (rx_queue p) rq) as [q|]; [|done].
  cbn [mbind option_bind] in E.
  destruct (clean_rx_loop _ _ _ _ _ _) as [[[bdp h] p1]|] eqn:E1; [|done].
  cbn [mbind option_bind] in E. apply clean_rx_loop_wrap in E1; [|done].
  destruct (at_ (rx_queue p1) rq) as [q1|] eqn:Hq1; [|done].
  cbn [mbind option_bind] in E. inversion E; subst.
  apply ring_inv_with_rxq; [done|].
  assert (Hq : rx_wrap_ok q1) by (eapply Forall_at; [apply E1|done]).
  exact Hq.
Qed.

Lemma hw_writeback_wrap (r : ring_id) (i v : Z) (p p' : gfar_private) :
  ring_inv p -> hw_writeback r i v p = Some p' -> ring_inv p'.
Proof.
  intros Hinv E. destruct r as [rq|rq]; cbn [hw_writeback] in E.
  - destruct (at_ (tx_queue p) rq) as [q|] eqn:Hq; [|done].
    cbn [mbind option_bind] in E.
    destruct (at_ (tx_bd_base q) i) as [d|] eqn:Hd; [|done].
    cbn [mbind option_bind] in E. inversion E; subst.
    assert (Hqok : tx_wrap_ok q) by (eapply Forall_at; [apply Hinv|done]).
    apply tx_wrap_ok_pt in Hqok as [HN Hpt].
    apply ring_inv_with_txq; [done|]. apply tx_wrap_ok_pt. cbn.
    split; [done|]. eapply wrap_pt_upd_keep; [done..|]. apply tst_keep_wrap.
  - destruct (at_ (rx_queue p) rq) as [q|] eqn:Hq; [|done].
    cbn [mbind option_bind] in E.
    destruct (at_ (rx_bd_base q) i) as [d|] eqn:Hd; [|done].
    cbn [mbind option_bind] in E. inversion E; subst.
    assert (Hqok : rx_wrap_ok q) by (eapply Forall_at; [apply Hinv|done]).
    apply rx_wrap_ok_pt in Hqok as [HN Hpt].
    apply ring_inv_with_rxq; [done|]. apply rx_wrap_ok_pt. cbn.
    split; [done|]. eapply wrap_pt_upd_keep; [done..|]. apply tst_keep_wrap.
Qed.



End wrap_clean.

(** *** Software segmentation *)

Lemma tso_frags_fits (rem : list skb_frag_t) :
  forall (pos offset len_ : Z) (acc : list skb_frag_t) (lg : list event)
         (rem' : list skb_frag_t) (pos' : Z) (fr : list skb_frag_t)
         (lg' : list event),
  0 <= len_ ->
  Forall (fun f => 0 < frag_size f < 2 ^ 16) rem ->
  Forall (fun f => 0 <= frag_size f < 2 ^ 16) acc ->
  frag_ahead rem pos offset ->
  tso_frags rem pos offset len_ acc lg = (rem', pos', fr, lg') ->
  Forall (fun f => 0 <= frag_size f < 2 ^ 16) fr /\
  Forall (fun f => 0 < frag_size f < 2 ^ 16) rem' /\
  frag_ahead rem' pos' (offset + len_).
Proof.
  induction rem as [|f rest IH];
    intros pos offset len_ acc lg rem' pos' fr lg' Hlen Hrem Hacc Hahead E;
    cbn [tso_frags] in E.
  { inversion E; subst. done. }
  apply Forall_cons in Hrem as [Hf Hrest]. cbn [frag_ahead] in Hahead.
  destruct (pos <? offset + len_) eqn:Hlt.
  2: { inversion E; subst. split; [done|]. split; [by constructor|].
       cbn. apply Z.ltb_ge in Hlt. lia. }
  apply Z.ltb_lt in Hlt. cbv zeta in E.
  destruct (pos + frag_size f <=? offset + len_) eqn:Hfull.
  - apply Z.leb_le in Hfull. eapply IH in E; [exact E|done|done| |].
    + apply Forall_app. split; [done|]. constructor; [|done].
      destruct (pos <? offset) eqn:Hpo; cbn [frag_size]; [|lia].
      apply Z.ltb_lt in Hpo. lia.
    + destruct rest as [|g rest']; [done|]. cbn.
      apply Forall_cons in Hrest as [Hg _]. lia.
  - apply Z.leb_gt in Hfull. inversion E; subst.
    split; [|split; [by constructor|cbn; lia]].
    apply Forall_app. split; [done|]. constructor; [|done].
    cbn [frag_size]. destruct (pos' <? offset) eqn:Hpo; cbn [frag_size].
    + apply Z.ltb_lt in Hpo. lia.
    + apply Z.ltb_ge in Hpo. lia.
Qed.

Section wrap_tso.
Context `{gianfar_h} `{linux}.
Hypothesis Hh : gianfar_h_ok.
Hypothesis Hl : linux_ok.

(** A segment of a packet that fits is a frame that fits, and is not
    segmented again. *)
Lemma tso_segment_ok (cpu : Z) (skb nskb : sk_buff) (st st1 : tso_state)
    (len_ : Z) (p p1 : gfar_private) :
  ring_inv p -> frame_fits skb -> tso_fits skb -> tso_state_ok skb st ->
  tso_segment cpu skb st p = Some (nskb, len_, st1, p1) ->
  ring_inv p1 /\ frame_fits nskb /\ skb_is_gso nskb = false /\
  0 <= len_ /\ tso_offset st + len_ <= len skb /\
  tso_state_ok skb
    (mk_tso (tso_rem st1) (tso_pos st1) (tso_offset st + len_)
            (tso_seq st1) (tso_id st1)).
Proof.
  intros Hinv (Hf1 & Hf2 & Hf3) (Hmss & Hdo & Hlen & Hpos)
         (Hoff & Hrem & Hahead) E.
  unfold tso_segment in E. cbv zeta in E.
  destruct (gfar_new_skb cpu p) as [[o p0]|] eqn:Hnew; [|done].
  cbn [mbind option_bind] in E. destruct o as [b|]; [|done].
  cbn [mbind option_bind] in E.
  destruct (negb (nr_frags b =? 0)); [done|].
  destruct (tso_frags _ _ _ _ _ _) as [[[rem pos] fr] lg] eqn:Hfr.
  inversion E; subst. clear E.
  assert (Hb : blank b).
  { eapply gfar_new_skb_pool; [apply Hinv|exact Hnew|done]. }
  destruct Hb as [Hb1 Hb2].
  assert (Hp0 : ring_inv p0) by (by eapply ring_inv_new_skb).
  set (len0 := u32 (len skb - tso_offset st)) in *.
  assert (Hlen0 : len0 = len skb - tso_offset st).
  { unfold len0, u32. apply Z.mod_small. lia. }
  set (len_ := if len0 >? gso_size (shinfo skb) then gso_size (shinfo skb)
               else len0) in *.
  assert (Hlen_ : 0 <= len_ <= len0).
  { unfold len_. destruct (Z.gtb_spec len0 (gso_size (shinfo skb))); lia. }
  eapply tso_frags_fits in Hfr as (Hfr1 & Hfr2 & Hfr3);
    [|lia|exact Hrem|constructor|exact Hahead].
  split; [by eapply ring_inv_ext; [..|exact Hp0]|].
  split; [|split; [|split; [lia|split; [lia|]]]].
  - unfold frame_fits, skb_headlen. cbn. unfold skb_headlen in *.
    rewrite Hb1, Z.mod_small by lia.
    split; [lia|]. split; [lia|]. exact Hfr1.
  - unfold skb_is_gso. cbn. by rewrite Hb2.
  - unfold tso_state_ok. cbn. split; [lia|]. split; [exact Hfr2|exact Hfr3].
Qed.

Lemma tso_loop_inv (fuel n : nat) (cpu : Z) (skb : sk_buff) :
  frame_fits skb -> tso_fits skb ->
  forall (st : tso_state) (p p' : gfar_private) (r : netdev_tx),
  ring_inv p -> tso_state_ok skb st ->
  tso_loop (gfar_start_xmit fuel cpu) n cpu skb st p = Some (r, p') ->
  ring_inv p'.
Proof.
  intros Hfit Htso. induction n as [|n IH]; intros st p p' r Hinv Hst E;
    [done|].
  cbn [tso_loop] in E.
  destruct (tso_segment cpu skb st p) as [[[[nskb len_] st1] p1]|] eqn:Hseg;
    [|done].
  cbn [mbind option_bind] in E.
  destruct (tso_segment_ok _ _ _ _ _ _ _ _ Hinv Hfit Htso Hst Hseg)
    as (Hp1 & Hnfit & Hngso & Hlen0 & Hlen1 & Hst1).
  assert (Hoff1 : tso_offset st1 = tso_offset st).
  { unfold tso_segment in Hseg. cbv zeta in Hseg.
    destruct (gfar_new_skb cpu p) as [[[b|] p0]|]; try done.
    cbn [mbind option_bind] in Hseg.
    destruct (negb _); [done|].
    destruct (tso_frags _ _ _ _ _ _) as [[[rem pos] fr] lg].
    by inversion Hseg. }
  destruct (gfar_start_xmit fuel cpu p1 nskb) as [[ret p2]|] eqn:Hx; [|done].
  cbn [mbind option_bind] in E.
  pose proof (gfar_start_xmit_wrap Hh Hl _ _ _ _ _ _ Hp1 Hnfit Hngso Hx)
    as Hp2.
  destruct (negb (bool_decide (ret = NETDEV_TX_OK))).
  { inversion E; subst. by do 2 apply ring_inv_kfree. }
  assert (Hu : u32 (tso_offset st1 + len_) = tso_offset st + len_).
  { rewrite Hoff1. unfold u32. apply Z.mod_small.
    destruct Hst as [Ho _]. destruct Htso as (_ & _ & Hl32 & _). lia. }
  rewrite Hu in E.
  destruct (tso_offset st + len_ <? len skb).
  - eapply IH; [exact Hp2|exact Hst1|exact E].
  - destruct (gfar_free_skb cpu p2 skb) as [p3|] eqn:Hfree; [|done].
    cbn [mbind option_bind] in E. inversion E; subst.
    by eapply (ring_inv_free_skb Hl).
Qed.

(** [gfar_start_xmit] keeps the invariant, for a frame it queues as it
    is and for one it hands to [gfar_tso]. *)
Lemma gfar_start_xmit_inv (fuel : nat) (cpu : Z) (p p' : gfar_private)
    (skb : sk_buff) (r : netdev_tx) :
  ring_inv p -> frame_fits skb ->
  (skb_is_gso skb = true -> tso_fits skb) ->
  gfar_start_xmit fuel cpu p skb = Some (r, p') ->
  ring_inv p'.
Proof.
  intros Hinv Hfit Htso E.
  destruct (skb_is_gso skb) eqn:Hgso;
    [|by eapply (gfar_start_xmit_wrap Hh Hl)].
  specialize (Htso eq_refl).
  destruct fuel as [|fuel]; [done|]. cbn [gfar_start_xmit] in E.
  assert (Hsame : forall s, skb_headlen s = skb_headlen skb ->
            shinfo s = shinfo skb -> len s = len skb -> hdr s = hdr skb ->
            frame_fits s /\ tso_fits s /\ skb_is_gso s = true).
  { intros s Hs1 Hs2 Hs3 Hs4. unfold frame_fits, tso_fits, skb_is_gso in *.
    by rewrite Hs1, Hs2, Hs3, Hs4. }
  destruct (if _ && _ && _ then _ else _) as [ret skb1] eqn:Hc.
  assert (Hk : skb_headlen skb1 = skb_headlen skb /\ shinfo skb1 = shinfo skb
               /\ len skb1 = len skb /\ hdr skb1 = hdr skb).
  { destruct (_ && _ && _).
    - pose proof (checksum_help_keeps Hl skb) as [Hk1 Hk2].
      pose proof (checksum_help_keeps_hdr Hl skb) as [Hk3 Hk4].
      rewrite Hc in Hk1, Hk2, Hk3, Hk4. done.
    - by inversion Hc. }
  destruct Hk as (Hk1 & Hk2 & Hk3 & Hk4).
  destruct (negb (ret =? 0)); [by inversion E; subst|].
  destruct (at_ (tx_queue p) (queue_mapping skb1)) as [q|] eqn:Hq; [|done].
  cbn [mbind option_bind] in E.
  assert (Hgo : forall (p0 : gfar_private) (s : sk_buff) (ts : bool),
            ring_inv p0 -> tx_queue p0 = tx_queue p ->
            frame_fits s -> tso_fits s -> skb_is_gso s = true ->
            (if skb_is_gso s && negb ts
             then gfar_tso (gfar_start_xmit fuel cpu) cpu s p0
             else xmit_frame p0 (queue_mapping skb1) q s ts) = Some (r, p') ->
            ring_inv p').
  { intros p0 s ts Hp0 Htx Hs1 Hs2 Hs3 E0. rewrite Hs3 in E0.
    destruct ts; cbn [negb andb] in E0.
    - eapply (xmit_frame_wrap Hh Hl); [|exact Hs1|exact Hp0|exact E0].
      by rewrite Htx.
    - unfold gfar_tso in E0. eapply tso_loop_inv; [exact Hs1|exact Hs2|
        exact Hp0| |exact E0].
      destruct Hs1 as (Ha & Hb & Hc'). destruct Hs2 as (Hd & He & Hf & Hg).
      unfold tso_state_ok. cbn. split; [lia|]. split.
      + apply Forall_forall. intros f Hin.
        pose proof (proj1 (Forall_forall _ _) Hc' f Hin).
        pose proof (proj1 (Forall_forall _ _) Hg f Hin). cbn in *. lia.
      + destruct (frags (shinfo s)) as [|f0 rest]; [done|]. cbn.
        apply Forall_cons in Hg as [Hg0 _]. lia. }
  destruct ((_ || _ || _) && _).
  - destruct (skb_realloc_headroom skb1 GMAC_FCB_LEN) as [skb2|] eqn:Hre.
    + destruct (realloc_headroom_keeps Hl _ _ _ Hre) as [Hr1 Hr2].
      destruct (realloc_headroom_keeps_hdr Hl _ _ _ Hre) as [Hr3 Hr4].
      destruct (Hsame skb2) as (Hs1 & Hs2 & Hs3); [congruence..|].
      eapply Hgo; [apply ring_inv_kfree; exact Hinv|done|done..|exact E].
    + inversion E; subst. by eapply ring_inv_ext; [..|exact Hinv].
  - destruct (Hsame skb1) as (Hs1 & Hs2 & Hs3); [congruence..|].
    eapply Hgo; [exact Hinv|done|done..|exact E].
Qed.

End wrap_tso.

(** *** Initialization *)

Section wrap_init.
Context `{gianfar_h} `{linux}.
Hypothesis Hh : gianfar_h_ok.

Lemma init_tx_bds_zero (rq : Z) (js : list Z) :
  forall ql ql', init_tx_bds rq js ql = Some ql' ->
  tx_ring_size (fst ql') = tx_ring_size (fst ql) /\
  length (tx_bd_base (fst ql')) = length (tx_bd_base (fst ql)) /\
  forall i d', at_ (tx_bd_base (fst ql')) i = Some d' ->
    lstatus d' = 0 \/ ((i ∉ js) /\ at_ (tx_bd_base (fst ql)) i = Some d').
Proof.
  induction js as [|j rest IH]; intros ql ql' E; cbn [init_tx_bds] in E.
  { inversion E; subst. split; [done|]. split; [done|]. intros i d' Hi.
    right. split; [apply not_elem_of_nil|done]. }
  destruct (tx_store_lstatus rq ql j 0) as [ql1|] eqn:E1; [|done].
  cbn [mbind option_bind] in E.
  destruct (tx_store_bufPtr rq ql1 j 0) as [ql2|] eqn:E2; [|done].
  cbn [mbind option_bind] in E.
  apply tx_store_lstatus_inv in E1 as (d1 & Hd1 & ->).
  apply tx_store_bufPtr_inv in E2 as (d2 & Hd2 & ->).
  cbn [fst snd tx_bd_base txq_with_bds] in *.
  apply at_upd_same_inv in Hd2. subst d2.
  destruct (IH _ _ E) as (HN & Hlen & Hz). cbn in HN, Hlen, Hz.
  rewrite !length_upd in Hlen.
  split; [done|]. split; [done|]. intros i d' Hi.
  destruct (Hz i d' Hi) as [Hz0|[Hnot Hold]]; [by left|].
  destruct (Z.eq_dec j i) as [->|Hne].
  - left. apply at_upd_same_inv in Hold. by subst d'.
  - right. rewrite !at_upd_ne in Hold by done. split; [|done].
    rewrite not_elem_of_cons. split; [congruence|done].
Qed.

Lemma tst_zero (w : Z) : tst 0 w = false.
Proof. done. Qed.

Lemma tst_set_status_wrap (d : bd) (W : Z) :
  0 < W < 2 ^ 16 ->
  tst (lstatus (set_status d (Z.lor (bd_status d) W))) (BD_LFLAG W) = true.
Proof.
  intros HW. unfold set_status, tst. cbn [lstatus].
  apply negb_true_iff, Z.eqb_neq. intros Hz.
  apply (f_equal (fun z => Z.testbit z (Z.log2 W + 16))) in Hz.
  assert (Hl2 : 0 <= Z.log2 W < 16).
  { split; [apply Z.log2_nonneg|]. apply Z.log2_lt_pow2; lia. }
  assert (Hb : Z.testbit W (Z.log2 W) = true) by (apply Z.bit_log2; lia).
  unfold BD_LFLAG in Hz.
  rewrite Z.land_spec, Z.lor_spec, !Z.shiftl_spec, Z.bits_0 in Hz by lia.
  replace (Z.log2 W + 16 - 16) with (Z.log2 W) in Hz by lia.
  rewrite Z.land_spec, Z.lor_spec, Hb in Hz.
  change 65535 with (Z.ones 16) in Hz.
  rewrite Z.ones_spec_low in Hz by lia.
  rewrite orb_true_r in Hz. cbn in Hz. discriminate.
Qed.

Lemma tx_wrap_ok_sized (q : gfar_priv_tx_q) : tx_wrap_ok q -> tx_sized q.
Proof. intros Hq. apply tx_wrap_ok_pt in Hq as [HN [Hlen _]]. done. Qed.

Lemma rx_wrap_ok_sized (q : gfar_priv_rx_q) : rx_wrap_ok q -> rx_sized q.
Proof. intros Hq. apply rx_wrap_ok_pt in Hq as [HN [Hlen _]]. done. Qed.

Lemma init_tx_queue_wrap (i : Z) (p p' : gfar_private) (q : gfar_priv_tx_q) :
  at_ (tx_queue p) i = Some q -> tx_sized q ->
  init_tx_queue i p = Some p' ->
  rx_queue p' = rx_queue p /\ recycle p' = recycle p /\
  allocator p' = allocator p /\
  exists q', tx_queue p' = upd (tx_queue p) i q' /\ tx_wrap_ok q'.
Proof.
  intros Hq [HN Hlen] E. unfold init_tx_queue in E. rewrite Hq in E.
  cbn [mbind option_bind] in E.
  destruct (init_tx_bds _ _ _) as [[q1 lg1]|] eqn:E1; [|done].
  cbn [mbind option_bind] in E.
  apply init_tx_bds_zero in E1 as (HN1 & Hlen1 & Hz).
  cbn [fst snd tx_ring_size tx_bd_base txq_with_dirty txq_with_cur] in *.
  rewrite HN1 in E.
  destruct (0 <? tx_ring_size q) eqn:Hpos; [|lia].
  destruct (at_ (tx_bd_base q1) (tx_ring_size q - 1)) as [d|] eqn:Hd; [|done].
  cbn [mbind option_bind] in E. inversion E; subst. clear E.
  split; [done|]. split; [done|]. split; [done|].
  eexists. split; [reflexivity|].
  apply tx_wrap_ok_pt. cbn [tx_ring_size tx_bd_base txq_with_bds].
  rewrite HN1. split; [done|]. split; [rewrite length_upd; lia|].
  intros k dk Hk. destruct (Z.eq_dec (tx_ring_size q - 1) k) as [<-|Hne].
  - apply at_upd_same_inv in Hk. subst dk. rewrite Z.eqb_refl.
    apply tst_set_status_wrap, Hh.
  - rewrite at_upd_ne in Hk by done.
    pose proof (at_Some_lt _ _ _ Hk) as Hrange.
    destruct (Hz k dk Hk) as [Hz0|[Hnot _]].
    + rewrite Hz0, tst_zero. symmetry. apply Z.eqb_neq. congruence.
    + exfalso. apply Hnot. apply elem_of_seqZ. lia.
Qed.

Lemma init_tx_queues_wrap (is_ : list Z) :
  forall p p', Forall tx_sized (tx_queue p) ->
  init_tx_queues is_ p = Some p' ->
  rx_queue p' = rx_queue p /\ recycle p' = recycle p /\
  allocator p' = allocator p /\
  length (tx_queue p') = length (tx_queue p) /\
  forall k q', at_ (tx_queue p') k = Some q' ->
    tx_wrap_ok q' \/ ((k ∉ is_) /\ at_ (tx_queue p) k = Some q').
Proof.
  induction is_ as [|i rest IH]; intros p p' Hs E; cbn [init_tx_queues] in E.
  { inversion E; subst. do 4 (split; [done|]). intros k q' Hk.
    right. split; [apply not_elem_of_nil|done]. }
  destruct (init_tx_queue i p) as [p1|] eqn:E1; [|done].
  cbn [mbind option_bind] in E.
  assert (Hq : exists q, at_ (tx_queue p) i = Some q).
  { unfold init_tx_queue in E1. destruct (at_ (tx_queue p) i); [|done].
    by eexists. }
  destruct Hq as [q Hq].
  destruct (init_tx_queue_wrap _ _ _ _ Hq (Forall_at _ _ _ _ Hs Hq) E1)
    as (Hrx1 & Hrc1 & Hal1 & q1 & Htx1 & Hq1).
  destruct (IH p1 p') as (Hrx & Hrc & Hal & Hlen & Hall); [|done|].
  { rewrite Htx1. apply Forall_upd; [done|]. by apply tx_wrap_ok_sized. }
  split; [congruence|]. split; [congruence|]. split; [congruence|].
  split; [by rewrite Hlen, Htx1, length_upd|].
  intros k q' Hk. destruct (Hall k q' Hk) as [Hok|[Hnot Hold]]; [by left|].
  rewrite Htx1 in Hold. destruct (Z.eq_dec i k) as [->|Hne].
  - left. apply at_upd_same_inv in Hold. by subst q'.
  - right. rewrite at_upd_ne in Hold by done. split; [|done].
    rewrite not_elem_of_cons. split; [congruence|done].
Qed.

Lemma init_rx_bds_wrap (cpu i : Z) (js : list Z) :
  forall p p' q, at_ (rx_queue p) i = Some q ->
  init_rx_bds cpu i js p = Some (inr p') ->
  tx_queue p' = tx_queue p /\ (pool_ok p -> pool_ok p') /\
  exists q', rx_queue p' = upd (rx_queue p) i q' /\
    rx_ring_size q' = rx_ring_size q /\
    length (rx_bd_base q') = length (rx_bd_base q) /\
    forall k d', at_ (rx_bd_base q') k = Some d' ->
      tst (lstatus d') (BD_LFLAG RXBD_WRAP) = (k =? rx_ring_size q - 1) \/
      ((k ∉ js) /\ at_ (rx_bd_base q) k = Some d').
Proof.
  induction js as [|j rest IH]; intros p p' q Hq E; cbn [init_rx_bds] in E.
  { inversion E; subst. split; [done|]. split; [done|]. exists q.
    split; [by rewrite upd_id|]. split; [done|]. split; [done|].
    intros k d' Hk. right. split; [apply not_elem_of_nil|done]. }
  rewrite Hq in E. cbn [mbind option_bind] in E.
  destruct (at_ (rx_skbuff q) j) as [oskb|] eqn:Hsk; [|done].
  cbn [mbind option_bind] in E.
  assert (Hstep : exists p1 q1 buf,
            init_rx_bds cpu i rest p1 = Some (inr p') /\
            (pool_ok p -> pool_ok p1) /\
            tx_queue p1 = tx_queue p /\
            rx_queue p1 = upd (rx_queue p) i q1 /\
            rx_ring_size q1 = rx_ring_size q /\
            rx_bd_base q1
              = upd (rx_bd_base q) j (mk_bd (rx_armed q j) buf)).
  { destruct oskb as [s|].
    - destruct (at_ (rx_bd_base q) j) as [d|]; [|done].
      cbn [mbind option_bind] in E.
      destruct (gfar_init_rxbdp _ _ _ _) as [[q1 lg1]|] eqn:E1; [|done].
      cbn [mbind option_bind] in E.
      apply gfar_init_rxbdp_inv in E1. subst q1.
      eexists _, _, _. split; [exact E|]. split; [|done].
      intros Hp. by eapply pool_ok_ext; [| |exact Hp].
    - destruct (gfar_new_skb cpu p) as [[o p0]|] eqn:Hnew; [|done].
      cbn [mbind option_bind] in E. destruct o as [skb|]; [|done].
      assert (Hpool0 : pool_ok p -> pool_ok p0).
      { intros Hp. by eapply gfar_new_skb_pool. }
      apply pool_step_new_skb in Hnew as (Ht0 & Hr0 & _).
      rewrite Hr0, Hq in E. cbn [mbind option_bind] in E.
      rewrite Hsk in E. cbn [mbind option_bind] in E.
      destruct (gfar_new_rxbdp _ _ _ _ _) as [[q1 lg1]|] eqn:E1; [|done].
      cbn [mbind option_bind] in E. unfold gfar_new_rxbdp in E1.
      apply gfar_init_rxbdp_inv in E1. subst q1.
      eexists _, _, _. split; [exact E|]. split.
      { intros Hp. by eapply pool_ok_ext; [| |exact (Hpool0 Hp)]. }
      cbn. rewrite Ht0, Hr0. done. }
  destruct Hstep as (p1 & q1 & buf & E1 & Hpool1 & Ht1 & Hr1 & HN1 & Hb1).
  destruct (IH p1 p' q1) as (Ht & Hpool & q' & Hr & HN & Hlen & Hall);
    [|done|].
  { rewrite Hr1. by eapply at_upd_eq. }
  split; [congruence|]. split; [by intros Hp; apply Hpool, Hpool1|].
  exists q'.
  split; [by rewrite Hr, Hr1, upd_upd|]. split; [congruence|].
  split; [by rewrite Hlen, Hb1, length_upd|].
  intros k d' Hk. rewrite HN1 in Hall.
  destruct (Hall k d' Hk) as [Hok|[Hnot Hold]]; [by left|].
  rewrite Hb1 in Hold. destruct (Z.eq_dec j k) as [->|Hne].
  - left. apply at_upd_same_inv in Hold. subst d'. cbn [lstatus].
    by apply (tst_rx_armed Hh).
  - right. rewrite at_upd_ne in Hold by done. split; [|done].
    rewrite not_elem_of_cons. split; [congruence|done].
Qed.

Lemma init_rx_queues_wrap (cpu : Z) (is_ : list Z) :
  forall p p', Forall rx_sized (rx_queue p) ->
  init_rx_queues cpu is_ p = Some (inr p') ->
  tx_queue p' = tx_queue p /\ (pool_ok p -> pool_ok p') /\
  length (rx_queue p') = length (rx_queue p) /\
  forall k q', at_ (rx_queue p') k = Some q' ->
    rx_wrap_ok q' \/ ((k ∉ is_) /\ at_ (rx_queue p) k = Some q').
Proof.
  induction is_ as [|i rest IH]; intros p p' Hs E; cbn [init_rx_queues] in E.
  { inversion E; subst. do 3 (split; [done|]). intros k q' Hk.
    right. split; [apply not_elem_of_nil|done]. }
  destruct (at_ (rx_queue p) i) as [q|] eqn:Hq; [|done].
  cbn [mbind option_bind] in E.
  destruct (init_rx_bds _ _ _ _) as [[pl|p1]|] eqn:E1; [done| |done].
  cbn [mbind option_bind] in E.
  destruct (Forall_at _ _ _ _ Hs Hq) as [HN Hlen].
  eapply init_rx_bds_wrap in E1
    as (Ht1 & Hpool1 & q1 & Hr1 & HN1 & Hlen1 & Hall1).
  2: { cbn. by eapply at_upd_eq. }
  cbn [rx_queue with_rxq with_rx_queue rx_ring_size rx_bd_base rxq_with_cur]
    in Ht1, Hr1, HN1, Hlen1, Hall1.
  rewrite upd_upd in Hr1.
  assert (Hq1 : rx_wrap_ok q1).
  { apply rx_wrap_ok_pt. rewrite HN1. split; [done|]. split; [lia|].
    intros k d' Hk. destruct (Hall1 k d' Hk) as [Hok|[Hnot Hold]]; [done|].
    exfalso. apply Hnot. apply elem_of_seqZ.
    pose proof (at_Some_lt _ _ _ Hold). lia. }
  destruct (IH p1 p') as (Ht & Hpool & Hlen' & Hall); [|done|].
  { rewrite Hr1. apply Forall_upd; [done|]. by apply rx_wrap_ok_sized. }
  split; [by rewrite Ht, Ht1|].
  split; [by intros Hp; apply Hpool, Hpool1|].
  split; [by rewrite Hlen', Hr1, length_upd|].
  intros k q' Hk. destruct (Hall k q' Hk) as [Hok|[Hnot Hold]]; [by left|].
  rewrite Hr1 in Hold. destruct (Z.eq_dec i k) as [->|Hne].
  - left. apply at_upd_same_inv in Hold. by subst q'.
  - right. rewrite at_upd_ne in Hold by done. split; [|done].
    rewrite not_elem_of_cons. split; [congruence|done].
Qed.

Lemma Forall_at_all {A} (P : A -> Prop) (l : list A) :
  (forall k x, at_ l k = Some x -> P x) -> Forall P l.
Proof.
  intros Hall. apply Forall_lookup. intros k x Hk.
  apply (Hall (Z.of_nat k)). unfold at_.
  destruct (decide _); [|lia]. by rewrite Nat2Z.id.
Qed.

Lemma init_rings_wrap (cpu : Z) (p0 p : gfar_private) :
  rings_sized p0 -> pool_ok p0 -> init_rings cpu p0 = Some (inr p) ->
  ring_inv p.
Proof.
  intros [Hst Hsr] Hpool0 E. unfold init_rings in E.
  destruct (init_tx_queues _ p0) as [p1|] eqn:E1; [|done].
  cbn [mbind option_bind] in E.
  apply init_tx_queues_wrap in E1 as (Hr1 & Hrc1 & Hal1 & Hl1 & Hall1);
    [|done].
  apply init_rx_queues_wrap in E as (Ht2 & Hpool2 & Hl2 & Hall2);
    [|by rewrite Hr1].
  split; [|by apply Hpool2; eapply pool_ok_ext; [| |exact Hpool0]].
  split.
  - rewrite Ht2. apply Forall_at_all. intros k q Hk.
    destruct (Hall1 k q Hk) as [Hok|[Hnot Hold]]; [done|].
    exfalso. apply Hnot. apply elem_of_seqZ.
    pose proof (at_Some_lt _ _ _ Hold). lia.
  - apply Forall_at_all. intros k q Hk.
    destruct (Hall2 k q Hk) as [Hok|[Hnot Hold]]; [done|].
    exfalso. apply Hnot. apply elem_of_seqZ.
    pose proof (at_Some_lt _ _ _ Hold). lia.
Qed.

End wrap_init.

(** *** The invariant *)

Lemma etsec_ok : @gianfar_h_ok etsec.
Proof. constructor; first [reflexivity | cbn; lia]. Qed.

Lemma linux_model_ok : @linux_ok linux_model.
Proof.
  constructor.
  - intros s. split; reflexivity.
  - intros s n s' E. cbn in E. inversion E; subst. split; reflexivity.
  - intros s. split; reflexivity.
  - intros s n s' E. cbn in E. inversion E; subst. split; reflexivity.
  - intros s. split; reflexivity.
Qed.

(** C3.  With flags as a well-formed gianfar.h gives them, in every
    state the rings reach from the initialization of rings of any size
    [N > 0] by [gfar_init_bds], by transmit submissions
    ([gfar_start_xmit], for frames whose lengths fit the length field of
    a descriptor, segmented by [gfar_tso] or not), by
    [gfar_clean_tx_ring] and [gfar_clean_rx_ring], and by the controller
    writing descriptors back, every ring has exactly one descriptor with
    WRAP set, the one at index [N - 1].  The store with which the
    transmit cleanup clears a descriptor keeps the WRAP bit and nothing
    else; a turn of the receive cleanup loop leaves the invariant in
    place; and the successor of slot [N - 1] is slot 0. *)
Theorem ring_wrap_invariant `{gianfar_h} `{linux} :
  gianfar_h_ok -> linux_ok ->
  (forall p, reach p -> wrap_inv p) /\
  (forall rq ql ql' bdp d,
     tx_clear rq ql bdp = Some ql' ->
     at_ (tx_bd_base (fst ql)) bdp = Some d ->
     exists d', at_ (tx_bd_base (fst ql')) bdp = Some d' /\
       lstatus d' = Z.land (lstatus d) (BD_LFLAG TXBD_WRAP) /\
       tst (lstatus d') (BD_LFLAG TXBD_WRAP)
         = tst (lstatus d) (BD_LFLAG TXBD_WRAP)) /\
  (forall cpu rq p bdp howmany bdp' howmany' p',
     ring_inv p ->
     clean_rx_step cpu rq p bdp howmany = Some (bdp', howmany', p') ->
     wrap_inv p') /\
  (forall N, 0 < N -> next_txbd (N - 1) N = 0 /\ next_bd (N - 1) N = 0).
Proof.
  intros Hh Hl. split; [|split; [|split]].
  - assert (Hreach : forall p, reach p -> ring_inv p).
    { intros p Hp. induction Hp as
        [cpu p0 p Hs Hpool E
        |fuel cpu p skb r p' _ IH Hfit Htso E
        |cpu rq p limit n p' _ IH E
        |cpu rq p limit n p' _ IH E
        |r i v p p' _ IH E].
      + by eapply init_rings_wrap.
      + by eapply gfar_start_xmit_inv.
      + by eapply gfar_clean_tx_ring_wrap.
      + by eapply gfar_clean_rx_ring_wrap.
      + by eapply hw_writeback_wrap. }
    intros p Hp. apply Hreach, Hp.
  - intros rq ql ql' bdp d E Hd. unfold tx_clear in E. rewrite Hd in E.
    cbn [mbind option_bind] in E.
    apply tx_store_lstatus_inv in E as (d0 & Hd0 & ->).
    rewrite Hd in Hd0. inversion Hd0; subst d0.
    eexists. split; [cbn; by eapply at_upd_eq|]. split; [reflexivity|].
    cbn. unfold tst. by rewrite <- Z.land_assoc, Z.land_diag.
  - intros cpu rq p bdp howmany bdp' howmany' p' Hp E.
    by eapply clean_rx_step_wrap.
  - intros N HN. unfold next_txbd, skip_txbd, next_bd.
    replace (N - 1 + 1) with N by lia.
    rewrite (proj2 (Z.geb_le N N)) by lia. lia.
Qed.

(** The ring of four descriptors at work. *)
Lemma ring_wrap_invariant_witness :
  @wrap_inv etsec ring4_segmented /\
  next_txbd (4 - 1) 4 = 0 /\ next_bd (4 - 1) 4 = 0.
Proof.
  destruct (@ring_wrap_invariant etsec linux_model etsec_ok linux_model_ok)
    as (Hinv & _ & _ & Hnext).
  split; [|exact (Hnext 4 eq_refl)].
  apply Hinv.
  assert (Hfits : forall a, @frame_fits etsec (packet a 100)).
  { intros a. split; [|split];
      [vm_compute; discriminate|vm_compute; reflexivity|constructor]. }
  assert (Hlinear : forall a, skb_is_gso (packet a 100) = true ->
                              tso_fits (packet a 100)) by done.
  apply (reach_xmit 2 0 ring4_rx_cleaned gso_packet NETDEV_TX_OK);
    [| | |vm_compute; reflexivity].
  2: { split; [|split];
         [vm_compute; discriminate|vm_compute; reflexivity|].
       repeat constructor; vm_compute; (reflexivity || discriminate). }
  2: { intros _. split; [reflexivity|]. split; [|split].
       - split; vm_compute; discriminate.
       - split; [vm_compute; discriminate|vm_compute; reflexivity].
       - repeat constructor. }
  apply (reach_clean_rx 0 0 ring4_received_all 4 4);
    [|vm_compute; reflexivity].
  unfold ring4_received_all.
  do 4 (match goal with
        | |- reach (controller_writes ?r ?i ?v ?p) =>
            apply (reach_hw r i v p); [|vm_compute; reflexivity]
        end).
  apply (reach_clean_tx 0 0 ring4_sent 4 4); [|vm_compute; reflexivity].
  unfold ring4_sent.
  do 4 (match goal with
        | |- reach (controller_writes ?r ?i ?v ?p) =>
            apply (reach_hw r i v p); [|vm_compute; reflexivity]
        end).
  apply (reach_xmit 2 0 (after_xmit ring4_two_free (packet 54096 100))
           (packet 56144 100) NETDEV_TX_OK);
    [|apply Hfits|apply Hlinear|vm_compute; reflexivity].
  apply (reach_xmit 2 0 ring4_two_free (packet 54096 100) NETDEV_TX_OK);
    [|apply Hfits|apply Hlinear|vm_compute; reflexivity].
  apply (reach_xmit 2 0 (after_xmit ring4 (packet 50000 100))
           (packet 52048 100) NETDEV_TX_OK);
    [|apply Hfits|apply Hlinear|vm_compute; reflexivity].
  apply (reach_xmit 2 0 ring4 (packet 50000 100) NETDEV_TX_OK);
    [|apply Hfits|apply Hlinear|vm_compute; reflexivity].
  apply (reach_init 0
           (fresh_priv 4 (map (fun a => Some (rx_buffer a))
                              [4096; 8192; 12288; 16384; 20480; 24576])));
    [| |vm_compute; reflexivity].
  - split; repeat constructor.
  - split.
    + cbn. repeat (apply map_Forall_insert_2; [constructor|]).
      apply map_Forall_empty.
    + cbn. repeat (apply Forall_cons_2;
                   [intros b Hb; inversion Hb; split; reflexivity|]).
      apply Forall_nil_2.
Defined.

(** ** Further properties of the descriptor arithmetic *)

(** X1.  [skip_txbd] stays inside the ring as long as the stride is at
    most the ring size: from a descriptor of the ring it returns the
    descriptor [stride] places further on, modulo the ring size, and two
    skips in a row are the skip by the sum of their strides. *)
Theorem skip_txbd_ring (bdp s1 s2 n : Z) :
  0 <= bdp < n -> 0 <= s1 -> 0 <= s2 -> s1 + s2 <= n ->
  skip_txbd bdp s1 n = (bdp + s1) mod n /\
  0 <= skip_txbd bdp s1 n < n /\
  skip_txbd (skip_txbd bdp s1 n) s2 n = skip_txbd bdp (s1 + s2) n.
Proof.
  intros Hb H1 H2 Hs. unfold skip_txbd. cbv zeta.
  destruct (Z.geb_spec (bdp + s1) n) as [Hge|Hlt].
  - split; [|split; [lia|]].
    + apply (Z.mod_unique _ _ 1); lia.
    + destruct (Z.geb_spec (bdp + s1 - n + s2) n);
        destruct (Z.geb_spec (bdp + (s1 + s2)) n); lia.
  - split; [|split; [lia|]].
    + symmetry. apply Z.mod_small. lia.
    + destruct (Z.geb_spec (bdp + s1 + s2) n);
        destruct (Z.geb_spec (bdp + (s1 + s2)) n); lia.
Qed.

Lemma skip_txbd_ring_witness :
  skip_txbd 3 2 4 = (3 + 2) mod 4 /\
  0 <= skip_txbd 3 2 4 < 4 /\
  skip_txbd (skip_txbd 3 2 4) 1 4 = skip_txbd 3 (2 + 1) 4.
Proof. apply (skip_txbd_ring 3 2 1 4); lia. Defined.

(** ** Further properties of the recycler *)

(** X2.  A buffer released to a per-CPU recycle queue that has room is
    the next buffer [gfar_new_skb] hands out on that CPU, recycled and
    aligned; after the two calls the queues hold what they held before,
    nothing has been freed or allocated, and the CPU has counted one
    release and one acquisition. *)
Theorem gfar_free_new_round_trip `{gianfar_h} `{linux} (cpu : Z)
    (p : gfar_private) (skb : sk_buff) (l : gfar_recycle_cntxt_percpu)
    (q : list sk_buff) :
  skb_is_recycleable skb (rx_buffer_size p + RXBUF_ALIGNMENT) = true ->
  at_ (local (recycle p)) cpu = Some l ->
  skb_queues (recycle p) !! recycle_q l = Some q ->
  Z.of_nat (length q) < recycle_max (recycle p) ->
  exists p1 p2,
    gfar_free_skb cpu p skb = Some p1 /\
    gfar_new_skb cpu p1 = Some (Some (gfar_align_skb (skb_recycle skb)), p2) /\
    skb_queues (recycle p2) = skb_queues (recycle p) /\
    at_ (local (recycle p2)) cpu =
      Some (mk_percpu (recycle_q l) (u32_inc (free_count l))
                      (u32_inc (alloc_count l))) /\
    freed p2 = freed p /\ allocator p2 = allocator p /\
    tx_queue p2 = tx_queue p /\ rx_queue p2 = rx_queue p.
Proof.
  intros Hrec Hl Hq Hlen.
  unfold gfar_free_skb. cbv zeta. rewrite Hrec. cbn [negb].
  rewrite Hl. cbn [mbind option_bind]. rewrite Hq. cbn [mbind option_bind].
  destruct (Z.ltb_spec (Z.of_nat (length q)) (recycle_max (recycle p)));
    [|lia].
  eexists _, _. split; [reflexivity|].
  unfold gfar_new_skb. cbn [recycle with_recycle with_skb_queues with_local
    local skb_queues global_recycle_q].
  rewrite (at_upd_eq _ _ _ _ Hl). cbn [mbind option_bind recycle_q].
  rewrite lookup_insert_eq. cbn [mbind option_bind].
  split; [reflexivity|].
  cbn [recycle with_recycle with_skb_queues with_local local skb_queues
       freed allocator tx_queue rx_queue free_count alloc_count].
  rewrite insert_insert_eq, (insert_id _ _ _ Hq).
  rewrite upd_upd, (at_upd_eq _ _ _ _ Hl). done.
Qed.

Lemma gfar_free_new_round_trip_witness :
  exists p1 p2,
    @gfar_free_skb etsec linux_model 0 ring4 (rx_buffer 4096) = Some p1 /\
    @gfar_new_skb etsec 0 p1 =
      Some (Some (@gfar_align_skb etsec
                    (@skb_recycle linux_model (rx_buffer 4096))), p2) /\
    skb_queues (recycle p2) = skb_queues (recycle ring4) /\
    at_ (local (recycle p2)) 0 =
      Some (mk_percpu (recycle_q (mk_percpu 100 0 0))
                      (u32_inc (free_count (mk_percpu 100 0 0)))
                      (u32_inc (alloc_count (mk_percpu 100 0 0)))) /\
    freed p2 = freed ring4 /\ allocator p2 = allocator ring4 /\
    tx_queue p2 = tx_queue ring4 /\ rx_queue p2 = rx_queue ring4.
Proof.
  apply (@gfar_free_new_round_trip etsec linux_model 0 ring4 (rx_buffer 4096)
           (mk_percpu 100 0 0) []).
  - vm_compute; reflexivity.
  - vm_compute; reflexivity.
  - vm_compute; reflexivity.
  - vm_compute; reflexivity.
Defined.

Lemma recycle_bounded_insert (r r' : gfar_recycle_cntxt) (k : Z)
    (q : list sk_buff) :
  recycle_max r' = recycle_max r ->
  skb_queues r' = <[k := q]> (skb_queues r) ->
  recycle_bounded r ->
  Z.of_nat (length q) <= recycle_max r ->
  recycle_bounded r'.
Proof.
  unfold recycle_bounded. intros -> -> Hm Hq.
  by apply map_Forall_insert_2.
Qed.

Lemma recycle_bounded_alloc `{gianfar_h} (p p' : gfar_private)
    (o : option sk_buff) :
  gfar_alloc_skb p = (o, p') -> recycle p' = recycle p.
Proof.
  unfold gfar_alloc_skb, netdev_alloc_skb.
  destruct (allocator p) as [|[b|] rest]; intros E; inversion E; done.
Qed.

(** X3.  With a positive [recycle_max], neither [gfar_free_skb] nor
    [gfar_new_skb] lets a recycle queue, per-CPU or global, grow beyond
    [recycle_max] buffers, and neither changes [recycle_max]. *)
Theorem recycle_queues_bounded `{gianfar_h} `{linux} (cpu : Z)
    (p : gfar_private) :
  0 < recycle_max (recycle p) ->
  recycle_bounded (recycle p) ->
  (forall skb p', gfar_free_skb cpu p skb = Some p' ->
     recycle_bounded (recycle p') /\
     recycle_max (recycle p') = recycle_max (recycle p)) /\
  (forall o p', gfar_new_skb cpu p = Some (o, p') ->
     recycle_bounded (recycle p') /\
     recycle_max (recycle p') = recycle_max (recycle p)).
Proof.
  intros Hmax Hb. split.
  - intros skb p' E. unfold gfar_free_skb in E. cbv zeta in E.
    assert (Hcf : recycle (clean_frags p skb).2 = recycle p).
    { unfold clean_frags. by destruct (negb (nr_frags skb =? 0)). }
    destruct (clean_frags p skb) as [s1 p1]. cbn [snd] in Hcf.
    assert (Hput : forall P s P',
      recycle P = recycle p ->
      (l ← at_ (local (recycle P)) cpu;
       q ← skb_queues (recycle P) !! recycle_q l;
       if Z.of_nat (length q) <? recycle_max (recycle P) then
         Some (with_recycle P
                 (with_skb_queues
                    (with_local (recycle P)
                       (upd (local (recycle P)) cpu
                          (mk_percpu (recycle_q l) (u32_inc (free_count l))
                                     (alloc_count l))))
                    (<[recycle_q l := s :: q]> (skb_queues (recycle P)))))
       else
         match global_recycle_q (recycle P) with
         | Some temp_recycle_q =>
             gq ← skb_queues (recycle P) !! temp_recycle_q;
             if Z.of_nat (length gq) =? 0 then
               Some (with_recycle P
                       (with_skb_queues
                          (with_local (swap_global_free (recycle P)
                                         (recycle_q l))
                             (upd (local (swap_global_free (recycle P)
                                            (recycle_q l))) cpu
                                (mk_percpu temp_recycle_q
                                   (u32_inc (free_count l)) (alloc_count l))))
                          (<[temp_recycle_q := s :: gq]>
                             (skb_queues (swap_global_free (recycle P)
                                            (recycle_q l))))))
             else Some (dev_kfree_skb_any P s)
         | None => Some (dev_kfree_skb_any P s)
         end) = Some P' ->
      recycle_bounded (recycle P') /\
      recycle_max (recycle P') = recycle_max (recycle p)).
    { intros P s P' HP E'. rewrite HP in E'.
      destruct (at_ (local (recycle p)) cpu) as [l|]; [|done].
      cbn [mbind option_bind] in E'.
      destruct (skb_queues (recycle p) !! recycle_q l) as [q|]; [|done].
      cbn [mbind option_bind] in E'.
      destruct (Z.ltb_spec (Z.of_nat (length q)) (recycle_max (recycle p))).
      - inversion E'; subst P'. split; [|done].
        eapply (recycle_bounded_insert (recycle p));
          [reflexivity|reflexivity|exact Hb|]. cbn [length]. lia.
      - destruct (global_recycle_q (recycle p)) as [g|].
        + destruct (skb_queues (recycle p) !! g) as [gq|]; [|done].
          cbn [mbind option_bind] in E'.
          destruct (Z.eqb_spec (Z.of_nat (length gq)) 0).
          * inversion E'; subst P'. split; [|done].
            eapply (recycle_bounded_insert (recycle p));
          [reflexivity|reflexivity|exact Hb|]. cbn [length]. lia.
          * inversion E'; subst P'. cbn. by rewrite HP.
        + inversion E'; subst P'. cbn. by rewrite HP. }
    destruct (negb (skb_is_recycleable skb _)).
    + destruct (negb (gfar_skb_nonlinear_recycleable skb _)).
      * inversion E; subst p'. done.
      * destruct (negb (skb_is_recycleable s1 _)).
        -- inversion E; subst p'. cbn. by rewrite Hcf.
        -- eapply Hput; [exact Hcf|exact E].
    + eapply Hput; [reflexivity|exact E].
  - intros o p' E. unfold gfar_new_skb in E.
    destruct (at_ (local (recycle p)) cpu) as [l|]; [|done].
    cbn [mbind option_bind] in E.
    destruct (skb_queues (recycle p) !! recycle_q l) as [q|] eqn:Hq; [|done].
    cbn [mbind option_bind] in E.
    destruct q as [|s rest].
    + destruct (global_recycle_q (recycle p)) as [g|].
      * destruct (skb_queues (recycle p) !! g) as [gq|] eqn:Hg; [|done].
        cbn [mbind option_bind] in E.
        destruct (negb (Z.of_nat (length gq) =? 0)).
        -- inversion E; subst o p'. split; [|done].
           eapply (recycle_bounded_insert (recycle p));
          [reflexivity|reflexivity|exact Hb|].
           pose proof (Hb _ _ Hg) as Hgl. cbn in Hgl.
           destruct gq; cbn [tl length] in *; lia.
        -- inversion E as [E']. apply recycle_bounded_alloc in E'.
           by rewrite E'.
      * inversion E as [E']. apply recycle_bounded_alloc in E'.
        by rewrite E'.
    + inversion E; subst o p'. split; [|done].
      eapply (recycle_bounded_insert (recycle p));
          [reflexivity|reflexivity|exact Hb|].
      pose proof (Hb _ _ Hq) as Hql. cbn [length] in *. lia.
Qed.

Lemma recycle_queues_bounded_witness :
  (forall skb p', @gfar_free_skb etsec linux_model 0 ring4 skb = Some p' ->
     recycle_bounded (recycle p') /\
     recycle_max (recycle p') = recycle_max (recycle ring4)) /\
  (forall o p', @gfar_new_skb etsec 0 ring4 = Some (o, p') ->
     recycle_bounded (recycle p') /\
     recycle_max (recycle p') = recycle_max (recycle ring4)).
Proof.
  apply (@recycle_queues_bounded etsec linux_model 0 ring4).
  - vm_compute; reflexivity.
  - assert (Hr : recycle ring4 = empty_recycle) by (vm_compute; reflexivity).
    rewrite Hr. unfold recycle_bounded, empty_recycle.
    cbn [skb_queues recycle_max].
    repeat (apply map_Forall_insert_2; [cbn; lia|]).
    apply map_Forall_empty.
Defined.

(** ** Further properties of the cleanup loops *)

Ltac split_hyps :=
  repeat match goal with
         | E : Some _ = Some _ |- _ => inversion E; subst; clear E
         | E : None = Some _ |- _ => discriminate E
         | E : (?x ≫= _) = Some _ |- _ =>
             destruct x eqn:?; cbn [mbind option_bind] in E
         | E : (match ?x with _ => _ end) = Some _ |- _ => destruct x eqn:?
         | E : (if ?b then _ else _) = Some _ |- _ => destruct b eqn:?
         | E : (_, _) = (_, _) |- _ => inversion E; subst; clear E
         | E : (if ?b then _ else _) = (_, _) |- _ => destruct b eqn:?
         | E : (match ?x with _ => _ end) = (_, _) |- _ => destruct x eqn:?
         | x : (_ * _)%type |- _ => destruct x
         end.

Lemma delivered_process_frame `{gianfar_h} `{linux} (p : gfar_private)
    (s : sk_buff) (n : Z) :
  exists s', delivered (gfar_process_frame p s n) = delivered p ++ [s'].
Proof.
  unfold gfar_process_frame. cbv zeta.
  match goal with |- context [netif_receive_skb_drops ?x] =>
    exists x; by destruct (netif_receive_skb_drops x) end.
Qed.

Lemma delivered_new_skb `{gianfar_h} (cpu : Z) (p p' : gfar_private)
    (o : option sk_buff) :
  gfar_new_skb cpu p = Some (o, p') -> delivered p' = delivered p.
Proof. intros E. apply pool_step_new_skb in E. apply E. Qed.

Lemma delivered_free_skb `{gianfar_h} `{linux} (cpu : Z) (p p' : gfar_private)
    (s : sk_buff) :
  gfar_free_skb cpu p s = Some p' -> delivered p' = delivered p.
Proof. intros E. apply pool_step_free_skb in E. apply E. Qed.

(** One turn of the receive loop counts at most one frame, and hands the
    stack at most as many packets as it counts. *)
Lemma clean_rx_step_howmany `{gianfar_h} `{linux} (cpu rq : Z)
    (p p' : gfar_private) (bdp bdp' h h' : Z) :
  clean_rx_step cpu rq p bdp h = Some (bdp', h', p') ->
  (h' = h /\ delivered p' = delivered p) \/
  (h' = h + 1 /\
   exists l, delivered p' = delivered p ++ l /\ (length l <= 1)%nat).
Proof.
  unfold clean_rx_step. intros E. cbv zeta in E.
  destruct (gfar_new_skb cpu p) as [[o p0]|] eqn:Hnew; [|done].
  apply delivered_new_skb in Hnew.
  cbn [mbind option_bind] in E.
  split_hyps;
    repeat match goal with
           | E : gfar_free_skb _ _ _ = Some _ |- _ =>
               apply delivered_free_skb in E
           end;
    cbn in *;
    first
      [ left; split; [reflexivity|congruence]
      | right; split; [reflexivity|];
        first
          [ match goal with
            | |- context [gfar_process_frame ?P ?s ?n] =>
                destruct (delivered_process_frame P s n) as [s' Hs'];
                exists [s']; rewrite Hs'; cbn; split; [congruence|lia]
            end
          | exists []; rewrite app_nil_r; split; [congruence|cbn; lia] ] ].
Qed.

Lemma clean_rx_loop_howmany `{gianfar_h} `{linux} (n : nat) :
  forall (cpu rq : Z) (p p' : gfar_private) (bdp bdp' h h' : Z),
  clean_rx_loop n cpu rq p bdp h = Some (bdp', h', p') ->
  h <= h' <= h + Z.of_nat n /\
  exists l, delivered p' = delivered p ++ l /\
            Z.of_nat (length l) <= h' - h.
Proof.
  induction n as [|n IH]; intros cpu rq p p' bdp bdp' h h' E.
  - cbn in E. split_hyps; (split; [lia|]); exists [];
      (split; [by rewrite app_nil_r|cbn [length]; lia]).
  - cbn [clean_rx_loop] in E.
    destruct (at_ (rx_queue p) rq) as [q|]; [|done].
    cbn [mbind option_bind] in E.
    destruct (at_ (rx_bd_base q) bdp) as [d|]; [|done].
    cbn [mbind option_bind] in E.
    destruct (tst (bd_status d) RXBD_EMPTY).
    + inversion E; subst. split; [lia|]. exists [].
      split; [by rewrite app_nil_r|cbn [length]; lia].
    + destruct (clean_rx_step cpu rq p bdp h) as [[[b1 h1] p1]|] eqn:Es;
        [|done].
      cbn [mbind option_bind] in E.
      apply IH in E as [Hh (l2 & Hl2 & Hn2)].
      apply clean_rx_step_howmany in Es
        as [[-> Hd]|[-> (l1 & Hd & Hn1)]].
      * split; [lia|]. exists l2. rewrite Hl2, Hd. split; [done|lia].
      * split; [lia|]. exists (l1 ++ l2).
        rewrite Hl2, Hd, <- app_assoc. split; [done|].
        rewrite length_app. lia.
Qed.

Lemma gfar_clean_rx_ring_howmany `{gianfar_h} `{linux} (cpu rq : Z)
    (p p' : gfar_private) (rx_work_limit howmany : Z) :
  gfar_clean_rx_ring cpu rq p rx_work_limit = Some (howmany, p') ->
  0 <= howmany <= Z.max 0 rx_work_limit.
Proof.
  unfold gfar_clean_rx_ring. intros E.
  destruct (at_ (rx_queue p) rq) as [q|]; [|done].
  cbn [mbind option_bind] in E.
  destruct (clean_rx_loop _ cpu rq p (cur_rx q) 0) as [[[b1 h1] p1]|] eqn:El;
    [|done].
  cbn [mbind option_bind] in E.
  destruct (at_ (rx_queue p1) rq) as [q1|]; [|done].
  cbn [mbind option_bind] in E. inversion E; subst.
  apply clean_rx_loop_howmany in El as [Hh _]. lia.
Qed.



Lemma clean_tx_loop_howmany `{gianfar_h} `{linux} (n : nat) :
  forall (cpu rq : Z) (p p' : gfar_private) (bdp bdp' dt dt' lim h h' : Z),
  clean_tx_loop n cpu rq p bdp dt lim h = Some (bdp', dt', h', p') ->
  h <= h' <= h + Z.of_nat n /\ (0 <= lim -> h' <= h + lim).
Proof.
  induction n as [|n IH]; intros cpu rq p p' bdp bdp' dt dt' lim h h' E.
  - cbn in E. split_hyps. lia.
  - cbn [clean_tx_loop] in E. cbv zeta in E.
    split_hyps; try lia;
      match goal with
      | E : clean_tx_loop _ _ _ _ _ _ _ _ = Some _ |- _ => apply IH in E
      end;
      match goal with
      | E : (?l =? 0) = false |- _ => apply Z.eqb_neq in E
      end; lia.
Qed.

Lemma tx_rings_kept_with_txq (p : gfar_private) (rq : Z)
    (q q' : gfar_priv_tx_q) :
  at_ (tx_queue p) rq = Some q ->
  tx_bd_base q' = tx_bd_base q -> tx_skbuff q' = tx_skbuff q ->
  cur_tx q' = cur_tx q -> dirty_tx q' = dirty_tx q ->
  skb_curtx q' = skb_curtx q -> skb_dirtytx q' = skb_dirtytx q ->
  num_txbdfree q' = num_txbdfree q -> tx_ring_size q' = tx_ring_size q ->
  tx_rings_kept p (with_txq p rq q').
Proof.
  intros Hq ? ? ? ? ? ? ? ?. split; [cbn; apply length_upd|].
  intros i qi Hi. cbn.
  destruct (Z.eq_dec rq i) as [->|Hne].
  - rewrite Hq in Hi. inversion Hi; subst qi.
    exists q'. split; [by eapply at_upd_eq|]. repeat split; done.
  - exists qi. rewrite at_upd_ne by done. repeat split; done.
Qed.

(** X6.  Only completed frames are cleaned: while the last descriptor of
    the oldest frame of a transmit queue still has READY set and a
    length that is not zero, [gfar_clean_tx_ring] reports 0 frames,
    leaves every descriptor, every slot of [tx_skbuff] and every index
    and counter of the rings as they are, frees nothing and stores
    nothing. *)
Theorem gfar_clean_tx_ring_in_flight `{gianfar_h} `{linux} (cpu rq : Z)
    (p : gfar_private) (q sq : gfar_priv_tx_q) (skb : sk_buff) (ld : bd)
    (tx_work_limit : Z) :
  at_ (tx_queue p) rq = Some q ->
  at_ (tx_queue p) (tx_qindex q) = Some sq ->
  at_ (tx_skbuff q) (skb_dirtytx q) = Some (Some skb) ->
  at_ (tx_bd_base q)
      (skip_txbd (dirty_tx q)
         ((if tx_in_progress (shinfo skb) then nr_frags skb + 2
           else nr_frags skb + 1) - 1) (tx_ring_size q)) = Some ld ->
  tst (lstatus ld) (BD_LFLAG TXBD_READY) = true ->
  tst (lstatus ld) BD_LENGTH_MASK = true ->
  exists p',
    gfar_clean_tx_ring cpu rq p tx_work_limit = Some (0, p') /\
    tx_rings_kept p p' /\ freed p' = freed p /\ log p' = log p /\
    recycle p' = recycle p /\ rx_queue p' = rx_queue p.
Proof.
  intros Hq Hsq Hskb Hld Hr Hn.
  assert (Hfuel : exists m, length (tx_skbuff q) = S m).
  { apply at_Some_lt in Hskb. destruct (length (tx_skbuff q)); [lia|].
    by eexists. }
  destruct Hfuel as [m Hm].
  assert (El : clean_tx_loop (length (tx_skbuff q)) cpu rq p (dirty_tx q)
                 (skb_dirtytx q) tx_work_limit 0
               = Some (dirty_tx q, skb_dirtytx q, 0, p)).
  { rewrite Hm. cbn [clean_tx_loop]. rewrite Hq. cbn [mbind option_bind].
    rewrite Hskb. cbn [mbind option_bind].
    destruct (tx_work_limit =? 0); [done|]. cbv zeta. rewrite Hld.
    cbn [mbind option_bind]. by rewrite Hr, Hn. }
  unfold gfar_clean_tx_ring. rewrite Hq. cbn [mbind option_bind].
  rewrite El. cbn [mbind option_bind]. rewrite Hq. cbn [mbind option_bind].
  rewrite Hsq. cbn [mbind option_bind].
  set (P := if tx_stopped sq && negb (num_txbdfree q =? 0)
            then with_txq p (tx_qindex q) (txq_with_stopped sq false)
            else p).
  assert (HP : tx_rings_kept p P /\ freed P = freed p /\ log P = log p /\
               recycle P = recycle p /\ rx_queue P = rx_queue p).
  { subst P. destruct (tx_stopped sq && negb (num_txbdfree q =? 0)).
    - split; [|done]. by eapply tx_rings_kept_with_txq.
    - split; [apply tx_rings_kept_refl|done]. }
  destruct HP as (Hk & Hf & Hlg & Hrc & Hrx).
  destruct (proj2 Hk rq q Hq) as (Q & HQ & ? & ? & ? & ? & ? & ? & ? & ?).
  rewrite HQ. cbn [mbind option_bind].
  eexists. split; [reflexivity|].
  split; [|done].
  eapply tx_rings_kept_trans; [exact Hk|].
  eapply tx_rings_kept_with_txq; [exact HQ|..]; cbn; congruence.
Qed.

Lemma gfar_clean_tx_ring_in_flight_witness :
  exists p',
    @gfar_clean_tx_ring etsec linux_model 0 0 ring4_full 4 = Some (0, p') /\
    tx_rings_kept ring4_full p' /\ freed p' = freed ring4_full /\
    log p' = log ring4_full /\ recycle p' = recycle ring4_full /\
    rx_queue p' = rx_queue ring4_full.
Proof.
  apply (@gfar_clean_tx_ring_in_flight etsec linux_model 0 0 ring4_full
           (txq0 ring4_full) (txq0 ring4_full) (packet 50000 100)
           (mk_bd 0x9c000064 50064) 4).
  - vm_compute; reflexivity.
  - vm_compute; reflexivity.
  - vm_compute; reflexivity.
  - vm_compute; reflexivity.
  - vm_compute; reflexivity.
  - vm_compute; reflexivity.
Defined.

(** ** Halting twice *)

Lemma land_lor_same (a b : Z) : Z.land (Z.lor a b) b = b.
Proof.
  apply Z.bits_inj'. intros n Hn. rewrite Z.land_spec, Z.lor_spec.
  destruct (Z.testbit a n), (Z.testbit b n); reflexivity.
Qed.

Lemma land_land_same (a b : Z) : Z.land (Z.land a b) b = Z.land a b.
Proof. by rewrite <- Z.land_assoc, Z.land_diag. Qed.

(** After [gfar_halt_nodisable] both graceful-stop bits of DMACTRL are
    set and the interrupts are masked. *)
Lemma gfar_halt_nodisable_regs `{gianfar_h} (d d' : gfar_device) :
  gfar_halt_nodisable d = Some d' ->
  Z.land (dmactrl (regs d')) (Z.lor DMACTRL_GRS DMACTRL_GTS)
    = Z.lor DMACTRL_GRS DMACTRL_GTS /\
  imask (regs d') = IMASK_INIT_CLEAR /\
  maccfg1 (regs d') = maccfg1 (regs d).
Proof.
  unfold gfar_halt_nodisable. cbv zeta. cbn [regs dev_with_priv dmactrl].
  destruct (Z.eqb_spec (Z.land (dmactrl (regs d))
                          (Z.lor DMACTRL_GRS DMACTRL_GTS))
                       (Z.lor DMACTRL_GRS DMACTRL_GTS)) as [He|Hne];
    cbn [negb].
  - intros E; inversion E; subst d'. done.
  - intros E. destruct (wait_graceful_stop _ _) as [rest|]; [|done].
    cbn in E. inversion E; subst d'. cbn. split; [|done].
    apply land_lor_same.
Qed.

(** X7.  Halting a halted controller again changes no register and does
    not wait for the hardware: a second [gfar_halt] succeeds whatever the
    hardware would answer, consumes no poll, leaves IMASK, DMACTRL and
    MACCFG1 as the first call left them, and writes IMASK, IEVENT and
    MACCFG1 but not DMACTRL. *)
Theorem gfar_halt_twice `{gianfar_h} (d d1 : gfar_device) :
  gfar_halt d = Some d1 ->
  exists d2,
    gfar_halt d1 = Some d2 /\
    regs d2 = regs d1 /\ hw_polls d2 = hw_polls d1 /\
    live d2 = live d1 /\ faults d2 = faults d1 /\
    log (priv d2) =
      log (priv d1) ++ [EvRegWrite R_imask IMASK_INIT_CLEAR;
                        EvRegWrite R_ievent IEVENT_INIT_CLEAR;
                        EvRegWrite R_maccfg1 (maccfg1 (regs d1))].
Proof.
  unfold gfar_halt at 1. intros E.
  destruct (gfar_halt_nodisable d) as [d0|] eqn:E0; [|done].
  cbn [mbind option_bind] in E. inversion E; subst d1. clear E.
  apply gfar_halt_nodisable_regs in E0 as (Hdma & Him & _).
  unfold gfar_halt, gfar_halt_nodisable. cbv zeta.
  cbn [regs dev_with_priv dev_with_regs dmactrl imask maccfg1 priv hw_polls].
  rewrite Hdma, Z.eqb_refl. cbn [negb mbind option_bind].
  eexists. split; [reflexivity|].
  cbn [regs dev_with_priv dev_with_regs dmactrl imask maccfg1 priv hw_polls
       live faults emit log with_log].
  rewrite land_land_same, Him, <- !app_assoc. done.
Qed.

Lemma gfar_halt_twice_witness :
  exists d2,
    @gfar_halt etsec halted4 = Some d2 /\
    regs d2 = regs halted4 /\ hw_polls d2 = hw_polls halted4 /\
    live d2 = live halted4 /\ faults d2 = faults halted4 /\
    log (priv d2) =
      log (priv halted4) ++
        [EvRegWrite R_imask (@IMASK_INIT_CLEAR etsec);
         EvRegWrite R_ievent (@IEVENT_INIT_CLEAR etsec);
         EvRegWrite R_maccfg1 (maccfg1 (regs halted4))].
Proof.
  apply (@gfar_halt_twice etsec running4 halted4). vm_compute; reflexivity.
Defined.

Lemma wait_graceful_stop_ack `{gianfar_h} (d : gfar_device)
    (polls : list (Z * Z * Z)) :
  errata_a002 d = false ->
  is_Some (wait_graceful_stop d polls) <->
  Exists (fun x => Z.land x.1.1 (Z.lor IEVENT_GRSC IEVENT_GTSC)
                   = Z.lor IEVENT_GRSC IEVENT_GTSC) polls.
Proof.
  intros He. induction polls as [|[[ev1 ev2] res] rest IH].
  - cbn. split; [by intros [? ?]|by intros ?%Exists_nil].
  - cbn [wait_graceful_stop]. cbv zeta. unfold __gfar_is_rx_idle.
    rewrite He. cbn [negb]. rewrite Exists_cons. cbn [fst].
    destruct (Z.eqb_spec (Z.land ev1 (Z.lor IEVENT_GRSC IEVENT_GTSC))
                         (Z.lor IEVENT_GRSC IEVENT_GTSC)) as [Hy|Hn].
    + cbn. split; [by left|by eexists].
    + assert (Hr : (if negb false && negb (tst ev2 IEVENT_GRSC)
                    then false else false) = false)
        by (by destruct (negb false && _)).
      rewrite Hr. rewrite IH. split; [by right|by intros [?|?]].
Qed.

(** X8.  On a controller without erratum A002 whose DMA is not yet
    stopped, [gfar_halt] returns exactly when one of the polls of IEVENT
    shows both graceful-stop events, GRSC and GTSC; as long as none does,
    the loop of [gfar_halt_nodisable] does not end, however often it
    polls. *)
Theorem gfar_halt_waits_for_ack `{gianfar_h} (d : gfar_device) :
  errata_a002 d = false ->
  Z.land (dmactrl (regs d)) (Z.lor DMACTRL_GRS DMACTRL_GTS)
    <> Z.lor DMACTRL_GRS DMACTRL_GTS ->
  is_Some (gfar_halt d) <->
  Exists (fun x => Z.land x.1.1 (Z.lor IEVENT_GRSC IEVENT_GTSC)
                   = Z.lor IEVENT_GRSC IEVENT_GTSC) (hw_polls d).
Proof.
  intros He Hd.
  rewrite <- (wait_graceful_stop_ack
                (dev_with_priv
                   (dev_with_priv d
                      (emit (priv d)
                         [EvRegWrite R_imask IMASK_INIT_CLEAR;
                          EvRegWrite R_ievent IEVENT_INIT_CLEAR]))
                   (emit (emit (priv d)
                            [EvRegWrite R_imask IMASK_INIT_CLEAR;
                             EvRegWrite R_ievent IEVENT_INIT_CLEAR])
                      [EvRegWrite R_dmactrl
                         (Z.lor (dmactrl (regs d))
                            (Z.lor DMACTRL_GRS DMACTRL_GTS))]))
                (hw_polls d)) by exact He.
  unfold gfar_halt, gfar_halt_nodisable. cbv zeta.
  cbn [regs dev_with_priv dmactrl hw_polls priv imask maccfg1].
  apply Z.eqb_neq in Hd. rewrite Hd. cbn [negb].
  destruct (wait_graceful_stop _ (hw_polls d)) as [rest|];
    cbn [mbind option_bind].
  - split; intros _; by eexists.
  - split; intros [? ?]; done.
Qed.

Lemma gfar_halt_waits_for_ack_witness :
  is_Some (@gfar_halt etsec running4) <->
  Exists (fun x => Z.land x.1.1 (Z.lor (@IEVENT_GRSC etsec)
                                       (@IEVENT_GTSC etsec))
                   = Z.lor (@IEVENT_GRSC etsec) (@IEVENT_GTSC etsec))
         (hw_polls running4).
Proof.
  apply (@gfar_halt_waits_for_ack etsec running4).
  - vm_compute; reflexivity.
  - vm_compute; discriminate.
Defined.

(** ** The budget of the receive poll *)

Lemma div2_testbit (a n : Z) :
  0 <= n -> Z.testbit (Z.div2 a) n = Z.testbit a (n + 1).
Proof. intros Hn. by rewrite Z.div2_spec, Z.shiftr_spec by lia. Qed.

Lemma popcount_ext (w : nat) :
  forall x y : Z,
  (forall n, 0 <= n < Z.of_nat w -> Z.testbit x n = Z.testbit y n) ->
  popcount w x = popcount w y.
Proof.
  induction w as [|w IH]; intros x y Hb; [done|].
  cbn [popcount]. rewrite <- !Z.bit0_odd, (Hb 0) by lia. f_equal.
  apply IH. intros n Hn. rewrite !div2_testbit by lia. apply Hb. lia.
Qed.

Lemma popcount_clearbit (w : nat) :
  forall x j : Z,
  0 <= j < Z.of_nat w -> Z.testbit x j = true ->
  popcount w x = 1 + popcount w (Z.clearbit x j).
Proof.
  induction w as [|w IH]; intros x j Hj Hx; [lia|].
  cbn [popcount]. rewrite <- !Z.bit0_odd.
  destruct (Z.eq_dec j 0) as [->|Hne].
  - rewrite Hx, Z.clearbit_eq by lia. cbn [Z.b2z].
    rewrite (popcount_ext w (Z.div2 (Z.clearbit x 0)) (Z.div2 x)); [lia|].
    intros n Hn. rewrite !div2_testbit by lia.
    apply Z.clearbit_neq; lia.
  - rewrite (Z.clearbit_neq x j 0) by lia.
    rewrite (popcount_ext w (Z.div2 (Z.clearbit x j))
               (Z.clearbit (Z.div2 x) (j - 1))).
    + rewrite (IH (Z.div2 x) (j - 1)); [lia|lia|].
      rewrite div2_testbit by lia. by replace (j - 1 + 1) with j by lia.
    + intros n Hn. rewrite div2_testbit by lia.
      destruct (Z.eq_dec n (j - 1)) as [->|Hn'].
      * rewrite Z.clearbit_eq by lia.
        replace (j - 1 + 1) with j by lia. apply Z.clearbit_eq.
      * rewrite !Z.clearbit_neq by lia. by rewrite div2_testbit by lia.
Qed.

Lemma tst_pow2 (x m : Z) :
  0 <= m -> tst x (2 ^ m) = true -> Z.testbit x m = true.
Proof.
  intros Hm Ht. unfold tst in Ht. apply negb_true_iff, Z.eqb_neq in Ht.
  destruct (Z.testbit x m) eqn:Hb; [done|]. exfalso. apply Ht.
  apply Z.bits_inj'. intros n Hn.
  rewrite Z.land_spec, Z.bits_0, Z.pow2_bits_eqb by lia.
  destruct (Z.eqb_spec m n) as [->|]; [by rewrite Hb|apply andb_false_r].
Qed.

Lemma shiftr_pow2 (k i : Z) : 0 <= i <= k -> Z.shiftr (2 ^ k) i = 2 ^ (k - i).
Proof.
  intros Hi. rewrite Z.shiftr_div_pow2 by lia.
  symmetry. apply Z.pow_sub_r; lia.
Qed.

(** The queues the receive poll cleans take at most the budget of a
    queue each, and there are no more of them than bits set in the
    status. *)
Lemma poll_rx_queues_bound `{gianfar_h} `{linux} (cpu k bm x bpq : Z) :
  RSTAT_RXF0_MASK = 2 ^ k -> 0 <= bpq ->
  forall (qs : list Z) (y : Z) (p p' : gfar_private) (c c' : Z)
         (nd nd' : bool) (pv pv' rh rh' : Z),
  NoDup qs ->
  (forall i, i ∈ qs -> 0 <= i <= k /\ k - i < 32) ->
  (forall i, i ∈ qs -> Z.testbit x (k - i) = true ->
             Z.testbit y (k - i) = true) ->
  poll_rx_queues cpu qs bm x bpq p (c, nd, pv, rh)
    = Some (c', nd', pv', rh', p') ->
  c <= c' <= c + bpq * popcount 32 y.
Proof.
  intros Hk Hb qs.
  induction qs as [|i rest IH];
    intros y p p' c c' nd nd' pv pv' rh rh' Hnd Hr Hy E.
  - cbn in E. inversion E; subst.
    pose proof (popcount_nonneg 32 y) as Hp. revert Hp.
    generalize (popcount 32 y). intros P HP. nia.
  - cbn [poll_rx_queues] in E.
    apply NoDup_cons in Hnd as [Hni Hnd].
    assert (Hr' : forall j, j ∈ rest -> 0 <= j <= k /\ k - j < 32).
    { intros j Hj. apply Hr. by right. }
    destruct (Z.testbit bm i && tst x (Z.shiftr RSTAT_RXF0_MASK i)) eqn:Hc.
    + apply andb_true_iff in Hc as [_ Ht].
      destruct (Hr i) as [Hi Hi32]; [by left|].
      rewrite Hk, shiftr_pow2 in Ht by lia.
      apply tst_pow2 in Ht; [|lia].
      assert (Hyi : Z.testbit y (k - i) = true) by (apply Hy; [by left|done]).
      destruct (gfar_clean_rx_ring cpu i p bpq) as [[n p1]|] eqn:Ec; [|done].
      cbn [mbind option_bind] in E.
      apply gfar_clean_rx_ring_howmany in Ec as Hn.
      rewrite Z.max_r in Hn by lia.
      pose proof (popcount_clearbit 32 y (k - i)) as Hpc.
      assert (HI : c + n <= c' <=
                   c + n + bpq * popcount 32 (Z.clearbit y (k - i))).
      { destruct (n >=? bpq);
          eapply (IH (Z.clearbit y (k - i))); try exact E; try done;
          intros j Hj Hx; (rewrite Z.clearbit_neq;
            [apply Hy; [by right|done]|]);
          intros Heq; apply Hni;
          by replace i with j by lia. }
      revert HI Hpc. generalize (popcount 32 (Z.clearbit y (k - i))).
      generalize (popcount 32 y). intros P P' HI Hpc.
      rewrite Hpc by (try done; lia). nia.
    + eapply IH; try exact E; try done.
      intros j Hj. apply Hy. by right.
Qed.

(** The budget of a queue, times the number of active queues, is within
    the budget of the poll. *)
Lemma poll_rx_budget_div `{gianfar_h} (grp : gfar_priv_grp) (budget bpq : Z) :
  0 <= Z.lor (Z.land (regs_rstat grp) RSTAT_RXF_ALL_MASK) (rstat_prev grp)
    < 2 ^ 32 ->
  0 <= budget ->
  poll_rx_budget grp budget = Some bpq ->
  exists P,
    P = popcount 32 (Z.lor (Z.land (regs_rstat grp) RSTAT_RXF_ALL_MASK)
                           (rstat_prev grp)) /\
    0 <= bpq /\ bpq * P <= budget.
Proof.
  intros Hx Hb E.
  destruct (Z.eq_dec (Z.lor (Z.land (regs_rstat grp) RSTAT_RXF_ALL_MASK)
                            (rstat_prev grp)) 0) as [Hz0|Hne].
  { by rewrite (poll_rx_budget_none grp budget Hz0) in E. }
  pose proof (poll_rx_budget_some grp budget Hx Hne) as Hsome.
  cbv zeta in Hsome. rewrite Hsome in E. clear Hsome.
  pose proof (popcount_nonneg 32 (Z.lor (Z.land (regs_rstat grp)
                                           RSTAT_RXF_ALL_MASK)
                                        (rstat_prev grp))) as Hnn.
  pose proof (popcount_zero 32 _ Hx) as Hz.
  eexists. split; [reflexivity|].
  revert E Hnn Hz.
  generalize (popcount 32 (Z.lor (Z.land (regs_rstat grp)
                                    RSTAT_RXF_ALL_MASK) (rstat_prev grp))).
  intros P E Hnn Hz. inversion E; subst bpq. clear E.
  assert (HP : 0 < P).
  { destruct (Z.eq_dec P 0) as [HP0|]; [|lia]. exfalso. apply Hne, Hz, HP0. }
  clear Hz Hne Hx.
  split; [apply Z.quot_pos; lia|].
  pose proof (Z.mul_quot_le budget P Hb ltac:(lia)) as Hq.
  rewrite (Z.mul_comm (budget ÷ P) P). lia.
Qed.

(** [gfar_poll_rx] once the budget of a queue is known. *)
Lemma gfar_poll_rx_some `{gianfar_h} `{linux} (cpu : Z) (grp : gfar_priv_grp)
    (p : gfar_private) (budget bpq : Z) :
  poll_rx_budget grp budget = Some bpq ->
  gfar_poll_rx cpu grp p budget =
    let rstat_rxf := Z.lor (Z.land (regs_rstat grp) RSTAT_RXF_ALL_MASK)
                           (rstat_prev grp) in
    let p := emit p [EvRegWrite R_rstat rstat_rxf;
                     EvRegWrite R_ievent IEVENT_RX_MASK] in
    '(rx_cleaned, napi_done, prev, rstat_rhalt, p) ←
      poll_rx_queues cpu (seqZ 0 (Z.of_nat (length (rx_queue p))))
        (rx_bit_map grp) rstat_rxf bpq p (0, true, rstat_rxf, 0);
    let p := if negb (rstat_rhalt =? 0)
             then emit p [EvRegWrite R_rstat rstat_rhalt] else p in
    if (napi_done : bool) then
      let imask := Z.lor (regs_imask grp) IMASK_DEFAULT_RX in
      let p := emit p [EvRegWrite R_imask imask] in
      let ievent := Z.land (regs_ievent grp) IEVENT_RX_MASK in
      if negb (ievent =? 0) then
        let imask := Z.land imask IMASK_RX_DISABLED in
        Some (rx_cleaned,
              mk_grp (rx_bit_map grp) prev (regs_rstat grp) (regs_ievent grp)
                     imask true,
              emit p [EvRegWrite R_imask imask;
                      EvRegWrite R_ievent IEVENT_RX_MASK])
      else
        Some (rx_cleaned,
              mk_grp (rx_bit_map grp) prev (regs_rstat grp) (regs_ievent grp)
                     imask false, p)
    else
      Some (rx_cleaned,
            mk_grp (rx_bit_map grp) prev (regs_rstat grp) (regs_ievent grp)
                   (regs_imask grp) (napi_rx_scheduled grp), p).
Proof. intros E. unfold gfar_poll_rx. rewrite E. reflexivity. Qed.

(** X9.  The receive poll keeps within its budget.  With the flag of
    queue 0 a single bit of the status word ([RSTAT_RXF0_MASK = 2 ^ k])
    and no more queues than flags to its right, [gfar_poll_rx] called
    with a budget that is not negative reports at least 0 and at most
    [budget] frames. *)
Theorem gfar_poll_rx_within_budget `{gianfar_h} `{linux} (cpu k : Z)
    (grp grp' : gfar_priv_grp) (p p' : gfar_private) (budget n : Z) :
  RSTAT_RXF0_MASK = 2 ^ k -> 0 <= k < 32 ->
  Z.of_nat (length (rx_queue p)) <= k + 1 ->
  0 <= Z.lor (Z.land (regs_rstat grp) RSTAT_RXF_ALL_MASK) (rstat_prev grp)
    < 2 ^ 32 ->
  0 <= budget ->
  gfar_poll_rx cpu grp p budget = Some (n, grp', p') ->
  0 <= n <= budget.
Proof.
  intros Hk Hk32 Hlen Hx Hb E.
  destruct (poll_rx_budget grp budget) as [bpq|] eqn:Eb.
  2: { by rewrite (gfar_poll_rx_none cpu grp p budget Eb) in E. }
  rewrite (gfar_poll_rx_some cpu grp p budget bpq Eb) in E. cbv zeta in E.
  apply poll_rx_budget_div in Eb as (P & HP & Hbpq & Hmul); [|done..].
  destruct (poll_rx_queues _ _ _ _ _ _ _) as [[[[[c nd] pv] rh] p1]|] eqn:Eq;
    [|done].
  cbn [mbind option_bind] in E.
  assert (Hn : n = c) by (split_hyps; reflexivity).
  subst n. clear E.
  apply (poll_rx_queues_bound cpu k _ _ _ Hk Hbpq) with
    (y := Z.lor (Z.land (regs_rstat grp) RSTAT_RXF_ALL_MASK) (rstat_prev grp))
    in Eq.
  - rewrite <- HP in Eq. clear HP. lia.
  - apply NoDup_seqZ.
  - clear HP. intros i Hi. apply elem_of_seqZ in Hi.
    cbn [emit with_log rx_queue] in Hi. lia.
  - intros i _ Hi. exact Hi.
Qed.

Lemma gfar_poll_rx_within_budget_witness :
  0 <= ring4_polled.1.1 <= 4.
Proof.
  apply (@gfar_poll_rx_within_budget etsec linux_model 0 23
           (mk_grp 1 0 0x00800000 0 0 true) ring4_polled.1.2
           ring4_received_all ring4_polled.2 4 ring4_polled.1.1).
  - reflexivity.
  - lia.
  - vm_compute; discriminate.
  - vm_compute; split; [discriminate|reflexivity].
  - lia.
  - vm_compute; reflexivity.
Defined.

(** ** Reversing a queue bit map *)

Lemma land_pow2_testbit (x j : Z) :
  0 <= j -> (Z.land x (2 ^ j) =? 0) = negb (Z.testbit x j).
Proof.
  intros Hj. destruct (Z.testbit x j) eqn:Hb; cbn [negb].
  - apply Z.eqb_neq. intros E.
    assert (Ht : Z.testbit (Z.land x (2 ^ j)) j = true).
    { rewrite Z.land_spec, Hb, Z.pow2_bits_eqb, Z.eqb_refl by lia. done. }
    rewrite E, Z.bits_0 in Ht. done.
  - apply Z.eqb_eq. apply Z.bits_inj'. intros n Hn.
    rewrite Z.land_spec, Z.bits_0, Z.pow2_bits_eqb by lia.
    destruct (Z.eqb_spec j n) as [->|]; [by rewrite Hb|apply andb_false_r].
Qed.

Lemma add_pow2_bits (acc k : Z) :
  0 <= k -> Z.testbit acc k = false ->
  (forall i, k < i -> Z.testbit acc i = false) ->
  0 <= acc ->
  0 <= acc + 2 ^ k < 2 ^ (k + 1) /\
  forall i, 0 <= i ->
    Z.testbit (acc + 2 ^ k) i = Z.testbit acc i || (k =? i).
Proof.
  intros Hk Hb Hhi Hacc.
  assert (Hl : Z.land acc (2 ^ k) = 0).
  { apply Z.eqb_eq. rewrite land_pow2_testbit, Hb by lia. done. }
  assert (Ho : acc + 2 ^ k = Z.lor acc (2 ^ k)).
  { rewrite <- Z.add_lor_land, Hl. lia. }
  assert (Hlt : acc < 2 ^ k).
  { destruct (Z.eq_dec acc 0) as [->|Hne]; [apply Z.pow_pos_nonneg; lia|].
    apply Z.log2_lt_pow2; [lia|].
    destruct (Z.lt_ge_cases (Z.log2 acc) k) as [?|Hge]; [done|].
    exfalso. pose proof (Z.bit_log2 acc ltac:(lia)) as Hbit.
    destruct (Z.eq_dec (Z.log2 acc) k) as [E|Hn].
    - rewrite E in Hbit. congruence.
    - rewrite Hhi in Hbit by lia. done. }
  split.
  - rewrite Z.pow_add_r by lia. lia.
  - intros i Hi. rewrite Ho, Z.lor_spec, Z.pow2_bits_eqb by lia. done.
Qed.

Lemma reverse_bitmap_loop_spec (b m : Z) :
  1 <= m <= 31 ->
  forall (n : nat) (k acc : Z),
  0 <= k -> k + Z.of_nat n = m -> 0 <= acc ->
  (forall i, 0 <= i ->
     Z.testbit acc i = (i <? k) && Z.testbit b (m - 1 - i)) ->
  0 <= reverse_bitmap_loop n b (Z.shiftr (2 ^ (m - 1)) k) k acc /\
  forall i, 0 <= i ->
    Z.testbit (reverse_bitmap_loop n b (Z.shiftr (2 ^ (m - 1)) k) k acc) i
    = (i <? m) && Z.testbit b (m - 1 - i).
Proof.
  intros Hm. induction n as [|n IH]; intros k acc Hk Hkn Hacc Hbits;
    cbn [reverse_bitmap_loop].
  - assert (Hkm : k = m) by lia. subst k. split; [done|exact Hbits].
  - cbv zeta. rewrite Z.shiftr_shiftr by lia.
    rewrite (shiftr_pow2 (m - 1) k) by lia.
    rewrite land_pow2_testbit, negb_involutive by lia.
    assert (Hbk : Z.testbit acc k = false).
    { rewrite Hbits by lia. by rewrite Z.ltb_irrefl. }
    assert (Hhi : forall i, k < i -> Z.testbit acc i = false).
    { intros i Hi. rewrite Hbits by lia.
      destruct (Z.ltb_spec i k); [lia|done]. }
    destruct (Z.testbit b (m - 1 - k)) eqn:Hbit.
    + rewrite Z.shiftl_1_l.
      destruct (add_pow2_bits acc k Hk Hbk Hhi Hacc) as [Hr Hb'].
      assert (Hu : u32 (acc + 2 ^ k) = acc + 2 ^ k).
      { unfold u32. apply Z.mod_small.
        assert (2 ^ (k + 1) <= 2 ^ 32) by (apply Z.pow_le_mono_r; lia). lia. }
      rewrite Hu. apply IH; [lia|lia|lia|].
      intros i Hi. rewrite Hb', Hbits by done.
      destruct (Z.eqb_spec k i) as [<-|Hne].
      * rewrite Hbit, orb_true_r.
        by destruct (Z.ltb_spec k (k + 1)); [|lia].
      * rewrite orb_false_r.
        destruct (Z.ltb_spec i k), (Z.ltb_spec i (k + 1)); try lia; done.
    + apply IH; [lia|lia|lia|].
      intros i Hi. rewrite Hbits by done.
      destruct (Z.eq_dec i k) as [->|Hne].
      * by rewrite Hbit, !andb_false_r.
      * destruct (Z.ltb_spec i k), (Z.ltb_spec i (k + 1)); try lia; done.
Qed.

Lemma reverse_bitmap_bits (b m : Z) :
  1 <= m <= 31 ->
  exists r, reverse_bitmap b m = Some r /\ 0 <= r /\
    forall i, 0 <= i -> Z.testbit r i = (i <? m) && Z.testbit b (m - 1 - i).
Proof.
  intros Hm. unfold reverse_bitmap.
  destruct (Z.leb_spec 1 m); [|lia]. destruct (Z.leb_spec m 31); [|lia].
  cbn [andb]. eexists. split; [reflexivity|].
  rewrite Z.shiftl_1_l.
  rewrite <- (Z.shiftr_0_r (2 ^ (m - 1))).
  apply (reverse_bitmap_loop_spec b m Hm); [lia|lia|lia|].
  intros i Hi. rewrite Z.bits_0. by destruct (Z.ltb_spec i 0); [lia|].
Qed.

Lemma testbit_above (b m i : Z) :
  0 <= b < 2 ^ m -> m <= i -> Z.testbit b i = false.
Proof.
  intros Hb Hi. destruct (Z.eq_dec b 0) as [->|Hne]; [apply Z.bits_0|].
  apply Z.bits_above_log2; [lia|].
  assert (Z.log2 b < m); [|lia].
  apply Z.log2_lt_pow2; lia.
Qed.

(** X10.  [reverse_bitmap] mirrors the lowest [max_qs] bits of the bit
    map, for every [max_qs] from 1 to 31: bit [i] of the result is bit
    [max_qs - 1 - i] of the argument for [i < max_qs], and every higher
    bit of the result is clear.  On a bit map of [max_qs] bits the
    function is its own inverse. *)
Theorem reverse_bitmap_mirror (bit_map max_qs : Z) :
  1 <= max_qs <= 31 -> 0 <= bit_map < 2 ^ 32 ->
  exists r,
    reverse_bitmap bit_map max_qs = Some r /\
    (forall i, 0 <= i ->
       Z.testbit r i = (i <? max_qs) && Z.testbit bit_map (max_qs - 1 - i)) /\
    (bit_map < 2 ^ max_qs -> reverse_bitmap r max_qs = Some bit_map).
Proof.
  intros Hm Hb.
  destruct (reverse_bitmap_bits bit_map max_qs Hm) as (r & Hr & Hr0 & Hbits).
  exists r. split; [exact Hr|]. split; [exact Hbits|].
  intros Hlt.
  destruct (reverse_bitmap_bits r max_qs Hm) as (r' & Hr' & Hr0' & Hbits').
  rewrite Hr'. f_equal. apply Z.bits_inj'. intros i Hi.
  rewrite Hbits' by done.
  destruct (Z.ltb_spec i max_qs) as [Hlo|Hhi]; cbn [andb].
  - rewrite Hbits by lia.
    destruct (Z.ltb_spec (max_qs - 1 - i) max_qs); [|lia]. cbn [andb].
    f_equal. lia.
  - symmetry. apply (testbit_above bit_map max_qs); lia.
Qed.

Lemma reverse_bitmap_mirror_witness :
  exists r,
    reverse_bitmap 0xc1 8 = Some r /\
    (forall i, 0 <= i ->
       Z.testbit r i = (i <? 8) && Z.testbit 0xc1 (8 - 1 - i)) /\
    (0xc1 < 2 ^ 8 -> reverse_bitmap r 8 = Some 0xc1).
Proof. apply (reverse_bitmap_mirror 0xc1 8); lia. Defined.

(** ** The multicast hash table *)

Lemma hash_entry_range (crc width : Z) :
  0 <= width <= 32 -> 0 <= hash_entry crc width < 2 ^ width.
Proof.
  intros Hw. unfold hash_entry, u32.
  pose proof (Z.mod_pos_bound crc (2 ^ 32) ltac:(lia)) as Hc.
  rewrite Z.shiftr_div_pow2 by lia. split.
  - apply Z.div_pos; [lia|]. apply Z.pow_pos_nonneg; lia.
  - apply Z.div_lt_upper_bound; [apply Z.pow_pos_nonneg; lia|].
    rewrite <- Z.pow_add_r by lia.
    replace (32 - width + width) with 32 by lia. lia.
Qed.

(** Which register and which bit [gfar_set_hash_for_addr] works on. *)
Lemma gfar_set_hash_for_addr_eq (MAC_ADDR_LEN : Z)
    (ether_crc : Z -> list Z -> Z) (width : Z) (regs : list Z)
    (addr : list Z) :
  6 <= width <= 13 ->
  let h := hash_entry (ether_crc MAC_ADDR_LEN addr) width in
  gfar_set_hash_for_addr MAC_ADDR_LEN ether_crc width regs addr =
    (old ← at_ regs (h / 32);
     Some (upd regs (h / 32) (Z.lor old (2 ^ (31 - h mod 32))))).
Proof.
  intros Hw h. unfold gfar_set_hash_for_addr. cbv zeta.
  destruct (Z.leb_spec 6 width); [|lia].
  destruct (Z.leb_spec width 32); [|lia]. cbn [andb negb].
  pose proof (hash_entry_range (ether_crc MAC_ADDR_LEN addr) width
                ltac:(lia)) as Hh.
  fold (hash_entry (ether_crc MAC_ADDR_LEN addr) width). fold h in Hh |- *.
  assert (Hr : Z.shiftr (u32 (ether_crc MAC_ADDR_LEN addr)) (32 - width + 5)
               = h / 32).
  { rewrite <- Z.shiftr_shiftr by lia.
    fold (hash_entry (ether_crc MAC_ADDR_LEN addr) width). fold h.
    by rewrite Z.shiftr_div_pow2 by lia. }
  rewrite Hr.
  assert (Hb : Z.land h 31 = h mod 32).
  { change 31 with (Z.ones 5). by rewrite Z.land_ones by lia. }
  rewrite Hb.
  pose proof (Z.mod_pos_bound h 32 ltac:(lia)) as Hm.
  assert (H8 : forall x, 0 <= x < 256 -> Z.land x 255 = x).
  { intros x Hx. change 255 with (Z.ones 8). rewrite Z.land_ones by lia.
    apply Z.mod_small. lia. }
  assert (Hq : 0 <= h / 32 < 256).
  { split; [apply Z.div_pos; lia|].
    apply Z.div_lt_upper_bound; [lia|].
    assert (2 ^ width <= 2 ^ 13) by (apply Z.pow_le_mono_r; lia). lia. }
  rewrite !H8 by lia.
  assert (Hv : u32 (Z.shiftl 1 (31 - h mod 32)) = 2 ^ (31 - h mod 32)).
  { rewrite Z.shiftl_1_l. unfold u32. apply Z.mod_small.
    split; [apply Z.pow_nonneg; lia|]. apply Z.pow_lt_mono_r; lia. }
  by rewrite Hv.
Qed.

(** X11.  With [2 ^ (width - 5)] hash registers, as for the widths 8 and
    9 of the driver, [gfar_set_hash_for_addr] always finds its register.
    It sets the entry of the table that the [width] most significant
    bits of the CRC of the address select, and leaves every other entry
    of the table as it was. *)
Theorem gfar_set_hash_for_addr_entry (MAC_ADDR_LEN : Z)
    (ether_crc : Z -> list Z -> Z) (width : Z) (regs : list Z)
    (addr : list Z) :
  6 <= width <= 13 ->
  Z.of_nat (length regs) = 2 ^ (width - 5) ->
  let h := hash_entry (ether_crc MAC_ADDR_LEN addr) width in
  exists regs',
    gfar_set_hash_for_addr MAC_ADDR_LEN ether_crc width regs addr
      = Some regs' /\
    length regs' = length regs /\
    hash_table_entry regs' h = Some true /\
    forall e, 0 <= e < 2 ^ width -> e <> h ->
      hash_table_entry regs' e = hash_table_entry regs e.
Proof.
  intros Hw Hlen h.
  rewrite gfar_set_hash_for_addr_eq by done. cbv zeta. fold h.
  pose proof (hash_entry_range (ether_crc MAC_ADDR_LEN addr) width
                ltac:(lia)) as Hh. fold h in Hh.
  pose proof (Z.mod_pos_bound h 32 ltac:(lia)) as Hm.
  assert (Hq : 0 <= h / 32 < 2 ^ (width - 5)).
  { split; [apply Z.div_pos; lia|].
    apply Z.div_lt_upper_bound; [lia|].
    change 32 with (2 ^ 5). rewrite <- Z.pow_add_r by lia.
    replace (5 + (width - 5)) with width by lia. lia. }
  assert (Hold : exists old, at_ regs (h / 32) = Some old).
  { unfold at_. destruct (decide (0 <= h / 32)); [|lia].
    apply lookup_lt_is_Some. lia. }
  destruct Hold as [old Hold]. rewrite Hold. cbn [mbind option_bind].
  eexists. split; [reflexivity|]. split; [apply length_upd|]. split.
  - unfold hash_table_entry. rewrite (at_upd_eq _ _ _ _ Hold).
    cbn [mbind option_bind]. f_equal.
    rewrite Z.lor_spec, Z.pow2_bits_eqb, Z.eqb_refl by lia.
    apply orb_true_r.
  - intros e He Hne. unfold hash_table_entry.
    destruct (Z.eq_dec (h / 32) (e / 32)) as [Heq|Hnq].
    + rewrite <- Heq, (at_upd_eq _ _ _ _ Hold), Hold.
      cbn [mbind option_bind]. f_equal.
      pose proof (Z.mod_pos_bound e 32 ltac:(lia)) as Hme.
      rewrite Z.lor_spec, Z.pow2_bits_eqb by lia.
      destruct (Z.eqb_spec (31 - h mod 32) (31 - e mod 32)) as [E|_];
        [|apply orb_false_r].
      exfalso. apply Hne.
      rewrite (Z.div_mod e 32), (Z.div_mod h 32) by lia. lia.
    + by rewrite at_upd_ne by done.
Qed.

Lemma gfar_set_hash_for_addr_entry_witness :
  let h := hash_entry 0xabcdef01 8 in
  exists regs',
    gfar_set_hash_for_addr 6 (fun _ _ => 0xabcdef01) 8
      [0; 0; 0; 0; 0; 0; 0; 0] [1; 0; 94; 0; 0; 1] = Some regs' /\
    length regs' = length [0; 0; 0; 0; 0; 0; 0; 0] /\
    hash_table_entry regs' h = Some true /\
    forall e, 0 <= e < 2 ^ 8 -> e <> h ->
      hash_table_entry regs' e
      = hash_table_entry [0; 0; 0; 0; 0; 0; 0; 0] e.
Proof.
  apply (gfar_set_hash_for_addr_entry 6 (fun _ _ => 0xabcdef01) 8
           [0; 0; 0; 0; 0; 0; 0; 0] [1; 0; 94; 0; 0; 1]).
  - lia.
  - reflexivity.
Defined.

Lemma upd_comm {A} (l : list A) (i j : Z) (x y : A) :
  i <> j -> upd (upd l i x) j y = upd (upd l j y) i x.
Proof.
  unfold upd. intros Hne.
  destruct (decide (0 <= i)), (decide (0 <= j)); try done.
  apply list_insert_insert_ne. lia.
Qed.

(** X12.  The order in which addresses are entered into the hash table
    does not matter, and entering an address a second time changes
    nothing. *)
Theorem gfar_set_hash_for_addr_order (MAC_ADDR_LEN : Z)
    (ether_crc : Z -> list Z -> Z) (width : Z) (regs : list Z)
    (a b : list Z) :
  6 <= width <= 13 ->
  let set := gfar_set_hash_for_addr MAC_ADDR_LEN ether_crc width in
  (set regs a ≫= fun r => set r b) = (set regs b ≫= fun r => set r a) /\
  (set regs a ≫= fun r => set r a) = set regs a.
Proof.
  intros Hw set. subst set.
  assert (Heq := fun r x => gfar_set_hash_for_addr_eq MAC_ADDR_LEN ether_crc
                              width r x Hw).
  cbv zeta in Heq.
  rewrite (Heq regs a), (Heq regs b).
  set (ha := hash_entry (ether_crc MAC_ADDR_LEN a) width) in *.
  set (hb := hash_entry (ether_crc MAC_ADDR_LEN b) width) in *.
  split.
  - destruct (at_ regs (ha / 32)) as [oa|] eqn:Ha;
      destruct (at_ regs (hb / 32)) as [ob|] eqn:Hb;
      cbn [mbind option_bind]; rewrite ?Heq; fold ha hb.
    + destruct (Z.eq_dec (ha / 32) (hb / 32)) as [E|Hne].
      * rewrite <- E in *. rewrite !(at_upd_eq _ _ _ _ Ha).
        cbn [mbind option_bind]. rewrite !upd_upd.
        assert (oa = ob) as -> by congruence.
        do 2 f_equal. rewrite <- !Z.lor_assoc. f_equal. apply Z.lor_comm.
      * rewrite !at_upd_ne by done. rewrite Ha, Hb.
        cbn [mbind option_bind]. f_equal. by apply upd_comm.
    + destruct (Z.eq_dec (ha / 32) (hb / 32)) as [E|Hne].
      * rewrite E in Ha. congruence.
      * rewrite at_upd_ne by done. by rewrite Hb.
    + destruct (Z.eq_dec (ha / 32) (hb / 32)) as [E|Hne].
      * rewrite E in Ha. congruence.
      * rewrite at_upd_ne by done. by rewrite Ha.
    + done.
  - destruct (at_ regs (ha / 32)) as [oa|] eqn:Ha;
      cbn [mbind option_bind]; [|done].
    rewrite Heq. fold ha. rewrite (at_upd_eq _ _ _ _ Ha).
    cbn [mbind option_bind]. rewrite upd_upd.
    do 2 f_equal. rewrite <- Z.lor_assoc. f_equal. apply Z.lor_diag.
Qed.

Lemma gfar_set_hash_for_addr_order_witness :
  let set := gfar_set_hash_for_addr 6
               (fun _ x => 0x1000000 * foldr Z.add 0 x) 8 in
  (set [0; 0; 0; 0; 0; 0; 0; 0] [1; 2] ≫= fun r => set r [3; 4])
  = (set [0; 0; 0; 0; 0; 0; 0; 0] [3; 4] ≫= fun r => set r [1; 2]) /\
  (set [0; 0; 0; 0; 0; 0; 0; 0] [1; 2] ≫= fun r => set r [1; 2])
  = set [0; 0; 0; 0; 0; 0; 0; 0] [1; 2].
Proof.
  apply (gfar_set_hash_for_addr_order 6
           (fun _ x => 0x1000000 * foldr Z.add 0 x) 8
           [0; 0; 0; 0; 0; 0; 0; 0] [1; 2] [3; 4]).
  lia.
Defined.

(** ** The rings after initialization *)

Lemma init_tx_bds_all (rq : Z) (js : list Z) :
  forall ql ql', init_tx_bds rq js ql = Some ql' ->
  ql'.1 = txq_with_bds ql.1 (tx_bd_base ql'.1) /\
  forall i, (i ∈ js -> at_ (tx_bd_base ql'.1) i = Some (mk_bd 0 0)) /\
            (i ∉ js -> at_ (tx_bd_base ql'.1) i = at_ (tx_bd_base ql.1) i).
Proof.
  induction js as [|j rest IH]; intros ql ql' E; cbn [init_tx_bds] in E.
  { inversion E; subst. split; [by destruct ql' as [[] ?]|].
    intros i. split; [by intros ?%elem_of_nil|done]. }
  destruct (tx_store_lstatus rq ql j 0) as [ql1|] eqn:E1; [|done].
  cbn [mbind option_bind] in E.
  destruct (tx_store_bufPtr rq ql1 j 0) as [ql2|] eqn:E2; [|done].
  cbn [mbind option_bind] in E.
  apply tx_store_lstatus_inv in E1 as (d1 & Hd1 & ->).
  apply tx_store_bufPtr_inv in E2 as (d2 & Hd2 & ->).
  cbn [fst snd tx_bd_base txq_with_bds] in *.
  apply at_upd_same_inv in Hd2. subst d2.
  destruct (IH _ _ E) as (Hq & Hall). cbn [fst snd tx_bd_base txq_with_bds] in *.
  split; [by rewrite Hq|].
  intros i. destruct (Hall i) as [Hin Hout]. split.
  - intros Hi. destruct (decide (i ∈ rest)) as [Hr|Hr]; [by apply Hin|].
    apply elem_of_cons in Hi as [->|Hi]; [|done].
    rewrite Hout by done. rewrite upd_upd. by eapply at_upd_eq.
  - intros Hi. apply not_elem_of_cons in Hi as [Hne Hr].
    rewrite Hout by done. by rewrite !at_upd_ne by done.
Qed.

Lemma init_tx_queue_ready `{gianfar_h} `{linux} (i : Z) (p p' : gfar_private)
    (q : gfar_priv_tx_q) :
  0 <= TXBD_WRAP < 2 ^ 16 ->
  at_ (tx_queue p) i = Some q -> tx_sized q ->
  init_tx_queue i p = Some p' ->
  rx_queue p' = rx_queue p /\ recycle p' = recycle p /\
  allocator p' = allocator p /\ rx_buffer_size p' = rx_buffer_size p /\
  exists q', tx_queue p' = upd (tx_queue p) i q' /\ tx_ring_ready q' /\
             tx_sized q' /\ tx_skbuff q' = tx_skbuff q.
Proof.
  intros HW Hq [HN Hlen] E. unfold init_tx_queue in E. rewrite Hq in E.
  cbn [mbind option_bind] in E.
  destruct (init_tx_bds _ _ _) as [[q1 lg1]|] eqn:E1; [|done].
  cbn [mbind option_bind] in E.
  apply init_tx_bds_all in E1 as (Hq1 & Hall).
  cbn [fst snd tx_ring_size tx_bd_base txq_with_dirty txq_with_cur] in *.
  assert (Hf : tx_ring_size q1 = tx_ring_size q /\ cur_tx q1 = 0 /\
               dirty_tx q1 = 0 /\ skb_curtx q1 = 0 /\ skb_dirtytx q1 = 0 /\
               num_txbdfree q1 = tx_ring_size q /\
               tx_skbuff q1 = tx_skbuff q) by (by rewrite Hq1).
  destruct Hf as (HN1 & Hc1 & Hd1 & Hsc1 & Hsd1 & Hfree1 & Hsk1).
  clear Hq1. rewrite HN1 in E.
  destruct (0 <? tx_ring_size q) eqn:Hpos; [|lia].
  set (bds := tx_bd_base q1) in *.
  assert (Hin : forall k, 0 <= k < tx_ring_size q ->
                  at_ bds k = Some (mk_bd 0 0)).
  { intros k Hk. apply Hall. apply elem_of_seqZ. lia. }
  rewrite (Hin (tx_ring_size q - 1)) in E by lia.
  cbn [mbind option_bind] in E. inversion E; subst p'. clear E.
  do 4 (split; [done|]).
  eexists. split; [reflexivity|].
  assert (Hlb : Z.of_nat (length bds) = tx_ring_size q).
  { destruct (Z.lt_trichotomy (Z.of_nat (length bds)) (tx_ring_size q))
      as [Hlt|[Heq|Hgt]]; [|done|].
    - pose proof (at_Some_lt _ _ _ (Hin (tx_ring_size q - 1) ltac:(lia))).
      lia.
    - assert (Hnot : tx_ring_size q ∉ seqZ 0 (tx_ring_size q)).
      { rewrite elem_of_seqZ. lia. }
      pose proof (proj2 (Hall (tx_ring_size q)) Hnot) as Hsame.
      assert (Hsome : is_Some (at_ bds (tx_ring_size q))).
      { unfold at_. destruct (decide _); [|lia].
        apply lookup_lt_is_Some. lia. }
      rewrite Hsame in Hsome. destruct Hsome as [x Hx].
      apply at_Some_lt in Hx. lia. }
  split; [|split; [|done]].
  - unfold tx_ring_ready.
    cbn [cur_tx dirty_tx skb_curtx skb_dirtytx num_txbdfree tx_ring_size
         tx_bd_base txq_with_bds txq_with_dirty txq_with_cur].
    rewrite HN1. do 5 (split; [done|]). intros k Hk.
    destruct (Z.eqb_spec k (tx_ring_size q - 1)) as [->|Hne].
    + rewrite (at_upd_eq _ _ _ _ (Hin (tx_ring_size q - 1) ltac:(lia))).
      f_equal.
      unfold set_status, bd_status, bd_length, BD_LFLAG, BD_LENGTH_MASK.
      cbn [lstatus bufPtr]. rewrite Z.shiftr_0_l, Z.land_0_l, Z.lor_0_r.
      rewrite Z.lor_0_l. change 65535 with (Z.ones 16).
      rewrite Z.land_ones, Z.mod_small by lia. done.
    + rewrite at_upd_ne by done. by apply Hin.
  - split; [cbn [tx_ring_size txq_with_bds]; lia|].
    cbn [tx_ring_size tx_bd_base txq_with_bds].
    rewrite length_upd. lia.
Qed.

Lemma init_tx_queues_ready `{gianfar_h} `{linux} (is_ : list Z) :
  0 <= TXBD_WRAP < 2 ^ 16 ->
  forall p p', Forall tx_sized (tx_queue p) ->
  init_tx_queues is_ p = Some p' ->
  rx_queue p' = rx_queue p /\ recycle p' = recycle p /\
  allocator p' = allocator p /\ rx_buffer_size p' = rx_buffer_size p /\
  length (tx_queue p') = length (tx_queue p) /\
  forall k q', at_ (tx_queue p') k = Some q' ->
    (tx_ring_ready q' /\
     exists q, at_ (tx_queue p) k = Some q /\ tx_skbuff q' = tx_skbuff q) \/
    ((k ∉ is_) /\ at_ (tx_queue p) k = Some q').
Proof.
  intros HW.
  induction is_ as [|i rest IH]; intros p p' Hs E; cbn [init_tx_queues] in E.
  { inversion E; subst. do 5 (split; [done|]). intros k q' Hk.
    right. split; [apply not_elem_of_nil|done]. }
  destruct (init_tx_queue i p) as [p1|] eqn:E1; [|done].
  cbn [mbind option_bind] in E.
  assert (Hq : exists q, at_ (tx_queue p) i = Some q).
  { unfold init_tx_queue in E1. destruct (at_ (tx_queue p) i); [|done].
    by eexists. }
  destruct Hq as [q Hq].
  destruct (init_tx_queue_ready _ _ _ _ HW Hq (Forall_at _ _ _ _ Hs Hq) E1)
    as (Hrx1 & Hrc1 & Hal1 & Hsz1 & q1 & Htx1 & Hq1 & Hs1 & Hsk1).
  destruct (IH p1 p') as (Hrx & Hrc & Hal & Hsz & Hlen & Hall); [|done|].
  { rewrite Htx1. by apply Forall_upd. }
  do 4 (split; [congruence|]).
  split; [by rewrite Hlen, Htx1, length_upd|].
  intros k q' Hk. rewrite Htx1 in Hall.
  destruct (Hall k q' Hk) as [[Hok (q0 & Hq0 & Hsk0)]|[Hnot Hold]].
  - left. split; [done|].
    destruct (Z.eq_dec i k) as [->|Hne].
    + apply at_upd_same_inv in Hq0. subst q0. exists q. split; [done|].
      congruence.
    + rewrite at_upd_ne in Hq0 by done. by exists q0.
  - destruct (Z.eq_dec i k) as [->|Hne].
    + left. apply at_upd_same_inv in Hold. subst q'. split; [done|].
      by exists q.
    + right. rewrite at_upd_ne in Hold by done. split; [|done].
      rewrite not_elem_of_cons. split; [congruence|done].
Qed.

(** What one descriptor and its slot look like once the loop of
    [gfar_init_bds] has passed them. *)
Lemma init_rx_bds_ready `{gianfar_h} `{linux} (cpu i : Z) (js : list Z) :
  NoDup js ->
  forall p p' q, at_ (rx_queue p) i = Some q ->
  init_rx_bds cpu i js p = Some (inr p') ->
  tx_queue p' = tx_queue p /\ rx_buffer_size p' = rx_buffer_size p /\
  exists q', rx_queue p' = upd (rx_queue p) i q' /\
    rx_ring_size q' = rx_ring_size q /\
    cur_rx q' = cur_rx q /\ skb_currx q' = skb_currx q /\
    forall k,
      (k ∈ js ->
       exists d s,
         at_ (rx_bd_base q') k = Some d /\
         at_ (rx_skbuff q') k = Some (Some s) /\
         lstatus d = rx_armed q k /\
         match at_ (rx_skbuff q) k, at_ (rx_bd_base q) k with
         | Some (Some s0), Some d0 => s = s0 /\ bufPtr d = bufPtr d0
         | _, _ => bufPtr d = dma_map_single (data s) (rx_buffer_size p)
         end) /\
      (k ∉ js ->
       at_ (rx_bd_base q') k = at_ (rx_bd_base q) k /\
       at_ (rx_skbuff q') k = at_ (rx_skbuff q) k).
Proof.
  induction js as [|j rest IH]; intros Hnd p p' q Hq E; cbn [init_rx_bds] in E.
  { inversion E; subst. do 2 (split; [done|]). exists q.
    split; [by rewrite upd_id|]. do 3 (split; [done|]).
    intros k. split; [by intros ?%elem_of_nil|done]. }
  apply NoDup_cons in Hnd as [Hj Hnd].
  rewrite Hq in E. cbn [mbind option_bind] in E.
  destruct (at_ (rx_skbuff q) j) as [oskb|] eqn:Hsk; [|done].
  cbn [mbind option_bind] in E.
  assert (Hstep : exists p1 q1 buf s,
            init_rx_bds cpu i rest p1 = Some (inr p') /\
            tx_queue p1 = tx_queue p /\
            rx_buffer_size p1 = rx_buffer_size p /\
            rx_queue p1 = upd (rx_queue p) i q1 /\
            rx_ring_size q1 = rx_ring_size q /\
            cur_rx q1 = cur_rx q /\ skb_currx q1 = skb_currx q /\
            rx_bd_base q1
              = upd (rx_bd_base q) j (mk_bd (rx_armed q j) buf) /\
            rx_skbuff q1 = upd (rx_skbuff q) j (Some s) /\
            is_Some (at_ (rx_bd_base q) j) /\
            match oskb, at_ (rx_bd_base q) j with
            | Some s0, Some d0 => s = s0 /\ buf = bufPtr d0
            | _, _ => buf = dma_map_single (data s) (rx_buffer_size p)
            end).
  { destruct oskb as [s|].
    - destruct (at_ (rx_bd_base q) j) as [d|] eqn:Hd; [|done].
      cbn [mbind option_bind] in E.
      destruct (gfar_init_rxbdp _ _ _ _) as [[q1 lg1]|] eqn:E1; [|done].
      cbn [mbind option_bind] in E.
      apply gfar_init_rxbdp_inv in E1. subst q1.
      eexists _, _, _, s. split; [exact E|].
      cbn [tx_queue rx_queue rx_buffer_size with_log with_rxq with_rx_queue
           rx_ring_size cur_rx skb_currx rx_bd_base rx_skbuff rxq_with_bds].
      do 7 (split; [done|]). split; [by rewrite (upd_id _ _ _ Hsk)|].
      split; [by eexists|done].
    - destruct (gfar_new_skb cpu p) as [[o p0]|] eqn:Hnew; [|done].
      cbn [mbind option_bind] in E. destruct o as [skb|]; [|done].
      apply pool_step_new_skb in Hnew as (Ht0 & Hr0 & Hsz0 & _).
      rewrite Hr0, Hq in E. cbn [mbind option_bind] in E.
      rewrite Hsk in E. cbn [mbind option_bind] in E.
      destruct (gfar_new_rxbdp _ _ _ _ _) as [[q1 lg1]|] eqn:E1; [|done].
      cbn [mbind option_bind] in E. unfold gfar_new_rxbdp in E1.
      assert (Hd : is_Some (at_ (rx_bd_base q) j)).
      { unfold gfar_init_rxbdp in E1.
        cbn [rx_bd_base rxq_with_cur] in E1.
        destruct (at_ (rx_bd_base q) j); [by eexists|done]. }
      apply gfar_init_rxbdp_inv in E1. subst q1.
      eexists _, _, _, skb. split; [exact E|].
      cbn [tx_queue rx_queue rx_buffer_size with_log with_rxq with_rx_queue
           rx_ring_size cur_rx skb_currx rx_bd_base rx_skbuff rxq_with_bds
           rxq_with_cur].
      rewrite Ht0, Hr0, Hsz0. do 9 (split; [done|]).
      by destruct (at_ (rx_bd_base q) j). }
  destruct Hstep as (p1 & q1 & buf & s & E1 & Ht1 & Hsz1 & Hr1 & HN1 & Hc1
                     & Hsc1 & Hb1 & Hs1 & [d0 Hd0] & Hrel).
  destruct (IH Hnd p1 p' q1) as (Ht & Hsz & q' & Hr & HN & Hc & Hsc & Hall);
    [|done|].
  { rewrite Hr1. by eapply at_upd_eq. }
  do 2 (split; [congruence|]). exists q'.
  split; [by rewrite Hr, Hr1, upd_upd|]. do 3 (split; [congruence|]).
  intros k. destruct (Hall k) as [Hin Hout]. split.
  - intros Hk. destruct (Z.eq_dec k j) as [->|Hne].
    + destruct (Hout Hj) as [Hb Hs]. rewrite Hb, Hs, Hb1, Hs1.
      rewrite (at_upd_eq _ _ _ _ Hd0), (at_upd_eq _ _ _ _ Hsk).
      eexists _, s. do 2 (split; [reflexivity|]). split; [done|].
      rewrite Hsk, Hd0. cbn [bufPtr]. rewrite Hd0 in Hrel. by destruct oskb.
    + apply elem_of_cons in Hk as [?|Hk]; [done|].
      destruct (Hin Hk) as (d & s' & Hd & Hs & Hl & Hm).
      exists d, s'. do 2 (split; [done|]).
      split; [by rewrite Hl; unfold rx_armed; rewrite HN1|].
      rewrite Hb1, Hs1, !at_upd_ne, Hsz1 in Hm by done. done.
  - intros Hk. apply not_elem_of_cons in Hk as [Hne Hk].
    destruct (Hout Hk) as [Hb Hs].
    rewrite Hb, Hs, Hb1, Hs1, !at_upd_ne by done. done.
Qed.

Lemma init_rx_queues_ready `{gianfar_h} `{linux} (cpu : Z) (is_ : list Z) :
  NoDup is_ ->
  forall p p',
  init_rx_queues cpu is_ p = Some (inr p') ->
  tx_queue p' = tx_queue p /\ rx_buffer_size p' = rx_buffer_size p /\
  length (rx_queue p') = length (rx_queue p) /\
  forall k q', at_ (rx_queue p') k = Some q' ->
    (k ∈ is_ /\
     exists q0, at_ (rx_queue p) k = Some q0 /\
                rx_ring_ready (rx_buffer_size p) q0 q') \/
    ((k ∉ is_) /\ at_ (rx_queue p) k = Some q').
Proof.
  induction is_ as [|i rest IH]; intros Hnd p p' E; cbn [init_rx_queues] in E.
  { inversion E; subst. do 3 (split; [done|]). intros k q' Hk.
    right. split; [apply not_elem_of_nil|done]. }
  apply NoDup_cons in Hnd as [Hi Hnd].
  destruct (at_ (rx_queue p) i) as [q|] eqn:Hq; [|done].
  cbn [mbind option_bind] in E.
  destruct (init_rx_bds _ _ _ _) as [[pl|p1]|] eqn:E1; [done| |done].
  cbn [mbind option_bind] in E.
  eapply init_rx_bds_ready in E1;
    [|apply NoDup_seqZ|cbn; by eapply at_upd_eq].
  destruct E1 as (Ht1 & Hsz1 & q1 & Hr1 & HN1 & Hc1 & Hsc1 & Hall1).
  cbn [tx_queue rx_queue rx_buffer_size with_rxq with_rx_queue rx_ring_size
       cur_rx skb_currx rx_skbuff rx_bd_base rxq_with_cur] in *.
  rewrite upd_upd in Hr1.
  destruct (IH Hnd p1 p' E) as (Ht & Hsz & Hlen & Hall).
  split; [congruence|]. split; [congruence|].
  split; [by rewrite Hlen, Hr1, length_upd|].
  assert (Hready : rx_ring_ready (rx_buffer_size p) q q1).
  { do 3 (split; [done|]). intros k Hk.
    destruct (proj1 (Hall1 k)) as (d & s & Hd & Hs & Hl & Hm).
    { apply elem_of_seqZ. lia. }
    exists d, s. do 2 (split; [done|]). split; [|done].
    rewrite Hl. unfold rx_armed. cbn [rx_ring_size]. by rewrite HN1. }
  intros k q' Hk. rewrite Hr1, Hsz1 in Hall.
  destruct (Hall k q' Hk) as [[Hin (q0 & Hq0 & Hok)]|[Hnot Hold]].
  - left. split; [by right|].
    assert (Hne : i <> k) by (by intros ->).
    rewrite at_upd_ne in Hq0 by done. by exists q0.
  - destruct (Z.eq_dec i k) as [->|Hne].
    + left. split; [by left|]. apply at_upd_same_inv in Hold. subst q'.
      by exists q.
    + right. rewrite at_upd_ne in Hold by done. split; [|done].
      rewrite not_elem_of_cons. split; [congruence|done].
Qed.

(** X13.  What a successful [gfar_init_bds] leaves behind.  Every
    transmit ring has its indices at descriptor 0, all its descriptors
    free and zero but for WRAP on the last, and the [tx_skbuff] it had.
    Every receive ring has its indices at descriptor 0 and a buffer in
    every slot, with the descriptor armed EMPTY and INTERRUPT (and WRAP on
    the last); a slot that held a buffer keeps it and its pointer, an
    empty slot gets a new buffer and the descriptor points at its
    data. *)
Theorem gfar_init_bds_ready `{gianfar_h} `{linux} (cpu : Z)
    (d d' : gfar_device) :
  0 <= TXBD_WRAP < 2 ^ 16 ->
  Forall tx_sized (tx_queue (priv d)) ->
  gfar_init_bds cpu d = Some (true, d') ->
  length (tx_queue (priv d')) = length (tx_queue (priv d)) /\
  length (rx_queue (priv d')) = length (rx_queue (priv d)) /\
  (forall i q, at_ (tx_queue (priv d')) i = Some q ->
     tx_ring_ready q /\
     exists q0, at_ (tx_queue (priv d)) i = Some q0 /\
                tx_skbuff q = tx_skbuff q0) /\
  (forall i q, at_ (rx_queue (priv d')) i = Some q ->
     exists q0, at_ (rx_queue (priv d)) i = Some q0 /\
                rx_ring_ready (rx_buffer_size (priv d)) q0 q).
Proof.
  intros HW Hs E. unfold gfar_init_bds in E.
  destruct (init_rings cpu (priv d)) as [[pl|p]|] eqn:Ei;
    cbn [mbind option_bind] in E; [|inversion E; subst d'; clear E|done].
  { destruct (free_skb_resources _); cbn in E; [|done]. by inversion E. }
  cbn [priv dev_with_priv]. unfold init_rings in Ei.
  destruct (init_tx_queues _ (priv d)) as [p1|] eqn:E1; [|done].
  cbn [mbind option_bind] in Ei.
  apply init_tx_queues_ready in E1 as (Hrx1 & _ & _ & Hsz1 & Hlen1 & Hall1);
    [|done..].
  apply init_rx_queues_ready in Ei as (Ht & Hsz & Hlen & Hall);
    [|apply NoDup_seqZ].
  rewrite Ht, Hlen, Hlen1, Hrx1. do 2 (split; [done|]). split.
  - intros i q Hq. destruct (Hall1 i q Hq) as [?|[Hnot Hold]]; [done|].
    exfalso. apply Hnot. apply elem_of_seqZ. apply at_Some_lt in Hold. lia.
  - intros i q Hq. rewrite Hrx1, Hsz1 in Hall.
    destruct (Hall i q Hq) as [[_ ?]|[Hnot Hold]]; [done|].
    exfalso. apply Hnot. apply elem_of_seqZ. apply at_Some_lt in Hold. lia.
Qed.

Lemma gfar_init_bds_ready_witness :
  let d := fresh_device 4 (map (fun a => Some (rx_buffer a))
                               [4096; 8192; 12288; 16384])
                        [(0x02000100, 0x02000100, 0)] in
  length (tx_queue (priv running4)) = length (tx_queue (priv d)) /\
  length (rx_queue (priv running4)) = length (rx_queue (priv d)) /\
  (forall i q, at_ (tx_queue (priv running4)) i = Some q ->
     @tx_ring_ready etsec q /\
     exists q0, at_ (tx_queue (priv d)) i = Some q0 /\
                tx_skbuff q = tx_skbuff q0) /\
  (forall i q, at_ (rx_queue (priv running4)) i = Some q ->
     exists q0, at_ (rx_queue (priv d)) i = Some q0 /\
                @rx_ring_ready etsec linux_model
                  (rx_buffer_size (priv d)) q0 q).
Proof.
  apply (@gfar_init_bds_ready etsec linux_model 0
           (fresh_device 4 (map (fun a => Some (rx_buffer a))
                                [4096; 8192; 12288; 16384])
                         [(0x02000100, 0x02000100, 0)]) running4).
  - vm_compute; split; [discriminate|reflexivity].
  - repeat constructor.
  - vm_compute; reflexivity.
Defined.

(** ** Receive rings that own a buffer in every slot *)

Lemma rx_queue_process_frame `{gianfar_h} `{linux} (p : gfar_private)
    (s : sk_buff) (n : Z) :
  rx_queue (gfar_process_frame p s n) = rx_queue p.
Proof.
  unfold gfar_process_frame. cbv zeta.
  by destruct (netif_receive_skb_drops _).
Qed.

Lemma rx_filled_with_rxq (p : gfar_private) (rq : Z) (q : gfar_priv_rx_q) :
  rx_filled p -> Forall (fun o : option sk_buff => o <> None) (rx_skbuff q) ->
  rx_filled (with_rxq p rq q).
Proof. intros Hp Hq. unfold rx_filled. cbn. by apply Forall_upd. Qed.

Lemma rx_filled_ext (p p' : gfar_private) :
  rx_queue p' = rx_queue p -> rx_filled p -> rx_filled p'.
Proof. unfold rx_filled. by intros ->. Qed.

Lemma clean_rx_step_filled `{gianfar_h} `{linux} (cpu rq : Z)
    (p p' : gfar_private) (bdp bdp' h h' : Z) :
  rx_filled p ->
  clean_rx_step cpu rq p bdp h = Some (bdp', h', p') ->
  rx_filled p'.
Proof.
  intros Hf E. unfold clean_rx_step in E. cbv zeta in E.
  destruct (gfar_new_skb cpu p) as [[o p0]|] eqn:Hnew; [|done].
  apply pool_step_new_skb in Hnew as (_ & Hr0 & _).
  cbn [mbind option_bind] in E.
  destruct (at_ (rx_queue p0) rq) as [q|] eqn:Hq; [|done].
  cbn [mbind option_bind] in E.
  assert (Hfq : Forall (fun o : option sk_buff => o <> None) (rx_skbuff q)).
  { rewrite Hr0 in Hq. by eapply (Forall_at _ _ _ _ Hf). }
  destruct (at_ (rx_skbuff q) (skb_currx q)) as [skb|] eqn:Hsk; [|done].
  cbn [mbind option_bind] in E.
  assert (Hskb : skb <> None) by (by eapply (Forall_at _ _ _ _ Hfq)).
  destruct skb as [s|]; [clear Hskb|done].
  assert (Hf0 : rx_filled p0) by (by eapply rx_filled_ext).
  clear Hf Hr0 Hq.
  split_hyps;
    repeat match goal with
           | E : gfar_free_skb _ _ _ = Some _ |- _ =>
               apply pool_step_free_skb in E; destruct E as (_ & E & _)
           | E : gfar_new_rxbdp _ _ _ _ _ = Some _ |- _ =>
               unfold gfar_new_rxbdp in E; apply gfar_init_rxbdp_inv in E;
               subst
           end;
    unfold rx_filled;
    cbn [rx_queue with_log with_rxq with_rx_queue emit];
    (apply Forall_upd;
     [ cbn; rewrite ?rx_queue_process_frame; cbn;
       repeat match goal with
              | E : rx_queue _ = _ |- _ => rewrite E; clear E; cbn
              end;
       exact Hf0
     | cbn [rx_skbuff rxq_with_cur rxq_with_bds rxq_with_counts];
       apply Forall_upd; [exact Hfq|done] ]).
Qed.

Lemma clean_rx_loop_filled `{gianfar_h} `{linux} (n : nat) :
  forall (cpu rq : Z) (p p' : gfar_private) (bdp bdp' h h' : Z),
  rx_filled p ->
  clean_rx_loop n cpu rq p bdp h = Some (bdp', h', p') ->
  rx_filled p'.
Proof.
  induction n as [|n IH]; intros cpu rq p p' bdp bdp' h h' Hf E.
  - cbn in E. split_hyps; done.
  - cbn [clean_rx_loop] in E.
    destruct (at_ (rx_queue p) rq) as [q|]; [|done].
    cbn [mbind option_bind] in E.
    destruct (at_ (rx_bd_base q) bdp) as [d|]; [|done].
    cbn [mbind option_bind] in E.
    destruct (tst (bd_status d) RXBD_EMPTY); [by inversion E; subst|].
    destruct (clean_rx_step cpu rq p bdp h) as [[[b1 h1] p1]|] eqn:Es;
      [|done].
    cbn [mbind option_bind] in E.
    eapply IH; [|exact E]. by eapply clean_rx_step_filled.
Qed.

(** X14.  The receive cleanup never leaves a slot of a receive ring
    without a buffer: when every slot of every receive ring holds a
    buffer, every slot holds one after [gfar_clean_rx_ring], whether or
    not replacement buffers could be had. *)
Theorem gfar_clean_rx_ring_filled `{gianfar_h} `{linux} (cpu rq : Z)
    (p p' : gfar_private) (rx_work_limit howmany : Z) :
  rx_filled p ->
  gfar_clean_rx_ring cpu rq p rx_work_limit = Some (howmany, p') ->
  rx_filled p'.
Proof.
  unfold gfar_clean_rx_ring. intros Hf E.
  destruct (at_ (rx_queue p) rq) as [q|]; [|done].
  cbn [mbind option_bind] in E.
  destruct (clean_rx_loop _ cpu rq p (cur_rx q) 0) as [[[b1 h1] p1]|] eqn:El;
    [|done].
  cbn [mbind option_bind] in E.
  apply clean_rx_loop_filled in El; [|done].
  destruct (at_ (rx_queue p1) rq) as [q1|] eqn:Hq1; [|done].
  cbn [mbind option_bind] in E. inversion E; subst.
  apply rx_filled_with_rxq; [done|]. cbn.
  by eapply (Forall_at _ _ _ _ El).
Qed.

Lemma gfar_clean_rx_ring_filled_witness : rx_filled ring4_rx_cleaned.
Proof.
  apply (@gfar_clean_rx_ring_filled etsec linux_model 0 0 ring4_received_all
           ring4_rx_cleaned 4 4).
  - unfold rx_filled.
    let x := eval vm_compute in (rx_queue ring4_received_all) in
    replace (rx_queue ring4_received_all) with x by (vm_compute; reflexivity).
    repeat constructor; discriminate.
  - vm_compute; reflexivity.
Defined.

(** ** Teardown of a device that is up *)

Lemma frees_refl (d : gfar_device) : frees [] d d.
Proof.
  repeat split. cbn. by rewrite difference_empty_L.
Qed.

Lemma frees_trans (S1 S2 : list Z) (d1 d2 d3 : gfar_device) :
  frees S1 d1 d2 -> frees S2 d2 d3 -> frees (S1 ++ S2) d1 d3.
Proof.
  intros (?&?&?&?&Hl1&?&?) (?&?&?&?&Hl2&?&?).
  repeat split; try congruence.
  by rewrite Hl2, Hl1, list_to_set_app_L, difference_difference_l_L.
Qed.

Lemma touch_live (d : gfar_device) (a : Z) : a ∈ live d -> touch d a = d.
Proof. intros Ha. unfold touch. by destruct (decide _). Qed.

Lemma frees_kfree (d : gfar_device) (a : Z) :
  a <> 0 -> a ∈ live d -> frees [a] d (kfree d a).
Proof.
  intros Hz Ha. unfold kfree. apply Z.eqb_neq in Hz. rewrite Hz.
  destruct (decide _); [|done]. repeat split. cbn.
  by rewrite union_empty_r_L.
Qed.

Lemma frees_with_priv (d : gfar_device) (p : gfar_private) :
  length (tx_queue p) = length (tx_queue (priv d)) ->
  length (rx_queue p) = length (rx_queue (priv d)) ->
  frees [] d (dev_with_priv d p).
Proof.
  intros Ht Hr. repeat split; try done. cbn. by rewrite difference_empty_L.
Qed.

Lemma frees_live (S : list Z) (d d' : gfar_device) (a : Z) :
  frees S d d' -> a ∈ live d -> a ∉ S -> a ∈ live d'.
Proof.
  intros (_&_&_&_&Hl&_) Ha Hn. rewrite Hl.
  apply elem_of_difference. split; [done|]. by rewrite elem_of_list_to_set.
Qed.

Lemma frees_halt `{gianfar_h} (d d' : gfar_device) :
  gfar_halt d = Some d' -> frees [] d d'.
Proof.
  unfold gfar_halt, gfar_halt_nodisable. intros E. cbv zeta in E.
  destruct (negb _); cbn [mbind option_bind] in E.
  - destruct (wait_graceful_stop _ _) as [rest|]; [|done]. cbn in E.
    inversion E. repeat split. cbn. by rewrite difference_empty_L.
  - inversion E. repeat split. cbn. by rewrite difference_empty_L.
Qed.

Lemma free_tx_slots_safe `{gianfar_h} (i a : Z) (ks : list Z) :
  forall (txbdp : Z) (d d' : gfar_device),
  a ∈ live d -> tx_bd_base_p d ∈ live d ->
  free_tx_slots i a ks txbdp d = Some d' -> frees [] d d'.
Proof.
  induction ks as [|k ks IH]; intros txbdp d d' Ha Hb E; cbn in E.
  { inversion E. apply frees_refl. }
  rewrite (touch_live d a Ha) in E.
  destruct (at_ (tx_queue (priv d)) i) as [q|]; [|done]. cbn in E.
  destruct (at_ (tx_skbuff q) k) as [[skb|]|]; [| |done]; cbn in E.
  - rewrite (touch_live d _ Hb) in E.
    destruct (at_ (tx_bd_base q) txbdp) as [bdv|]; [|done]. cbn in E.
    destruct (skip_frag_bds _ _ _) as [t|]; [|done]. cbn in E.
    apply IH in E; [|done..].
    eapply (frees_trans [] []); [|exact E].
    apply frees_with_priv; [cbn; apply length_upd|done].
  - by apply IH in E.
Qed.

Lemma free_rx_slots_safe `{gianfar_h} (i a : Z) (ks : list Z) :
  forall (d d' : gfar_device),
  a ∈ live d -> tx_bd_base_p d ∈ live d ->
  free_rx_slots i a ks d = Some d' -> frees [] d d'.
Proof.
  induction ks as [|k ks IH]; intros d d' Ha Hb E; cbn in E.
  { inversion E. apply frees_refl. }
  rewrite (touch_live d a Ha) in E.
  destruct (at_ (rx_queue (priv d)) i) as [q|]; [|done]. cbn in E.
  destruct (at_ (rx_skbuff q) k) as [oskb|]; [|done]. cbn in E.
  rewrite (touch_live d _ Hb) in E.
  destruct oskb as [skb|]; cbn in E;
    (destruct (at_ _ k) as [x|]; [|done]); cbn in E;
    (apply IH in E; [|done..]);
    (eapply (frees_trans [] []); [|exact E]);
    (apply frees_with_priv; [done|cbn; apply length_upd]).
Qed.

(** The loop of [free_skb_resources] over the transmit queues [is_],
    whose [tx_skbuff] arrays are the allocations [as_]. *)
Lemma free_tx_queues_safe `{gianfar_h} (is_ : list Z) :
  forall (as_ : list Z) (d d' : gfar_device),
  Forall2 (fun i a => at_ (tx_skbuff_p d) i = Some a) is_ as_ ->
  NoDup as_ -> Forall (fun a => a <> 0 /\ a ∈ live d) as_ ->
  tx_bd_base_p d ∈ live d -> tx_bd_base_p d ∉ as_ ->
  free_tx_queues is_ d = Some d' -> frees as_ d d'.
Proof.
  induction is_ as [|i is_ IH]; intros as_ d d' H2 Hnd Hall Hb Hbn E.
  { apply Forall2_nil_inv_l in H2. subst as_. cbn in E. inversion E.
    apply frees_refl. }
  apply Forall2_cons_inv_l in H2 as (a & as' & Ha & H2 & ->).
  apply NoDup_cons in Hnd as [Hna Hnd].
  apply Forall_cons in Hall as [[Hz Hlive] Hall].
  apply not_elem_of_cons in Hbn as [Hba Hbn].
  cbn [free_tx_queues] in E. rewrite Ha in E. cbn [mbind option_bind] in E.
  apply Z.eqb_neq in Hz as Hz'. rewrite Hz' in E. cbn [negb] in E.
  destruct (free_skb_tx_queue i d) as [d1|] eqn:E1; [|done].
  cbn [mbind option_bind] in E.
  assert (Hf1 : frees [a] d d1).
  { unfold free_skb_tx_queue in E1.
    destruct (at_ (tx_queue (priv d)) i) as [q|]; [|done]. cbn in E1.
    rewrite Ha in E1. cbn in E1.
    destruct (free_tx_slots _ _ _ _ _) as [d0|] eqn:E0; [|done]. cbn in E1.
    inversion E1; subst d1. apply free_tx_slots_safe in E0; [|done..].
    apply (frees_trans [] [a] _ _ _ E0). apply frees_kfree; [done|].
    apply (frees_live [] d d0); [done|done|apply not_elem_of_nil]. }
  apply (frees_trans [a] as' _ _ _ Hf1).
  destruct Hf1 as (Hb1 & Ht1 & Hr1 & Hfl1 & Hl1 & _).
  assert (Hkeep : forall x, x ∈ live d -> x <> a -> x ∈ live d1).
  { intros x Hx Hne. rewrite Hl1. apply elem_of_difference. split; [done|].
    rewrite elem_of_list_to_set, list_elem_of_singleton. done. }
  apply IH; try done.
  - by rewrite Ht1.
  - apply Forall_forall. intros x Hx.
    destruct (proj1 (Forall_forall _ _) Hall x Hx) as [Hx0 Hxl].
    split; [done|]. apply Hkeep; [done|]. intros ->. by apply Hna.
  - rewrite Hb1. by apply Hkeep.
  - by rewrite Hb1.
Qed.

Lemma free_rx_queues_safe `{gianfar_h} (is_ : list Z) :
  forall (as_ : list Z) (d d' : gfar_device),
  Forall2 (fun i a => at_ (rx_skbuff_p d) i = Some a) is_ as_ ->
  NoDup as_ -> Forall (fun a => a <> 0 /\ a ∈ live d) as_ ->
  tx_bd_base_p d ∈ live d -> tx_bd_base_p d ∉ as_ ->
  free_rx_queues is_ d = Some d' -> frees as_ d d'.
Proof.
  induction is_ as [|i is_ IH]; intros as_ d d' H2 Hnd Hall Hb Hbn E.
  { apply Forall2_nil_inv_l in H2. subst as_. cbn in E. inversion E.
    apply frees_refl. }
  apply Forall2_cons_inv_l in H2 as (a & as' & Ha & H2 & ->).
  apply NoDup_cons in Hnd as [Hna Hnd].
  apply Forall_cons in Hall as [[Hz Hlive] Hall].
  apply not_elem_of_cons in Hbn as [Hba Hbn].
  cbn [free_rx_queues] in E. rewrite Ha in E. cbn [mbind option_bind] in E.
  apply Z.eqb_neq in Hz as Hz'. rewrite Hz' in E. cbn [negb] in E.
  destruct (free_skb_rx_queue i d) as [d1|] eqn:E1; [|done].
  cbn [mbind option_bind] in E.
  assert (Hf1 : frees [a] d d1).
  { unfold free_skb_rx_queue in E1.
    destruct (at_ (rx_queue (priv d)) i) as [q|]; [|done]. cbn in E1.
    rewrite Ha in E1. cbn in E1.
    destruct (free_rx_slots _ _ _ _) as [d0|] eqn:E0; [|done]. cbn in E1.
    inversion E1; subst d1. apply free_rx_slots_safe in E0; [|done..].
    apply (frees_trans [] [a] _ _ _ E0). apply frees_kfree; [done|].
    apply (frees_live [] d d0); [done|done|apply not_elem_of_nil]. }
  apply (frees_trans [a] as' _ _ _ Hf1).
  destruct Hf1 as (Hb1 & Ht1 & Hr1 & Hfl1 & Hl1 & _).
  assert (Hkeep : forall x, x ∈ live d -> x <> a -> x ∈ live d1).
  { intros x Hx Hne. rewrite Hl1. apply elem_of_difference. split; [done|].
    rewrite elem_of_list_to_set, list_elem_of_singleton. done. }
  apply IH; try done.
  - by rewrite Hr1.
  - apply Forall_forall. intros x Hx.
    destruct (proj1 (Forall_forall _ _) Hall x Hx) as [Hx0 Hxl].
    split; [done|]. apply Hkeep; [done|]. intros ->. by apply Hna.
  - rewrite Hb1. by apply Hkeep.
  - by rewrite Hb1.
Qed.

Lemma at_seqZ_all {A} (l : list A) :
  Forall2 (fun i a => at_ l i = Some a) (seqZ 0 (Z.of_nat (length l))) l.
Proof.
  apply Forall2_same_length_lookup_2.
  - by rewrite length_seqZ, Nat2Z.id.
  - intros k i a Hi Ha. apply lookup_seqZ in Hi as [-> Hk].
    unfold at_. destruct (decide _); [|lia].
    by rewrite Z.add_0_l, Nat2Z.id.
Qed.

(** X15.  The teardown of a device that is up is clean.  When the
    [tx_skbuff] and [rx_skbuff] arrays of the queues and the descriptor
    memory are distinct allocations that have not been given back,
    [stop_gfar] touches no memory that has been given back and gives
    nothing back twice, and when it returns exactly these allocations
    have been given back. *)
Theorem stop_gfar_frees_once `{gianfar_h} (d d' : gfar_device) :
  mem_ok d ->
  stop_gfar d = Some d' ->
  faults d' = faults d /\
  live d' = live d ∖ list_to_set
                       (tx_skbuff_p d ++ rx_skbuff_p d ++ [tx_bd_base_p d]).
Proof.
  intros (Hnd & Hall & Hlt & Hlr) E.
  unfold stop_gfar, free_skb_resources, gfar_free_bds in E.
  destruct (gfar_halt d) as [d1|] eqn:E1; [|done].
  cbn [mbind option_bind] in E.
  destruct (free_tx_queues _ d1) as [d2|] eqn:E2; [|done].
  cbn [mbind option_bind] in E.
  destruct (free_rx_queues _ d2) as [d3|] eqn:E3; [|done].
  cbn [mbind option_bind] in E.
  destruct (at_ _ 0); [|done]. cbn [mbind option_bind] in E.
  inversion E; subst d'. clear E.
  apply frees_halt in E1.
  pose proof E1 as (Hb1 & Ht1 & Hr1 & Hf1 & Hl1 & Hlt1 & Hlr1).
  cbn in Hl1. rewrite difference_empty_L in Hl1.
  apply NoDup_app in Hnd as (Hndt & Hdis1 & Hnd').
  apply NoDup_app in Hnd' as (Hndr & Hdis2 & _).
  apply Forall_app in Hall as [Hallt Hall'].
  apply Forall_app in Hall' as [Hallr Hallb].
  apply Forall_singleton in Hallb as [Hbz Hbl].
  assert (Hbt : tx_bd_base_p d ∉ tx_skbuff_p d).
  { intros Hin. apply (Hdis1 _ Hin). apply elem_of_app. right.
    by apply list_elem_of_singleton. }
  assert (Hbr : tx_bd_base_p d ∉ rx_skbuff_p d).
  { intros Hin. apply (Hdis2 _ Hin). by apply list_elem_of_singleton. }
  apply (free_tx_queues_safe _ (tx_skbuff_p d)) in E2.
  2: { rewrite Hlt1, <- Hlt, <- Ht1. apply at_seqZ_all. }
  2: done.
  2: { by rewrite Hl1. }
  2: { by rewrite Hb1, Hl1. }
  2: { by rewrite Hb1. }
  pose proof E2 as (Hb2 & Ht2 & Hr2 & Hf2 & Hl2 & Hlt2 & Hlr2).
  assert (Hkeep : forall x, x ∈ live d -> x ∉ tx_skbuff_p d -> x ∈ live d2).
  { intros x Hx Hn. rewrite Hl2, Hl1. apply elem_of_difference.
    split; [done|]. by rewrite elem_of_list_to_set. }
  apply (free_rx_queues_safe _ (rx_skbuff_p d)) in E3.
  2: { rewrite Hlr2, Hlr1, <- Hlr, <- Hr1, <- Hr2. apply at_seqZ_all. }
  2: done.
  2: { apply Forall_forall. intros x Hx.
       destruct (proj1 (Forall_forall _ _) Hallr x Hx) as [Hx0 Hxl].
       split; [done|]. apply Hkeep; [done|].
       intros Hin. apply (Hdis1 _ Hin). apply elem_of_app. by left. }
  2: { rewrite Hb2, Hb1. by apply Hkeep. }
  2: { by rewrite Hb2, Hb1. }
  pose proof E3 as (Hb3 & Ht3 & Hr3 & Hf3 & Hl3 & Hlt3 & Hlr3).
  assert (Hfb : frees [tx_bd_base_p d] d3 (kfree d3 (tx_bd_base_p d3))).
  { rewrite Hb3, Hb2, Hb1. apply frees_kfree; [done|].
    apply (frees_live _ _ _ _ E3); [by apply Hkeep|done]. }
  pose proof (frees_trans _ _ _ _ _ E1
                (frees_trans _ _ _ _ _ E2
                   (frees_trans _ _ _ _ _ E3 Hfb)))
    as (_ & _ & _ & Hf & Hl & _).
  split; [exact Hf|exact Hl].
Qed.

Lemma stop_gfar_frees_once_witness :
  faults stopped4 = faults running4 /\
  live stopped4
  = live running4 ∖ list_to_set
                      (tx_skbuff_p running4 ++ rx_skbuff_p running4 ++
                       [tx_bd_base_p running4]).
Proof.
  apply (@stop_gfar_frees_once etsec running4 stopped4).
  - assert (Ht : tx_skbuff_p running4 = [1000]) by (vm_compute; reflexivity).
    assert (Hr : rx_skbuff_p running4 = [2000]) by (vm_compute; reflexivity).
    assert (Hb : tx_bd_base_p running4 = 3000) by (vm_compute; reflexivity).
    assert (Hl : live running4 = {[1000; 2000; 3000]})
      by (vm_compute; reflexivity).
    assert (Hlt : length (tx_queue (priv running4)) = 1%nat)
      by (vm_compute; reflexivity).
    assert (Hlr : length (rx_queue (priv running4)) = 1%nat)
      by (vm_compute; reflexivity).
    unfold mem_ok. cbv zeta. rewrite Ht, Hr, Hb, Hlt, Hlr. cbn [app].
    split; [|split; [|split; reflexivity]].
    + repeat (apply NoDup_cons; split;
               [rewrite ?elem_of_cons, elem_of_nil; lia|]).
      apply NoDup_nil_2.
    + repeat (apply Forall_cons; split;
               [split; [lia|rewrite Hl, !elem_of_union, !elem_of_singleton;
                            lia]|]).
      apply Forall_nil_2.
  - vm_compute; reflexivity.
Defined.

(** ** The accounting of a submission *)

(** The stores to the descriptors change the descriptors of a queue and
    nothing else. *)
Lemma tx_store_lstatus_bds (rq : Z) (q q' : gfar_priv_tx_q)
    (lg lg' : list event) (i v : Z) :
  tx_store_lstatus rq (q, lg) i v = Some (q', lg') ->
  exists X, q' = txq_with_bds q X.
Proof.
  intros E. apply tx_store_lstatus_inv in E as (d & _ & E).
  inversion E. by eexists.
Qed.

Lemma tx_store_bufPtr_bds (rq : Z) (q q' : gfar_priv_tx_q)
    (lg lg' : list event) (i v : Z) :
  tx_store_bufPtr rq (q, lg) i v = Some (q', lg') ->
  exists X, q' = txq_with_bds q X.
Proof.
  intros E. apply tx_store_bufPtr_inv in E as (d & _ & E).
  inversion E. by eexists.
Qed.

Lemma txq_with_bds_id (q : gfar_priv_tx_q) :
  q = txq_with_bds q (tx_bd_base q).
Proof. by destruct q. Qed.

(** The first phase of [xmit_frame]: the descriptors after the first. *)
Lemma xmit_frame_later_bds `{gianfar_h} `{linux} (rq : Z)
    (q q1 : gfar_priv_tx_q) (skb : sk_buff) (ts : bool) (l0 l1 txbdp1 : Z)
    (lg lg1 : list event) :
  0 <= cur_tx q < tx_ring_size q ->
  (if nr_frags skb =? 0 then
     if ts then
       dt ← at_ (tx_bd_base q) (next_txbd (cur_tx q) (tx_ring_size q));
       ql ← tx_store_lstatus rq (q, lg)
              (next_txbd (cur_tx q) (tx_ring_size q))
              (Z.lor (lstatus dt)
                     (BD_LFLAG (Z.lor TXBD_LAST TXBD_INTERRUPT)));
       Some (if ts then next_txbd (cur_tx q) (tx_ring_size q) else cur_tx q,
             l0, ql)
     else
       Some (if ts then next_txbd (cur_tx q) (tx_ring_size q) else cur_tx q,
             Z.lor l0 (BD_LFLAG (Z.lor TXBD_LAST TXBD_INTERRUPT)),
             (q, lg))
   else
     '(txbdp, ql) ← fill_frags rq (frags (shinfo skb))
                      (if ts then next_txbd (cur_tx q) (tx_ring_size q)
                       else cur_tx q) (q, lg);
     d ← at_ (tx_bd_base (fst ql)) (cur_tx q);
     Some (txbdp, lstatus d, ql)) = Some (txbdp1, l1, (q1, lg1)) ->
  (exists X, q1 = txq_with_bds q X) /\
  next_txbd txbdp1 (tx_ring_size q)
  = (cur_tx q + (nr_frags skb + (if ts then 2 else 1))) mod tx_ring_size q.
Proof.
  intros Hc E.
  assert (Hn : 0 <= next_txbd (cur_tx q) (tx_ring_size q) < tx_ring_size q
               /\ next_txbd (cur_tx q) (tx_ring_size q)
                  = (cur_tx q + 1) mod tx_ring_size q).
  { rewrite next_txbd_mod by done. split; [|done].
    apply Z.mod_pos_bound. lia. }
  destruct Hn as [Hn Hne].
  destruct (Z.eqb_spec (nr_frags skb) 0) as [Hz|Hnz].
  - rewrite Hz. destruct ts.
    + destruct (at_ _ _) as [dt|]; [|done]. cbn [mbind option_bind] in E.
      destruct (tx_store_lstatus _ _ _ _) as [[q2 lg2]|] eqn:Es; [|done].
      cbn [mbind option_bind] in E. inversion E; subst.
      split; [by eapply tx_store_lstatus_bds|].
      rewrite next_txbd_mod by done. rewrite Hne, mod_step by lia.
      f_equal.
    + inversion E; subst. split; [eexists; apply txq_with_bds_id|].
      rewrite next_txbd_mod by done. f_equal.
  - destruct (fill_frags _ _ _ _) as [[t [q2 lg2]]|] eqn:Ef; [|done].
    cbn [mbind option_bind fst] in E.
    destruct (at_ (tx_bd_base q2) (cur_tx q)) as [d|]; [|done].
    cbn [mbind option_bind] in E. inversion E; subst.
    apply fill_frags_spec in Ef; [|by destruct ts].
    cbv zeta in Ef. destruct Ef as (Ht & Hq & _).
    split; [by eexists|]. fold (nr_frags skb) in Ht.
    assert (Hr : 0 <= txbdp1 < tx_ring_size q).
    { rewrite Ht. apply Z.mod_pos_bound. lia. }
    rewrite next_txbd_mod by done. rewrite Ht.
    destruct ts.
    + rewrite Hne, Zplus_mod_idemp_l, <- Z.add_assoc, Zplus_mod_idemp_l.
      f_equal. lia.
    + rewrite Zplus_mod_idemp_l. f_equal. lia.
Qed.

(** X16.  The accounting of an accepted frame.  When [gfar_start_xmit]
    queues a frame of [nr_txbds] descriptors, that many descriptors were
    free; the free count falls by [nr_txbds], [cur_tx] moves on by
    [nr_txbds] modulo the ring size and [skb_curtx] by one, the slot at
    the old [skb_curtx] takes the buffer, the packet and byte counters
    of the queue count the frame, and the consumer side is left alone.
    If the frame uses the last free descriptors the queue is stopped and
    [tx_fifo_errors] is incremented, although the frame is accepted. *)
Theorem xmit_frame_accounting `{gianfar_h} `{linux} (p p' : gfar_private)
    (rq : Z) (q : gfar_priv_tx_q) (skb : sk_buff) (ts : bool) :
  let N := tx_ring_size q in
  let nr_txbds := nr_frags skb + (if ts then 2 else 1) in
  at_ (tx_queue p) rq = Some q ->
  0 <= cur_tx q < N ->
  xmit_frame p rq q skb ts = Some (NETDEV_TX_OK, p') ->
  nr_txbds <= num_txbdfree q /\
  exists q' skb',
    at_ (tx_queue p') rq = Some q' /\
    num_txbdfree q' = num_txbdfree q - nr_txbds /\
    cur_tx q' = (cur_tx q + nr_txbds) mod N /\
    skb_curtx q' = Z.land (skb_curtx q + 1) (TX_RING_MOD_MASK N) /\
    tx_skbuff q' = upd (tx_skbuff q) (skb_curtx q) (Some skb') /\
    tx_bytes q' = ulong_add (tx_bytes q) (len skb) /\
    tx_packets q' = ulong_inc (tx_packets q) /\
    dirty_tx q' = dirty_tx q /\ skb_dirtytx q' = skb_dirtytx q /\
    tx_ring_size q' = N /\
    tx_stopped q' = tx_stopped q || (num_txbdfree q - nr_txbds =? 0) /\
    stats p' = (if num_txbdfree q - nr_txbds =? 0
                then inc_tx_fifo_errors (stats p) else stats p).
Proof.
  intros N nr_txbds Hq Hc E. subst N nr_txbds.
  unfold xmit_frame in E. cbv zeta in E.
  destruct (_ >? num_txbdfree q) eqn:Hspace; [by inversion E|].
  rewrite Z.gtb_ltb in Hspace. apply Z.ltb_ge in Hspace.
  split; [by destruct ts|].
  destruct (at_ (tx_bd_base _) (cur_tx _)) as [d|]; [|done].
  cbn [mbind option_bind] in E.
  match type of E with
  | (?X ≫= _) = _ =>
      destruct X as [[[txbdp1 l1] [q1 lg1]]|] eqn:E1; [|done]
  end.
  cbn [mbind option_bind] in E.
  apply xmit_frame_later_bds in E1 as [[X1 HX1] Hnext]; [|exact Hc].
  cbn [tx_ring_size cur_tx txq_with_counts] in Hnext.
  split_hyps.
  all: repeat match goal with
         | E : tx_store_bufPtr _ (_, _) _ _ = Some (_, _) |- _ =>
             apply tx_store_bufPtr_bds in E; destruct E as [? ->]
         | E : tx_store_lstatus _ (_, _) _ _ = Some (_, _) |- _ =>
             apply tx_store_lstatus_bds in E; destruct E as [? ->]
         end.
  all: cbn [fst snd tx_ring_size cur_tx skb_curtx num_txbdfree tx_skbuff
            tx_bytes tx_packets dirty_tx skb_dirtytx tx_stopped tx_qindex
            txq_with_bds txq_with_counts txq_with_cur] in *.
  all: rewrite Hnext.
  all: match goal with
       | Hq : at_ (tx_queue _) _ = Some ?q
         |- context [upd (tx_skbuff ?q) (skb_curtx ?q) (Some ?s)] =>
           destruct (num_txbdfree q - _ =? 0) eqn:Hfull;
           [ eexists (txq_with_stopped _ true), s
           | eexists _, s ];
           (split; [cbn; by eapply at_upd_eq|]);
           cbn; rewrite ?Hfull, ?orb_true_r, ?orb_false_r;
           repeat split; try reflexivity
       end.
Qed.

Lemma xmit_frame_accounting_witness :
  let q := txq0 ring4_one_queued in
  let skb := three_bd_packet in
  let p' := after_xmit ring4_one_queued three_bd_packet in
  let N := tx_ring_size q in
  let nr_txbds := nr_frags skb + (if false then 2 else 1) in
  nr_txbds <= num_txbdfree q /\
  exists q' skb',
    at_ (tx_queue p') 0 = Some q' /\
    num_txbdfree q' = num_txbdfree q - nr_txbds /\
    cur_tx q' = (cur_tx q + nr_txbds) mod N /\
    skb_curtx q' = Z.land (skb_curtx q + 1) (TX_RING_MOD_MASK N) /\
    tx_skbuff q' = upd (tx_skbuff q) (skb_curtx q) (Some skb') /\
    tx_bytes q' = @ulong_add etsec (tx_bytes q) (len skb) /\
    tx_packets q' = @ulong_inc etsec (tx_packets q) /\
    dirty_tx q' = dirty_tx q /\ skb_dirtytx q' = skb_dirtytx q /\
    tx_ring_size q' = N /\
    tx_stopped q' = tx_stopped q || (num_txbdfree q - nr_txbds =? 0) /\
    stats p' = (if num_txbdfree q - nr_txbds =? 0
                then @inc_tx_fifo_errors etsec (stats ring4_one_queued)
                else stats ring4_one_queued).
Proof.
  apply (@xmit_frame_accounting etsec linux_model ring4_one_queued
           (after_xmit ring4_one_queued three_bd_packet) 0
           (txq0 ring4_one_queued) three_bd_packet false).
  - vm_compute; reflexivity.
  - vm_compute; split; [discriminate|reflexivity].
  - vm_compute; reflexivity.
Defined.

(** ** The transmit poll *)

Lemma poll_tx_budget_none `{gianfar_h_tx} (grp : gfar_priv_grp_tx)
    (budget : Z) :
  Z.land (regs_tstat grp) TSTAT_TXF_MASK_ALL = 0 ->
  poll_tx_budget grp budget = None.
Proof.
  intros E. unfold poll_tx_budget. rewrite E. vm_compute. reflexivity.
Qed.

Lemma poll_tx_budget_some `{gianfar_h_tx} (grp : gfar_priv_grp_tx)
    (budget : Z) :
  let tstat := Z.land (regs_tstat grp) TSTAT_TXF_MASK_ALL in
  0 <= tstat < 2 ^ 32 -> tstat <> 0 ->
  poll_tx_budget grp budget = Some (budget ÷ popcount 32 tstat).
Proof.
  intros x Hr Hne. unfold poll_tx_budget. fold x.
  rewrite (count_act_qs_32 x Hr). cbn [mbind option_bind].
  assert (Hp : popcount 32 x <> 0).
  { intros E. apply Hne. apply (popcount_zero 32); [exact Hr|exact E]. }
  apply Z.eqb_neq in Hp. rewrite Hp. reflexivity.
Qed.

Lemma gfar_poll_tx_none `{gianfar_h} `{linux} `{gianfar_h_tx} (cpu : Z)
    (grp : gfar_priv_grp_tx) (p : gfar_private) (budget : Z) :
  poll_tx_budget grp budget = None -> gfar_poll_tx cpu grp p budget = None.
Proof. intros E. unfold gfar_poll_tx. rewrite E. reflexivity. Qed.

Lemma gfar_poll_tx_some `{gianfar_h} `{linux} `{gianfar_h_tx} (cpu : Z)
    (grp : gfar_priv_grp_tx) (p : gfar_private) (budget bpq : Z) :
  poll_tx_budget grp budget = Some bpq ->
  gfar_poll_tx cpu grp p budget =
    let tstat := Z.land (regs_tstat grp) TSTAT_TXF_MASK_ALL in
    let p := emit p [EvRegWrite R_ievent IEVENT_TX_MASK] in
    '(tx_cleaned, napi_done, p) ←
      poll_tx_queues cpu (seqZ 0 (Z.of_nat (length (tx_queue p))))
        (tx_bit_map grp) tstat bpq p (0, true);
    if (napi_done : bool) then
      let imask := Z.lor (tx_regs_imask grp) IMASK_DEFAULT_TX in
      Some (tx_cleaned,
            mk_grp_tx (tx_bit_map grp) (regs_tstat grp) imask false,
            emit p [EvRegWrite R_imask imask])
    else Some (tx_cleaned, grp, p).
Proof. intros E. unfold gfar_poll_tx. rewrite E. reflexivity. Qed.

Lemma gfar_clean_tx_ring_howmany `{gianfar_h} `{linux} (cpu rq : Z)
    (p p' : gfar_private) (tx_work_limit howmany : Z) :
  gfar_clean_tx_ring cpu rq p tx_work_limit = Some (howmany, p') ->
  0 <= howmany /\ (0 <= tx_work_limit -> howmany <= tx_work_limit).
Proof.
  unfold gfar_clean_tx_ring. intros E.
  destruct (at_ (tx_queue p) rq) as [q|]; [|done].
  cbn [mbind option_bind] in E.
  destruct (clean_tx_loop _ cpu rq p _ _ _ 0) as [[[[b1 d1] h1] p1]|] eqn:El;
    [|done].
  apply clean_tx_loop_howmany in El.
  cbn [mbind option_bind] in E. split_hyps; lia.
Qed.

Lemma poll_tx_queues_bound `{gianfar_h} `{linux} `{gianfar_h_tx}
    (cpu k bm x bpq : Z) :
  TSTAT_TXF0_MASK = 2 ^ k -> 0 <= bpq ->
  forall (qs : list Z) (y : Z) (p p' : gfar_private) (c c' : Z)
         (nd nd' : bool),
  NoDup qs ->
  (forall i, i ∈ qs -> 0 <= i <= k /\ k - i < 32) ->
  (forall i, i ∈ qs -> Z.testbit x (k - i) = true ->
             Z.testbit y (k - i) = true) ->
  poll_tx_queues cpu qs bm x bpq p (c, nd) = Some (c', nd', p') ->
  c <= c' <= c + bpq * popcount 32 y.
Proof.
  intros Hk Hb qs.
  induction qs as [|i rest IH]; intros y p p' c c' nd nd' Hnd Hr Hy E.
  - cbn in E. inversion E; subst.
    pose proof (popcount_nonneg 32 y) as Hp. revert Hp.
    generalize (popcount 32 y). intros P HP. nia.
  - cbn [poll_tx_queues] in E.
    apply NoDup_cons in Hnd as [Hni Hnd].
    assert (Hr' : forall j, j ∈ rest -> 0 <= j <= k /\ k - j < 32).
    { intros j Hj. apply Hr. by right. }
    destruct (Z.testbit bm i && tst x (Z.shiftr TSTAT_TXF0_MASK i)) eqn:Hc.
    + apply andb_true_iff in Hc as [_ Ht].
      destruct (Hr i) as [Hi Hi32]; [by left|].
      rewrite Hk, shiftr_pow2 in Ht by lia.
      apply tst_pow2 in Ht; [|lia].
      assert (Hyi : Z.testbit y (k - i) = true) by (apply Hy; [by left|done]).
      destruct (gfar_clean_tx_ring cpu i p bpq) as [[n p1]|] eqn:Ec; [|done].
      cbn [mbind option_bind] in E.
      apply gfar_clean_tx_ring_howmany in Ec as [Hn0 Hn].
      specialize (Hn Hb).
      pose proof (popcount_clearbit 32 y (k - i)) as Hpc.
      assert (HI : c + n <= c' <=
                   c + n + bpq * popcount 32 (Z.clearbit y (k - i))).
      { eapply (IH (Z.clearbit y (k - i))); try exact E; try done.
        intros j Hj Hx. rewrite Z.clearbit_neq; [apply Hy; [by right|done]|].
        intros Heq. apply Hni. by replace i with j by lia. }
      revert HI Hpc. generalize (popcount 32 (Z.clearbit y (k - i))).
      generalize (popcount 32 y). intros P P' HI Hpc.
      rewrite Hpc by (try done; lia). nia.
    + eapply IH; try exact E; try done.
      intros j Hj. apply Hy. by right.
Qed.

Lemma poll_tx_budget_div `{gianfar_h_tx} (grp : gfar_priv_grp_tx)
    (budget bpq : Z) :
  0 <= Z.land (regs_tstat grp) TSTAT_TXF_MASK_ALL < 2 ^ 32 ->
  0 <= budget ->
  poll_tx_budget grp budget = Some bpq ->
  exists P,
    P = popcount 32 (Z.land (regs_tstat grp) TSTAT_TXF_MASK_ALL) /\
    0 <= bpq /\ bpq * P <= budget.
Proof.
  intros Hx Hb E.
  destruct (Z.eq_dec (Z.land (regs_tstat grp) TSTAT_TXF_MASK_ALL) 0)
    as [Hz0|Hne].
  { by rewrite (poll_tx_budget_none grp budget Hz0) in E. }
  pose proof (poll_tx_budget_some grp budget Hx Hne) as Hsome.
  cbv zeta in Hsome. rewrite Hsome in E. clear Hsome.
  pose proof (popcount_nonneg 32 (Z.land (regs_tstat grp)
                                        TSTAT_TXF_MASK_ALL)) as Hnn.
  pose proof (popcount_zero 32 _ Hx) as Hz.
  eexists. split; [reflexivity|].
  revert E Hnn Hz.
  generalize (popcount 32 (Z.land (regs_tstat grp) TSTAT_TXF_MASK_ALL)).
  intros P E Hnn Hz. inversion E; subst bpq. clear E.
  assert (HP : 0 < P).
  { destruct (Z.eq_dec P 0) as [HP0|]; [|lia]. exfalso. apply Hne, Hz, HP0. }
  clear Hz Hne Hx.
  split; [apply Z.quot_pos; lia|].
  pose proof (Z.mul_quot_le budget P Hb ltac:(lia)) as Hq.
  rewrite (Z.mul_comm (budget ÷ P) P). lia.
Qed.



(** X18.  The transmit poll keeps within its budget.  With the flag of
    queue 0 a single bit of TSTAT ([TSTAT_TXF0_MASK = 2 ^ k]) and no more
    queues than flags to its right, [gfar_poll_tx] called with a budget
    that is not negative reports at least 0 and at most [budget]
    frames. *)
Theorem gfar_poll_tx_within_budget `{gianfar_h} `{linux} `{gianfar_h_tx}
    (cpu k : Z) (grp grp' : gfar_priv_grp_tx) (p p' : gfar_private)
    (budget n : Z) :
  TSTAT_TXF0_MASK = 2 ^ k -> 0 <= k < 32 ->
  Z.of_nat (length (tx_queue p)) <= k + 1 ->
  0 <= Z.land (regs_tstat grp) TSTAT_TXF_MASK_ALL < 2 ^ 32 ->
  0 <= budget ->
  gfar_poll_tx cpu grp p budget = Some (n, grp', p') ->
  0 <= n <= budget.
Proof.
  intros Hk Hk32 Hlen Hx Hb E.
  destruct (poll_tx_budget grp budget) as [bpq|] eqn:Eb.
  2: { by rewrite (gfar_poll_tx_none cpu grp p budget Eb) in E. }
  rewrite (gfar_poll_tx_some cpu grp p budget bpq Eb) in E. cbv zeta in E.
  apply poll_tx_budget_div in Eb as (P & HP & Hbpq & Hmul); [|done..].
  destruct (poll_tx_queues _ _ _ _ _ _ _) as [[[c nd] p1]|] eqn:Eq; [|done].
  cbn [mbind option_bind] in E.
  assert (Hn : n = c) by (split_hyps; reflexivity).
  subst n. clear E.
  apply (poll_tx_queues_bound cpu k _ _ _ Hk Hbpq) with
    (y := Z.land (regs_tstat grp) TSTAT_TXF_MASK_ALL) in Eq.
  - rewrite <- HP in Eq. clear HP. lia.
  - apply NoDup_seqZ.
  - clear HP. intros i Hi. apply elem_of_seqZ in Hi.
    cbn [emit with_log tx_queue] in Hi. lia.
  - intros i _ Hi. exact Hi.
Qed.

Lemma gfar_poll_tx_within_budget_witness :
  0 <= ring4_tx_polled.1.1 <= 4.
Proof.
  apply (@gfar_poll_tx_within_budget etsec linux_model etsec_tx 0 15
           (mk_grp_tx 1 0x00008000 0 true) ring4_tx_polled.1.2
           ring4_sent ring4_tx_polled.2 4 ring4_tx_polled.1.1).
  - reflexivity.
  - lia.
  - vm_compute; discriminate.
  - vm_compute; split; [discriminate|reflexivity].
  - lia.
  - vm_compute; reflexivity.
Defined.

(** ** Changing the MTU *)

Lemma land_lnot_pow2 (a k : Z) :
  0 <= k ->
  Z.land a (Z.lnot (2 ^ k - 1)) = a - a mod 2 ^ k.
Proof.
  intros Hk. replace (2 ^ k - 1) with (Z.ones k)
    by (rewrite Z.ones_equiv; lia).
  rewrite <- Z.ldiff_land, Z.ldiff_ones_r by done.
  rewrite Z.shiftl_mul_pow2, Z.shiftr_div_pow2 by done.
  pose proof (Z.div_mod a (2 ^ k)) as Hd.
  assert (0 < 2 ^ k) by (apply Z.pow_pos_nonneg; lia). lia.
Qed.

Lemma s32_id (x : Z) : - 2 ^ 31 <= x < 2 ^ 31 -> s32 x = x.
Proof. intros Hx. unfold s32. rewrite Z.mod_small; lia. Qed.

Lemma s32_over (x : Z) : 2 ^ 31 <= x < 2 ^ 32 -> s32 x = x - 2 ^ 32.
Proof.
  intros Hx. unfold s32.
  replace (x + 2 ^ 31) with (x - 2 ^ 31 + 1 * 2 ^ 32) by lia.
  rewrite Z_mod_plus_full, Z.mod_small; lia.
Qed.

(** X19.  [gfar_change_mtu] in the arithmetic of [int].  An MTU whose
    frame (the MTU with the Ethernet header, and the VLAN header when
    VLAN offload is on) is shorter than 64 bytes or longer than
    [JUMBO_FRAME_SIZE] is refused with [-EINVAL] and changes nothing; so
    is an MTU so large that adding the headers overflows, as the sum
    wraps to a negative frame size.  A valid MTU sizes the receive
    buffers to the next multiple of [INCREMENTAL_BUFFER_SIZE] strictly
    above the frame size with its frame control block and padding, also
    when that size is a multiple already; the size goes to MRBLR and
    MAXFRM, and the controller is stopped and started again exactly when
    the size changes on a device that is up.  [INCREMENTAL_BUFFER_SIZE]
    is a power of two, and the largest frame with frame control block,
    padding and one increment fits an [int]. *)
Theorem gfar_change_mtu_sizes `{gianfar_h} `{gianfar_h_mtu}
    (d : gfar_mtu_dev) (new_mtu k : Z) :
  INCREMENTAL_BUFFER_SIZE = 2 ^ k -> 0 <= k ->
  0 <= GMAC_FCB_LEN -> 0 <= m_padding d ->
  JUMBO_FRAME_SIZE + GMAC_FCB_LEN + m_padding d + INCREMENTAL_BUFFER_SIZE
    < 2 ^ 31 ->
  let frame := mtu_frame_size d new_mtu in
  let need := frame + (if gfar_uses_fcb d then GMAC_FCB_LEN else 0)
              + m_padding d in
  (frame < 64 \/ JUMBO_FRAME_SIZE < frame ->
   gfar_change_mtu d new_mtu = Some (- EINVAL, d)) /\
  (0 <= ETH_HLEN -> 0 <= VLAN_HLEN -> ETH_HLEN + VLAN_HLEN <= 2 ^ 31 ->
   new_mtu < 2 ^ 31 ->
   2 ^ 31 <= new_mtu + ETH_HLEN
             + (if gfar_is_vlan_on d then VLAN_HLEN else 0) ->
   frame < 0 /\ gfar_change_mtu d new_mtu = Some (- EINVAL, d)) /\
  (64 <= frame <= JUMBO_FRAME_SIZE ->
   exists d',
     gfar_change_mtu d new_mtu = Some (0, d') /\
     m_mtu d' = new_mtu /\
     m_rx_buffer_size d' mod INCREMENTAL_BUFFER_SIZE = 0 /\
     need < m_rx_buffer_size d' <= need + INCREMENTAL_BUFFER_SIZE /\
     m_mrblr d' = m_rx_buffer_size d' /\
     m_maxfrm d' = m_rx_buffer_size d' /\
     restarts d' =
       restarts d ++
       (if negb (m_rx_buffer_size d =? m_rx_buffer_size d') && m_iff_up d
        then [CallStopGfar; CallStartupGfar] else [])).
Proof.
  intros HI Hk Hfcb Hpad Hfit frame need.
  assert (Hbad : frame < 64 \/ JUMBO_FRAME_SIZE < frame ->
                 gfar_change_mtu d new_mtu = Some (- EINVAL, d)).
  { intros Hb. unfold gfar_change_mtu. cbv zeta. fold frame.
    rewrite Z.gtb_ltb.
    destruct (Z.ltb_spec frame 64); [done|].
    destruct (Z.ltb_spec JUMBO_FRAME_SIZE frame); [done|lia]. }
  split; [exact Hbad|]. split.
  - intros HE HV HEV Hm Hover.
    assert (Hneg : frame < 0).
    { subst frame. unfold mtu_frame_size. cbv zeta.
      destruct (gfar_is_vlan_on d).
      - destruct (Z_lt_ge_dec (new_mtu + ETH_HLEN) (2 ^ 31)).
        + rewrite (s32_id (new_mtu + ETH_HLEN)) by lia.
          rewrite s32_over by lia. lia.
        + rewrite (s32_over (new_mtu + ETH_HLEN)) by lia.
          rewrite s32_id by lia. lia.
      - rewrite s32_over by lia. lia. }
    split; [exact Hneg|]. apply Hbad. lia.
  - intros Hok. unfold gfar_change_mtu. cbv zeta. fold frame.
    destruct (Z.ltb_spec frame 64); [lia|].
    rewrite Z.gtb_ltb.
    destruct (Z.ltb_spec JUMBO_FRAME_SIZE frame); [lia|].
    cbn [orb].
    assert (Hp : 0 < 2 ^ k) by (apply Z.pow_pos_nonneg; lia).
    assert (Hneed : mtu_buffer_need d new_mtu = need).
    { unfold mtu_buffer_need. cbv zeta. fold frame. subst need.
      destruct (gfar_uses_fcb d).
      - rewrite (s32_id (frame + GMAC_FCB_LEN)) by lia.
        rewrite s32_id by lia. done.
      - rewrite s32_id by lia. lia. }
    rewrite Hneed. clear Hneed.
    assert (Hn : 64 <= need /\ need + 2 ^ k < 2 ^ 31).
    { subst need. destruct (gfar_uses_fcb d); lia. }
    pose proof (Z.mod_pos_bound need (2 ^ k) Hp) as Hm.
    rewrite HI, land_lnot_pow2 by done.
    rewrite (s32_id (need - need mod 2 ^ k + 2 ^ k)) by lia.
    eexists. split; [reflexivity|].
    cbn [m_mtu m_rx_buffer_size m_mrblr m_maxfrm restarts].
    split; [done|]. split.
    { replace (need - need mod 2 ^ k + 2 ^ k)
        with (need mod 2 ^ k * (-1) + need + 1 * 2 ^ k) by lia.
      rewrite Z_mod_plus_full.
      rewrite <- Zplus_mod_idemp_r.
      replace (need mod 2 ^ k * -1 + need mod 2 ^ k) with 0 by lia.
      apply Z.mod_0_l. lia. }
    split; [lia|]. do 2 (split; [done|]).
    destruct (negb _ && m_iff_up d); [|by rewrite app_nil_r].
    by rewrite <- app_assoc.
Qed.

Lemma gfar_change_mtu_sizes_witness :
  let d := mtu1500 in
  let frame := @mtu_frame_size etsec_mtu d 2000 in
  let need := frame + (if gfar_uses_fcb d then @GMAC_FCB_LEN etsec else 0)
              + m_padding d in
  (frame < 64 \/ @JUMBO_FRAME_SIZE etsec_mtu < frame ->
   @gfar_change_mtu etsec etsec_mtu d 2000
   = Some (- @EINVAL etsec_mtu, d)) /\
  (0 <= @ETH_HLEN etsec_mtu -> 0 <= @VLAN_HLEN etsec_mtu ->
   @ETH_HLEN etsec_mtu + @VLAN_HLEN etsec_mtu <= 2 ^ 31 ->
   2000 < 2 ^ 31 ->
   2 ^ 31 <= 2000 + @ETH_HLEN etsec_mtu
             + (if gfar_is_vlan_on d then @VLAN_HLEN etsec_mtu else 0) ->
   frame < 0 /\
   @gfar_change_mtu etsec etsec_mtu d 2000
   = Some (- @EINVAL etsec_mtu, d)) /\
  (64 <= frame <= @JUMBO_FRAME_SIZE etsec_mtu ->
   exists d',
     @gfar_change_mtu etsec etsec_mtu d 2000 = Some (0, d') /\
     m_mtu d' = 2000 /\
     m_rx_buffer_size d' mod @INCREMENTAL_BUFFER_SIZE etsec_mtu = 0 /\
     need < m_rx_buffer_size d'
       <= need + @INCREMENTAL_BUFFER_SIZE etsec_mtu /\
     m_mrblr d' = m_rx_buffer_size d' /\
     m_maxfrm d' = m_rx_buffer_size d' /\
     restarts d' =
       restarts d ++
       (if negb (m_rx_buffer_size d =? m_rx_buffer_size d') && m_iff_up d
        then [CallStopGfar; CallStartupGfar] else [])).
Proof.
  apply (@gfar_change_mtu_sizes etsec etsec_mtu mtu1500 2000 9).
  - reflexivity.
  - lia.
  - vm_compute; discriminate.
  - vm_compute; discriminate.
  - vm_compute; reflexivity.
Defined.

(** The largest MTU an [int] holds: the frame size wraps to
    [- 2 ^ 31 + 13], and the MTU is refused. *)
Lemma gfar_change_mtu_int_max :
  @mtu_frame_size etsec_mtu mtu1500 (2 ^ 31 - 1) = - 2 ^ 31 + 13 /\
  @gfar_change_mtu etsec etsec_mtu mtu1500 (2 ^ 31 - 1)
  = Some (- @EINVAL etsec_mtu, mtu1500).
Proof. split; vm_compute; reflexivity. Qed.

(** ** The alignment of the receive buffers *)

Lemma gfar_align_skb_data `{gianfar_h} (s : sk_buff) (k : Z) :
  RXBUF_ALIGNMENT = 2 ^ k -> 0 <= k ->
  data (gfar_align_skb s)
  = data s - data s mod RXBUF_ALIGNMENT + RXBUF_ALIGNMENT /\
  rx_aligned (gfar_align_skb s).
Proof.
  intros HA Hk. unfold rx_aligned, gfar_align_skb, skb_reserve, skb_with_data.
  cbn [data]. rewrite HA.
  replace (2 ^ k - 1) with (Z.ones k) by (rewrite Z.ones_equiv; lia).
  rewrite !Z.land_ones by done.
  assert (Hp : 0 < 2 ^ k) by (apply Z.pow_pos_nonneg; lia).
  split; [lia|].
  replace (data s + (2 ^ k - data s mod 2 ^ k))
    with (data s mod 2 ^ k * (-1) + data s + 1 * 2 ^ k) by lia.
  rewrite Z_mod_plus_full, <- Zplus_mod_idemp_r.
  replace (data s mod 2 ^ k * -1 + data s mod 2 ^ k) with 0 by lia.
  apply Z.mod_0_l. lia.
Qed.

Lemma pool_aligned_insert `{gianfar_h} (p p' : gfar_private) (k : Z)
    (q : list sk_buff) :
  skb_queues (recycle p') = <[k := q]> (skb_queues (recycle p)) ->
  pool_aligned p -> Forall rx_aligned q -> pool_aligned p'.
Proof.
  unfold pool_aligned. intros -> Hm Hq. by apply map_Forall_insert_2.
Qed.

Lemma pool_aligned_ext `{gianfar_h} (p p' : gfar_private) :
  recycle p' = recycle p -> pool_aligned p -> pool_aligned p'.
Proof. unfold pool_aligned. by intros ->. Qed.

(** X20.  The receive buffers are aligned.  With [RXBUF_ALIGNMENT] a
    power of two, [gfar_align_skb] moves the data of a buffer forward to
    the next multiple of [RXBUF_ALIGNMENT], by a whole [RXBUF_ALIGNMENT]
    when they are aligned already.  Every buffer [gfar_free_skb] puts
    into a recycle queue is aligned, and so is every buffer
    [gfar_new_skb] returns, from a recycle queue or from the
    allocator. *)
Theorem rx_buffers_aligned `{gianfar_h} `{linux} (cpu k : Z)
    (p : gfar_private) :
  RXBUF_ALIGNMENT = 2 ^ k -> 0 <= k ->
  pool_aligned p ->
  (forall s, data (gfar_align_skb s)
             = data s - data s mod RXBUF_ALIGNMENT + RXBUF_ALIGNMENT) /\
  (forall skb p', gfar_free_skb cpu p skb = Some p' -> pool_aligned p') /\
  (forall b p', gfar_new_skb cpu p = Some (Some b, p') ->
     rx_aligned b /\ pool_aligned p').
Proof.
  intros HA Hk Hp.
  assert (Hal : forall s, rx_aligned (gfar_align_skb s)).
  { intros s. by apply (gfar_align_skb_data s k). }
  split; [intros s; by apply (gfar_align_skb_data s k)|]. split.
  - intros skb p' E. unfold gfar_free_skb in E. cbv zeta in E.
    assert (Hcf : recycle (clean_frags p skb).2 = recycle p).
    { unfold clean_frags. by destruct (negb (nr_frags skb =? 0)). }
    destruct (clean_frags p skb) as [s1 p1]. cbn [snd] in Hcf.
    assert (Hp1 : pool_aligned p1) by (by eapply pool_aligned_ext).
    clear Hcf.
    split_hyps;
      first
        [ by eapply pool_aligned_ext; [|exact Hp]
        | by eapply pool_aligned_ext; [|exact Hp1]
        | eapply pool_aligned_insert; [reflexivity|done|];
          apply Forall_cons; split; [apply Hal|];
          match goal with
          | Hq : skb_queues (recycle ?P) !! _ = Some ?q |- Forall _ ?q =>
              first [exact (Hp _ _ Hq) | exact (Hp1 _ _ Hq)]
          end ].
  - intros b p' E. unfold gfar_new_skb in E.
    destruct (at_ (local (recycle p)) cpu) as [l|]; [|done].
    cbn [mbind option_bind] in E.
    destruct (skb_queues (recycle p) !! recycle_q l) as [q|] eqn:Hq; [|done].
    cbn [mbind option_bind] in E.
    destruct q as [|s rest].
    + assert (Halloc : forall o P, gfar_alloc_skb p = (o, P) ->
                (forall x, o = Some x -> rx_aligned x) /\ recycle P = recycle p).
      { unfold gfar_alloc_skb, netdev_alloc_skb. intros o P.
        destruct (allocator p) as [|[x|] r]; intros E'; inversion E'; subst;
          (split; [intros y Hy; inversion Hy; subst; apply Hal|done]) ||
          (split; [intros y Hy; inversion Hy|done]). }
      destruct (global_recycle_q (recycle p)) as [g|].
      * destruct (skb_queues (recycle p) !! g) as [gq|] eqn:Hg; [|done].
        cbn [mbind option_bind] in E.
        destruct (negb (Z.of_nat (length gq) =? 0)).
        -- inversion E as [[Hb Hp']]. pose proof (Hp _ _ Hg) as Hgq.
           destruct gq as [|x gq']; [done|]. cbn in Hb. inversion Hb; subst x.
           apply Forall_cons in Hgq as [Hx Hgq]. split; [done|].
           eapply pool_aligned_insert; [reflexivity|done|done].
        -- inversion E as [E']. apply Halloc in E' as [Ho Hr].
           split; [by apply Ho|by eapply pool_aligned_ext].
      * inversion E as [E']. apply Halloc in E' as [Ho Hr].
        split; [by apply Ho|by eapply pool_aligned_ext].
    + inversion E; subst. pose proof (Hp _ _ Hq) as Hq'.
      apply Forall_cons in Hq' as [Hs Hrest]. split; [done|].
      eapply pool_aligned_insert; [reflexivity|done|done].
Qed.

Lemma rx_buffers_aligned_witness :
  (forall s, data (@gfar_align_skb etsec s)
             = data s - data s mod @RXBUF_ALIGNMENT etsec
               + @RXBUF_ALIGNMENT etsec) /\
  (forall skb p', @gfar_free_skb etsec linux_model 0 ring4 skb = Some p' ->
     @pool_aligned etsec p') /\
  (forall b p', @gfar_new_skb etsec 0 ring4 = Some (Some b, p') ->
     @rx_aligned etsec b /\ @pool_aligned etsec p').
Proof.
  apply (@rx_buffers_aligned etsec linux_model 0 6 ring4).
  - vm_compute; reflexivity.
  - lia.
  - assert (Hr : recycle ring4 = empty_recycle) by (vm_compute; reflexivity).
    unfold pool_aligned. rewrite Hr. unfold empty_recycle.
    cbn [skb_queues].
    repeat (apply map_Forall_insert_2; [apply Forall_nil_2|]).
    apply map_Forall_empty.
Defined.

(** ** The count of the free transmit descriptors *)

Lemma tx_clear_fields `{gianfar_h} (rq : Z)
    (ql ql' : gfar_priv_tx_q * list event) (bdp : Z) :
  tx_clear rq ql bdp = Some ql' -> exists X, ql'.1 = txq_with_bds ql.1 X.
Proof.
  unfold tx_clear. intros E.
  destruct (at_ (tx_bd_base ql.1) bdp) as [d|]; [|done].
  cbn [mbind option_bind] in E. destruct ql as [q lg], ql' as [q' lg'].
  by eapply tx_store_lstatus_bds.
Qed.

Lemma clean_frag_bds_account `{gianfar_h} (rq : Z) (frs : list skb_frag_t) :
  forall (bdp bdp' : Z) (ql ql' : gfar_priv_tx_q * list event),
  clean_frag_bds rq frs bdp ql = Some (bdp', ql') ->
  0 <= bdp < tx_ring_size ql.1 ->
  bdp' = (bdp + Z.of_nat (length frs)) mod tx_ring_size ql.1 /\
  exists X, ql'.1 = txq_with_bds ql.1 X.
Proof.
  induction frs as [|f rest IH]; intros bdp bdp' ql ql' E Hb.
  { cbn in E. inversion E; subst. split.
    - rewrite Z.add_0_r, Z.mod_small; done.
    - eexists. apply txq_with_bds_id. }
  cbn [clean_frag_bds] in E.
  destruct (at_ (tx_bd_base ql.1) bdp) as [d|]; [|done].
  cbn [mbind option_bind] in E.
  destruct (tx_clear rq ql bdp) as [ql1|] eqn:E1; [|done].
  cbn [mbind option_bind] in E.
  apply tx_clear_fields in E1 as [X1 H1].
  assert (HN : tx_ring_size ql1.1 = tx_ring_size ql.1) by (by rewrite H1).
  rewrite HN in E. apply IH in E as [-> [X2 H2]].
  - rewrite HN, next_txbd_mod by done. split.
    + rewrite mod_step by lia. f_equal. cbn [length]. lia.
    + exists X2. by rewrite H2, H1.
  - rewrite HN, next_txbd_mod by done. apply Z.mod_pos_bound. lia.
Qed.

Lemma u32_add_l (a b : Z) : u32 (u32 a + b) = u32 (a + b).
Proof. unfold u32. apply Zplus_mod_idemp_l. Qed.

(** The loop of [gfar_clean_tx_ring] moves [bdp] on by the descriptors
    it has counted free. *)
Lemma clean_tx_loop_account `{gianfar_h} `{linux} (n : nat) (cpu rq : Z) :
  forall (p p' : gfar_private) (bdp dirtytx limit howmany : Z)
         (bdp' dirtytx' howmany' : Z) (q : gfar_priv_tx_q),
  at_ (tx_queue p) rq = Some q ->
  0 <= bdp < tx_ring_size q ->
  clean_tx_loop n cpu rq p bdp dirtytx limit howmany
    = Some (bdp', dirtytx', howmany', p') ->
  exists q' total,
    at_ (tx_queue p') rq = Some q' /\ 0 <= total /\
    tx_ring_size q' = tx_ring_size q /\ cur_tx q' = cur_tx q /\
    (total = 0 /\ num_txbdfree q' = num_txbdfree q \/
     0 < total /\ num_txbdfree q' = u32 (num_txbdfree q + total)) /\
    bdp' = (bdp + total) mod tx_ring_size q.
Proof.
  induction n as [|n IH];
    intros p p' bdp dirtytx limit howmany bdp' dirtytx' howmany' q Hq Hb E;
    cbn [clean_tx_loop] in E; rewrite Hq in E; cbn [mbind option_bind] in E.
  { destruct (at_ (tx_skbuff q) dirtytx) as [[skb|]|]; [done| |done].
    inversion E; subst. exists q, 0.
    rewrite !Z.add_0_r, Z.mod_small by done.
    repeat split; try done; by left. }
  assert (Hstop : (bdp, dirtytx, howmany, p) = (bdp', dirtytx', howmany', p')
                  -> exists q' total,
    at_ (tx_queue p') rq = Some q' /\ 0 <= total /\
    tx_ring_size q' = tx_ring_size q /\ cur_tx q' = cur_tx q /\
    (total = 0 /\ num_txbdfree q' = num_txbdfree q \/
     0 < total /\ num_txbdfree q' = u32 (num_txbdfree q + total)) /\
    bdp' = (bdp + total) mod tx_ring_size q).
  { intros Ee. inversion Ee; subst. exists q, 0.
    rewrite !Z.add_0_r, Z.mod_small by done.
    repeat split; try done; by left. }
  destruct (at_ (tx_skbuff q) dirtytx) as [[skb|]|]; [| |done];
    cbn [mbind option_bind] in E; [|apply Hstop; congruence].
  destruct (limit =? 0); [apply Hstop; congruence|].
  cbv zeta in E.
  destruct (at_ (tx_bd_base q) (skip_txbd _ _ _)) as [ld|]; [|done].
  cbn [mbind option_bind] in E.
  destruct (_ && _); [apply Hstop; congruence|]. clear Hstop.
  destruct (at_ (tx_bd_base q) bdp) as [d0|]; [|done].
  cbn [mbind option_bind] in E.
  assert (HN : 0 < tx_ring_size q) by lia.
  match type of E with
  | (?x ≫= _) = _ => destruct x as [[[skb1 bdp1] ql1]|] eqn:E1; [|done]
  end.
  cbn [mbind option_bind] in E.
  assert (H1 : shinfo skb1 = shinfo skb /\
               (exists X, ql1.1 = txq_with_bds q X) /\
               0 <= bdp1 < tx_ring_size q /\
               bdp1 = (bdp + (if tx_in_progress (shinfo skb) then 1 else 0))
                      mod tx_ring_size q).
  { destruct (tx_in_progress (shinfo skb)).
    - destruct (at_ (tx_bd_base q) (next_txbd bdp (tx_ring_size q)));
        [|done]. cbn [mbind option_bind] in E1.
      destruct (tx_clear rq (q, log p) bdp) as [ql0|] eqn:E0; [|done].
      cbn [mbind option_bind] in E1. inversion E1; subst.
      split; [unfold skb_pull, __skb_pull; by destruct (_ >? _)|].
      split; [by eapply tx_clear_fields in E0|].
      rewrite next_txbd_mod by done. split; [|done].
      apply Z.mod_pos_bound. lia.
    - inversion E1; subst. split; [done|].
      split; [eexists; apply txq_with_bds_id|].
      rewrite Z.add_0_r, Z.mod_small by done. done. }
  destruct H1 as (Hsh & [X1 HX1] & Hb1 & Hbdp1). rewrite Hsh in *.
  destruct (tx_clear rq ql1 bdp1) as [ql2|] eqn:E2; [|done].
  cbn [mbind option_bind] in E.
  apply tx_clear_fields in E2 as [X2 HX2].
  destruct (clean_frag_bds _ _ _ _) as [[bdp3 ql3]|] eqn:E3; [|done].
  cbn [mbind option_bind] in E.
  assert (HN2 : tx_ring_size ql2.1 = tx_ring_size q)
    by (by rewrite HX2, HX1).
  apply clean_frag_bds_account in E3 as [Hbdp3 [X3 HX3]].
  2:{ rewrite HN2, next_txbd_mod by done. apply Z.mod_pos_bound. lia. }
  rewrite HN2, next_txbd_mod in Hbdp3 by done.
  cbn [fst snd] in E.
  set (p1 := with_log (with_txq p rq ql3.1) ql3.2) in E.
  assert (Hq1 : at_ (tx_queue p1) rq = Some ql3.1).
  { subst p1. cbn. by eapply at_upd_eq. }
  match type of E with
  | (?x ≫= _) = _ => destruct x as [p2|] eqn:E4; [|done]
  end.
  cbn [mbind option_bind] in E.
  assert (Hq2 : tx_queue p2 = tx_queue p1).
  { destruct (negb (skb_tcp_ack_recycle skb1)).
    - by apply pool_step_free_skb in E4 as [? _].
    - by inversion E4; subst. }
  rewrite Hq2, Hq1 in E. cbn [mbind option_bind] in E.
  assert (Hq3 : ql3.1 = txq_with_bds q X3)
    by (by rewrite HX3, HX2, HX1).
  rewrite Hq3 in E.
  cbn [tx_skbuff skb_dirtytx dirty_tx num_txbdfree tx_ring_size txq_with_bds
       txq_with_dirty] in E.
  set (nr := if tx_in_progress (shinfo skb) then nr_frags skb + 2
             else nr_frags skb + 1) in *.
  assert (Hnr : 0 < nr /\ nr = (if tx_in_progress (shinfo skb) then 1 else 0)
                                + 1 + Z.of_nat (length (frags (shinfo skb)))).
  { subst nr. unfold nr_frags. destruct (tx_in_progress _); lia. }
  destruct Hnr as [Hnr0 Hnr].
  match type of E with
  | clean_tx_loop _ _ _ (emit (with_txq _ _ ?Q) _) _ _ _ _ = _ =>
      eapply (IH _ _ _ _ _ _ _ _ _ Q) in E
        as (q' & total & Hq' & Ht & HN' & Hc' & Hf' & Hb')
  end.
  - cbn [tx_ring_size cur_tx num_txbdfree] in *.
    exists q', (nr + total). split; [exact Hq'|]. split; [lia|].
    split; [exact HN'|]. split; [exact Hc'|]. split; [right; split; [lia|]|].
    + destruct Hf' as [[-> ->]|[_ ->]]; cbn [num_txbdfree txq_with_dirty];
        [by rewrite Z.add_0_r|].
      rewrite u32_add_l. f_equal. lia.
    + rewrite Hb', Hbdp3, Hbdp1. cbn [tx_ring_size txq_with_dirty txq_with_bds].
      rewrite !Zplus_mod_idemp_l. rewrite <- Z.add_assoc, Zplus_mod_idemp_l.
      f_equal. lia.
  - cbn. by eapply at_upd_eq; rewrite Hq2.
  - cbn [tx_ring_size txq_with_dirty txq_with_bds]. rewrite Hbdp3.
    apply Z.mod_pos_bound. lia.
Qed.

(** The producer side of an accepted frame. *)
Lemma xmit_frame_counters `{gianfar_h} `{linux} (p p' : gfar_private)
    (rq : Z) (q : gfar_priv_tx_q) (skb : sk_buff) (ts : bool) :
  at_ (tx_queue p) rq = Some q ->
  0 <= cur_tx q < tx_ring_size q ->
  xmit_frame p rq q skb ts = Some (NETDEV_TX_OK, p') ->
  exists q' nr_txbds,
    0 < nr_txbds <= num_txbdfree q /\
    at_ (tx_queue p') rq = Some q' /\
    num_txbdfree q' = num_txbdfree q - nr_txbds /\
    cur_tx q' = (cur_tx q + nr_txbds) mod tx_ring_size q /\
    dirty_tx q' = dirty_tx q /\ tx_ring_size q' = tx_ring_size q.
Proof.
  intros Hq Hc E. unfold xmit_frame in E. cbv zeta in E.
  destruct (_ >? num_txbdfree q) eqn:Hspace; [by inversion E|].
  rewrite Z.gtb_ltb in Hspace. apply Z.ltb_ge in Hspace.
  destruct (at_ (tx_bd_base _) (cur_tx _)) as [d|]; [|done].
  cbn [mbind option_bind] in E.
  match type of E with
  | (?X ≫= _) = _ =>
      destruct X as [[[txbdp1 l1] [q1 lg1]]|] eqn:E1; [|done]
  end.
  cbn [mbind option_bind] in E.
  apply xmit_frame_later_bds in E1 as [[X1 HX1] Hnext]; [|exact Hc].
  cbn [tx_ring_size cur_tx txq_with_counts] in Hnext.
  assert (Hnr : 0 < nr_frags skb + (if ts then 2 else 1)).
  { unfold nr_frags. destruct ts; lia. }
  split_hyps.
  all: repeat match goal with
         | E : tx_store_bufPtr _ (_, _) _ _ = Some (_, _) |- _ =>
             apply tx_store_bufPtr_bds in E; destruct E as [? ->]
         | E : tx_store_lstatus _ (_, _) _ _ = Some (_, _) |- _ =>
             apply tx_store_lstatus_bds in E; destruct E as [? ->]
         end.
  all: cbn [fst snd tx_ring_size cur_tx skb_curtx num_txbdfree tx_skbuff
            tx_bytes tx_packets dirty_tx skb_dirtytx tx_stopped tx_qindex
            txq_with_bds txq_with_counts txq_with_cur] in *.
  all: rewrite Hnext.
  all: match goal with
       | Hq : at_ (tx_queue _) _ = Some ?q |- _ =>
           destruct (num_txbdfree q - _ =? 0) eqn:Hfull;
           [ eexists (txq_with_stopped _ true), _ | eexists _, _ ];
           (split; [split; [exact Hnr|]|
                    split; [cbn; by eapply at_upd_eq|]]);
           cbn; repeat split; try reflexivity; try done
       end.
Qed.

(** X21.  The count of the free descriptors follows the indices of the
    ring.  On a transmit ring whose size is a power of two, the
    descriptors that are not free are the ones from [dirty_tx] up to
    [cur_tx], modulo the ring size: this holds for a ring as
    [gfar_init_bds] leaves it, and it holds after a frame has been
    queued and after [gfar_clean_tx_ring], if it held before. *)
Theorem tx_descriptors_accounted `{gianfar_h} `{linux} (p : gfar_private)
    (rq k : Z) (q : gfar_priv_tx_q) :
  at_ (tx_queue p) rq = Some q ->
  tx_ring_size q = 2 ^ k -> 0 <= k < 32 ->
  (tx_ring_ready q -> tx_accounted q) /\
  (tx_accounted q ->
   forall skb ts r p', xmit_frame p rq q skb ts = Some (r, p') ->
     exists q', at_ (tx_queue p') rq = Some q' /\
                tx_ring_size q' = tx_ring_size q /\ tx_accounted q') /\
  (tx_accounted q ->
   forall cpu tx_work_limit howmany p',
     gfar_clean_tx_ring cpu rq p tx_work_limit = Some (howmany, p') ->
     exists q', at_ (tx_queue p') rq = Some q' /\
                tx_ring_size q' = tx_ring_size q /\ tx_accounted q').
Proof.
  intros Hq HN Hk.
  assert (HNpos : 0 < tx_ring_size q).
  { rewrite HN. apply Z.pow_pos_nonneg; lia. }
  assert (HNlt : tx_ring_size q < 2 ^ 32).
  { rewrite HN. apply Z.pow_lt_mono_r; lia. }
  split; [|split].
  - intros (Hc & Hd & _ & _ & Hf & _). unfold tx_accounted.
    rewrite Hc, Hd, Hf, Z.sub_diag, Z.add_0_r, Z.mod_0_l by lia. lia.
  - intros (Hc & Hd & Hf & Hacc) skb ts r p' E. destruct r.
    + apply xmit_frame_counters in E
        as (q' & nr & Hnr & Hq' & Hf' & Hc' & Hd' & HN'); [|done..].
      exists q'. split; [done|]. split; [done|]. unfold tx_accounted.
      rewrite HN', Hf', Hc', Hd'. split; [apply Z.mod_pos_bound; lia|].
      split; [done|]. split; [lia|].
      rewrite Hacc at 1. rewrite Zplus_mod_idemp_l. f_equal. lia.
    + apply xmit_frame_busy in E. subst p'.
      exists (txq_with_stopped q true). split; [cbn; by eapply at_upd_eq|].
      split; [done|]. by split.
    + exfalso. unfold xmit_frame in E. cbv zeta in E.
      destruct (_ >? num_txbdfree q); [by inversion E|]. break_in E.
  - intros (Hc & Hd & Hf & Hacc) cpu limit howmany p' E.
    unfold gfar_clean_tx_ring in E. rewrite Hq in E.
    cbn [mbind option_bind] in E.
    destruct (clean_tx_loop _ _ _ _ _ _ _ _) as [[[[bdp dirtytx] hm] p1]|]
      eqn:E1; [|done].
    cbn [mbind option_bind] in E.
    eapply clean_tx_loop_account in E1
      as (q1 & total & Hq1 & Ht & HN1 & Hc1 & Hf1 & Hb1); [|exact Hq|exact Hd].
    rewrite Hq1 in E. cbn [mbind option_bind] in E.
    destruct (at_ (tx_queue p1) (tx_qindex q1)) as [sq|] eqn:Hsq; [|done].
    cbn [mbind option_bind] in E.
    assert (Hf1' : num_txbdfree q1 = u32 (num_txbdfree q + total)).
    { destruct Hf1 as [[-> ->]|[_ ->]]; [|done].
      unfold u32. by rewrite Z.add_0_r, Z.mod_small. }
    clear Hf1.
    match type of E with
    | context [if ?c then ?a else p1] =>
        set (p2 := if c then a else p1) in E;
        assert (Hq2 : exists q2, at_ (tx_queue p2) rq = Some q2 /\
                  tx_ring_size q2 = tx_ring_size q1 /\ cur_tx q2 = cur_tx q1 /\
                  num_txbdfree q2 = num_txbdfree q1)
    end.
    { subst p2. destruct (_ && _); [|by exists q1].
      destruct (Z.eq_dec (tx_qindex q1) rq) as [Heq|Hne].
      - rewrite Heq in *. rewrite Hq1 in Hsq. inversion Hsq; subst sq.
        exists (txq_with_stopped q1 false). split; [|done].
        cbn. by eapply at_upd_eq.
      - exists q1. split; [|done]. cbn. by rewrite at_upd_ne. }
    destruct Hq2 as (q2 & Hq2 & HN2 & Hc2 & Hf2).
    rewrite Hq2 in E. cbn [mbind option_bind] in E. inversion E; subst.
    eexists. split; [cbn; by eapply at_upd_eq|].
    cbn [tx_ring_size txq_with_dirty]. split; [congruence|].
    unfold tx_accounted.
    cbn [tx_ring_size cur_tx dirty_tx num_txbdfree txq_with_dirty].
    rewrite HN2, HN1, Hc2, Hc1, Hf2, Hf1'.
    split; [done|]. split; [apply Z.mod_pos_bound; lia|].
    split; [apply Z.mod_pos_bound; lia|].
    rewrite Hacc at 1. unfold u32.
    rewrite (Z.mod_eq (num_txbdfree q + total) (2 ^ 32)) by lia.
    replace (2 ^ 32) with (2 ^ (32 - k) * tx_ring_size q) at 1.
    2:{ rewrite HN, <- Z.pow_add_r by lia. f_equal. lia. }
    rewrite Zplus_mod_idemp_l.
    set (c := (num_txbdfree q + total) / 2 ^ 32).
    replace (dirty_tx q + total
             + (tx_ring_size q
                - (num_txbdfree q + total - 2 ^ (32 - k) * tx_ring_size q * c)))
      with (dirty_tx q + (tx_ring_size q - num_txbdfree q)
            + (2 ^ (32 - k) * c) * tx_ring_size q) by lia.
    by rewrite Z_mod_plus_full.
Qed.

Lemma tx_descriptors_accounted_witness :
  let p := ring4_one_queued in
  let q := txq0 ring4_one_queued in
  tx_accounted q /\
  (@tx_ring_ready etsec q -> tx_accounted q) /\
  (tx_accounted q ->
   forall skb ts r p',
     @xmit_frame etsec linux_model p 0 q skb ts = Some (r, p') ->
     exists q', at_ (tx_queue p') 0 = Some q' /\
                tx_ring_size q' = tx_ring_size q /\ tx_accounted q') /\
  (tx_accounted q ->
   forall cpu tx_work_limit howmany p',
     @gfar_clean_tx_ring etsec linux_model cpu 0 p tx_work_limit
       = Some (howmany, p') ->
     exists q', at_ (tx_queue p') 0 = Some q' /\
                tx_ring_size q' = tx_ring_size q /\ tx_accounted q').
Proof.
  split.
  { assert (Hc : cur_tx (txq0 ring4_one_queued) = 1)
      by (vm_compute; reflexivity).
    assert (Hd : dirty_tx (txq0 ring4_one_queued) = 0)
      by (vm_compute; reflexivity).
    assert (Hf : num_txbdfree (txq0 ring4_one_queued) = 3)
      by (vm_compute; reflexivity).
    assert (Hn : tx_ring_size (txq0 ring4_one_queued) = 4)
      by (vm_compute; reflexivity).
    unfold tx_accounted. rewrite Hc, Hd, Hf, Hn.
    repeat split; try lia; reflexivity. }
  apply (@tx_descriptors_accounted etsec linux_model ring4_one_queued 0 2
           (txq0 ring4_one_queued)).
  - vm_compute; reflexivity.
  - vm_compute; reflexivity.
  - lia.
Defined.

(** ** Frames the receive cleanup drops *)

Lemma bd_status_set_status (d : bd) (s : Z) :
  bd_status (set_status d s) = Z.land s 0xffff.
Proof.
  unfold bd_status, set_status, bd_length, BD_LENGTH_MASK. cbn [lstatus].
  rewrite Z.shiftr_lor, Z.shiftr_shiftl_l, Z.sub_diag, Z.shiftl_0_r by lia.
  replace (Z.shiftr (Z.land (lstatus d) 65535) 16) with 0;
    [apply Z.lor_0_r|].
  symmetry. apply Z.bits_inj'. intros n Hn.
  rewrite Z.shiftr_spec, Z.land_spec, Z.bits_0 by done.
  change 65535 with (Z.ones 16). rewrite Z.ones_spec_high by lia.
  apply andb_false_r.
Qed.

Lemma bd_length_set_status (d : bd) (s : Z) :
  bd_length (set_status d s) = bd_length d.
Proof.
  unfold set_status, bd_length at 1, BD_LENGTH_MASK. cbn [lstatus].
  rewrite Z.land_lor_distr_l.
  replace (Z.land (Z.shiftl (Z.land s 65535) 16) 65535) with 0.
  - rewrite Z.lor_0_l. unfold bd_length, BD_LENGTH_MASK.
    by rewrite <- Z.land_assoc, Z.land_diag.
  - symmetry. apply Z.bits_inj'. intros n Hn.
    rewrite Z.land_spec, Z.bits_0. change 65535 with (Z.ones 16).
    destruct (Z_lt_ge_dec n 16).
    + rewrite Z.shiftl_spec_low by done. done.
    + rewrite (Z.ones_spec_high 16 n) by lia. apply andb_false_r.
Qed.

(** X22.  A frame that is not good is never handed to the stack.  When
    the descriptor the receive loop looks at has an error bit set, has
    LAST clear, or holds a frame longer than [rx_buffer_size], one turn
    of the loop of [gfar_clean_rx_ring] counts no frame, delivers no
    packet and leaves the packet, byte and drop counters of the queue as
    they are ([RXBD_LARGE], which the loop stores as the status of a
    frame that is too long, does not include the LAST bit). *)
Theorem clean_rx_step_drops_bad_frames `{gianfar_h} `{linux} (cpu rq : Z)
    (p p' : gfar_private) (q : gfar_priv_rx_q) (d : bd)
    (bdp bdp' h h' : Z) :
  Z.land RXBD_LARGE RXBD_LAST = 0 ->
  at_ (rx_queue p) rq = Some q ->
  at_ (rx_bd_base q) bdp = Some d ->
  tst (bd_status d) RXBD_LAST = false \/ tst (bd_status d) RXBD_ERR = true \/
  rx_buffer_size p < bd_length d ->
  clean_rx_step cpu rq p bdp h = Some (bdp', h', p') ->
  h' = h /\ delivered p' = delivered p /\
  exists q', at_ (rx_queue p') rq = Some q' /\
    rx_packets q' = rx_packets q /\ rx_bytes q' = rx_bytes q /\
    rx_dropped q' = rx_dropped q.
Proof.
  intros HL Hq Hd Hbad E. unfold clean_rx_step in E. cbv zeta in E.
  destruct (gfar_new_skb cpu p) as [[o p0]|] eqn:Hnew; [|done].
  apply pool_step_new_skb in Hnew.
  destruct Hnew as (_ & Hrx & Hsz & _ & _ & _ & _ & _ & _ & _ & _ & _ & _ & Hdel).
  cbn [mbind option_bind] in E. rewrite Hrx, Hq in E.
  cbn [mbind option_bind] in E.
  destruct (at_ (rx_skbuff q) (skb_currx q)) as [skb|]; [|done].
  cbn [mbind option_bind] in E. rewrite Hd in E.
  cbn [mbind option_bind] in E. rewrite Hsz in E.
  assert (Hdrop : forall d1,
            d1 = (if negb (tst (bd_status d) RXBD_ERR)
                     && (bd_length d >? rx_buffer_size p)
                  then set_status d RXBD_LARGE else d) ->
            bool_decide (o = None) || negb (tst (bd_status d1) RXBD_LAST)
            || tst (bd_status d1) RXBD_ERR = true).
  { clear E. intros d1 ->.
    destruct (tst (bd_status d) RXBD_ERR) eqn:Herr; cbn [negb andb].
    { rewrite Herr. apply orb_true_r. }
    destruct (Z.gtb_spec (bd_length d) (rx_buffer_size p)) as [Hgt|Hle].
    - rewrite bd_status_set_status. unfold tst at 1.
      rewrite <- Z.land_assoc, (Z.land_comm 65535), Z.land_assoc, HL.
      rewrite Z.land_0_l. cbn [Z.eqb negb]. by rewrite orb_true_r.
    - destruct Hbad as [Hlast|[?|?]]; [|done|lia].
      rewrite Hlast, Herr. cbn [negb]. by rewrite orb_true_r. }
  destruct (negb (tst (bd_status d) RXBD_ERR)
            && (bd_length d >? rx_buffer_size p)) eqn:C1;
    rewrite (Hdrop _ eq_refl) in E; clear Hdrop.
  all: split_hyps.
  all: repeat match goal with
         | E : gfar_free_skb _ _ _ = Some _ |- _ =>
             apply pool_step_free_skb in E;
             destruct E as (_ & ? & _ & _ & _ & _ & _ & _ & _ & _ & _ & _ & _ & ?)
         | E : gfar_new_rxbdp _ _ _ _ _ = Some _ |- _ =>
             unfold gfar_new_rxbdp in E; apply gfar_init_rxbdp_inv in E
         end.
  all: subst; cbn -[count_errors] in *.
  all: (split; [reflexivity|]); (split; [congruence|]).
  all: eexists; (split; [eapply at_upd_eq|]); try done.
  all: match goal with
       | Hg : rx_queue ?g = _ |- at_ (rx_queue ?g) _ = _ =>
           rewrite Hg; cbn -[count_errors]
       | |- _ => idtac
       end; rewrite ?Hrx; exact Hq.
Qed.

Lemma clean_rx_step_drops_bad_frames_witness :
  0 = 0 /\ delivered ring4_crc_dropped = delivered ring4_crc_error /\
  exists q', at_ (rx_queue ring4_crc_dropped) 0 = Some q' /\
    rx_packets q' = rx_packets (rxq0 ring4_crc_error) /\
    rx_bytes q' = rx_bytes (rxq0 ring4_crc_error) /\
    rx_dropped q' = rx_dropped (rxq0 ring4_crc_error).
Proof.
  apply (@clean_rx_step_drops_bad_frames etsec linux_model 0 0
           ring4_crc_error ring4_crc_dropped (rxq0 ring4_crc_error)
           crc_error_bd 0 1 0 0).
  - vm_compute; reflexivity.
  - vm_compute; reflexivity.
  - vm_compute; reflexivity.
  - right; left. vm_compute; reflexivity.
  - vm_compute; reflexivity.
Defined.

(** ** The slots of a transmit ring *)

Lemma omap_insert_None (l : list (option sk_buff)) (i : nat) (s : sk_buff) :
  l !! i = Some (Some s) ->
  S (length (omap id (<[i := None]> l))) = length (omap id l).
Proof.
  revert i. induction l as [|x l IH]; intros i Hi; [done|].
  destruct i as [|i]; cbn in Hi.
  - inversion Hi; subst. reflexivity.
  - cbn [insert list_insert]. fold (@insert _ _ _ (@list_insert (option sk_buff))).
    destruct x as [b|]; cbn; [f_equal|]; by apply IH.
Qed.

Lemma tx_held_upd_None (sk : list (option sk_buff)) (i : Z) (s : sk_buff) :
  at_ sk i = Some (Some s) ->
  S (length (omap id (upd sk i None))) = length (omap id sk).
Proof.
  unfold at_, upd. destruct (decide (0 <= i)); [|done].
  apply omap_insert_None.
Qed.

Lemma tx_held_le (sk : list (option sk_buff)) :
  (length (omap id sk) <= length sk)%nat.
Proof.
  induction sk as [|[b|] sk IH]; cbn; lia.
Qed.

Lemma clean_frag_bds_fields `{gianfar_h} (rq : Z) (frs : list skb_frag_t) :
  forall (bdp bdp' : Z) (ql ql' : gfar_priv_tx_q * list event),
  clean_frag_bds rq frs bdp ql = Some (bdp', ql') ->
  exists X, ql'.1 = txq_with_bds ql.1 X.
Proof.
  induction frs as [|f rest IH]; intros bdp bdp' ql ql' E.
  { cbn in E. inversion E; subst. eexists. apply txq_with_bds_id. }
  cbn [clean_frag_bds] in E.
  destruct (at_ (tx_bd_base ql.1) bdp) as [d|]; [|done].
  cbn [mbind option_bind] in E.
  destruct (tx_clear rq ql bdp) as [ql1|] eqn:E1; [|done].
  cbn [mbind option_bind] in E.
  apply tx_clear_fields in E1 as [X1 H1].
  apply IH in E as [X2 H2]. exists X2. by rewrite H2, H1.
Qed.

(** One turn of the loop of [gfar_clean_tx_ring] on a slot that holds a
    buffer, for two amounts of fuel: the loop ends there, with the
    state it was entered in, or it empties the slot and goes round
    again. *)
Lemma clean_tx_turn `{gianfar_h} `{linux} (n m : nat) (cpu rq : Z)
    (p : gfar_private) (bdp dirtytx limit h : Z) (q : gfar_priv_tx_q)
    (s : sk_buff) :
  at_ (tx_queue p) rq = Some q ->
  at_ (tx_skbuff q) dirtytx = Some (Some s) ->
  (clean_tx_loop (S n) cpu rq p bdp dirtytx limit h
   = clean_tx_loop (S m) cpu rq p bdp dirtytx limit h /\
   forall r, clean_tx_loop (S n) cpu rq p bdp dirtytx limit h = Some r ->
             r = (bdp, dirtytx, h, p)) \/
  (exists p3 bdp3 d3 q3,
     at_ (tx_queue p3) rq = Some q3 /\
     tx_skbuff q3 = upd (tx_skbuff q) dirtytx None /\
     clean_tx_loop (S n) cpu rq p bdp dirtytx limit h
     = clean_tx_loop n cpu rq p3 bdp3 d3 (limit - 1) (h + 1) /\
     clean_tx_loop (S m) cpu rq p bdp dirtytx limit h
     = clean_tx_loop m cpu rq p3 bdp3 d3 (limit - 1) (h + 1)).
Proof.
  intros Hq Hs. cbn [clean_tx_loop]. rewrite Hq. cbn [mbind option_bind].
  rewrite Hs. cbn [mbind option_bind].
  destruct (limit =? 0); [left; split; [done|]; by intros r [= <-]|].
  cbv zeta.
  destruct (at_ (tx_bd_base q) (skip_txbd _ _ _)) as [ld|];
    [|left; split; done].
  cbn [mbind option_bind].
  destruct (_ && _); [left; split; [done|]; by intros r [= <-]|].
  destruct (at_ (tx_bd_base q) bdp) as [d0|]; [|left; split; done].
  cbn [mbind option_bind].
  match goal with
  | |- context [(?x ≫= _) = _] =>
      destruct x as [[[skb1 bdp1] ql1]|] eqn:E1; [|left; split; done]
  end.
  cbn [mbind option_bind].
  assert (H1 : exists X, ql1.1 = txq_with_bds q X).
  { destruct (tx_in_progress (shinfo s)).
    - destruct (at_ (tx_bd_base q) (next_txbd bdp (tx_ring_size q)));
        [|done]. cbn [mbind option_bind] in E1.
      destruct (tx_clear rq (q, log p) bdp) as [ql0|] eqn:E0; [|done].
      cbn [mbind option_bind] in E1. inversion E1; subst.
      by eapply tx_clear_fields in E0.
    - inversion E1; subst. eexists. apply txq_with_bds_id. }
  destruct H1 as [X1 HX1].
  destruct (tx_clear rq ql1 bdp1) as [ql2|] eqn:E2; [|left; split; done].
  cbn [mbind option_bind].
  apply tx_clear_fields in E2 as [X2 HX2].
  destruct (clean_frag_bds _ _ _ _) as [[bdp3 ql3]|] eqn:E3;
    [|left; split; done].
  cbn [mbind option_bind].
  apply clean_frag_bds_fields in E3 as [X3 HX3].
  cbn [fst snd].
  set (p1 := with_log (with_txq p rq ql3.1) ql3.2).
  assert (Hq1 : at_ (tx_queue p1) rq = Some ql3.1).
  { subst p1. cbn. by eapply at_upd_eq. }
  match goal with
  | |- context [(?x ≫= _) = _] =>
      destruct x as [p2|] eqn:E4; [|left; split; done]
  end.
  cbn [mbind option_bind].
  assert (Hq2 : tx_queue p2 = tx_queue p1).
  { destruct (negb (skb_tcp_ack_recycle skb1)).
    - by apply pool_step_free_skb in E4 as [? _].
    - by inversion E4; subst. }
  rewrite Hq2, Hq1. cbn [mbind option_bind].
  assert (Hq3 : ql3.1 = txq_with_bds q X3) by (by rewrite HX3, HX2, HX1).
  right. eexists _, _, _, _. split; [|split; [|split; reflexivity]].
  - cbn. eapply at_upd_eq. rewrite Hq2. exact Hq1.
  - cbn [tx_skbuff txq_with_dirty]. by rewrite Hq3.
Qed.

(** A slot that holds no buffer ends the loop, whatever the fuel. *)
Lemma clean_tx_loop_empty_slot `{gianfar_h} `{linux} (n m : nat) (cpu rq : Z)
    (p : gfar_private) (bdp dirtytx limit h : Z) (q : gfar_priv_tx_q) :
  at_ (tx_queue p) rq = Some q ->
  (forall s, at_ (tx_skbuff q) dirtytx <> Some (Some s)) ->
  clean_tx_loop n cpu rq p bdp dirtytx limit h
  = clean_tx_loop m cpu rq p bdp dirtytx limit h /\
  forall r, clean_tx_loop n cpu rq p bdp dirtytx limit h = Some r ->
            r = (bdp, dirtytx, h, p).
Proof.
  intros Hq Hs.
  destruct (at_ (tx_skbuff q) dirtytx) as [[s|]|] eqn:Hslot;
    [by destruct (Hs s)| |];
    destruct n, m; cbn [clean_tx_loop]; rewrite Hq; cbn [mbind option_bind];
    rewrite Hslot; cbn [mbind option_bind]; (split; [done|]);
    intros r E; by inversion E.
Qed.

(** The loop of [gfar_clean_tx_ring] needs no more turns than there are
    buffers in the slots. *)
Lemma clean_tx_loop_fuel `{gianfar_h} `{linux} (cpu rq : Z) (n : nat) :
  forall (m : nat) (p : gfar_private) (bdp dirtytx limit h : Z)
         (q : gfar_priv_tx_q),
  at_ (tx_queue p) rq = Some q ->
  (length (tx_held q) <= n)%nat -> (n <= m)%nat ->
  clean_tx_loop m cpu rq p bdp dirtytx limit h
  = clean_tx_loop n cpu rq p bdp dirtytx limit h.
Proof.
  induction n as [|n IH]; intros m p bdp dirtytx limit h q Hq Hn Hm.
  - apply (clean_tx_loop_empty_slot m 0 cpu rq p bdp dirtytx limit h q Hq).
    intros s Hs. apply tx_held_upd_None in Hs. unfold tx_held in Hn. lia.
  - destruct (at_ (tx_skbuff q) dirtytx) as [[s|]|] eqn:Hslot.
    2,3: apply (clean_tx_loop_empty_slot m (S n) cpu rq p bdp dirtytx
                  limit h q Hq); intros s Hs; congruence.
    destruct m as [|m]; [lia|].
    destruct (clean_tx_turn m n cpu rq p bdp dirtytx limit h q s Hq Hslot)
      as [[E _]|(p3 & bdp3 & d3 & q3 & Hq3 & Hsk & Em & En)]; [exact E|].
    rewrite Em, En. apply (IH m p3 bdp3 d3 (limit - 1) (h + 1) q3 Hq3); [|lia].
    unfold tx_held in *. rewrite Hsk.
    pose proof (tx_held_upd_None _ _ _ Hslot). lia.
Qed.

(** Every frame the loop counts has emptied one slot. *)
Lemma clean_tx_loop_slots `{gianfar_h} `{linux} (cpu rq : Z) (n : nat) :
  forall (p p' : gfar_private) (bdp dirtytx limit h bdp' dirtytx' h' : Z)
         (q : gfar_priv_tx_q),
  at_ (tx_queue p) rq = Some q ->
  clean_tx_loop n cpu rq p bdp dirtytx limit h
  = Some (bdp', dirtytx', h', p') ->
  exists q', at_ (tx_queue p') rq = Some q' /\
    Z.of_nat (length (tx_held q')) = Z.of_nat (length (tx_held q)) - (h' - h).
Proof.
  induction n as [|n IH];
    intros p p' bdp dirtytx limit h bdp' dirtytx' h' q Hq E.
  - cbn [clean_tx_loop] in E. rewrite Hq in E. cbn [mbind option_bind] in E.
    destruct (at_ (tx_skbuff q) dirtytx) as [[s|]|]; [done| |done].
    inversion E; subst. exists q. split; [done|lia].
  - destruct (at_ (tx_skbuff q) dirtytx) as [[s|]|] eqn:Hslot.
    2,3: destruct (clean_tx_loop_empty_slot (S n) 0 cpu rq p bdp dirtytx
                     limit h q Hq) as [_ Hr]; [intros s Hs; congruence|];
         apply Hr in E; inversion E; subst; exists q; split; [done|lia].
    destruct (clean_tx_turn n n cpu rq p bdp dirtytx limit h q s Hq Hslot)
      as [[_ Hr]|(p3 & bdp3 & d3 & q3 & Hq3 & Hsk & En & _)].
    + apply Hr in E. inversion E; subst. exists q. split; [done|lia].
    + rewrite En in E. apply (IH _ _ _ _ _ _ _ _ _ q3 Hq3) in E
        as (q' & Hq' & Hc).
      exists q'. split; [done|]. rewrite Hc. unfold tx_held. rewrite Hsk.
      pose proof (tx_held_upd_None _ _ _ Hslot). lia.
Qed.

(** X5.  [gfar_clean_tx_ring] empties one slot of [tx_skbuff] for every
    frame it reports: the slots hold as many buffers less as it reports
    frames, so it reports at least 0 frames and at most as many as the
    slots held buffers, which is at most one for each slot.  A work limit
    that is not negative bounds the count as well.  The loop takes no
    more turns than there are slots: with any larger bound on the turns
    it does the same. *)
Theorem gfar_clean_tx_ring_budget `{gianfar_h} `{linux} (cpu rq : Z)
    (p : gfar_private) (q : gfar_priv_tx_q) (tx_work_limit : Z) :
  at_ (tx_queue p) rq = Some q ->
  (forall n, (length (tx_skbuff q) <= n)%nat ->
     clean_tx_loop n cpu rq p (dirty_tx q) (skb_dirtytx q) tx_work_limit 0
     = clean_tx_loop (length (tx_skbuff q)) cpu rq p (dirty_tx q)
                     (skb_dirtytx q) tx_work_limit 0) /\
  (forall howmany p',
     gfar_clean_tx_ring cpu rq p tx_work_limit = Some (howmany, p') ->
     0 <= howmany <= Z.of_nat (length (tx_held q)) /\
     Z.of_nat (length (tx_held q)) <= Z.of_nat (length (tx_skbuff q)) /\
     (0 <= tx_work_limit -> howmany <= tx_work_limit) /\
     exists q', at_ (tx_queue p') rq = Some q' /\
       Z.of_nat (length (tx_held q'))
       = Z.of_nat (length (tx_held q)) - howmany).
Proof.
  intros Hq. pose proof (tx_held_le (tx_skbuff q)) as Hle. split.
  - intros n Hn. apply (clean_tx_loop_fuel cpu rq _ n _ _ _ _ _ q Hq);
      [unfold tx_held; lia|lia].
  - intros howmany p' E. unfold gfar_clean_tx_ring in E. rewrite Hq in E.
    cbn [mbind option_bind] in E.
    destruct (clean_tx_loop _ _ _ _ _ _ _ _) as [[[[bdp dirtytx] hm] p1]|]
      eqn:E1; [|done].
    cbn [mbind option_bind] in E.
    pose proof (clean_tx_loop_howmany _ _ _ _ _ _ _ _ _ _ _ _ E1) as [Hh Hlim].
    apply (clean_tx_loop_slots cpu rq _ _ _ _ _ _ _ _ _ _ q Hq) in E1
      as (q1 & Hq1 & Hc).
    rewrite Hq1 in E. cbn [mbind option_bind] in E.
    destruct (at_ (tx_queue p1) (tx_qindex q1)) as [sq|] eqn:Hsq; [|done].
    cbn [mbind option_bind] in E.
    match type of E with
    | context [if ?c then ?a else p1] =>
        set (p2 := if c then a else p1) in E;
        assert (Hq2 : exists q2, at_ (tx_queue p2) rq = Some q2 /\
                                 tx_skbuff q2 = tx_skbuff q1)
    end.
    { subst p2. destruct (_ && _); [|by exists q1].
      destruct (Z.eq_dec (tx_qindex q1) rq) as [Heq|Hne].
      - rewrite Heq in *. rewrite Hq1 in Hsq. inversion Hsq; subst sq.
        exists (txq_with_stopped q1 false). split; [|done].
        cbn. by eapply at_upd_eq.
      - exists q1. split; [|done]. cbn. by rewrite at_upd_ne. }
    destruct Hq2 as (q2 & Hq2 & Hsk2).
    rewrite Hq2 in E. cbn [mbind option_bind] in E. inversion E; subst.
    assert (Hheld : Z.of_nat (length (tx_held q2))
                    = Z.of_nat (length (tx_held q)) - howmany).
    { unfold tx_held in *. rewrite Hsk2. lia. }
    unfold tx_held in *.
    split; [lia|]. split; [lia|]. split; [lia|].
    eexists. split; [cbn; by eapply at_upd_eq|].
    cbn [tx_skbuff txq_with_dirty]. exact Hheld.
Qed.

Lemma gfar_clean_tx_ring_budget_witness :
  let p := ring4_sent in
  let q := txq0 ring4_sent in
  @gfar_clean_tx_ring etsec linux_model 0 0 p 4
  = Some (4, ring4_tx_cleaned) /\
  (forall n, (length (tx_skbuff q) <= n)%nat ->
     @clean_tx_loop etsec linux_model n 0 0 p (dirty_tx q) (skb_dirtytx q) 4 0
     = @clean_tx_loop etsec linux_model (length (tx_skbuff q)) 0 0 p
         (dirty_tx q) (skb_dirtytx q) 4 0) /\
  (forall howmany p',
     @gfar_clean_tx_ring etsec linux_model 0 0 p 4 = Some (howmany, p') ->
     0 <= howmany <= Z.of_nat (length (tx_held q)) /\
     Z.of_nat (length (tx_held q)) <= Z.of_nat (length (tx_skbuff q)) /\
     (0 <= 4 -> howmany <= 4) /\
     exists q', at_ (tx_queue p') 0 = Some q' /\
       Z.of_nat (length (tx_held q'))
       = Z.of_nat (length (tx_held q)) - howmany).
Proof.
  split; [vm_compute; reflexivity|].
  apply (@gfar_clean_tx_ring_budget etsec linux_model 0 0 ring4_sent
           (txq0 ring4_sent) 4).
  vm_compute; reflexivity.
Defined.
